(* ===== verification/_CoqProject ===== *)
-Q . S2P
Prelude.v
AesTables.v
Mem.v
Rijndael.v
AesCbc.v
KeyWrap.v
AesCcm.v
AesCmac.v
HashRef.v
Sha1.v
Prf.v
Rc4.v
Md5.v
Monad.v
NasState.v
NasSta.v
WpaIe.v
WpaKey.v
NasWnm.v
NasRel.v
WpaMsg.v
NasPae.v
WpaAuth.v
WpaSafety.v
WpaSup.v
SupSafety.v
NasDispatch.v
Mppe.v
NasRadius.v
RadiusSafety.v
NasSystem.v
Chanspec.v
NasWksp.v
NasProcess.v
NasMain.v
ShadowNvram.v
Words.v
ShadowTimer.v
ShadowTasklet.v
Fields.v
ShadowSkb.v
ShadowTxq.v
ShadowNetdev.v
ShadowPci.v
EapdState.v
EapdSta.v
EapdIe.v
EapdSock.v
EapdSockInv.v
EapdDispatch.v
EapdRoute.v
EapdRecv.v
EapdConf.v
EapdRel.v
EapdLoop.v
EapdInv.v
EapdSystem.v
NasEapd.v
