(* ===== verification/Prelude.v ===== *)
(** * A verification development for broadcom-wl

    The repository builds Broadcom's binary wireless driver for a current Linux kernel,
    with the user-space programs that go with it.  The development models the code that
    decides something: the access point's authentication server, the cryptography it
    uses, the dispatcher that feeds it frames, the format of channel specifications, and
    the layer that lets a driver compiled for Linux 2.6.36 run on 6.12.  Definitions are
    executable and follow the C line by line; the names of the source are kept where
    Rocq allows it.

    ** The parts and how they interact

    The driver reports frames and events of the stations to eapd, which passes each to
    the program responsible: the station's EAPOL frames and associations to nas, the
    frames of Wi-Fi protected setup to the setup monitor.  nas holds a table of
    stations, runs the 802.1X port access entity and the WPA handshakes over it, asks a
    RADIUS server about 802.1X stations, and gives the driver keys and authorizations.
    It uses libbcmcrypto for every hash, cipher and key derivation.  The driver itself
    is a binary; the shadow layer gives it the kernel structures it was compiled for and
    keeps each in step with the kernel's own.

    ** Files

    Shared: [Prelude] (machine integers, arrays, bits), [Mem] (a flat byte memory, for
    routines whose buffers may overlap), [Monad] (record update, the state monad with
    its weakest preconditions and its relational rules), [Fields] (struct fields at
    fixed offsets), [Words] (32-bit words of memory, tables of distinct keys).

    Cryptography, src/userspace/libbcmcrypto/src:
    - [AesTables], [Rijndael]: rijndael-alg-fst.c.  The tables are copied; they are shown
      to be the S-box composed with linear maps, and decryption to invert encryption.
    - [AesCbc], [AesCcm], [AesCmac]: aes.c; the modes over memory, their round trips, and
      where in-place use breaks CBC decryption.
    - [KeyWrap]: aeskeywrap.c; round trip, soundness, and the distance from RFC 3394.
    - [HashRef] is the reference (Merkle-Damgard and HMAC) that [Sha1] (sha1.c) and
      [Md5] (md5.c, hmac.c) refine, whatever pieces a message comes in; [Prf] is prf.c
      and passhash.c over it.
    - [Rc4]: rc4.c.

    The authentication server, src/userspace/nas/src:
    - [NasState]: nas.h and wpa.h; the records of the structures, the calls to the driver,
      the timers and the sockets as a log, and the class [Env] of everything that can
      answer (an arbitrary function of the log).  Every handler is a computation
      [N A := world -> res world A], which returns, stops the box (nas_handle_error), or
      reads or writes outside an array.
    - [NasSta]: the station table of nas.c; [NasPae]: the port access entity of nas.c and
      the forwarding part of nas_radius.c; [NasDispatch]: the entry points of nas.c;
      [NasWnm]: the notifications of nas_wl.c.
    - [WpaIe], [WpaKey], [WpaMsg], [WpaAuth], [WpaSup]: wpa.c, from the information
      elements to the handshakes, with the helpers of src/vendor/shared/bcmwpa.c.
    - [Mppe]: mppe.c; [NasRadius]: nas_radius.c.
    - [NasRel], [WpaSafety], [SupSafety], [RadiusSafety]: what the handlers keep and
      guarantee, by relational rules; [NasSystem]: the reachable states of the server.
    - [NasWksp]: the process around the servers (nas_wksp.c, nas_wksp_radius.c and the
      signals of nas_linux.c): a server per interface made on demand, its keys and
      settings, the sockets to eapd and the RADIUS servers, the main loop.  A handler of
      one server runs inside it by [in_nas]; the system answers through the class [WEnv].
      [NasProcess]: what every part of a round keeps; [NasMain]: the theorems and runs.

    The dispatcher, src/userspace/eapd/src:
    - [EapdState]: eapd.h; the workspace, the calls to the system as a log, and the class
      [EEnv] of everything that can answer.  A computation [D A] is as [N A] above.
    - [EapdSta]: the cache of stations of eapd.c; [EapdIe]: the element parser of
      nas_eap.c, compared with the one of nas ([WpaIe]).
    - [EapdSock]: the sockets to the driver, shared and counted, with their opening and
      closing in nas_eap.c, wps_eap.c and ses_eap.c; [EapdSockInv]: what keeps the counts.
    - [EapdDispatch]: the frames and events of the driver and the messages of the
      applications (eapd.c, nas_eap.c, wps_eap.c, ses_eap.c, eapd_linux.c); [EapdRoute]
      and [EapdRecv]: to whom each goes.
    - [EapdConf]: the interfaces found in the settings or named on the command line, those
      that come and go at run time (class [NameList] of the list functions of libshared),
      and the event mask; [EapdLoop]: start-up, one round of the main loop, shutdown.
    - [EapdRel], [EapdInv]: the relation and the invariant every handler keeps;
      [EapdSystem]: the theorems about the program, with a run that exhibits them.
    - [NasEapd]: eapd and nas composed, from the event of the driver to the server.

    Channel specifications: [Chanspec], src/userspace/wlconf/src/bcmwifi_channels.c.

    The shadow layer, src/wl_shadow_*.c: [ShadowNvram], [ShadowTimer], [ShadowTasklet],
    [ShadowSkb], [ShadowTxq] and [ShadowNetdev] (wl_shadow_netdev.c), [ShadowPci].

    ** What the theorems show

    - Safety of authentication: a station is authorized, or given a pairwise key, only
      upon a frame whose replay counter and integrity code are right
      ([WpaSafety], [SupSafety]); a RADIUS answer counts only when its authenticator
      verifies ([RadiusSafety]); a replayed message never reinstalls a key.
    - Invariants of state: the station tables of nas and eapd stay partial maps from
      addresses to slots, in every reachable state; the sockets of eapd are counted as
      often as interfaces hold them; the descriptors nas opened are those its structures
      name, an interface has one server ([NasMain]); the lookups of the shadow layer stay
      inverse.
    - Routing: which application gets a frame or an event, that it gets it once, and that
      an EAPOL frame leads to at most one message ([EapdSystem]), and that nas hands it to
      the server of its interface as the driver reported it ([NasEapd]).
    - Refinement: hashes, HMAC and the key derivations against their references; timers
      and packets of the shadow layer against those of Linux 2.6.36.
    - Round trips: block cipher, CCMP, key wrap, MPPE, key data, information elements,
      channel specifications.
    - Termination and liveness: retransmissions end, held stations are released, a
      scheduled tasklet runs, a shutdown of eapd ends and gives every socket back.
    - Errors: what rejected frames leave unchanged, and the defects found, each as a
      theorem where it can be stated (a RADIUS attribute of length 0, a lost wake, a key
      in error that is served all the same, ...).

    ** Conventions and bounds

    A w-bit unsigned integer is a [Z] with its reduction written out. A C array is a
    list; an access that the code does not guard is guarded in the model by its bounds
    and gives [Oob] outside. Loops of the code run over explicit lists, with the fuel of
    their bound where they are not structural: a chain of the station table is at most
    as long as the table (128), an attribute or element loop is given the length of its
    buffer plus one, a chain of eapd's cache the size of the cache. That the fuel
    suffices is proved with each loop (the chain walk under the table's invariant, the
    element and attribute loops from the bytes each round consumes); where it does not,
    as with a RADIUS attribute of length 0, the code does not end either, which is a
    theorem. Code that is not in the repository (the kernel, libshared, nvram, the
    driver) is a parameter of the model: a field of a class or an argument, with what is
    relied on as a named hypothesis. Signals reach eapd and nas between two rounds of
    their loops, timers of nas while select waits, and a name in a packet buffer ends at
    the first zero byte or at the end of the buffer.

    ** Not modelled

    The plumbing of ioctls, printing, dumps and diagnostics; the applications of eapd
    that are not built (DCS, MEVENT, BSD); the command line of nas, which is started
    without arguments, and get_wsec, which is of libshared; wlconf.c, a sequence of driver
    settings; bn.c, a copy of OpenSSL's big numbers, and dh.c and random.c over it; the
    wrappers of src/wl_shim_removed.c that rename one kernel call each; the cache
    maintenance, message levels and empty functions of src/wl_shadow_l2c.c,
    src/wl_shadow_debug.c and src/wl_shadow_ctfstubs.c. Next in the plan: SHA-256, the
    band and rate decisions of wlconf, the module entry. *)
From stdpp Require Import base numbers list.
From Stdlib Require Import ZArith Lia.
Local Open Scope Z_scope.

(** ** Machine integers

    An unsigned w-bit C integer is a [Z] in [0, 2^w); an operation that can
    leave the range is followed by the reduction the C type performs. *)
Definition is_u (w x : Z) : Prop := 0 <= x < 2 ^ w.
Definition is_ub (w x : Z) : bool := (0 <=? x) && (x <? 2 ^ w).
Abbreviation u8 := (is_u 8).
Abbreviation u16 := (is_u 16).
Abbreviation u32 := (is_u 32).
Abbreviation bytes_ok := (Forall (is_u 8)).
Abbreviation words_ok := (Forall (is_u 32)).

Definition wrap8 (x : Z) : Z := x mod 2 ^ 8.
Definition wrap16 (x : Z) : Z := x mod 2 ^ 16.
Definition wrap32 (x : Z) : Z := x mod 2 ^ 32.

(** [a[i]] on a C array held as a list; the accesses modelled here are in
    range, which the size lemmas of each component establish. *)
Definition idx (l : list Z) (i : Z) : Z := nth (Z.to_nat i) l 0.

Definition zrange (n : nat) : list Z := map Z.of_nat (seq 0 n).

Create HintDb word discriminated.

Lemma is_ub_spec w x : is_ub w x = true <-> is_u w x.
Proof. unfold is_ub, is_u. rewrite andb_true_iff, Z.leb_le, Z.ltb_lt. done. Qed.

Lemma bytes_ok_b l : forallb (is_ub 8) l = true -> bytes_ok l.
Proof.
  rewrite forallb_forall, List.Forall_forall. intros H x Hx.
  by apply is_ub_spec, H.
Qed.

Lemma words_ok_b l : forallb (is_ub 32) l = true -> words_ok l.
Proof.
  rewrite forallb_forall, List.Forall_forall. intros H x Hx.
  by apply is_ub_spec, H.
Qed.

Lemma wrap32_u32 x : u32 (wrap32 x).
Proof. apply Z.mod_pos_bound. lia. Qed.

Lemma wrap8_u8 x : u8 (wrap8 x).
Proof. apply Z.mod_pos_bound. lia. Qed.

Lemma wrap8_id x : u8 x -> wrap8 x = x.
Proof. intros H. by apply Z.mod_small. Qed.

Lemma wrap32_id x : u32 x -> wrap32 x = x.
Proof. intros H. by apply Z.mod_small. Qed.

(** ** Bits *)
Lemma is_u_land w x : 0 <= w -> is_u w x <-> Z.land x (Z.ones w) = x.
Proof.
  intros Hw. rewrite Z.land_ones by done. unfold is_u. split.
  - intros. by apply Z.mod_small.
  - intros <-. apply Z.mod_pos_bound. lia.
Qed.

Lemma land_lxor_distr_l a b c : Z.land (Z.lxor a b) c = Z.lxor (Z.land a c) (Z.land b c).
Proof.
  apply Z.bits_inj'. intros n Hn. rewrite !Z.land_spec, !Z.lxor_spec, !Z.land_spec.
  by destruct (Z.testbit a n), (Z.testbit b n), (Z.testbit c n).
Qed.

Lemma is_u_lxor w x y : 0 <= w -> is_u w x -> is_u w y -> is_u w (Z.lxor x y).
Proof.
  intros Hw. rewrite !is_u_land by done. intros Hx Hy.
  rewrite land_lxor_distr_l. by rewrite Hx, Hy.
Qed.

Lemma is_u_land_l w x y : 0 <= w -> is_u w x -> is_u w (Z.land x y).
Proof.
  intros Hw. rewrite !is_u_land by done. intros Hx.
  by rewrite <- Z.land_assoc, (Z.land_comm y), Z.land_assoc, Hx.
Qed.

Lemma is_u_lor w x y : 0 <= w -> is_u w x -> is_u w y -> is_u w (Z.lor x y).
Proof.
  intros Hw. rewrite !is_u_land by done. intros Hx Hy.
  rewrite Z.land_lor_distr_l. by rewrite Hx, Hy.
Qed.

Lemma is_u_shiftr w k x : 0 <= k -> 0 <= w -> is_u (w + k) x -> is_u w (Z.shiftr x k).
Proof.
  unfold is_u. intros Hk Hw [H0 H1]. rewrite Z.shiftr_div_pow2 by done.
  rewrite Z.pow_add_r in H1 by done. split.
  - apply Z.div_pos; lia.
  - apply Z.div_lt_upper_bound; lia.
Qed.

Lemma is_u_mono w w' x : is_u w x -> w <= w' -> is_u w' x.
Proof.
  unfold is_u. intros [H0 H1] Hw. split; [done|].
  eapply Z.lt_le_trans; [done|]. destruct (decide (0 <= w)).
  - apply Z.pow_le_mono_r; lia.
  - rewrite Z.pow_neg_r in H1 by lia. lia.
Qed.

Lemma lxor_shiftl_add k x y : is_u k y -> 0 <= k ->
  Z.lxor (Z.shiftl x k) y = x * 2 ^ k + y.
Proof.
  intros Hy Hk. rewrite <- Z.add_nocarry_lxor.
  - by rewrite Z.shiftl_mul_pow2.
  - apply Z.bits_inj'. intros n Hn. rewrite Z.land_spec, Z.bits_0.
    destruct (decide (n < k)).
    + by rewrite Z.shiftl_spec_low.
    + apply is_u_land in Hy; [|done]. rewrite <- Hy, Z.land_spec.
      rewrite (Z.ones_spec_high k n) by lia. by rewrite !andb_false_r.
Qed.

Lemma lxor_cancel_r x y : Z.lxor (Z.lxor x y) y = x.
Proof. by rewrite Z.lxor_assoc, Z.lxor_nilpotent, Z.lxor_0_r. Qed.

Lemma lxor_cancel_l x y : Z.lxor y (Z.lxor y x) = x.
Proof. by rewrite <- Z.lxor_assoc, Z.lxor_nilpotent, Z.lxor_0_l. Qed.

#[export] Hint Resolve wrap32_u32 wrap8_u8 : word.
#[export] Hint Extern 2 (is_u _ (Z.lxor _ _)) => apply is_u_lxor; [lia| |] : word.
#[export] Hint Extern 2 (is_u _ (Z.lor _ _)) => apply is_u_lor; [lia| |] : word.

(** [lxor_solve] closes an equation between exclusive-ors of the same terms. *)
Ltac lxor_solve :=
  apply Z.bits_inj'; intros ? ?; rewrite ?Z.lxor_spec, ?Z.bits_0;
  repeat match goal with |- context [Z.testbit ?x ?n] => destruct (Z.testbit x n) end;
  reflexivity.

(** ** Folds *)
Lemma fold_left_map {A B C} (f : A -> B -> A) (g : C -> B) l a :
  fold_left f (map g l) a = fold_left (fun a x => f a (g x)) l a.
Proof. revert a. induction l as [|x l IH]; intros a; simpl; auto. Qed.

Section fold_undo.
Context {S K : Type} (enc dec : S -> K -> S) (view : S -> S) (conv : K -> K).
Context (P : S -> Prop) (Q : K -> Prop).
Hypothesis enc_P : forall s k, P s -> Q k -> P (enc s k).

Lemma fold_left_inv ks s : P s -> Forall Q ks -> P (fold_left enc ks s).
Proof using enc_P.
  intros Hs Hks. revert s Hs. induction Hks; intros s Hs; simpl; auto.
Qed.

Hypothesis dec_enc : forall s k, P s -> Q k -> dec (view (enc s k)) (conv k) = view s.

(** Steps undone one at a time are undone in reverse order. *)
Lemma fold_left_undo ks s : P s -> Forall Q ks ->
  fold_left dec (map conv (rev ks)) (view (fold_left enc ks s)) = view s.
Proof using enc_P dec_enc.
  intros Hs. induction ks as [|k ks IH] using rev_ind; intros Hks; [done|].
  apply Forall_app in Hks as [Hks Hk]. inversion_clear Hk.
  rewrite rev_app_distr, fold_left_app. simpl.
  rewrite dec_enc by (done || by apply fold_left_inv). by apply IH.
Qed.
End fold_undo.

(** ** Exhaustive checks over a byte *)
Definition forall_byte (P : Z -> bool) : bool := forallb P (zrange 256).

Lemma zrange_In n x : In x (zrange n) <-> 0 <= x < Z.of_nat n.
Proof.
  unfold zrange. rewrite in_map_iff. split.
  - intros (k & <- & Hk%in_seq). lia.
  - intros H. exists (Z.to_nat x). split; [lia|]. apply in_seq. lia.
Qed.

Lemma forall_byte_spec (P : Z -> bool) : forall_byte P = true -> forall x, u8 x -> P x = true.
Proof.
  unfold forall_byte. rewrite forallb_forall. intros H x Hx.
  apply H, zrange_In. exact Hx.
Qed.

(** ** Exclusive-or of byte strings *)
Definition xor_bytes (a b : list Z) : list Z := zip_with Z.lxor a b.

Lemma xor_bytes_length a b : length (xor_bytes a b) = Nat.min (length a) (length b).
Proof. apply length_zip_with. Qed.

Lemma xor_bytes_ok a b : bytes_ok a -> bytes_ok b -> bytes_ok (xor_bytes a b).
Proof.
  intros Ha. revert b. induction Ha as [|x a Hx Ha IH]; intros [|y b] Hb; simpl; auto.
  inversion Hb; subst. constructor; auto with word.
Qed.

Lemma xor_bytes_cancel a b : length a = length b -> xor_bytes (xor_bytes a b) b = a.
Proof.
  revert b. induction a as [|x a IH]; intros [|y b] H; simpl in *; try done.
  rewrite lxor_cancel_r. f_equal. apply IH. lia.
Qed.

Lemma xor_bytes_comm a b : xor_bytes a b = xor_bytes b a.
Proof.
  revert b. induction a as [|x a IH]; intros [|y b]; simpl; try done.
  by rewrite Z.lxor_comm, IH.
Qed.

#[export] Hint Resolve xor_bytes_ok : word.
Create Rewrite HintDb len.
#[export] Hint Rewrite xor_bytes_length : len.

(** ** Reading arrays *)
Lemma idx_u8 l i : bytes_ok l -> u8 (idx l i).
Proof.
  intros H. unfold idx. destruct (nth_in_or_default (Z.to_nat i) l 0) as [Hin | ->].
  - rewrite List.Forall_forall in H. by apply H.
  - unfold is_u. lia.
Qed.

Lemma idx_u32 l i : words_ok l -> u32 (idx l i).
Proof.
  intros H. unfold idx. destruct (nth_in_or_default (Z.to_nat i) l 0) as [Hin | ->].
  - rewrite List.Forall_forall in H. by apply H.
  - unfold is_u. lia.
Qed.

(** [explode l H] turns a list of known length into an explicit one. *)
Ltac explode l H :=
  lazymatch type of H with
  | length _ = O => destruct l; [clear H | discriminate H]
  | length _ = S _ =>
      let x := fresh "x" in
      destruct l as [|x l]; [discriminate H | apply (f_equal pred) in H; simpl in H; explode l H]
  end.

(** Splits a [Forall] over an explicit list into its elements. *)
Ltac forall_split :=
  cbn [app]; repeat first [apply Forall_app_2 | apply List.Forall_cons | apply List.Forall_nil].

(** Closes the side conditions of a witness, whose terms are closed. *)
Ltac by_compute :=
  lazymatch goal with
  | |- _ /\ _ => split; by_compute
  | |- Forall (is_u 8) _ => apply bytes_ok_b; vm_compute; reflexivity
  | |- Forall (is_u 32) _ => apply words_ok_b; vm_compute; reflexivity
  | |- _ => first
      [ vm_compute; reflexivity
      | vm_compute; lia
      | vm_compute; first [left; lia | right; lia | right; left; lia | right; right; lia
                          | left; reflexivity | right; reflexivity | discriminate] ]
  end.

Lemma xor_bytes_app a1 a2 b1 b2 : length a1 = length b1 ->
  xor_bytes (a1 ++ a2) (b1 ++ b2) = xor_bytes a1 b1 ++ xor_bytes a2 b2.
Proof. intros. by apply zip_with_app. Qed.

Lemma xor_bytes_take n a b : take n (xor_bytes a b) = xor_bytes (take n a) (take n b).
Proof. apply zip_with_take. Qed.

Lemma xor_bytes_0_r a : xor_bytes a (replicate (length a) 0) = a.
Proof. induction a as [|x a IH]; simpl; [done|]. by rewrite Z.lxor_0_r, IH. Qed.

(** ** Cutting a list into [k] pieces of [n] elements *)
Fixpoint chunk (n k : nat) {A} (l : list A) : list (list A) :=
  match k with
  | O => []
  | S k => take n l :: chunk n k (drop n l)
  end.

Lemma chunk_length {A} n k (l : list A) : length (chunk n k l) = k.
Proof. revert l. induction k; intros; simpl; auto. Qed.

Lemma chunk_take {A} n k (l : list A) m : (n * k <= m)%nat -> chunk n k (take m l) = chunk n k l.
Proof.
  revert l m. induction k as [|k IH]; intros l m H; [done|]. simpl.
  rewrite take_take, Nat.min_l by lia. f_equal.
  rewrite <- (IH (drop n l) (m - n)%nat) by lia. f_equal.
  rewrite take_drop_commute. do 2 f_equal. lia.
Qed.

Lemma chunk_app {A} n k k' (l : list A) :
  chunk n (k + k') l = chunk n k l ++ chunk n k' (drop (n * k) l).
Proof.
  revert l. induction k as [|k IH]; intros l; simpl.
  - by rewrite Nat.mul_0_r.
  - rewrite IH, drop_drop. do 4 f_equal. lia.
Qed.

Lemma chunk_concat {A} n k (l : list A) : concat (chunk n k l) = take (n * k) l.
Proof.
  revert l. induction k as [|k IH]; intros l; simpl.
  - by rewrite Nat.mul_0_r.
  - rewrite IH, Nat.mul_succ_r, (Nat.add_comm (n * k)). by rewrite take_take_drop.
Qed.

Lemma chunk_app_l {A} n k (l l' : list A) : (n * k <= length l)%nat -> chunk n k (l ++ l') = chunk n k l.
Proof.
  intros H. rewrite <- (chunk_take n k (l ++ l') (length l)) by lia. by rewrite take_app_length.
Qed.

Lemma chunk_snoc {A} n k (l : list A) : chunk n (S k) l = chunk n k l ++ [take n (drop (n * k) l)].
Proof. replace (S k) with (k + 1)%nat by lia. by rewrite chunk_app. Qed.

(** Zero-padding to a multiple of [n]. *)
Definition pad_to (n : nat) (l : list Z) : list Z :=
  l ++ replicate (n * ((length l + n - 1) / n) - length l) 0.

(** ** C strings *)

(** The characters before the terminator. *)
Fixpoint c_string (l : list Z) : list Z :=
  match l with
  | [] => []
  | b :: l => if b =? 0 then [] else b :: c_string l
  end.

Lemma c_string_nonzero l : Forall (fun b => b <> 0) (c_string l).
Proof. induction l as [|b l IH]; cbn [c_string]; [constructor|]. destruct (Z.eqb_spec b 0); constructor; auto. Qed.

Lemma c_string_le l : (length (c_string l) <= length l)%nat.
Proof. induction l as [|b l IH]; cbn [c_string]; [lia|]. destruct (b =? 0); cbn [length]; lia. Qed.

(** A string in a terminated buffer. *)
Lemma c_string_app l r : c_string (l ++ 0 :: r) = c_string l.
Proof. induction l as [|b l IH]; cbn [c_string app]; [done|]. destruct (b =? 0); [done|]. by rewrite IH. Qed.

Lemma c_string_id s : Forall (fun b => b <> 0) s -> c_string s = s.
Proof. induction 1 as [|b s Hb _ IH]; cbn; [done|]. rewrite (proj2 (Z.eqb_neq b 0)) by done. by rewrite IH. Qed.

Lemma c_string_stop a r : 0 ∉ a -> c_string (a ++ 0 :: r) = a.
Proof. intros Ha. rewrite c_string_app, c_string_id; [done|]. apply Forall_forall. intros x Hx ->. done. Qed.

Lemma c_string_term l : l !! length (c_string (l ++ [0])) = None \/ l !! length (c_string (l ++ [0])) = Some 0.
Proof.
  rewrite c_string_app. induction l as [|b l IH]; cbn [c_string]; [by left|].
  destruct (Z.eqb_spec b 0) as [->|]; [by right|]. apply IH.
Qed.
