(* ===== verification/Mem.v ===== *)
(** A flat byte memory: the store the C routines that take several pointers into
    possibly overlapping buffers are modelled over.  A pointer is an offset;
    [rd] and [wr] are memcpy out of and into the store. *)
From stdpp Require Import base numbers list.
From Stdlib Require Import ZArith Lia.
From S2P Require Import Prelude.

Abbreviation mem := (list Z).

Definition rd (m : mem) (o n : nat) : list Z := take n (drop o m).

Definition wr (m : mem) (o : nat) (bs : list Z) : mem :=
  take o m ++ bs ++ drop (o + length bs) m.

(** Two regions do not overlap. *)
Definition disj (o1 n1 o2 n2 : nat) : Prop := o1 + n1 <= o2 \/ o2 + n2 <= o1.

Lemma rd_length m o n : o + n <= length m -> length (rd m o n) = n.
Proof. intros H. unfold rd. rewrite length_take, length_drop. lia. Qed.

Lemma wr_length m o bs : o + length bs <= length m -> length (wr m o bs) = length m.
Proof. intros H. unfold wr. rewrite !length_app, length_take, length_drop. lia. Qed.

Lemma wr_lookup m o bs i : o + length bs <= length m ->
  wr m o bs !! i = if decide (o <= i < o + length bs) then bs !! (i - o) else m !! i.
Proof.
  intros H. unfold wr. destruct (decide (o <= i < o + length bs)).
  - rewrite lookup_app_r by (rewrite length_take; lia).
    rewrite length_take, lookup_app_l by lia. f_equal. lia.
  - destruct (decide (i < o)).
    + rewrite lookup_app_l by (rewrite length_take; lia). by rewrite lookup_take_lt.
    + rewrite lookup_app_r by (rewrite length_take; lia).
      rewrite lookup_app_r by (rewrite length_take; lia).
      rewrite lookup_drop, length_take. f_equal. lia.
Qed.

Lemma rd_lookup m o n i : i < n -> rd m o n !! i = m !! (o + i).
Proof. intros H. unfold rd. by rewrite lookup_take_lt, lookup_drop by done. Qed.

Lemma rd_ext m m' o n : length m = length m' -> o + n <= length m ->
  (forall i, o <= i < o + n -> m !! i = m' !! i) -> rd m o n = rd m' o n.
Proof.
  intros Hl Hn H. apply list_eq. intros i. destruct (decide (i < n)).
  - rewrite !rd_lookup by done. apply H. lia.
  - rewrite !lookup_ge_None_2; [done| |]; rewrite rd_length; lia.
Qed.

Lemma rd_wr_disj m o bs o' n : o + length bs <= length m -> o' + n <= length m ->
  disj o (length bs) o' n -> rd (wr m o bs) o' n = rd m o' n.
Proof.
  intros H H' D. apply rd_ext; [by rewrite wr_length|by rewrite wr_length|].
  intros i Hi. rewrite wr_lookup by done. unfold disj in D. destruct (decide _); [lia|done].
Qed.

Lemma rd_wr_same m o bs n : n = length bs -> o + length bs <= length m -> rd (wr m o bs) o n = bs.
Proof.
  intros -> H. apply list_eq. intros i. destruct (decide (i < length bs)).
  - rewrite rd_lookup, wr_lookup by done. destruct (decide _); [f_equal; lia|lia].
  - rewrite !lookup_ge_None_2; [done|lia|]. rewrite rd_length; [lia|]. rewrite wr_length; lia.
Qed.

Lemma rd_app m o a b : rd m o (a + b) = rd m o a ++ rd m (o + a) b.
Proof. unfold rd. rewrite <- drop_drop. by rewrite <- take_take_drop. Qed.

Lemma rd_ok m o n : bytes_ok m -> bytes_ok (rd m o n).
Proof. intros. unfold rd. by apply Forall_take, Forall_drop. Qed.

Lemma wr_ok m o bs : bytes_ok m -> bytes_ok bs -> bytes_ok (wr m o bs).
Proof. intros. unfold wr. repeat apply Forall_app_2; auto using Forall_take, Forall_drop. Qed.

#[export] Hint Resolve rd_ok wr_ok : word.
