(* ===== verification/Rijndael.v ===== *)
(** The block cipher of src/userspace/libbcmcrypto/src/rijndael-alg-fst.c: key
    schedules, the rolled and the FULL_UNROLL round loops of encryption and
    decryption, and the known-answer-test entry points.  The main result is that
    decryption under the decryption schedule inverts encryption for the three key
    sizes; on the way the tables are shown to be the S-box composed with GF(2)
    linear maps that invert each other. *)
From stdpp Require Import base numbers list.
From Stdlib Require Import ZArith Lia.
From S2P Require Import Prelude AesTables.
Local Open Scope Z_scope.

Notation "x ⊕ y" := (Z.lxor x y) (at level 50, left associativity).

(** ** Definitions *)

(** The four words s0..s3 (or t0..t3, or a round key) of the cipher state. *)
Record st4 := St4 { w0 : Z; w1 : Z; w2 : Z; w3 : Z }.

Definition GETU32 (pt : list Z) (o : Z) : Z :=
  Z.shiftl (idx pt o) 24 ⊕ Z.shiftl (idx pt (o + 1)) 16 ⊕
  Z.shiftl (idx pt (o + 2)) 8 ⊕ idx pt (o + 3).

Definition PUTU32 (st : Z) : list Z :=
  [wrap8 (Z.shiftr st 24); wrap8 (Z.shiftr st 16); wrap8 (Z.shiftr st 8); wrap8 st].

(** [w >> 24], [(w >> 16) & 0xff], [(w >> 8) & 0xff], [w & 0xff]. *)
Definition by3 (w : Z) : Z := Z.shiftr w 24.
Definition by2 (w : Z) : Z := Z.land (Z.shiftr w 16) 0xff.
Definition by1 (w : Z) : Z := Z.land (Z.shiftr w 8) 0xff.
Definition by0 (w : Z) : Z := Z.land w 0xff.

Definition rkey (rk : list Z) (p : Z) : st4 :=
  St4 (idx rk p) (idx rk (p + 1)) (idx rk (p + 2)) (idx rk (p + 3)).

(** *** Key schedules *)

(** The new word of a schedule step: [x ^ SubWord(RotWord(temp)) ^ rc]. *)
Definition sched_rot (x temp rc : Z) : Z :=
  x ⊕ Z.land (idx Te4 (by2 temp)) 0xff000000 ⊕ Z.land (idx Te4 (by1 temp)) 0x00ff0000 ⊕
  Z.land (idx Te4 (by0 temp)) 0x0000ff00 ⊕ Z.land (idx Te4 (by3 temp)) 0x000000ff ⊕ rc.

(** The middle step of the 256-bit schedule: no rotation, no round constant. *)
Definition sched_sub (x temp : Z) : Z :=
  x ⊕ Z.land (idx Te4 (by3 temp)) 0xff000000 ⊕ Z.land (idx Te4 (by2 temp)) 0x00ff0000 ⊕
  Z.land (idx Te4 (by1 temp)) 0x0000ff00 ⊕ Z.land (idx Te4 (by0 temp)) 0x000000ff.

Fixpoint expand128 (fuel : nat) (i : Z) (rk : list Z) (p : Z) : list Z :=
  match fuel with
  | O => rk
  | S fuel =>
      let r4 := sched_rot (idx rk p) (idx rk (p + 3)) (idx rcon i) in
      let r5 := idx rk (p + 1) ⊕ r4 in
      let r6 := idx rk (p + 2) ⊕ r5 in
      let r7 := idx rk (p + 3) ⊕ r6 in
      let rk := rk ++ [r4; r5; r6; r7] in
      if i + 1 =? 10 then rk else expand128 fuel (i + 1) rk (p + 4)
  end.

Fixpoint expand192 (fuel : nat) (i : Z) (rk : list Z) (p : Z) : list Z :=
  match fuel with
  | O => rk
  | S fuel =>
      let r6 := sched_rot (idx rk p) (idx rk (p + 5)) (idx rcon i) in
      let r7 := idx rk (p + 1) ⊕ r6 in
      let r8 := idx rk (p + 2) ⊕ r7 in
      let r9 := idx rk (p + 3) ⊕ r8 in
      let rk := rk ++ [r6; r7; r8; r9] in
      if i + 1 =? 8 then rk else
      let r10 := idx rk (p + 4) ⊕ r9 in
      let r11 := idx rk (p + 5) ⊕ r10 in
      expand192 fuel (i + 1) (rk ++ [r10; r11]) (p + 6)
  end.

Fixpoint expand256 (fuel : nat) (i : Z) (rk : list Z) (p : Z) : list Z :=
  match fuel with
  | O => rk
  | S fuel =>
      let r8 := sched_rot (idx rk p) (idx rk (p + 7)) (idx rcon i) in
      let r9 := idx rk (p + 1) ⊕ r8 in
      let r10 := idx rk (p + 2) ⊕ r9 in
      let r11 := idx rk (p + 3) ⊕ r10 in
      let rk := rk ++ [r8; r9; r10; r11] in
      if i + 1 =? 7 then rk else
      let r12 := sched_sub (idx rk (p + 4)) r11 in
      let r13 := idx rk (p + 5) ⊕ r12 in
      let r14 := idx rk (p + 6) ⊕ r13 in
      let r15 := idx rk (p + 7) ⊕ r14 in
      expand256 fuel (i + 1) (rk ++ [r12; r13; r14; r15]) (p + 8)
  end.

(** The number of rounds (0 for a bad key size) and the words written to [rk]. *)
Definition rijndaelKeySetupEnc (cipherKey : list Z) (keyBits : Z) : Z * list Z :=
  let rk := [GETU32 cipherKey 0; GETU32 cipherKey 4; GETU32 cipherKey 8; GETU32 cipherKey 12] in
  if keyBits =? 128 then (10, expand128 10 0 rk 0) else
  let rk := rk ++ [GETU32 cipherKey 16; GETU32 cipherKey 20] in
  if keyBits =? 192 then (12, expand192 8 0 rk 0) else
  let rk := rk ++ [GETU32 cipherKey 24; GETU32 cipherKey 28] in
  if keyBits =? 256 then (14, expand256 7 0 rk 0) else (0, rk).

(** [rk[i] <-> rk[j]]. *)
Definition swap_word (rk : list Z) (i j : Z) : list Z :=
  <[Z.to_nat j := idx rk i]> (<[Z.to_nat i := idx rk j]> rk).

Fixpoint swap_keys (fuel : nat) (rk : list Z) (i j : Z) : list Z :=
  match fuel with
  | O => rk
  | S fuel =>
      if i <? j then
        let rk := swap_word rk i j in
        let rk := swap_word rk (i + 1) (j + 1) in
        let rk := swap_word rk (i + 2) (j + 2) in
        let rk := swap_word rk (i + 3) (j + 3) in
        swap_keys fuel rk (i + 4) (j - 4)
      else rk
  end.

(** The inverse MixColumn transform of one round-key word. *)
Definition inv_mix_word (w : Z) : Z :=
  idx Td0 (Z.land (idx Te4 (by3 w)) 0xff) ⊕ idx Td1 (Z.land (idx Te4 (by2 w)) 0xff) ⊕
  idx Td2 (Z.land (idx Te4 (by1 w)) 0xff) ⊕ idx Td3 (Z.land (idx Te4 (by0 w)) 0xff).

Definition upd_word (f : Z -> Z) (rk : list Z) (i : Z) : list Z :=
  <[Z.to_nat i := f (idx rk i)]> rk.

(** [for (i = 1; i < Nr; i++) { rk += 4; ... }]: [n] is [Nr - 1]. *)
Fixpoint mix_keys (n : nat) (rk : list Z) (p : Z) : list Z :=
  match n with
  | O => rk
  | S n =>
      let p := p + 4 in
      let rk := upd_word inv_mix_word rk p in
      let rk := upd_word inv_mix_word rk (p + 1) in
      let rk := upd_word inv_mix_word rk (p + 2) in
      let rk := upd_word inv_mix_word rk (p + 3) in
      mix_keys n rk p
  end.

Definition rijndaelKeySetupDec (cipherKey : list Z) (keyBits : Z) : Z * list Z :=
  let '(Nr, rk) := rijndaelKeySetupEnc cipherKey keyBits in
  let rk := swap_keys 8 rk 0 (4 * Nr) in
  (Nr, mix_keys (Z.to_nat (Nr - 1)) rk 0).

(** *** Encryption *)

Definition enc_word (a b c d k : Z) : Z :=
  idx Te0 (by3 a) ⊕ idx Te1 (by2 b) ⊕ idx Te2 (by1 c) ⊕ idx Te3 (by0 d) ⊕ k.

Definition enc_round (s k : st4) : st4 :=
  St4 (enc_word (w0 s) (w1 s) (w2 s) (w3 s) (w0 k))
      (enc_word (w1 s) (w2 s) (w3 s) (w0 s) (w1 k))
      (enc_word (w2 s) (w3 s) (w0 s) (w1 s) (w2 k))
      (enc_word (w3 s) (w0 s) (w1 s) (w2 s) (w3 k)).

Definition enc_last_word (a b c d k : Z) : Z :=
  Z.land (idx Te4 (by3 a)) 0xff000000 ⊕ Z.land (idx Te4 (by2 b)) 0x00ff0000 ⊕
  Z.land (idx Te4 (by1 c)) 0x0000ff00 ⊕ Z.land (idx Te4 (by0 d)) 0x000000ff ⊕ k.

Definition enc_last (t k : st4) : st4 :=
  St4 (enc_last_word (w0 t) (w1 t) (w2 t) (w3 t) (w0 k))
      (enc_last_word (w1 t) (w2 t) (w3 t) (w0 t) (w1 k))
      (enc_last_word (w2 t) (w3 t) (w0 t) (w1 t) (w2 k))
      (enc_last_word (w3 t) (w0 t) (w1 t) (w2 t) (w3 k)).

(** [s = GETU32(pt) ^ rk[0..3]]. *)
Definition load_state (pt rk : list Z) : st4 :=
  St4 (GETU32 pt 0 ⊕ idx rk 0) (GETU32 pt 4 ⊕ idx rk 1)
      (GETU32 pt 8 ⊕ idx rk 2) (GETU32 pt 12 ⊕ idx rk 3).

Definition store_state (s : st4) : list Z :=
  PUTU32 (w0 s) ++ PUTU32 (w1 s) ++ PUTU32 (w2 s) ++ PUTU32 (w3 s).

(** The loop [for (;;) { t = ..; rk += 8; if (--r == 0) break; s = ..; }] with [r]
    at least 1 (the schedules give 10, 12 or 14 rounds); it returns [t] and the
    advanced [rk]. *)
Fixpoint enc_loop (r : nat) (rk : list Z) (p : Z) (s : st4) : st4 * Z :=
  let t := enc_round s (rkey rk (p + 4)) in
  let p := p + 8 in
  match r with
  | S (S _ as r) => enc_loop r rk p (enc_round t (rkey rk p))
  | _ => (t, p)
  end.

Definition rijndaelEncrypt (rk : list Z) (Nr : Z) (pt : list Z) : list Z :=
  let s := load_state pt rk in
  let '(t, p) := enc_loop (Z.to_nat (Z.shiftr Nr 1)) rk 0 s in
  store_state (enc_last t (rkey rk p)).

(** The FULL_UNROLL body: nine rounds, then two more when [Nr > 10] and two more
    when [Nr > 12]. *)
Definition rijndaelEncrypt_unrolled (rk : list Z) (Nr : Z) (pt : list Z) : list Z :=
  let s := load_state pt rk in
  let t := enc_round s (rkey rk 4) in
  let s := enc_round t (rkey rk 8) in
  let t := enc_round s (rkey rk 12) in
  let s := enc_round t (rkey rk 16) in
  let t := enc_round s (rkey rk 20) in
  let s := enc_round t (rkey rk 24) in
  let t := enc_round s (rkey rk 28) in
  let s := enc_round t (rkey rk 32) in
  let t := enc_round s (rkey rk 36) in
  let t :=
    if 10 <? Nr then
      let s := enc_round t (rkey rk 40) in
      let t := enc_round s (rkey rk 44) in
      if 12 <? Nr then
        let s := enc_round t (rkey rk 48) in
        enc_round s (rkey rk 52)
      else t
    else t in
  store_state (enc_last t (rkey rk (Z.shiftl Nr 2))).

(** *** Decryption *)

Definition dec_word (a b c d k : Z) : Z :=
  idx Td0 (by3 a) ⊕ idx Td1 (by2 b) ⊕ idx Td2 (by1 c) ⊕ idx Td3 (by0 d) ⊕ k.

Definition dec_round (s k : st4) : st4 :=
  St4 (dec_word (w0 s) (w3 s) (w2 s) (w1 s) (w0 k))
      (dec_word (w1 s) (w0 s) (w3 s) (w2 s) (w1 k))
      (dec_word (w2 s) (w1 s) (w0 s) (w3 s) (w2 k))
      (dec_word (w3 s) (w2 s) (w1 s) (w0 s) (w3 k)).

Definition dec_last_word (a b c d k : Z) : Z :=
  Z.land (idx Td4 (by3 a)) 0xff000000 ⊕ Z.land (idx Td4 (by2 b)) 0x00ff0000 ⊕
  Z.land (idx Td4 (by1 c)) 0x0000ff00 ⊕ Z.land (idx Td4 (by0 d)) 0x000000ff ⊕ k.

Definition dec_last (t k : st4) : st4 :=
  St4 (dec_last_word (w0 t) (w3 t) (w2 t) (w1 t) (w0 k))
      (dec_last_word (w1 t) (w0 t) (w3 t) (w2 t) (w1 k))
      (dec_last_word (w2 t) (w1 t) (w0 t) (w3 t) (w2 k))
      (dec_last_word (w3 t) (w2 t) (w1 t) (w0 t) (w3 k)).

Fixpoint dec_loop (r : nat) (rk : list Z) (p : Z) (s : st4) : st4 * Z :=
  let t := dec_round s (rkey rk (p + 4)) in
  let p := p + 8 in
  match r with
  | S (S _ as r) => dec_loop r rk p (dec_round t (rkey rk p))
  | _ => (t, p)
  end.

Definition rijndaelDecrypt (rk : list Z) (Nr : Z) (ct : list Z) : list Z :=
  let s := load_state ct rk in
  let '(t, p) := dec_loop (Z.to_nat (Z.shiftr Nr 1)) rk 0 s in
  store_state (dec_last t (rkey rk p)).

Definition rijndaelDecrypt_unrolled (rk : list Z) (Nr : Z) (ct : list Z) : list Z :=
  let s := load_state ct rk in
  let t := dec_round s (rkey rk 4) in
  let s := dec_round t (rkey rk 8) in
  let t := dec_round s (rkey rk 12) in
  let s := dec_round t (rkey rk 16) in
  let t := dec_round s (rkey rk 20) in
  let s := dec_round t (rkey rk 24) in
  let t := dec_round s (rkey rk 28) in
  let s := dec_round t (rkey rk 32) in
  let t := dec_round s (rkey rk 36) in
  let t :=
    if 10 <? Nr then
      let s := dec_round t (rkey rk 40) in
      let t := dec_round s (rkey rk 44) in
      if 12 <? Nr then
        let s := dec_round t (rkey rk 48) in
        dec_round s (rkey rk 52)
      else t
    else t in
  store_state (dec_last t (rkey rk (Z.shiftl Nr 2))).

(** *** Known-answer-test entry points (INTERMEDIATE_VALUE_KAT) *)

(** [n] iterations of the single-round loop, [rk] at offset [p]. *)
Fixpoint kat_loop (f : st4 -> st4 -> st4) (n : nat) (rk : list Z) (p : Z) (s : st4) : st4 * Z :=
  match n with
  | O => (s, p)
  | S n => kat_loop f n rk (p + 4) (f s (rkey rk p))
  end.

Definition rijndaelEncryptRound (rk : list Z) (Nr : Z) (block : list Z) (rounds : Z) : list Z :=
  let s := load_state block rk in
  let r := if rounds <? Nr then rounds else Nr - 1 in
  let '(s, p) := kat_loop enc_round (Z.to_nat r) rk 4 s in
  store_state (if rounds =? Nr then enc_last s (rkey rk p) else s).

Definition rijndaelDecryptRound (rk : list Z) (Nr : Z) (block : list Z) (rounds : Z) : list Z :=
  let s := load_state block rk in
  let r := (if rounds <? Nr then rounds else Nr) - 1 in
  let '(s, p) := kat_loop dec_round (Z.to_nat r) rk 4 s in
  let t := dec_last s (St4 0 0 0 0) in
  store_state (if rounds =? Nr then
    let k := rkey rk p in St4 (w0 t ⊕ w0 k) (w1 t ⊕ w1 k) (w2 t ⊕ w2 k) (w3 t ⊕ w3 k)
  else t).

(** ** Words and their bytes *)

Definition st_ok (s : st4) : Prop := u32 (w0 s) /\ u32 (w1 s) /\ u32 (w2 s) /\ u32 (w3 s).

Definition st_xor (s k : st4) : st4 :=
  St4 (w0 s ⊕ w0 k) (w1 s ⊕ w1 k) (w2 s ⊕ w2 k) (w3 s ⊕ w3 k).

Definition join (a b c d : Z) : Z := a * 2 ^ 24 + b * 2 ^ 16 + c * 2 ^ 8 + d.

Lemma land_ff x : Z.land x 0xff = x mod 256.
Proof. change 0xff with (Z.ones 8). by rewrite Z.land_ones. Qed.

Lemma by_div w :
  by3 w = w / 2 ^ 24 /\ by2 w = (w / 2 ^ 16) mod 256 /\ by1 w = (w / 2 ^ 8) mod 256 /\ by0 w = w mod 256.
Proof.
  unfold by3, by2, by1, by0. rewrite !land_ff, !Z.shiftr_div_pow2 by lia. done.
Qed.

Ltac by_lia :=
  repeat match goal with |- context [?f ?w] =>
    match f with
    | by3 => rewrite (proj1 (by_div w))
    | by2 => rewrite (proj1 (proj2 (by_div w)))
    | by1 => rewrite (proj1 (proj2 (proj2 (by_div w))))
    | by0 => rewrite (proj2 (proj2 (proj2 (by_div w))))
    end end;
  unfold is_u, join in *; change (2 ^ 8) with 256 in *; change (2 ^ 16) with 65536 in *;
  change (2 ^ 24) with 16777216 in *; change (2 ^ 32) with 4294967296 in *;
  Z.to_euclidean_division_equations; lia.

Lemma by3_u8 w : u32 w -> u8 (by3 w).
Proof. intros H. by_lia. Qed.
Lemma by2_u8 w : u8 (by2 w).
Proof. by_lia. Qed.
Lemma by1_u8 w : u8 (by1 w).
Proof. by_lia. Qed.
Lemma by0_u8 w : u8 (by0 w).
Proof. by_lia. Qed.
#[export] Hint Resolve by3_u8 by2_u8 by1_u8 by0_u8 : word.

Lemma join_by w : u32 w -> join (by3 w) (by2 w) (by1 w) (by0 w) = w.
Proof. intros H. by_lia. Qed.

Lemma join_u32 a b c d : u8 a -> u8 b -> u8 c -> u8 d -> u32 (join a b c d).
Proof. intros. by_lia. Qed.
#[export] Hint Resolve join_u32 : word.

Lemma by_join a b c d : u8 a -> u8 b -> u8 c -> u8 d ->
  by3 (join a b c d) = a /\ by2 (join a b c d) = b /\
  by1 (join a b c d) = c /\ by0 (join a b c d) = d.
Proof. intros. repeat split; by_lia. Qed.

Lemma by_lxor x y :
  by3 (x ⊕ y) = by3 x ⊕ by3 y /\ by2 (x ⊕ y) = by2 x ⊕ by2 y /\
  by1 (x ⊕ y) = by1 x ⊕ by1 y /\ by0 (x ⊕ y) = by0 x ⊕ by0 y.
Proof.
  unfold by3, by2, by1, by0. rewrite !Z.shiftr_lxor, !land_lxor_distr_l. done.
Qed.

Lemma join_lxor a b c d : u8 b -> u8 c -> u8 d ->
  Z.shiftl a 24 ⊕ Z.shiftl b 16 ⊕ Z.shiftl c 8 ⊕ d = join a b c d.
Proof.
  intros Hb Hc Hd. unfold join.
  transitivity (Z.shiftl (Z.shiftl (Z.shiftl a 8 ⊕ b) 8 ⊕ c) 8 ⊕ d).
  - rewrite !Z.shiftl_lxor, !Z.shiftl_shiftl by lia. done.
  - rewrite !lxor_shiftl_add by (done || lia). lia.
Qed.

Lemma getu32_join pt o : bytes_ok pt ->
  GETU32 pt o = join (idx pt o) (idx pt (o + 1)) (idx pt (o + 2)) (idx pt (o + 3)).
Proof.
  intros H. assert (forall i, u8 (idx pt i)) as Hi.
  { intros i. unfold idx. destruct (nth_in_or_default (Z.to_nat i) pt 0) as [Hin | ->].
    - rewrite List.Forall_forall in H. by apply H.
    - unfold is_u. lia. }
  unfold GETU32. by apply join_lxor.
Qed.

Lemma putu32_bytes w : u32 w -> PUTU32 w = [by3 w; by2 w; by1 w; by0 w].
Proof.
  intros H. unfold PUTU32, wrap8.
  rewrite !Z.shiftr_div_pow2 by lia.
  destruct (by_div w) as (-> & -> & -> & ->). repeat f_equal.
  apply Z.mod_small. unfold is_u in H. Z.to_euclidean_division_equations; lia.
Qed.

(** ** The tables *)

(** The S-box and its inverse, as the schedules read them off Te4 and Td4. *)
Definition sbox (b : Z) : Z := Z.land (idx Te4 b) 0xff.
Definition isbox (b : Z) : Z := Z.land (idx Td4 b) 0xff.

(** The MixColumns multiples and their inverses: [Te_k] and [Td_k] with the S-box
    taken off. *)
Definition mc (T : list Z) (x : Z) : Z := idx T (isbox x).
Definition imc (T : list Z) (x : Z) : Z := idx T (sbox x).

Definition sbox_check (b : Z) : bool :=
  (isbox (sbox b) =? b) && (sbox (isbox b) =? b) && is_ub 8 (sbox b) && is_ub 8 (isbox b) &&
  (idx Te4 b =? join (sbox b) (sbox b) (sbox b) (sbox b)) &&
  (idx Td4 b =? join (isbox b) (isbox b) (isbox b) (isbox b)).

Lemma sbox_checked : forall_byte sbox_check = true.
Proof. vm_compute. reflexivity. Qed.

Lemma sbox_facts b : u8 b ->
  isbox (sbox b) = b /\ sbox (isbox b) = b /\ u8 (sbox b) /\ u8 (isbox b) /\
  idx Te4 b = join (sbox b) (sbox b) (sbox b) (sbox b) /\
  idx Td4 b = join (isbox b) (isbox b) (isbox b) (isbox b).
Proof.
  intros Hb. pose proof (forall_byte_spec _ sbox_checked b Hb) as H.
  unfold sbox_check in H. rewrite !andb_true_iff, !Z.eqb_eq, !is_ub_spec in H. tauto.
Qed.

Lemma isbox_sbox b : u8 b -> isbox (sbox b) = b.
Proof. intros H. apply (sbox_facts b H). Qed.
Lemma sbox_isbox b : u8 b -> sbox (isbox b) = b.
Proof. intros H. apply (sbox_facts b H). Qed.
Lemma sbox_u8 b : u8 b -> u8 (sbox b).
Proof. intros H. apply (sbox_facts b H). Qed.
Lemma isbox_u8 b : u8 b -> u8 (isbox b).
Proof. intros H. apply (sbox_facts b H). Qed.
#[export] Hint Resolve sbox_u8 isbox_u8 : word.

(** The GF(2)-linear extension of the values at 1, 2, 4, .., 128. *)
Definition bit_lin (f : Z -> Z) (x : Z) : Z :=
  fold_right (fun i acc => (if Z.testbit x i then f (2 ^ i) else 0) ⊕ acc) 0 [0; 1; 2; 3; 4; 5; 6; 7].

Definition linear_check (f : Z -> Z) : bool := forall_byte (fun x => f x =? bit_lin f x).

Lemma bit_lin_lxor f a b : bit_lin f (a ⊕ b) = bit_lin f a ⊕ bit_lin f b.
Proof.
  unfold bit_lin. generalize [0; 1; 2; 3; 4; 5; 6; 7] as js.
  induction js as [|i js IH]; [done|]. cbn [fold_right]. rewrite IH, Z.lxor_spec.
  destruct (Z.testbit a i), (Z.testbit b i); cbn [xorb]; lxor_solve.
Qed.

Lemma linear_check_spec f : linear_check f = true ->
  forall a b, u8 a -> u8 b -> f (a ⊕ b) = f a ⊕ f b.
Proof.
  intros H a b Ha Hb.
  assert (forall x, u8 x -> f x = bit_lin f x) as Hf.
  { intros x Hx. apply Z.eqb_eq. exact (forall_byte_spec _ H x Hx). }
  rewrite !Hf by auto with word. apply bit_lin_lxor.
Qed.

Lemma tables_linear :
  forallb (fun T => linear_check (imc T)) [Td0; Td1; Td2; Td3] = true /\
  forallb (fun T => linear_check (mc T)) [Te0; Te1; Te2; Te3] = true.
Proof. split; vm_compute; reflexivity. Qed.

Lemma mc_lxor T a b : In T [Te0; Te1; Te2; Te3] -> u8 a -> u8 b ->
  mc T (a ⊕ b) = mc T a ⊕ mc T b.
Proof.
  intros HT. pose proof (proj2 tables_linear) as H. rewrite forallb_forall in H.
  by apply linear_check_spec, H.
Qed.

Lemma imc_lxor T a b : In T [Td0; Td1; Td2; Td3] -> u8 a -> u8 b ->
  imc T (a ⊕ b) = imc T a ⊕ imc T b.
Proof.
  intros HT. pose proof (proj1 tables_linear) as H. rewrite forallb_forall in H.
  by apply linear_check_spec, H.
Qed.

Lemma tables_u32 : forallb (forallb (is_ub 32)) [Te0; Te1; Te2; Te3; Te4; Td0; Td1; Td2; Td3; Td4; rcon] = true.
Proof. vm_compute. reflexivity. Qed.

Lemma idx_table_u32 T i :
  In T [Te0; Te1; Te2; Te3; Te4; Td0; Td1; Td2; Td3; Td4; rcon] -> u32 (idx T i).
Proof.
  intros HT. pose proof tables_u32 as H. rewrite forallb_forall in H.
  specialize (H T HT). unfold idx.
  destruct (nth_in_or_default (Z.to_nat i) T 0) as [Hin | ->].
  - rewrite forallb_forall in H. by apply is_ub_spec, H.
  - unfold is_u. lia.
Qed.

#[export] Hint Extern 1 (u32 (idx _ _)) =>
  apply idx_table_u32; simpl; tauto : word.

(** [inv_mix_word] in terms of the linear maps; it is itself linear. *)
Lemma inv_mix_word_imc w : inv_mix_word w =
  imc Td0 (by3 w) ⊕ imc Td1 (by2 w) ⊕ imc Td2 (by1 w) ⊕ imc Td3 (by0 w).
Proof. reflexivity. Qed.

Lemma inv_mix_word_lxor x y : u32 x -> u32 y ->
  inv_mix_word (x ⊕ y) = inv_mix_word x ⊕ inv_mix_word y.
Proof.
  intros Hx Hy. rewrite !inv_mix_word_imc.
  destruct (by_lxor x y) as (-> & -> & -> & ->).
  rewrite !imc_lxor by (simpl; auto with word). lxor_solve.
Qed.

Lemma inv_mix_word_u32 w : u32 (inv_mix_word w).
Proof. unfold inv_mix_word. auto 10 with word. Qed.
#[export] Hint Resolve inv_mix_word_u32 : word.

(** Each column of MixColumns is undone by [inv_mix_word]. *)
Lemma inv_mix_basis :
  forall_byte (fun b =>
    (inv_mix_word (mc Te0 b) =? join b 0 0 0) && (inv_mix_word (mc Te1 b) =? join 0 b 0 0) &&
    (inv_mix_word (mc Te2 b) =? join 0 0 b 0) && (inv_mix_word (mc Te3 b) =? join 0 0 0 b)) = true.
Proof. vm_compute. reflexivity. Qed.

Lemma join_parts a b c d : u8 a -> u8 b -> u8 c -> u8 d ->
  join a 0 0 0 ⊕ join 0 b 0 0 ⊕ join 0 0 c 0 ⊕ join 0 0 0 d = join a b c d.
Proof.
  intros. assert (u8 0) by (unfold is_u; lia).
  rewrite <- !join_lxor by done. rewrite !Z.shiftl_0_l. lxor_solve.
Qed.

Lemma inv_mix_mix a b c d : u8 a -> u8 b -> u8 c -> u8 d ->
  inv_mix_word (mc Te0 a ⊕ mc Te1 b ⊕ mc Te2 c ⊕ mc Te3 d) = join a b c d.
Proof.
  intros Ha Hb Hc Hd.
  assert (Hk : forall k x, In k [Te0; Te1; Te2; Te3] -> u32 (mc k x)).
  { intros k x Hk. apply idx_table_u32. simpl in *. tauto. }
  rewrite !inv_mix_word_lxor by (repeat (apply is_u_lxor; [lia| |]); apply Hk; simpl; tauto).
  pose proof (forall_byte_spec _ inv_mix_basis) as H. cbv beta in H.
  setoid_rewrite andb_true_iff in H. setoid_rewrite andb_true_iff in H.
  setoid_rewrite andb_true_iff in H. setoid_rewrite Z.eqb_eq in H.
  destruct (H a Ha) as (((-> & _) & _) & _). destruct (H b Hb) as (((_ & ->) & _) & _).
  destruct (H c Hc) as ((_ & ->) & _). destruct (H d Hd) as (_ & ->).
  by apply join_parts.
Qed.

(** MixColumns of a word; it undoes [inv_mix_word] as well. *)
Definition mix_word (w : Z) : Z :=
  mc Te0 (by3 w) ⊕ mc Te1 (by2 w) ⊕ mc Te2 (by1 w) ⊕ mc Te3 (by0 w).

Lemma mix_word_lxor x y : u32 x -> u32 y -> mix_word (x ⊕ y) = mix_word x ⊕ mix_word y.
Proof.
  intros Hx Hy. unfold mix_word. destruct (by_lxor x y) as (-> & -> & -> & ->).
  rewrite !mc_lxor by (simpl; auto with word). lxor_solve.
Qed.

Lemma mix_basis :
  forall_byte (fun b =>
    (mix_word (imc Td0 b) =? join b 0 0 0) && (mix_word (imc Td1 b) =? join 0 b 0 0) &&
    (mix_word (imc Td2 b) =? join 0 0 b 0) && (mix_word (imc Td3 b) =? join 0 0 0 b)) = true.
Proof. vm_compute. reflexivity. Qed.

Lemma mix_inv_mix_word w : u32 w -> mix_word (inv_mix_word w) = w.
Proof.
  intros Hw. rewrite inv_mix_word_imc.
  assert (Hk : forall k x, In k [Td0; Td1; Td2; Td3] -> u32 (imc k x)).
  { intros k x Hk. apply idx_table_u32. simpl in *. tauto. }
  rewrite !mix_word_lxor by (repeat (apply is_u_lxor; [lia| |]); apply Hk; simpl; tauto).
  pose proof (forall_byte_spec _ mix_basis) as H. cbv beta in H.
  setoid_rewrite andb_true_iff in H. setoid_rewrite andb_true_iff in H.
  setoid_rewrite andb_true_iff in H. setoid_rewrite Z.eqb_eq in H.
  destruct (H (by3 w)) as (((-> & _) & _) & _); [auto with word|].
  destruct (H (by2 w)) as (((_ & ->) & _) & _); [auto with word|].
  destruct (H (by1 w)) as ((_ & ->) & _); [auto with word|].
  destruct (H (by0 w)) as (_ & ->); [auto with word|].
  rewrite join_parts by auto with word. by apply join_by.
Qed.

#[local] Opaque Te0 Te1 Te2 Te3 Te4 Td0 Td1 Td2 Td3 Td4 idx.

(** ** Rounds in terms of SubBytes, ShiftRows and MixColumns *)

Definition shift_sub (s : st4) : st4 :=
  let col a b c d := join (sbox (by3 a)) (sbox (by2 b)) (sbox (by1 c)) (sbox (by0 d)) in
  St4 (col (w0 s) (w1 s) (w2 s) (w3 s)) (col (w1 s) (w2 s) (w3 s) (w0 s))
      (col (w2 s) (w3 s) (w0 s) (w1 s)) (col (w3 s) (w0 s) (w1 s) (w2 s)).

Definition inv_shift_sub (s : st4) : st4 :=
  let col a b c d := join (isbox (by3 a)) (isbox (by2 b)) (isbox (by1 c)) (isbox (by0 d)) in
  St4 (col (w0 s) (w3 s) (w2 s) (w1 s)) (col (w1 s) (w0 s) (w3 s) (w2 s))
      (col (w2 s) (w1 s) (w0 s) (w3 s)) (col (w3 s) (w2 s) (w1 s) (w0 s)).

Definition inv_mix (s : st4) : st4 :=
  St4 (inv_mix_word (w0 s)) (inv_mix_word (w1 s)) (inv_mix_word (w2 s)) (inv_mix_word (w3 s)).

(** The state before AddRoundKey of a full encryption round. *)
Definition enc_core (s : st4) : st4 := enc_round s (St4 0 0 0 0).

Ltac st_simpl := cbn [w0 w1 w2 w3] in *.
Ltac st_split := unfold st_ok in *; destruct_and?; split_and!; st_simpl.

Lemma te_last_masks :
  forall_byte (fun b =>
    (Z.land (idx Te4 b) 0xff000000 =? join (sbox b) 0 0 0) && (Z.land (idx Te4 b) 0x00ff0000 =? join 0 (sbox b) 0 0) &&
    (Z.land (idx Te4 b) 0x0000ff00 =? join 0 0 (sbox b) 0) && (Z.land (idx Te4 b) 0x000000ff =? join 0 0 0 (sbox b))) = true.
Proof. vm_compute. reflexivity. Qed.

Lemma td_last_masks :
  forall_byte (fun b =>
    (Z.land (idx Td4 b) 0xff000000 =? join (isbox b) 0 0 0) && (Z.land (idx Td4 b) 0x00ff0000 =? join 0 (isbox b) 0 0) &&
    (Z.land (idx Td4 b) 0x0000ff00 =? join 0 0 (isbox b) 0) && (Z.land (idx Td4 b) 0x000000ff =? join 0 0 0 (isbox b))) = true.
Proof. vm_compute. reflexivity. Qed.

(** Splits a byte-indexed boolean check into its four equations. *)
Ltac use_masks H a b c d Ha Hb Hc Hd :=
  let M := fresh "M" in pose proof (forall_byte_spec _ H) as M; cbv beta in M;
  setoid_rewrite andb_true_iff in M; setoid_rewrite andb_true_iff in M;
  setoid_rewrite andb_true_iff in M; setoid_rewrite Z.eqb_eq in M;
  destruct (M a Ha) as (((-> & _) & _) & _); destruct (M b Hb) as (((_ & ->) & _) & _);
  destruct (M c Hc) as ((_ & ->) & _); destruct (M d Hd) as (_ & ->); clear M.

Lemma enc_last_word_eq a b c d k : u32 a -> enc_last_word a b c d k =
  join (sbox (by3 a)) (sbox (by2 b)) (sbox (by1 c)) (sbox (by0 d)) ⊕ k.
Proof.
  intros Ha. unfold enc_last_word.
  use_masks te_last_masks (by3 a) (by2 b) (by1 c) (by0 d)
    (by3_u8 a Ha) (by2_u8 b) (by1_u8 c) (by0_u8 d).
  f_equal. apply join_parts; auto with word.
Qed.

Lemma dec_last_word_eq a b c d k : u32 a -> dec_last_word a b c d k =
  join (isbox (by3 a)) (isbox (by2 b)) (isbox (by1 c)) (isbox (by0 d)) ⊕ k.
Proof.
  intros Ha. unfold dec_last_word.
  use_masks td_last_masks (by3 a) (by2 b) (by1 c) (by0 d)
    (by3_u8 a Ha) (by2_u8 b) (by1_u8 c) (by0_u8 d).
  f_equal. apply join_parts; auto with word.
Qed.

Lemma enc_last_eq s k : st_ok s -> enc_last s k = st_xor (shift_sub s) k.
Proof.
  intros (H0 & H1 & H2 & H3). unfold enc_last. by rewrite !enc_last_word_eq by done.
Qed.

Lemma dec_last_eq s k : st_ok s -> dec_last s k = st_xor (inv_shift_sub s) k.
Proof.
  intros (H0 & H1 & H2 & H3). unfold dec_last. by rewrite !dec_last_word_eq by done.
Qed.

Lemma shift_sub_ok s : st_ok s -> st_ok (shift_sub s).
Proof. intros H. st_split; apply join_u32; auto with word. Qed.

Lemma inv_shift_sub_ok s : st_ok s -> st_ok (inv_shift_sub s).
Proof. intros H. st_split; apply join_u32; auto with word. Qed.

Lemma st_xor_ok s k : st_ok s -> st_ok k -> st_ok (st_xor s k).
Proof. intros. unfold st_xor. st_split; auto with word. Qed.

Lemma st_xor_cancel s k : st_xor (st_xor s k) k = s.
Proof. destruct s. unfold st_xor. st_simpl. by rewrite !lxor_cancel_r. Qed.

Lemma enc_word_u32 a b c d k : u32 k -> u32 (enc_word a b c d k).
Proof. intros. unfold enc_word. auto 10 with word. Qed.

Lemma enc_round_ok s k : st_ok k -> st_ok (enc_round s k).
Proof. intros. st_split; by apply enc_word_u32. Qed.

Lemma enc_core_ok s : st_ok (enc_core s).
Proof.
  unfold enc_core. apply enc_round_ok. unfold st_ok, is_u. cbn [w0 w1 w2 w3]. lia.
Qed.

Lemma inv_shift_sub_shift_sub s : st_ok s -> inv_shift_sub (shift_sub s) = s.
Proof.
  intros (H0 & H1 & H2 & H3). destruct s as [a b c d]. unfold inv_shift_sub, shift_sub. st_simpl.
  repeat match goal with |- context [join ?a ?b ?c ?d] =>
    match goal with |- context [by3 (join a b c d)] =>
      destruct (by_join a b c d) as (-> & -> & -> & ->); [auto with word..|] end end.
  rewrite !isbox_sbox by auto with word. by rewrite !join_by by done.
Qed.

Lemma enc_word_mc a b c d k : u32 a -> enc_word a b c d k =
  mc Te0 (sbox (by3 a)) ⊕ mc Te1 (sbox (by2 b)) ⊕ mc Te2 (sbox (by1 c)) ⊕ mc Te3 (sbox (by0 d)) ⊕ k.
Proof. intros. unfold mc. by rewrite !isbox_sbox by auto with word. Qed.

Lemma enc_round_core s k : enc_round s k = st_xor (enc_core s) k.
Proof. unfold enc_core, enc_round, st_xor, enc_word. st_simpl. by rewrite !Z.lxor_0_r. Qed.

Lemma inv_mix_core s : st_ok s -> inv_mix (enc_core s) = shift_sub s.
Proof.
  intros (H0 & H1 & H2 & H3). unfold inv_mix, enc_core, enc_round. st_simpl.
  rewrite !enc_word_mc, !Z.lxor_0_r by done.
  rewrite !inv_mix_mix by auto with word. done.
Qed.

Lemma inv_mix_word_join a b c d : u8 a -> u8 b -> u8 c -> u8 d ->
  inv_mix_word (join a b c d) = imc Td0 a ⊕ imc Td1 b ⊕ imc Td2 c ⊕ imc Td3 d.
Proof.
  intros. rewrite inv_mix_word_imc. by destruct (by_join a b c d) as (-> & -> & -> & ->).
Qed.

Lemma dec_word_imc a b c d k : u32 a -> dec_word a b c d k =
  inv_mix_word (join (isbox (by3 a)) (isbox (by2 b)) (isbox (by1 c)) (isbox (by0 d))) ⊕ k.
Proof.
  intros. rewrite inv_mix_word_join by auto with word.
  unfold imc, dec_word. by rewrite !sbox_isbox by auto with word.
Qed.

Lemma dec_round_eq s k : st_ok s -> dec_round s k = st_xor (inv_mix (inv_shift_sub s)) k.
Proof.
  intros (H0 & H1 & H2 & H3). unfold dec_round. by rewrite !dec_word_imc by done.
Qed.

Lemma inv_mix_xor s k : st_ok s -> st_ok k -> inv_mix (st_xor s k) = st_xor (inv_mix s) (inv_mix k).
Proof.
  intros (?&?&?&?) (?&?&?&?). unfold inv_mix, st_xor. st_simpl.
  by rewrite !inv_mix_word_lxor by done.
Qed.

(** The other direction: an encryption round undoes a decryption round. *)
Lemma shift_sub_inv_shift_sub s : st_ok s -> shift_sub (inv_shift_sub s) = s.
Proof.
  intros (H0 & H1 & H2 & H3). destruct s as [a b c d]. unfold inv_shift_sub, shift_sub. st_simpl.
  repeat match goal with |- context [join ?a ?b ?c ?d] =>
    match goal with |- context [by3 (join a b c d)] =>
      destruct (by_join a b c d) as (-> & -> & -> & ->); [auto with word..|] end end.
  rewrite !sbox_isbox by auto with word. by rewrite !join_by by done.
Qed.

Definition mix (s : st4) : st4 :=
  St4 (mix_word (w0 s)) (mix_word (w1 s)) (mix_word (w2 s)) (mix_word (w3 s)).

Lemma enc_round_mix s k : st_ok s -> enc_round s k = st_xor (mix (shift_sub s)) k.
Proof.
  intros (H0 & H1 & H2 & H3). unfold enc_round, st_xor, mix, shift_sub, mix_word. st_simpl.
  rewrite !enc_word_mc by done.
  repeat match goal with |- context [join ?a ?b ?c ?d] =>
    destruct (by_join a b c d) as (-> & -> & -> & ->); [auto with word..|] end.
  done.
Qed.

Lemma inv_mix_ok s : st_ok (inv_mix s).
Proof. unfold inv_mix. st_split; auto with word. Qed.

Lemma mix_inv_mix s : st_ok s -> mix (inv_mix s) = s.
Proof.
  intros (H0 & H1 & H2 & H3). destruct s. unfold mix, inv_mix. st_simpl.
  by rewrite !mix_inv_mix_word by done.
Qed.

Lemma dec_round_ok s k : st_ok k -> st_ok (dec_round s k).
Proof. intros. unfold dec_round, dec_word. st_split; auto 10 with word. Qed.

Lemma enc_round_dec_round s k : st_ok s -> st_ok k ->
  enc_round (inv_shift_sub (dec_round s (inv_mix k))) k = inv_shift_sub s.
Proof.
  intros Hs Hk. assert (Hi : st_ok (inv_shift_sub s)) by by apply inv_shift_sub_ok.
  assert (st_ok (dec_round s (inv_mix k))) by apply dec_round_ok, inv_mix_ok.
  rewrite enc_round_mix by by apply inv_shift_sub_ok.
  rewrite shift_sub_inv_shift_sub by done.
  rewrite dec_round_eq, <- inv_mix_xor by done.
  rewrite mix_inv_mix by by apply st_xor_ok. apply st_xor_cancel.
Qed.

#[local] Opaque enc_round dec_round inv_mix shift_sub inv_shift_sub enc_last dec_last rkey.

(** ** The round loops as folds over round keys *)

(** [AddRoundKey] of the inverse cipher undoes one round. *)
Lemma dec_round_enc_round s k : st_ok s -> st_ok k ->
  dec_round (shift_sub (enc_round s k)) (inv_mix k) = shift_sub s.
Proof.
  intros Hs Hk. assert (st_ok (enc_round s k)) by by apply enc_round_ok.
  rewrite dec_round_eq by by apply shift_sub_ok.
  rewrite inv_shift_sub_shift_sub by done.
  pose proof (enc_core_ok s).
  rewrite enc_round_core, inv_mix_xor, st_xor_cancel by done. by apply inv_mix_core.
Qed.

Lemma fold_enc_ok ks s : st_ok s -> Forall st_ok ks -> st_ok (fold_left enc_round ks s).
Proof. apply fold_left_inv. intros. by apply enc_round_ok. Qed.

Lemma dec_rounds_enc_rounds ks s : st_ok s -> Forall st_ok ks ->
  fold_left dec_round (map inv_mix (rev ks)) (shift_sub (fold_left enc_round ks s)) = shift_sub s.
Proof.
  apply fold_left_undo.
  - intros. by apply enc_round_ok.
  - exact dec_round_enc_round.
Qed.

Lemma enc_rounds_dec_rounds ks s : st_ok s -> Forall st_ok ks ->
  let s' := fold_left dec_round (map inv_mix (rev ks)) s in
  st_ok s' /\ fold_left enc_round ks (inv_shift_sub s') = inv_shift_sub s.
Proof.
  intros Hs Hks. cbv zeta. rewrite fold_left_map.
  assert (Hr : Forall st_ok (rev ks)) by by apply Forall_rev.
  pose proof (fold_left_undo (fun s k => dec_round s (inv_mix k)) enc_round inv_shift_sub id st_ok st_ok) as H.
  pose proof (fold_left_inv (fun s k => dec_round s (inv_mix k)) st_ok st_ok) as H'.
  assert (forall s k, st_ok s -> st_ok k -> st_ok (dec_round s (inv_mix k)))
    by (intros; apply dec_round_ok, inv_mix_ok).
  split; [by apply H'|].
  rewrite <- (map_id ks) at 1. rewrite <- (rev_involutive ks) at 1.
  apply H; [done|exact enc_round_dec_round|done|done].
Qed.

(** The round keys [rk + 4, rk + 8, ..] a loop of [n] rounds from offset [p] uses. *)
Definition loop_keys (rk : list Z) (p : Z) (n : nat) : list st4 :=
  map (fun i => rkey rk (p + 4 * Z.of_nat i)) (seq 1 n).

Lemma loop_keys_S rk p n : loop_keys rk p (S n) = rkey rk (p + 4) :: loop_keys rk (p + 4) n.
Proof.
  unfold loop_keys. simpl. f_equal.
  rewrite <- seq_shift, List.map_map. apply map_ext. intros i. f_equal. lia.
Qed.

Lemma enc_loop_fold r rk p s :
  enc_loop (S r) rk p s = (fold_left enc_round (loop_keys rk p (2 * r + 1)) s, p + 8 * Z.of_nat (S r)).
Proof.
  revert p s. induction r as [|r IH]; intros p s.
  - simpl. f_equal.
  - transitivity (enc_loop (S r) rk (p + 8) (enc_round (enc_round s (rkey rk (p + 4))) (rkey rk (p + 8)))); [reflexivity|].
    rewrite IH. f_equal; [|lia].
    replace (2 * S r + 1)%nat with (S (S (2 * r + 1))) by lia. rewrite !loop_keys_S.
    simpl fold_left. by replace (p + 4 + 4) with (p + 8) by lia.
Qed.

Lemma dec_loop_fold r rk p s :
  dec_loop (S r) rk p s = (fold_left dec_round (loop_keys rk p (2 * r + 1)) s, p + 8 * Z.of_nat (S r)).
Proof.
  revert p s. induction r as [|r IH]; intros p s.
  - simpl. f_equal.
  - transitivity (dec_loop (S r) rk (p + 8) (dec_round (dec_round s (rkey rk (p + 4))) (rkey rk (p + 8)))); [reflexivity|].
    rewrite IH. f_equal; [|lia].
    replace (2 * S r + 1)%nat with (S (S (2 * r + 1))) by lia. rewrite !loop_keys_S.
    simpl fold_left. by replace (p + 4 + 4) with (p + 8) by lia.
Qed.

Lemma kat_loop_fold f n rk p s :
  kat_loop f n rk (p + 4) s = (fold_left f (loop_keys rk p n) s, p + 4 + 4 * Z.of_nat n).
Proof.
  revert p s. induction n as [|n IH]; intros p s; [simpl; f_equal; lia|].
  rewrite loop_keys_S. simpl kat_loop. rewrite IH. simpl fold_left. f_equal. lia.
Qed.

(** ** The schedules *)

Lemma land_idx_u32 T i m :
  In T [Te0; Te1; Te2; Te3; Te4; Td0; Td1; Td2; Td3; Td4; rcon] -> u32 (Z.land (idx T i) m).
Proof. intros. apply is_u_land_l; [lia|]. by apply idx_table_u32. Qed.

#[local] Hint Extern 1 (u32 (Z.land (idx _ _) _)) => apply land_idx_u32; simpl; tauto : word.

Lemma sched_rot_u32 x t i : u32 x -> u32 (sched_rot x t (idx rcon i)).
Proof. intros. unfold sched_rot. auto 10 with word. Qed.

Lemma sched_sub_u32 x t : u32 x -> u32 (sched_sub x t).
Proof. intros. unfold sched_sub. auto 10 with word. Qed.

Lemma GETU32_u32 pt o : bytes_ok pt -> u32 (GETU32 pt o).
Proof. intros H. rewrite getu32_join by done. auto using idx_u8 with word. Qed.
#[export] Hint Resolve GETU32_u32 : word.

(** Every word a schedule step appends is a 32-bit word. *)
Ltac sched_ok :=
  repeat first [ assumption | apply GETU32_u32 | apply Forall_app_2 | apply List.Forall_cons
               | apply List.Forall_nil | apply sched_rot_u32 | apply sched_sub_u32
               | apply is_u_lxor; [lia| |] | apply idx_u32 ].

Lemma expand128_facts fuel i rk p : words_ok rk -> Z.of_nat fuel + i = 10 ->
  words_ok (expand128 fuel i rk p) /\ length (expand128 fuel i rk p) = (length rk + 4 * fuel)%nat.
Proof.
  revert i rk p. induction fuel as [|fuel IH]; intros i rk p Hrk Hi; [simpl; split; [done|lia]|].
  cbn [expand128]. destruct (i + 1 =? 10) eqn:E.
  - apply Z.eqb_eq in E. assert (fuel = O) as -> by lia.
    split; [sched_ok | rewrite length_app; simpl; lia].
  - apply Z.eqb_neq in E.
    edestruct IH as [Hw Hl]; [| |split; [exact Hw|rewrite Hl, length_app; simpl; lia]]; [sched_ok|lia].
Qed.

Lemma expand192_facts fuel i rk p : words_ok rk -> Z.of_nat (S fuel) + i = 8 ->
  words_ok (expand192 (S fuel) i rk p) /\
  length (expand192 (S fuel) i rk p) = (length rk + 6 * fuel + 4)%nat.
Proof.
  revert i rk p. induction fuel as [|fuel IH]; intros i rk p Hrk Hi.
  - cbn [expand192]. replace (i + 1) with 8 by lia. change (8 =? 8) with true. cbv iota.
    split; [sched_ok | simpl; rewrite length_app; simpl; lia].
  - remember (S fuel) as f eqn:Ef. cbn [expand192]. destruct (i + 1 =? 8) eqn:E.
    + apply Z.eqb_eq in E. lia.
    + edestruct IH as [Hw Hl]; [| |split; [exact Hw|rewrite Hl, !length_app; simpl; lia]]; [sched_ok|lia].
Qed.

Lemma expand256_facts fuel i rk p : words_ok rk -> Z.of_nat (S fuel) + i = 7 ->
  words_ok (expand256 (S fuel) i rk p) /\
  length (expand256 (S fuel) i rk p) = (length rk + 8 * fuel + 4)%nat.
Proof.
  revert i rk p. induction fuel as [|fuel IH]; intros i rk p Hrk Hi.
  - cbn [expand256]. replace (i + 1) with 7 by lia. change (7 =? 7) with true. cbv iota.
    split; [sched_ok | simpl; rewrite length_app; simpl; lia].
  - remember (S fuel) as f eqn:Ef. cbn [expand256]. destruct (i + 1 =? 7) eqn:E.
    + apply Z.eqb_eq in E. lia.
    + edestruct IH as [Hw Hl]; [| |split; [exact Hw|rewrite Hl, !length_app; simpl; lia]]; [sched_ok|lia].
Qed.

(** The key sizes AES_KEY_BITLEN takes, with their numbers of rounds. *)
Definition aes_size (keyBits Nr : Z) : Prop :=
  keyBits = 128 /\ Nr = 10 \/ keyBits = 192 /\ Nr = 12 \/ keyBits = 256 /\ Nr = 14.

Lemma setup_enc_facts key bits Nr : bytes_ok key -> aes_size bits Nr ->
  let '(nr, rk) := rijndaelKeySetupEnc key bits in
  nr = Nr /\ words_ok rk /\ length rk = Z.to_nat (4 * (Nr + 1)).
Proof.
  intros Hk [[-> ->]|[[-> ->]|[-> ->]]]; (split; [reflexivity|]).
  - apply (expand128_facts 10 0); [sched_ok | done].
  - apply (expand192_facts 7 0); [sched_ok | done].
  - apply (expand256_facts 6 0); [sched_ok | done].
Qed.

(** The trip count of the rolled loop, [r = Nr >> 1]. *)
Lemma aes_size_half bits Nr : aes_size bits Nr ->
  Z.to_nat (Z.shiftr Nr 1) = S (Z.to_nat (Nr / 2 - 1)).
Proof. by intros [[_ ->]|[[_ ->]|[_ ->]]]. Qed.

Lemma aes_size_full bits Nr : aes_size bits Nr ->
  (2 * Z.to_nat (Nr / 2 - 1) + 1)%nat = Z.to_nat (Nr - 1).
Proof. by intros [[_ ->]|[[_ ->]|[_ ->]]]. Qed.

Lemma aes_size_end bits Nr : aes_size bits Nr ->
  0 + 8 * Z.of_nat (S (Z.to_nat (Nr / 2 - 1))) = 4 * Nr.
Proof. by intros [[_ ->]|[[_ ->]|[_ ->]]]. Qed.

(** What the decryption schedule is, given an encryption schedule of the same key. *)
Definition dec_schedule (rk : list Z) (Nr : Z) : list Z :=
  mix_keys (Z.to_nat (Nr - 1)) (swap_keys 8 rk 0 (4 * Nr)) 0.

#[local] Transparent idx rkey inv_mix.

Lemma dec_schedule_keys rk bits Nr : aes_size bits Nr -> length rk = Z.to_nat (4 * (Nr + 1)) ->
  rkey (dec_schedule rk Nr) 0 = rkey rk (4 * Nr) /\
  loop_keys (dec_schedule rk Nr) 0 (Z.to_nat (Nr - 1)) =
    map inv_mix (rev (loop_keys rk 0 (Z.to_nat (Nr - 1)))) /\
  rkey (dec_schedule rk Nr) (4 * Nr) = rkey rk 0.
Proof.
  intros [[-> ->]|[[-> ->]|[-> ->]]] H;
    match type of H with _ = ?n => let m := eval vm_compute in n in change n with m in H end;
    explode rk H; cbv -[inv_mix_word]; done.
Qed.
#[local] Opaque idx rkey inv_mix.

(** ** Blocks *)

Definition block_ok (b : list Z) : Prop := length b = 16%nat /\ bytes_ok b.

#[local] Transparent idx rkey.

Lemma load_state_store s rk : st_ok s -> load_state (store_state s) rk = st_xor s (rkey rk 0).
Proof.
  intros (H0 & H1 & H2 & H3). unfold load_state, st_xor, store_state, rkey. st_simpl.
  rewrite !putu32_bytes by done.
  rewrite !getu32_join by (forall_split; auto with word).
  unfold idx. simpl. by rewrite !join_by by done.
Qed.

Lemma load_state_nil pt rk : st_xor (load_state pt []) (rkey rk 0) = load_state pt rk.
Proof.
  unfold st_xor, load_state, rkey. st_simpl.
  assert (forall i, idx [] i = 0) as Hn by (intros; unfold idx; by destruct (Z.to_nat i)).
  by rewrite !Hn, !Z.lxor_0_r.
Qed.

Lemma load_state_ok pt rk : bytes_ok pt -> words_ok rk -> st_ok (load_state pt rk).
Proof. intros. unfold load_state. st_split; auto using idx_u32 with word. Qed.

Lemma store_state_ok s : st_ok s -> block_ok (store_state s).
Proof.
  intros (H0 & H1 & H2 & H3). unfold store_state. split; [done|].
  rewrite !putu32_bytes by done. forall_split; auto with word.
Qed.

Lemma PUTU32_GETU32 pt o : bytes_ok pt ->
  PUTU32 (GETU32 pt o) = [idx pt o; idx pt (o + 1); idx pt (o + 2); idx pt (o + 3)].
Proof.
  intros H. rewrite putu32_bytes by auto with word. rewrite getu32_join by done.
  by destruct (by_join (idx pt o) (idx pt (o + 1)) (idx pt (o + 2)) (idx pt (o + 3)))
    as (-> & -> & -> & ->); auto using idx_u8.
Qed.

Lemma store_load pt rk : block_ok pt -> store_state (st_xor (load_state pt rk) (rkey rk 0)) = pt.
Proof.
  intros [Hl Hb]. unfold store_state, st_xor, load_state, rkey. st_simpl.
  rewrite !lxor_cancel_r, !PUTU32_GETU32 by done. by explode pt Hl.
Qed.

Lemma rkey_ok rk p : words_ok rk -> st_ok (rkey rk p).
Proof. intros. unfold rkey. st_split; by apply idx_u32. Qed.

Lemma loop_keys_ok rk p n : words_ok rk -> Forall st_ok (loop_keys rk p n).
Proof. intros. apply Forall_map, Forall_forall. intros. by apply rkey_ok. Qed.
#[local] Opaque idx rkey.

(** Encryption and decryption as folds over the round keys of the schedule. *)
Lemma rijndaelEncrypt_last rk bits Nr pt : aes_size bits Nr ->
  rijndaelEncrypt rk Nr pt =
  store_state (enc_last (fold_left enc_round (loop_keys rk 0 (Z.to_nat (Nr - 1)))
    (load_state pt rk)) (rkey rk (4 * Nr))).
Proof.
  intros Hsz. unfold rijndaelEncrypt.
  by rewrite (aes_size_half bits Nr Hsz), enc_loop_fold, (aes_size_full bits Nr Hsz),
    (aes_size_end bits Nr Hsz).
Qed.

Lemma rijndaelEncrypt_fold rk bits Nr pt : aes_size bits Nr -> words_ok rk -> bytes_ok pt ->
  rijndaelEncrypt rk Nr pt =
  store_state (st_xor (shift_sub (fold_left enc_round (loop_keys rk 0 (Z.to_nat (Nr - 1)))
    (load_state pt rk))) (rkey rk (4 * Nr))).
Proof.
  intros Hsz Hrk Hpt. rewrite (rijndaelEncrypt_last rk bits), enc_last_eq; [done| |done].
  apply fold_enc_ok; [by apply load_state_ok|]. by apply loop_keys_ok.
Qed.

Lemma rijndaelDecrypt_fold rk bits Nr ct : aes_size bits Nr ->
  rijndaelDecrypt rk Nr ct =
  store_state (dec_last (fold_left dec_round (loop_keys rk 0 (Z.to_nat (Nr - 1)))
    (load_state ct rk)) (rkey rk (4 * Nr))).
Proof.
  intros Hsz. unfold rijndaelDecrypt.
  by rewrite (aes_size_half bits Nr Hsz), dec_loop_fold, (aes_size_full bits Nr Hsz),
    (aes_size_end bits Nr Hsz).
Qed.

Lemma rijndaelEncrypt_ok rk bits Nr pt : aes_size bits Nr -> words_ok rk -> bytes_ok pt ->
  block_ok (rijndaelEncrypt rk Nr pt).
Proof.
  intros Hsz Hrk Hpt. rewrite (rijndaelEncrypt_fold rk bits) by done.
  apply store_state_ok, st_xor_ok; [|by apply rkey_ok].
  apply shift_sub_ok, fold_enc_ok; [by apply load_state_ok | by apply loop_keys_ok].
Qed.

(** The cipher under a schedule and under the decryption schedule made from it. *)
Lemma decrypt_encrypt_schedule rk bits Nr pt :
  aes_size bits Nr -> words_ok rk -> length rk = Z.to_nat (4 * (Nr + 1)) -> block_ok pt ->
  rijndaelDecrypt (dec_schedule rk Nr) Nr (rijndaelEncrypt rk Nr pt) = pt.
Proof.
  intros Hsz Hrk Hlen Hpt. destruct (dec_schedule_keys rk bits Nr Hsz Hlen) as (K0 & Kmid & Kend).
  rewrite (rijndaelDecrypt_fold _ bits), (rijndaelEncrypt_fold rk bits) by (done || apply Hpt).
  assert (Hs : st_ok (load_state pt rk)) by (apply load_state_ok; [apply Hpt|done]).
  assert (Hks : Forall st_ok (loop_keys rk 0 (Z.to_nat (Nr - 1)))) by by apply loop_keys_ok.
  assert (Hf : st_ok (shift_sub (fold_left enc_round (loop_keys rk 0 (Z.to_nat (Nr - 1))) (load_state pt rk))))
    by by apply shift_sub_ok, fold_enc_ok.
  rewrite load_state_store by (apply st_xor_ok; [done | by apply rkey_ok]).
  rewrite K0, st_xor_cancel, Kmid, Kend, dec_rounds_enc_rounds by done.
  rewrite dec_last_eq by by apply shift_sub_ok.
  rewrite inv_shift_sub_shift_sub by done. by apply store_load.
Qed.

Lemma encrypt_decrypt_schedule rk bits Nr ct :
  aes_size bits Nr -> words_ok rk -> length rk = Z.to_nat (4 * (Nr + 1)) -> block_ok ct ->
  block_ok (rijndaelDecrypt (dec_schedule rk Nr) Nr ct) /\
  rijndaelEncrypt rk Nr (rijndaelDecrypt (dec_schedule rk Nr) Nr ct) = ct.
Proof.
  intros Hsz Hrk Hlen Hct. destruct (dec_schedule_keys rk bits Nr Hsz Hlen) as (K0 & Kmid & Kend).
  assert (Hks : Forall st_ok (loop_keys rk 0 (Z.to_nat (Nr - 1)))) by by apply loop_keys_ok.
  assert (Hs : st_ok (load_state ct (dec_schedule rk Nr))).
  { pose proof (st_xor_ok _ _ (load_state_ok ct [] (proj2 Hct) (List.Forall_nil _)) (rkey_ok rk (4 * Nr) Hrk)) as H.
    by rewrite <- K0, load_state_nil in H. }
  destruct (enc_rounds_dec_rounds _ _ Hs Hks) as [Hok Hfold]. rewrite <- Kmid in Hok, Hfold.
  rewrite (rijndaelDecrypt_fold _ bits), Kend, dec_last_eq by done.
  assert (Hi : st_ok (st_xor (inv_shift_sub (fold_left dec_round
    (loop_keys (dec_schedule rk Nr) 0 (Z.to_nat (Nr - 1))) (load_state ct (dec_schedule rk Nr)))) (rkey rk 0)))
    by (apply st_xor_ok; [by apply inv_shift_sub_ok | by apply rkey_ok]).
  split; [by apply store_state_ok|].
  rewrite (rijndaelEncrypt_fold rk bits) by (done || by apply store_state_ok).
  rewrite load_state_store, st_xor_cancel, Hfold, shift_sub_inv_shift_sub by done.
  rewrite <- K0. by apply store_load.
Qed.

(** ** Main results *)

(** C31: The AES of the library is correct as a pair: for each of the three key
    sizes, decrypting with the schedule of rijndaelKeySetupDec what was encrypted
    with the schedule of rijndaelKeySetupEnc gives the block back, and the other
    way round; both schedules report the round count AES_ROUNDS uses. *)
Theorem rijndael_decrypt_encrypt key bits Nr b :
  bytes_ok key -> aes_size bits Nr -> block_ok b ->
  let '(nr, rke) := rijndaelKeySetupEnc key bits in
  let '(nd, rkd) := rijndaelKeySetupDec key bits in
  nr = Nr /\ nd = Nr /\
  rijndaelDecrypt rkd Nr (rijndaelEncrypt rke Nr b) = b /\
  rijndaelEncrypt rke Nr (rijndaelDecrypt rkd Nr b) = b.
Proof.
  intros Hkey Hsz Hb. pose proof (setup_enc_facts key bits Nr Hkey Hsz) as H.
  unfold rijndaelKeySetupDec. destruct (rijndaelKeySetupEnc key bits) as [nr rk].
  destruct H as (-> & Hw & Hl). split_and!; [done|done| |].
  - by apply (decrypt_encrypt_schedule rk bits).
  - by apply (encrypt_decrypt_schedule rk bits).
Qed.

Lemma rijndael_decrypt_encrypt_witness :
  let pt := map (fun x => 17 * x) (zrange 16) in
  rijndaelEncrypt (snd (rijndaelKeySetupEnc (zrange 32) 256)) 14 pt =
    [0x8e; 0xa2; 0xb7; 0xca; 0x51; 0x67; 0x45; 0xbf; 0xea; 0xfc; 0x49; 0x90; 0x4b; 0x49; 0x60; 0x89] /\
  rijndaelDecrypt (snd (rijndaelKeySetupDec (zrange 32) 256)) 14
    (rijndaelEncrypt (snd (rijndaelKeySetupEnc (zrange 32) 256)) 14 pt) = pt.
Proof.
  split; [vm_compute; reflexivity|].
  refine (proj1 (proj2 (proj2 (rijndael_decrypt_encrypt (zrange 32) 256 14 (map (fun x => 17 * x) (zrange 16)) _ _ _)))).
  - apply bytes_ok_b. vm_compute. reflexivity.
  - unfold aes_size. lia.
  - split; [reflexivity | apply bytes_ok_b; vm_compute; reflexivity].
Defined.

(** The FULL_UNROLL bodies compute the same blocks as the rolled loops, for
    encryption and for decryption, whatever the schedule and the block. *)
Theorem rijndael_unrolled_eq rk bits Nr b : aes_size bits Nr ->
  rijndaelEncrypt_unrolled rk Nr b = rijndaelEncrypt rk Nr b /\
  rijndaelDecrypt_unrolled rk Nr b = rijndaelDecrypt rk Nr b.
Proof. by intros [[-> ->]|[[-> ->]|[-> ->]]]. Qed.

Lemma rijndael_unrolled_eq_witness :
  rijndaelEncrypt_unrolled (zrange 52) 12 (zrange 16) = rijndaelEncrypt (zrange 52) 12 (zrange 16).
Proof.
  refine (proj1 (rijndael_unrolled_eq (zrange 52) 192 12 (zrange 16) _)). unfold aes_size. lia.
Defined.

#[local] Transparent dec_last.
Lemma dec_last_zero t k : st_xor (dec_last t (St4 0 0 0 0)) k = dec_last t k.
Proof.
  destruct k. unfold st_xor, dec_last, dec_last_word. st_simpl.
  by rewrite !Z.lxor_0_r.
Qed.
#[local] Opaque dec_last.

Lemma kat_loop_4 f n rk s :
  kat_loop f n rk 4 s = (fold_left f (loop_keys rk 0 n) s, 4 + 4 * Z.of_nat n).
Proof. exact (kat_loop_fold f n rk 0 s). Qed.

Lemma aes_size_kat bits Nr : aes_size bits Nr -> 4 + 4 * Z.of_nat (Z.to_nat (Nr - 1)) = 4 * Nr.
Proof. by intros [[_ ->]|[[_ ->]|[_ ->]]]. Qed.

(** Run for all [Nr] rounds, the known-answer-test entry points give what the
    ciphers give. *)
Theorem rijndael_kat_full rk bits Nr b : aes_size bits Nr ->
  rijndaelEncryptRound rk Nr b Nr = rijndaelEncrypt rk Nr b /\
  rijndaelDecryptRound rk Nr b Nr = rijndaelDecrypt rk Nr b.
Proof.
  intros Hsz. unfold rijndaelEncryptRound, rijndaelDecryptRound.
  rewrite (rijndaelEncrypt_last rk bits), (rijndaelDecrypt_fold rk bits) by done.
  rewrite Z.ltb_irrefl, Z.eqb_refl.
  rewrite !kat_loop_4. cbv zeta beta iota. rewrite (aes_size_kat bits Nr Hsz).
  split; [done|]. f_equal. apply dec_last_zero.
Qed.

Lemma rijndael_kat_full_witness :
  rijndaelDecryptRound (zrange 44) 10 (zrange 16) 10 = rijndaelDecrypt (zrange 44) 10 (zrange 16).
Proof.
  refine (proj2 (rijndael_kat_full (zrange 44) 128 10 (zrange 16) _)). unfold aes_size. lia.
Defined.
