(* ===== verification/AesCbc.v ===== *)
(** CBC mode of src/userspace/libbcmcrypto/src/aes.c over the flat memory of Mem.v,
    so that the claim of the comments there, that input and output may be the same
    buffer, can be stated.  Encryption keeps it; decryption does not: the loop takes
    the previous ciphertext block through a pointer into the buffer it has just
    overwritten. *)
From stdpp Require Import base numbers list.
From Stdlib Require Import ZArith Lia.
From S2P Require Import Prelude AesTables Mem Rijndael.

(** ** Definitions *)

Definition AES_BLOCK_SZ : nat := 16.
Definition AES_KEY_BITLEN (kl : Z) : Z := (kl * 8)%Z.
Definition AES_ROUNDS (kl : Z) : Z := (AES_KEY_BITLEN kl / 32 + 6)%Z.

Definition aes_block_encrypt (nr : Z) (rk ptxt : list Z) : list Z := rijndaelEncrypt rk nr ptxt.
Definition aes_block_decrypt (nr : Z) (rk ctxt : list Z) : list Z := rijndaelDecrypt rk nr ctxt.

Definition aes_encrypt (kl : Z) (K ptxt : list Z) : list Z :=
  let '(_, rk) := rijndaelKeySetupEnc K (AES_KEY_BITLEN kl) in
  rijndaelEncrypt rk (AES_ROUNDS kl) ptxt.

Definition aes_decrypt (kl : Z) (K ctxt : list Z) : list Z :=
  let '(_, rk) := rijndaelKeySetupDec K (AES_KEY_BITLEN kl) in
  rijndaelDecrypt rk (AES_ROUNDS kl) ctxt.

(** [enum { NO_PADDING, PAD_LEN_PADDING }], and any other value of the uint8. *)
Inductive padding := NO_PADDING | PAD_LEN_PADDING | PAD_OTHER.

(** The local variables of the two loops: the memory, the pointers [iv],
    [plain_data]/[crypt_data] (input, output), [remaining] and the length so far. *)
Record cbc := Cbc { cb_m : mem; cb_iv : nat; cb_in : nat; cb_out : nat; cb_rem : nat; cb_len : nat }.

Definition cbc_enc_step (nr : Z) (rk : list Z) (s : cbc) : cbc :=
  let tmp := xor_bytes (rd (cb_m s) (cb_iv s) 16) (rd (cb_m s) (cb_in s) 16) in
  Cbc (wr (cb_m s) (cb_out s) (aes_block_encrypt nr rk tmp)) (cb_out s)
      (cb_in s + 16) (cb_out s + 16) (cb_rem s - 16) (cb_len s + 16).

Definition cbc_dec_step (nr : Z) (rk : list Z) (s : cbc) : cbc :=
  let tmp := aes_block_decrypt nr rk (rd (cb_m s) (cb_in s) 16) in
  Cbc (wr (cb_m s) (cb_out s) (xor_bytes tmp (rd (cb_m s) (cb_iv s) 16))) (cb_in s)
      (cb_in s + 16) (cb_out s + 16) (cb_rem s - 16) (cb_len s + 16).

(** [while (remaining >= AES_BLOCK_SZ)]; every step takes 16 off [remaining], so
    [fuel = data_len] is more than enough ([cbc_loop_iter]). *)
Fixpoint cbc_loop (step : cbc -> cbc) (fuel : nat) (s : cbc) : cbc :=
  match fuel with
  | O => s
  | S fuel => if 16 <=? cb_rem s then cbc_loop step fuel (step s) else s
  end.

(** Returned value and memory. *)
Definition aes_cbc_encrypt_pad (rk : list Z) (key_len : Z) (m : mem)
    (nonce data_len ptxt ctxt : nat) (padd_type : padding) : Z * mem :=
  let nr := AES_ROUNDS key_len in
  let s := cbc_loop (cbc_enc_step nr rk) data_len (Cbc m nonce ptxt ctxt data_len 0) in
  match padd_type with
  | NO_PADDING => (Z.of_nat (cb_len s), cb_m s)
  | PAD_LEN_PADDING =>
      let iv := rd (cb_m s) (cb_iv s) 16 in
      let tmp := xor_bytes (rd (cb_m s) (cb_in s) (cb_rem s)
                            ++ replicate (16 - cb_rem s) (Z.of_nat (16 - cb_rem s))) iv in
      (Z.of_nat (cb_len s + 16), wr (cb_m s) (cb_out s) (aes_block_encrypt nr rk tmp))
  | PAD_OTHER => ((-1)%Z, cb_m s)
  end.

Definition aes_cbc_encrypt (rk : list Z) (key_len : Z) (m : mem)
    (nonce data_len ptxt ctxt : nat) : Z * mem :=
  if negb (data_len mod 16 =? 0) then ((-1)%Z, m)
  else if data_len <? 16 then ((-1)%Z, m)
  else aes_cbc_encrypt_pad rk key_len m nonce data_len ptxt ctxt NO_PADDING.

(** A uint32 returned as an int. *)
Definition to_int32 (x : Z) : Z := (if x <? 2 ^ 31 then x else x - 2 ^ 32)%Z.

Definition aes_cbc_decrypt_pad (rk : list Z) (key_len : Z) (m : mem)
    (nonce data_len ctxt ptxt : nat) (padd_type : padding) : Z * mem :=
  if negb (data_len mod 16 =? 0) then ((-1)%Z, m)
  else if data_len <? 16 then ((-1)%Z, m)
  else
    let nr := AES_ROUNDS key_len in
    let s := cbc_loop (cbc_dec_step nr rk) data_len (Cbc m nonce ctxt ptxt data_len 0) in
    let plaintext_len := Z.of_nat (cb_len s) in
    let plaintext_len :=
      match padd_type with
      | PAD_LEN_PADDING => wrap32 (plaintext_len - idx (rd (cb_m s) (ptxt + cb_len s - 1) 1) 0)
      | _ => plaintext_len
      end in
    (to_int32 plaintext_len, cb_m s).

Definition aes_cbc_decrypt (rk : list Z) (key_len : Z) (m : mem)
    (nonce data_len ctxt ptxt : nat) : Z * mem :=
  aes_cbc_decrypt_pad rk key_len m nonce data_len ctxt ptxt NO_PADDING.

(** ** The block-cipher interface the modes rely on *)

(** [E] and [D] are a block cipher under one key and its inverse. *)
Class BlockPair (E D : list Z -> list Z) : Prop := {
  bp_ok : forall b, bytes_ok b -> block_ok (E b);
  bp_dec : forall b, block_ok b -> D (E b) = b;
  bp_dec_ok : forall b, block_ok b -> block_ok (D b);
  bp_enc : forall b, block_ok b -> E (D b) = b
}.

(** A valid key: a byte string of one of the AES sizes. *)
Definition key_ok (kl : Z) (K : list Z) : Prop :=
  bytes_ok K /\ (kl = 16 \/ kl = 24 \/ kl = 32)%Z.

Lemma key_ok_size kl K : key_ok kl K -> aes_size (AES_KEY_BITLEN kl) (AES_ROUNDS kl).
Proof. intros [_ [-> | [-> | ->]]]; [by left | by right; left | by right; right]. Qed.

(** The schedules of a valid key make the library's AES a block pair. *)
#[export] Instance aes_block_pair kl K : key_ok kl K ->
  BlockPair (aes_block_encrypt (AES_ROUNDS kl) (snd (rijndaelKeySetupEnc K (AES_KEY_BITLEN kl))))
            (aes_block_decrypt (AES_ROUNDS kl) (snd (rijndaelKeySetupDec K (AES_KEY_BITLEN kl)))).
Proof.
  intros HK. pose proof (key_ok_size kl K HK) as Hsz. destruct HK as [HK _].
  pose proof (setup_enc_facts K _ _ HK Hsz) as Hf.
  unfold rijndaelKeySetupDec, aes_block_encrypt, aes_block_decrypt.
  destruct (rijndaelKeySetupEnc K (AES_KEY_BITLEN kl)) as [nr rk].
  destruct Hf as (-> & Hw & Hl). split.
  - intros b Hb. by apply (rijndaelEncrypt_ok rk (AES_KEY_BITLEN kl)).
  - intros b Hb. by apply (decrypt_encrypt_schedule rk (AES_KEY_BITLEN kl)).
  - intros b Hb. by apply (encrypt_decrypt_schedule rk (AES_KEY_BITLEN kl)).
  - intros b Hb. by apply (encrypt_decrypt_schedule rk (AES_KEY_BITLEN kl)).
Qed.

#[local] Arguments Nat.div : simpl never.
#[local] Arguments Nat.modulo : simpl never.
#[local] Arguments Nat.mul : simpl never.

(** ** CBC on lists of blocks *)

Fixpoint cbc_enc (E : list Z -> list Z) (iv : list Z) (bs : list (list Z)) : list (list Z) :=
  match bs with
  | [] => []
  | b :: bs => let c := E (xor_bytes iv b) in c :: cbc_enc E c bs
  end.

Fixpoint cbc_dec (D : list Z -> list Z) (iv : list Z) (cs : list (list Z)) : list (list Z) :=
  match cs with
  | [] => []
  | c :: cs => xor_bytes (D c) iv :: cbc_dec D c cs
  end.

(** The chaining value after the blocks [bs]. *)
Definition cbc_end (E : list Z -> list Z) (iv : list Z) (bs : list (list Z)) : list Z :=
  fold_left (fun iv b => E (xor_bytes iv b)) bs iv.

Lemma cbc_enc_snoc E iv bs b :
  cbc_enc E iv (bs ++ [b]) = cbc_enc E iv bs ++ [E (xor_bytes (cbc_end E iv bs) b)].
Proof.
  revert iv. induction bs as [|x bs IH]; intros iv; [done|]. simpl. by rewrite IH.
Qed.

(** What the decryption loop computes when both pointers are the same: from the
    second block on it chains the plaintext it has just written. *)
Fixpoint cbc_dec_inplace (D : list Z -> list Z) (iv : list Z) (cs : list (list Z)) : list (list Z) :=
  match cs with
  | [] => []
  | c :: cs => let p := xor_bytes (D c) iv in p :: cbc_dec_inplace D p cs
  end.

(** The [n] blocks at [p]. *)
Definition blocks (m : mem) (p n : nat) : list (list Z) :=
  map (fun i => rd m (p + 16 * i) 16) (seq 0 n).

Lemma blocks_S m p n : blocks m p (S n) = rd m p 16 :: blocks m (p + 16) n.
Proof.
  unfold blocks. simpl. f_equal; [f_equal; lia|].
  rewrite <- seq_shift, List.map_map. apply map_ext. intros i. f_equal. lia.
Qed.

Lemma blocks_snoc m p n : blocks m p (n + 1) = blocks m p n ++ [rd m (p + 16 * n) 16].
Proof. unfold blocks. by rewrite seq_app, map_app. Qed.

Lemma blocks_concat m p n : concat (blocks m p n) = rd m p (16 * n).
Proof.
  revert p. induction n as [|n IH]; intros p; [done|].
  rewrite blocks_S. simpl concat. rewrite IH, <- rd_app. f_equal. lia.
Qed.

Lemma blocks_ext m m' p n : (forall i, i < n -> rd m (p + 16 * i) 16 = rd m' (p + 16 * i) 16) ->
  blocks m p n = blocks m' p n.
Proof. intros H. apply map_ext_in. intros i Hi%in_seq. apply H. lia. Qed.

Lemma rd_block_ok m o : bytes_ok m -> o + 16 <= length m -> block_ok (rd m o 16).
Proof. intros. split; [by apply rd_length | auto with word]. Qed.

Lemma blocks_ok m p n : bytes_ok m -> p + 16 * n <= length m -> Forall block_ok (blocks m p n).
Proof.
  intros Hm Hp. apply Forall_map, List.Forall_forall. intros i Hi%in_seq.
  split; [apply rd_length; lia | auto with word].
Qed.

Lemma xor_block_ok a b : block_ok a -> block_ok b -> block_ok (xor_bytes a b).
Proof. intros [] []. split; [rewrite xor_bytes_length; lia | auto with word]. Qed.

Lemma cbc_dec_enc E D iv bs : BlockPair E D -> block_ok iv -> Forall block_ok bs ->
  cbc_dec D iv (cbc_enc E iv bs) = bs.
Proof.
  intros HE Hiv Hbs. revert iv Hiv. induction Hbs as [|b bs Hb Hbs IH]; intros iv Hiv; [done|].
  assert (Hx : block_ok (xor_bytes iv b)) by by apply xor_block_ok.
  simpl. rewrite bp_dec by done. f_equal.
  - rewrite (xor_bytes_comm iv). apply xor_bytes_cancel. destruct Hiv, Hb. lia.
  - apply IH, bp_ok, Hx.
Qed.

(** ** The loops *)

Lemma cbc_loop_iter step fuel s : cb_rem s <= fuel ->
  (forall s, cb_rem (step s) = cb_rem s - 16) ->
  cbc_loop step fuel s = Nat.iter (cb_rem s / 16) step s.
Proof.
  intros Hf Hstep. revert s Hf. induction fuel as [|fuel IH]; intros s Hf; cbn [cbc_loop].
  - by replace (cb_rem s) with 0 by lia.
  - destruct (Nat.leb_spec 16 (cb_rem s)) as [Hl|Hl].
    + rewrite IH by (rewrite Hstep; lia). rewrite Hstep.
      replace (cb_rem s / 16) with (S ((cb_rem s - 16) / 16)).
      * by rewrite Nat.iter_succ_r.
      * replace (cb_rem s) with ((cb_rem s - 16) + 1 * 16) at 2 by lia.
        rewrite Nat.div_add by lia. lia.
    + by rewrite Nat.div_small.
Qed.

(** Pointers and lengths after [n] iterations. *)
Lemma cbc_iter_scalars step n s :
  (forall s, cb_in (step s) = cb_in s + 16 /\ cb_out (step s) = cb_out s + 16 /\
             cb_rem (step s) = cb_rem s - 16 /\ cb_len (step s) = cb_len s + 16) ->
  let s' := Nat.iter n step s in
  cb_in s' = cb_in s + 16 * n /\ cb_out s' = cb_out s + 16 * n /\
  cb_rem s' = cb_rem s - 16 * n /\ cb_len s' = cb_len s + 16 * n.
Proof.
  intros H. induction n as [|n IH]; simpl; [lia|].
  destruct (H (Nat.iter n step s)) as (-> & -> & -> & ->). simpl in IH. lia.
Qed.

Section loops.
Context (nr : Z) (rk : list Z).
#[local] Abbreviation E := (aes_block_encrypt nr rk).
#[local] Abbreviation D := (aes_block_decrypt nr rk).
Hypothesis E_length : forall b, bytes_ok b -> block_ok (E b).
Hypothesis D_length : forall b, length (D b) = 16.

(** Input and output of the encryption loop may coincide or be disjoint. *)
Definition same_or_disj (p c n : nat) : Prop := p = c \/ disj c n p n.

Lemma cbc_enc_iter n m iv p c r l :
  bytes_ok m -> iv + 16 <= length m -> p + 16 * n <= length m -> c + 16 * n <= length m ->
  same_or_disj p c (16 * n) ->
  let s' := Nat.iter n (cbc_enc_step nr rk) (Cbc m iv p c r l) in
  let m' := cb_m s' in
  length m' = length m /\ bytes_ok m' /\
  blocks m' c n = cbc_enc E (rd m iv 16) (blocks m p n) /\
  rd m' (cb_iv s') 16 = cbc_end E (rd m iv 16) (blocks m p n) /\
  (forall o k, o + k <= length m -> disj c (16 * n) o k -> rd m' o k = rd m o k).
Proof using E_length.
  revert m iv p c r l. induction n as [|n IH]; intros m iv p c r l Hm Hiv Hp Hc Hd; [done|].
  rewrite Nat.iter_succ_r. unfold cbc_enc_step at 2. cbn [cb_m cb_iv cb_in cb_out cb_rem cb_len].
  set (e := E (xor_bytes (rd m iv 16) (rd m p 16))).
  assert (He : block_ok e) by (apply E_length; auto with word).
  destruct He as [He1 He2].
  assert (Hm1 : length (wr m c e) = length m) by (apply wr_length; lia).
  assert (Hdn : same_or_disj (p + 16) (c + 16) (16 * n)) by (unfold same_or_disj, disj in *; lia).
  destruct (IH (wr m c e) c (p + 16) (c + 16) (r - 16) (l + 16)) as (Hl & Hb & Hbl & Hend & Hout);
    [auto with word|lia|lia|lia|done|].
  rewrite (rd_wr_same m c e 16) in Hbl, Hend by lia.
  replace (blocks (wr m c e) (p + 16) n) with (blocks m (p + 16) n) in Hbl, Hend.
  2: { apply blocks_ext. intros i Hi. symmetry. apply rd_wr_disj; [lia|lia|].
       unfold same_or_disj, disj in *. lia. }
  cbv zeta. rewrite !blocks_S. split_and!; [congruence|done| |done|].
  - cbn [cbc_enc]. fold e. rewrite Hbl. f_equal.
    rewrite Hout by (unfold disj; lia). apply rd_wr_same; lia.
  - intros o k Ho Hdo. rewrite Hout by (rewrite ?Hm1; unfold disj in *; lia).
    apply rd_wr_disj; unfold disj in *; lia.
Qed.

(** Decryption into a disjoint buffer. *)
Lemma cbc_dec_iter n m iv c p r l :
  iv + 16 <= length m -> c + 16 * n <= length m -> p + 16 * n <= length m ->
  disj p (16 * n) c (16 * n) ->
  let m' := cb_m (Nat.iter n (cbc_dec_step nr rk) (Cbc m iv c p r l)) in
  length m' = length m /\
  blocks m' p n = cbc_dec D (rd m iv 16) (blocks m c n) /\
  (forall o k, o + k <= length m -> disj p (16 * n) o k -> rd m' o k = rd m o k).
Proof using D_length.
  revert m iv p c r l. induction n as [|n IH]; intros m iv p c r l Hiv Hc Hp Hd; [done|].
  rewrite Nat.iter_succ_r. unfold cbc_dec_step at 2. cbn [cb_m cb_iv cb_in cb_out cb_rem cb_len].
  set (x := xor_bytes (D (rd m c 16)) (rd m iv 16)).
  assert (Hx : length x = 16).
  { unfold x. rewrite xor_bytes_length, D_length, rd_length; lia. }
  assert (Hm1 : length (wr m p x) = length m) by (apply wr_length; lia).
  destruct (IH (wr m p x) c (p + 16) (c + 16) (r - 16) (l + 16)) as (Hl & Hbl & Hout);
    [lia|lia|lia|unfold disj in *; lia|].
  cbv zeta. split_and!; [congruence| |].
  - rewrite !blocks_S. cbn [cbc_dec]. fold x. rewrite Hbl. f_equal.
    + rewrite Hout by (unfold disj; lia). apply rd_wr_same; lia.
    + rewrite (rd_wr_disj m p x c 16) by (unfold disj in *; lia). f_equal.
      apply blocks_ext. intros i Hi. apply rd_wr_disj; unfold disj in *; lia.
  - intros o k Ho Hdo. rewrite Hout by (rewrite ?Hm1; unfold disj in *; lia).
    apply rd_wr_disj; unfold disj in *; lia.
Qed.

(** Decryption in place. *)
Lemma cbc_dec_iter_inplace n m iv p r l :
  iv + 16 <= length m -> p + 16 * n <= length m ->
  let m' := cb_m (Nat.iter n (cbc_dec_step nr rk) (Cbc m iv p p r l)) in
  length m' = length m /\
  blocks m' p n = cbc_dec_inplace D (rd m iv 16) (blocks m p n) /\
  (forall o k, o + k <= length m -> disj p (16 * n) o k -> rd m' o k = rd m o k).
Proof using D_length.
  revert m iv p r l. induction n as [|n IH]; intros m iv p r l Hiv Hp; [done|].
  rewrite Nat.iter_succ_r. unfold cbc_dec_step at 2. cbn [cb_m cb_iv cb_in cb_out cb_rem cb_len].
  set (x := xor_bytes (D (rd m p 16)) (rd m iv 16)).
  assert (Hx : length x = 16).
  { unfold x. rewrite xor_bytes_length, D_length, rd_length; lia. }
  assert (Hm1 : length (wr m p x) = length m) by (apply wr_length; lia).
  destruct (IH (wr m p x) p (p + 16) (r - 16) (l + 16)) as (Hl & Hbl & Hout); [lia|lia|].
  cbv zeta. split_and!; [congruence| |].
  - rewrite !blocks_S. cbn [cbc_dec_inplace]. fold x.
    rewrite (rd_wr_same m p x 16) in Hbl by lia. rewrite Hbl. f_equal.
    + rewrite Hout by (unfold disj; lia). apply rd_wr_same; lia.
    + f_equal. apply blocks_ext. intros i Hi. apply rd_wr_disj; unfold disj in *; lia.
  - intros o k Ho Hdo. rewrite Hout by (rewrite ?Hm1; unfold disj in *; lia).
    apply rd_wr_disj; unfold disj in *; lia.
Qed.
End loops.

(** ** Properties of the entry points *)

Lemma aes_block_decrypt_length nr rk b : length (aes_block_decrypt nr rk b) = 16.
Proof. unfold aes_block_decrypt, rijndaelDecrypt. by destruct (dec_loop _ _ _ _). Qed.

Lemma cbc_enc_loop_iter nr rk m nonce p c len :
  cbc_loop (cbc_enc_step nr rk) len (Cbc m nonce p c len 0) =
  Nat.iter (len / 16) (cbc_enc_step nr rk) (Cbc m nonce p c len 0).
Proof. by rewrite cbc_loop_iter. Qed.

Lemma cbc_dec_loop_iter nr rk m nonce c p len :
  cbc_loop (cbc_dec_step nr rk) len (Cbc m nonce c p len 0) =
  Nat.iter (len / 16) (cbc_dec_step nr rk) (Cbc m nonce c p len 0).
Proof. by rewrite cbc_loop_iter. Qed.

(** The blocks aes_cbc_encrypt_pad encrypts under PAD_LEN_PADDING: the whole blocks
    and the rest followed by its distance to 16. *)
Definition padded_blocks (m : mem) (p len : nat) : list (list Z) :=
  let n := len / 16 in let r := len mod 16 in
  blocks m p n ++ [rd m (p + 16 * n) r ++ replicate (16 - r) (Z.of_nat (16 - r))].

Lemma padded_last_ok m p len : bytes_ok m -> p + len <= length m ->
  block_ok (rd m (p + 16 * (len / 16)) (len mod 16) ++
            replicate (16 - len mod 16) (Z.of_nat (16 - len mod 16))).
Proof.
  intros Hm Hp. pose proof (Nat.div_mod_eq len 16). pose proof (Nat.mod_upper_bound len 16).
  split.
  - rewrite length_app, length_replicate, rd_length; lia.
  - apply Forall_app_2; [auto with word|]. apply Forall_replicate. unfold is_u. lia.
Qed.

Section entry.
Context (nr kl : Z) (K : list Z) (HK : key_ok kl K).
#[local] Abbreviation rke := (snd (rijndaelKeySetupEnc K (AES_KEY_BITLEN kl))).
#[local] Abbreviation rkd := (snd (rijndaelKeySetupDec K (AES_KEY_BITLEN kl))).
#[local] Abbreviation E := (aes_block_encrypt (AES_ROUNDS kl) rke).
#[local] Abbreviation D := (aes_block_decrypt (AES_ROUNDS kl) rkd).

(** What PAD_LEN_PADDING encryption leaves in memory. *)
Lemma aes_cbc_encrypt_pad_spec m nonce len p c :
  let n := len / 16 in
  bytes_ok m -> nonce + 16 <= length m -> p + len <= length m -> c + 16 * (n + 1) <= length m ->
  p = c \/ disj c (16 * (n + 1)) p len ->
  let '(ret, m') := aes_cbc_encrypt_pad rke kl m nonce len p c PAD_LEN_PADDING in
  ret = Z.of_nat (16 * (n + 1)) /\ length m' = length m /\ bytes_ok m' /\
  blocks m' c (n + 1) = cbc_enc E (rd m nonce 16) (padded_blocks m p len) /\
  (forall o k, o + k <= length m -> disj c (16 * (n + 1)) o k -> rd m' o k = rd m o k).
Proof using HK.
  intros n Hm Hn Hp Hc Hd. pose proof (aes_block_pair kl K HK) as [HE _ _ _].
  pose proof (Nat.div_mod_eq len 16) as Hdm. fold n in Hdm.
  pose proof (Nat.mod_upper_bound len 16 ltac:(lia)) as Hr.
  unfold aes_cbc_encrypt_pad. rewrite cbc_enc_loop_iter. fold n.
  destruct (cbc_iter_scalars (cbc_enc_step (AES_ROUNDS kl) rke) n (Cbc m nonce p c len 0))
    as (Hin & Hout & Hrem & Hlen); [done|].
  destruct (cbc_enc_iter (AES_ROUNDS kl) rke HE n m nonce p c len 0)
    as (Hl & Hb & Hbl & Hend & Hkeep); [done|lia|lia|lia|unfold same_or_disj, disj in *; lia|].
  cbv zeta in *. set (s := Nat.iter n _ _) in *.
  rewrite Hin, Hout, Hrem, Hlen, Hend. cbn [cb_in cb_out cb_rem cb_len].
  replace (len - 16 * n) with (len mod 16) by lia.
  rewrite (Hkeep (p + 16 * n)) by (unfold disj in *; lia).
  rewrite xor_bytes_comm.
  pose proof (padded_last_ok m p len Hm Hp) as Hlast. fold n in Hlast.
  unfold padded_blocks. fold n. rewrite cbc_enc_snoc.
  set (lb := rd m (p + 16 * n) (len mod 16) ++ _) in *.
  set (cn := E (xor_bytes (cbc_end E (rd m nonce 16) (blocks m p n)) lb)).
  assert (Hcn : block_ok cn).
  { apply HE. apply xor_bytes_ok; [|apply Hlast]. rewrite <- Hend. auto with word. }
  destruct Hcn as [Hcn1 Hcn2].
  split_and!; [lia|by rewrite wr_length by lia|auto with word| |].
  - rewrite blocks_snoc, rd_wr_same by lia.
    f_equal. rewrite <- Hbl. apply blocks_ext. intros i Hi. apply rd_wr_disj; unfold disj; lia.
  - intros o k Ho Hdo. rewrite rd_wr_disj by (unfold disj in *; lia).
    apply Hkeep; unfold disj in *; lia.
Qed.

(** Decryption is the loop, and a returned length. *)
Lemma aes_cbc_decrypt_pad_run m nonce n c p padd : 0 < n ->
  let m' := cb_m (Nat.iter n (cbc_dec_step (AES_ROUNDS kl) rkd) (Cbc m nonce c p (16 * n) 0)) in
  aes_cbc_decrypt_pad rkd kl m nonce (16 * n) c p padd =
  (to_int32 match padd with
            | PAD_LEN_PADDING => wrap32 (Z.of_nat (16 * n) - idx (rd m' (p + 16 * n - 1) 1) 0)
            | _ => Z.of_nat (16 * n)
            end, m').
Proof using Type.
  intros Hn. unfold aes_cbc_decrypt_pad.
  replace (16 * n) with (n * 16) by lia. rewrite Nat.Div0.mod_mul. simpl negb. cbv iota.
  destruct (Nat.ltb_spec (n * 16) 16); [lia|].
  rewrite cbc_dec_loop_iter, Nat.div_mul by lia. replace (n * 16) with (16 * n) by lia.
  destruct (cbc_iter_scalars (cbc_dec_step (AES_ROUNDS kl) rkd) n (Cbc m nonce c p (16 * n) 0))
    as (_ & _ & _ & Hlen); [done|].
  cbv zeta. rewrite Hlen. cbn [cb_len]. by rewrite Nat.add_0_l.
Qed.
End entry.

Lemma to_int32_small x : (0 <= x < 2 ^ 31)%Z -> to_int32 x = x.
Proof. intros H. unfold to_int32. by destruct (Z.ltb_spec x (2 ^ 31)); [|lia]. Qed.

(** The last byte of a padded block is its padding length. *)
Lemma pad_byte m o A k v : rd m o 16 = A ++ replicate k v -> length A + k = 16 -> 0 < k ->
  idx (rd m (o + 15) 1) 0 = v.
Proof.
  intros H Hl Hk. assert (rd m (o + 15) 1 = drop 15 (rd m o 16)) as ->.
  { unfold rd. by rewrite skipn_firstn_comm, drop_drop. }
  rewrite H. destruct k as [|k]; [lia|]. rewrite replicate_S_end, app_assoc.
  by rewrite drop_app_length' by (rewrite length_app, length_replicate; lia).
Qed.

Lemma padded_blocks_ok m p len : bytes_ok m -> p + len <= length m ->
  Forall block_ok (padded_blocks m p len).
Proof.
  intros Hm Hp. apply Forall_app_2; [|by constructor; [apply padded_last_ok|]].
  apply blocks_ok; [done|]. pose proof (Nat.Div0.mul_div_le len 16). lia.
Qed.

(** A buffer holding the padded blocks holds the message and its padding length. *)
Lemma padded_blocks_read m m' p o len : let n := len / 16 + 1 in
  p + len <= length m -> o + 16 * n <= length m' ->
  blocks m' o n = padded_blocks m p len ->
  rd m' o len = rd m p len /\
  idx (rd m' (o + 16 * n - 1) 1) 0 = Z.of_nat (16 - len mod 16).
Proof.
  intros n Hp Ho Hb. pose proof (Nat.div_mod_eq len 16) as Hdm.
  pose proof (Nat.mod_upper_bound len 16 ltac:(lia)) as Hr.
  unfold padded_blocks, n in Hb. rewrite blocks_snoc in Hb.
  apply app_inj_2 in Hb as [Hb Hlast]; [|done]. injection Hlast as Hlast. split.
  - replace len with (16 * (len / 16) + len mod 16) at 1 2 by lia. rewrite !rd_app.
    rewrite <- !blocks_concat. f_equal; [by f_equal|].
    apply (f_equal (take (len mod 16))) in Hlast.
    unfold rd in Hlast at 1. rewrite take_take in Hlast.
    rewrite Nat.min_l in Hlast by lia.
    rewrite take_app_length' in Hlast by (symmetry; apply rd_length; lia). exact Hlast.
  - replace (o + 16 * n - 1) with (o + 16 * (len / 16) + 15) by lia.
    apply (pad_byte _ _ _ _ _ Hlast); [rewrite rd_length; lia | lia].
Qed.

(** PAD_LEN_PADDING round trip over memory.  Encrypting [len] bytes (in place or
    into a disjoint buffer) reports the padded length; decrypting that into a buffer
    disjoint from the ciphertext reports [len] and restores the bytes. *)
Theorem aes_cbc_pad_roundtrip kl K m nonce len src ct out :
  let L := 16 * (len / 16 + 1) in
  key_ok kl K -> bytes_ok m -> (Z.of_nat L < 2 ^ 31)%Z ->
  nonce + 16 <= length m -> src + len <= length m -> ct + L <= length m -> out + L <= length m ->
  src = ct \/ disj ct L src len -> disj ct L nonce 16 -> disj out L ct L ->
  let rke := snd (rijndaelKeySetupEnc K (AES_KEY_BITLEN kl)) in
  let rkd := snd (rijndaelKeySetupDec K (AES_KEY_BITLEN kl)) in
  let '(r1, m1) := aes_cbc_encrypt_pad rke kl m nonce len src ct PAD_LEN_PADDING in
  let '(r2, m2) := aes_cbc_decrypt_pad rkd kl m1 nonce (Z.to_nat r1) ct out PAD_LEN_PADDING in
  r1 = Z.of_nat L /\ r2 = Z.of_nat len /\ rd m2 out len = rd m src len.
Proof.
  intros L HK Hm HL Hn Hs Hc Ho Hd Hdn Hdo rke rkd.
  pose proof (aes_cbc_encrypt_pad_spec kl K HK m nonce len src ct Hm Hn Hs Hc Hd) as Henc.
  fold L rke in Henc. destruct (aes_cbc_encrypt_pad _ _ _ _ _ _ _ _) as [r1 m1].
  destruct Henc as (-> & Hl1 & Hm1 & Hbl & Hkeep). rewrite Nat2Z.id.
  subst L. set (n := len / 16 + 1) in *.
  rewrite (aes_cbc_decrypt_pad_run kl K m1 nonce n ct out) by lia. fold rkd.
  pose proof (aes_block_pair kl K HK) as HB.
  destruct (cbc_dec_iter (AES_ROUNDS kl) rkd (aes_block_decrypt_length _ _)
    n m1 nonce ct out (16 * n) 0) as (Hl2 & Hb2 & _); [lia|lia|lia|unfold disj in *; lia|].
  cbv zeta in *. set (m2 := cb_m _) in *.
  rewrite Hbl, Hkeep in Hb2 by done.
  rewrite (cbc_dec_enc _ _ _ _ HB) in Hb2
    by (by apply padded_blocks_ok || (apply rd_block_ok; [done|lia])).
  apply padded_blocks_read in Hb2 as [Hres Hpad]; [|lia|lia].
  fold n in Hpad. rewrite Hpad.
  pose proof (Nat.div_mod_eq len 16). pose proof (Nat.mod_upper_bound len 16 ltac:(lia)).
  split; [done|split; [|done]].
  unfold wrap32. rewrite Z.mod_small by lia. rewrite to_int32_small by lia. lia.
Qed.

Lemma aes_cbc_pad_roundtrip_witness :
  let m := zrange 160 in let K := zrange 24 in
  let rke := snd (rijndaelKeySetupEnc K 192) in
  let rkd := snd (rijndaelKeySetupDec K 192) in
  let '(r1, m1) := aes_cbc_encrypt_pad rke 24 m 0 37 16 53 PAD_LEN_PADDING in
  let '(r2, m2) := aes_cbc_decrypt_pad rkd 24 m1 0 (Z.to_nat r1) 53 101 PAD_LEN_PADDING in
  r1 = 48%Z /\ r2 = 37%Z /\ rd m2 101 37 = rd m 16 37.
Proof.
  apply (aes_cbc_pad_roundtrip 24 (zrange 24) (zrange 160) 0 37 16 53 101);
    try by_compute; split; by_compute.
Defined.

(** Decryption in place does not undo encryption in place, contrary to the
    comment of aes_cbc_decrypt_pad.  The first block comes back, the second comes
    back exclusive-ored with the first ciphertext and the first plaintext block. *)
Theorem aes_cbc_decrypt_inplace kl K m nonce p :
  key_ok kl K -> bytes_ok m -> nonce + 16 <= length m -> p + 32 <= length m -> disj p 32 nonce 16 ->
  let rke := snd (rijndaelKeySetupEnc K (AES_KEY_BITLEN kl)) in
  let rkd := snd (rijndaelKeySetupDec K (AES_KEY_BITLEN kl)) in
  let '(r1, m1) := aes_cbc_encrypt rke kl m nonce 32 p p in
  let '(r2, m2) := aes_cbc_decrypt rkd kl m1 nonce 32 p p in
  r1 = 32%Z /\ r2 = 32%Z /\ rd m2 p 16 = rd m p 16 /\
  rd m2 (p + 16) 16 = xor_bytes (xor_bytes (rd m (p + 16) 16) (rd m1 p 16)) (rd m p 16).
Proof.
  intros HK Hm Hn Hp Hd rke rkd. pose proof (aes_block_pair kl K HK) as HB. fold rke rkd in HB.
  assert (Henc : aes_cbc_encrypt rke kl m nonce 32 p p =
    (32%Z, cb_m (Nat.iter 2 (cbc_enc_step (AES_ROUNDS kl) rke) (Cbc m nonce p p 32 0)))) by done.
  rewrite Henc.
  destruct (cbc_enc_iter (AES_ROUNDS kl) rke bp_ok 2 m nonce p p 32 0)
    as (Hl1 & Hm1 & Hb1 & _ & Hk1); [done|lia|lia|lia|by left|].
  cbv zeta in *. set (m1 := cb_m _) in *. clearbody m1. unfold aes_cbc_decrypt.
  rewrite (aes_cbc_decrypt_pad_run kl K m1 nonce 2 p p) by lia. fold rkd.
  destruct (cbc_dec_iter_inplace (AES_ROUNDS kl) rkd (aes_block_decrypt_length _ _) 2 m1 nonce p (16 * 2) 0)
    as (Hl2 & Hb2 & _); [lia|lia|].
  cbv zeta in *. set (m2 := cb_m _) in *. clearbody m2. rewrite (Hk1 nonce) in Hb2 by (done || lia).
  rewrite Hb1 in Hb2. rewrite !blocks_S in Hb2. rewrite !blocks_S in Hb1.
  cbn [cbc_enc cbc_dec_inplace blocks map seq] in *.
  set (iv := rd m nonce 16) in *. set (p1 := rd m p 16) in *. set (p2 := rd m (p + 16) 16) in *.
  assert (Hiv : block_ok iv) by (apply rd_block_ok; [done|lia]).
  assert (Hp1 : block_ok p1) by (apply rd_block_ok; [done|lia]).
  assert (Hp2 : block_ok p2) by (apply rd_block_ok; [done|lia]).
  set (c1 := aes_block_encrypt _ _ (xor_bytes iv p1)) in *.
  assert (Hx1 : block_ok (xor_bytes iv p1)) by by apply xor_block_ok.
  assert (Hc1 : block_ok c1) by by apply bp_ok, Hx1.
  injection Hb1 as Hc _. injection Hb2 as Hb2 Hb3.
  pose proof (bp_dec (BlockPair := HB)) as HD.
  assert (Hx2 : block_ok (xor_bytes c1 p2)) by by apply xor_block_ok.
  pose proof (HD _ Hx1) as HD1. fold c1 in HD1. rewrite HD1 in Hb2, Hb3. rewrite (HD _ Hx2) in Hb3.
  rewrite (xor_bytes_comm iv), xor_bytes_cancel in Hb2, Hb3 by (destruct Hiv, Hp1; lia).
  split_and!; [done|done|done|]. rewrite Hb3, Hc. f_equal. apply xor_bytes_comm.
Qed.

Lemma aes_cbc_decrypt_inplace_witness :
  let m := zrange 64 in let K := zrange 16 in
  let '(r1, m1) := aes_cbc_encrypt (snd (rijndaelKeySetupEnc K 128)) 16 m 0 32 16 16 in
  let '(r2, m2) := aes_cbc_decrypt (snd (rijndaelKeySetupDec K 128)) 16 m1 0 32 16 16 in
  rd m2 32 16 <> rd m 32 16 /\
  rd m2 32 16 = xor_bytes (xor_bytes (rd m 32 16) (rd m1 16 16)) (rd m 16 16).
Proof.
  split; [vm_compute; discriminate|].
  refine (proj2 (proj2 (proj2 (aes_cbc_decrypt_inplace 16 (zrange 16) (zrange 64) 0 16 _ _ _ _ _))));
    try by_compute; split; by_compute.
Defined.
