(* ===== verification/KeyWrap.v ===== *)
(** The RFC 3394 key wrap of src/userspace/libbcmcrypto/src/aeskeywrap.c: aes_wrap
    and aes_unwrap, their round trip, what unwrapping accepts, and how they relate
    to the RFC, from which they differ once the step counter needs a second byte. *)
From stdpp Require Import base numbers list.
From Stdlib Require Import ZArith Lia.
From S2P Require Import Prelude AesTables Mem Rijndael AesCbc.

#[local] Arguments Nat.div : simpl never.
#[local] Arguments Nat.modulo : simpl never.
#[local] Arguments Nat.mul : simpl never.

(** ** Definitions *)

Definition AKW_BLOCK_LEN : nat := 8.
Definition AKW_MAX_WRAP_LEN : nat := 384.

Definition aeskeywrapIV : list Z := [0xa6; 0xa6; 0xa6; 0xa6; 0xa6; 0xa6; 0xa6; 0xa6]%Z.

(** [A[AKW_BLOCK_LEN-1] ^= t] on a uint8. *)
Definition xor_last (A : list Z) (t : nat) : list Z :=
  take 7 A ++ [wrap8 (Z.lxor (idx A 7) (Z.of_nat t))].

(** The body of the inner loop of aes_wrap: [A] is the first half of the array [A],
    whose second half only carries [R[i]] into the cipher. *)
Definition wrap_body (nr : Z) (rk : list Z) (n j i : nat) (s : list Z * mem) : list Z * mem :=
  let '(A, R) := s in
  let B := aes_block_encrypt nr rk (A ++ rd R (i * 8) 8) in
  let R := wr R (i * 8) (drop 8 B) in
  (xor_last (take 8 B) (n * j + i + 1), R).

Definition unwrap_body (nr : Z) (rk : list Z) (n j i : nat) (s : list Z * mem) : list Z * mem :=
  let '(A, R) := s in
  let B := aes_block_decrypt nr rk (xor_last A (n * j + i + 1) ++ rd R (i * 8) 8) in
  (take 8 B, wr R (i * 8) (drop 8 B)).

(** The iterations of [for (j = 0; j < 6; j++) for (i = 0; i < n; i++)], in order;
    aes_unwrap counts both loops down, which is the reverse of this list. *)
Definition wrap_steps (n : nat) : list (nat * nat) :=
  concat (map (fun j => map (fun i => (j, i)) (seq 0 n)) (seq 0 6)).

(** [None] is the error return 1. *)
Definition aes_wrap (kl : Z) (key input : list Z) : option (list Z) :=
  let il := length input in
  let n := (il / AKW_BLOCK_LEN)%nat in
  if negb ((kl =? 16) || (kl =? 24) || (kl =? 32))%Z then None
  else if (AKW_MAX_WRAP_LEN <? il)%nat then None
  else if negb (il mod AKW_BLOCK_LEN =? 0)%nat then None
  else
    let rk := snd (rijndaelKeySetupEnc key (AES_KEY_BITLEN kl)) in
    let '(A, R) := fold_left (fun s ji => wrap_body (AES_ROUNDS kl) rk n (fst ji) (snd ji) s)
                     (wrap_steps n) (aeskeywrapIV, input) in
    Some (A ++ R).

(** aes_unwrap: success with the output, the error return 1, or a copy that leaves
    the array [R] of AKW_MAX_WRAP_LEN + AKW_BLOCK_LEN bytes. *)
Inductive akw_result := AkwOk (output : list Z) | AkwErr | AkwOverrun.

(** [il - AKW_BLOCK_LEN] in a 32-bit size_t. *)
Definition akw_ol (il : nat) : Z := wrap32 (Z.of_nat il - Z.of_nat AKW_BLOCK_LEN).

Definition aes_unwrap (kl : Z) (key input : list Z) : akw_result :=
  let il := length input in
  let ol := akw_ol il in
  if negb ((kl =? 16) || (kl =? 24) || (kl =? 32))%Z then AkwErr
  else if (AKW_MAX_WRAP_LEN + AKW_BLOCK_LEN <? il)%nat then AkwErr
  else if negb (il mod AKW_BLOCK_LEN =? 0)%nat then AkwErr
  else if (Z.of_nat (AKW_MAX_WRAP_LEN + AKW_BLOCK_LEN) <? ol)%Z then AkwOverrun
  else
    let ol := Z.to_nat ol in
    let n := (ol / AKW_BLOCK_LEN)%nat in
    let rk := snd (rijndaelKeySetupDec key (AES_KEY_BITLEN kl)) in
    let '(A, R) := fold_left (fun s ji => unwrap_body (AES_ROUNDS kl) rk n (fst ji) (snd ji) s)
                     (rev (wrap_steps n)) (take 8 input, rd input 8 ol) in
    if decide (A = aeskeywrapIV) then AkwOk R else AkwErr.

(** ** One step and its inverse *)

Definition half_ok (A : list Z) : Prop := length A = 8 /\ bytes_ok A.
Definition akw_ok (n : nat) (s : list Z * mem) : Prop :=
  half_ok (fst s) /\ length (snd s) = 8 * n /\ bytes_ok (snd s).
Definition step_ok (n : nat) (ji : nat * nat) : Prop := snd ji < n.

Lemma wrap8_lxor x y : u8 x -> wrap8 (Z.lxor x y) = Z.lxor x (wrap8 y).
Proof.
  intros Hx. unfold wrap8. rewrite <- !Z.land_ones by lia.
  rewrite land_lxor_distr_l. f_equal. by apply is_u_land.
Qed.

Lemma take_7_snoc A : length A = 8 -> A = take 7 A ++ [idx A 7].
Proof. intros H. by explode A H. Qed.

Lemma xor_last_ok A t : half_ok A -> half_ok (xor_last A t).
Proof.
  intros [Hl Hb]. unfold xor_last. split.
  - by rewrite length_app, length_take, Hl.
  - forall_split; [by apply Forall_take | apply wrap8_u8].
Qed.

Lemma xor_last_cancel A t : half_ok A -> xor_last (xor_last A t) t = A.
Proof.
  intros [Hl Hb]. assert (Hi : u8 (idx A 7)) by by apply idx_u8.
  transitivity (take 7 A ++ [idx A 7]); [|by symmetry; apply take_7_snoc]. unfold xor_last.
  rewrite take_app_length' by (rewrite length_take; lia). do 2 f_equal.
  unfold idx at 1. rewrite app_nth2 by (rewrite length_take; lia).
  rewrite length_take. replace (Z.to_nat 7 - _) with 0 by lia. cbn [nth].
  rewrite !wrap8_lxor by auto with word. apply lxor_cancel_r.
Qed.

Lemma halves b : block_ok b -> half_ok (take 8 b) /\ half_ok (drop 8 b).
Proof.
  intros [Hl Hb]. unfold half_ok. rewrite length_take, length_drop.
  split; (split; [lia|]); auto using Forall_take, Forall_drop.
Qed.

Lemma half_app a b : half_ok a -> half_ok b -> block_ok (a ++ b).
Proof. intros [] []. split; [rewrite length_app; lia | by apply Forall_app_2]. Qed.

Lemma wr_rd_same m o k : o + k <= length m -> wr m o (rd m o k) = m.
Proof.
  intros H. unfold wr. rewrite rd_length by done. unfold rd.
  rewrite <- drop_drop, take_drop. apply take_drop.
Qed.

Lemma wr_wr m o a b : length a = length b -> o + length a <= length m -> wr (wr m o a) o b = wr m o b.
Proof.
  intros H Ho. apply list_eq. intros i.
  rewrite !wr_lookup by (rewrite ?wr_length; lia). by repeat (destruct (decide _); try lia).
Qed.

Section steps.
Context (kl : Z) (K : list Z) (n : nat).
Hypothesis HK : key_ok kl K.
#[local] Abbreviation rke := (snd (rijndaelKeySetupEnc K (AES_KEY_BITLEN kl))).
#[local] Abbreviation rkd := (snd (rijndaelKeySetupDec K (AES_KEY_BITLEN kl))).
#[local] Abbreviation E := (aes_block_encrypt (AES_ROUNDS kl) rke).
#[local] Abbreviation D := (aes_block_decrypt (AES_ROUNDS kl) rkd).
Definition wbody (s : list Z * mem) (ji : nat * nat) : list Z * mem :=
  wrap_body (AES_ROUNDS kl) rke n (fst ji) (snd ji) s.
Definition ubody (s : list Z * mem) (ji : nat * nat) : list Z * mem :=
  unwrap_body (AES_ROUNDS kl) rkd n (fst ji) (snd ji) s.

Lemma rd_half_ok R i : length R = 8 * n -> bytes_ok R -> i < n -> half_ok (rd R (i * 8) 8).
Proof using Type. intros. split; [apply rd_length; lia | auto with word]. Qed.

Lemma wbody_ok s ji : akw_ok n s -> step_ok n ji -> akw_ok n (wbody s ji).
Proof using HK.
  destruct s as [A R], ji as [j i]. unfold akw_ok, step_ok. simpl. intros (HA & HR & Hb) Hi.
  pose proof (aes_block_pair kl K HK) as HB.
  assert (HE : block_ok (E (A ++ rd R (i * 8) 8)))
    by (apply bp_ok, half_app; [done | by apply rd_half_ok]).
  apply halves in HE as [H1 H2]. destruct H2 as [H2l H2b].
  split_and!; [by apply xor_last_ok | rewrite wr_length; lia | auto with word].
Qed.

Lemma ubody_ok s ji : akw_ok n s -> step_ok n ji -> akw_ok n (ubody s ji).
Proof using HK.
  destruct s as [A R], ji as [j i]. unfold akw_ok, step_ok. simpl. intros (HA & HR & Hb) Hi.
  pose proof (aes_block_pair kl K HK) as HB.
  assert (HE : block_ok (D (xor_last A (n * j + i + 1) ++ rd R (i * 8) 8)))
    by (apply bp_dec_ok, half_app; [by apply xor_last_ok | by apply rd_half_ok]).
  apply halves in HE as [H1 H2]. destruct H2 as [H2l H2b].
  split_and!; [done | rewrite wr_length; lia | auto with word].
Qed.

Lemma ubody_wbody s ji : akw_ok n s -> step_ok n ji -> ubody (wbody s ji) ji = s.
Proof using HK.
  destruct s as [A R], ji as [j i]. unfold akw_ok, step_ok. simpl. intros (HA & HR & Hb) Hi.
  pose proof (aes_block_pair kl K HK) as HB.
  assert (HX : block_ok (A ++ rd R (i * 8) 8)) by (apply half_app; [done | by apply rd_half_ok]).
  destruct (halves _ (bp_ok (BlockPair := HB) _ (proj2 HX))) as [H1 H2].
  unfold ubody, wbody, wrap_body, unwrap_body. simpl.
  rewrite xor_last_cancel, rd_wr_same by (done || destruct H2; lia).
  rewrite take_drop, (bp_dec (BlockPair := HB)) by done.
  rewrite take_app_length', drop_app_length' by (symmetry; apply HA).
  rewrite wr_wr, wr_rd_same; [done|lia| |]; destruct H2; rewrite ?rd_length; lia.
Qed.

Lemma wbody_ubody s ji : akw_ok n s -> step_ok n ji -> wbody (ubody s ji) ji = s.
Proof using HK.
  destruct s as [A R], ji as [j i]. unfold akw_ok, step_ok. simpl. intros (HA & HR & Hb) Hi.
  pose proof (aes_block_pair kl K HK) as HB.
  assert (HX : block_ok (xor_last A (n * j + i + 1) ++ rd R (i * 8) 8))
    by (apply half_app; [by apply xor_last_ok | by apply rd_half_ok]).
  destruct (halves _ (bp_dec_ok (BlockPair := HB) _ HX)) as [H1 H2].
  unfold ubody, wbody, wrap_body, unwrap_body. simpl.
  rewrite rd_wr_same by (destruct H2; lia). rewrite take_drop, (bp_enc (BlockPair := HB)) by done.
  destruct (xor_last_ok A (n * j + i + 1) HA) as [HAl _].
  rewrite take_app_length', drop_app_length' by (symmetry; apply HAl).
  rewrite xor_last_cancel by done.
  rewrite wr_wr, wr_rd_same; [done|lia| |]; destruct H2; rewrite ?rd_length; lia.
Qed.

Lemma wrap_steps_ok : Forall (step_ok n) (wrap_steps n).
Proof using Type.
  unfold wrap_steps. apply Forall_concat, Forall_map, List.Forall_forall. intros j _.
  apply Forall_map, List.Forall_forall. intros i Hi%in_seq. unfold step_ok. simpl. lia.
Qed.

Lemma unwrap_fold s : akw_ok n s ->
  fold_left ubody (rev (wrap_steps n)) (fold_left wbody (wrap_steps n) s) = s /\
  akw_ok n (fold_left wbody (wrap_steps n) s).
Proof using HK.
  intros Hs. split.
  - pose proof (fold_left_undo wbody ubody id id (akw_ok n) (step_ok n) wbody_ok ubody_wbody
      (wrap_steps n) s Hs wrap_steps_ok) as H. by rewrite map_id in H.
  - by apply (fold_left_inv wbody (akw_ok n) (step_ok n) wbody_ok); [|apply wrap_steps_ok].
Qed.

Lemma wrap_fold s : akw_ok n s ->
  fold_left wbody (wrap_steps n) (fold_left ubody (rev (wrap_steps n)) s) = s /\
  akw_ok n (fold_left ubody (rev (wrap_steps n)) s).
Proof using HK.
  intros Hs. pose proof (Forall_rev wrap_steps_ok) as Hr. split.
  - pose proof (fold_left_undo ubody wbody id id (akw_ok n) (step_ok n) ubody_ok wbody_ubody
      (rev (wrap_steps n)) s Hs Hr) as H. by rewrite map_id, rev_involutive in H.
  - by apply (fold_left_inv ubody (akw_ok n) (step_ok n) ubody_ok).
Qed.
End steps.

(** ** What the two functions return *)

Definition kl_ok (kl : Z) : bool := ((kl =? 16) || (kl =? 24) || (kl =? 32))%Z.

Lemma kl_ok_key kl K : kl_ok kl = true -> bytes_ok K -> key_ok kl K.
Proof. unfold kl_ok, key_ok. rewrite !orb_true_iff, !Z.eqb_eq. intros; split; [done|lia]. Qed.

Lemma wrap_init_ok n R : bytes_ok R -> length R = 8 * n -> akw_ok n (aeskeywrapIV, R).
Proof. intros. split_and!; [|done|done]. split; [done|by_compute]. Qed.

(** The input lengths aes_wrap takes. *)
Definition wrap_len_ok (il : nat) : Prop := il mod 8 = 0 /\ il <= 384.

Lemma mod8 il : il mod 8 = 0 -> 8 * (il / 8) = il.
Proof. intros H. pose proof (Nat.div_mod_eq il 8). lia. Qed.

(** A successful wrap in closed form, and when there is none. *)
Lemma aes_wrap_eq kl K input : aes_wrap kl K input =
  if kl_ok kl && (length input <=? 384) && (length input mod 8 =? 0) then
    let s := fold_left (wbody kl K (length input / 8)) (wrap_steps (length input / 8)) (aeskeywrapIV, input) in
    Some (fst s ++ snd s)
  else None.
Proof.
  unfold aes_wrap. fold (kl_ok kl). unfold AKW_MAX_WRAP_LEN, AKW_BLOCK_LEN.
  destruct (kl_ok kl); [|done]. cbn [negb andb].
  destruct (Nat.ltb_spec 384 (length input)), (Nat.leb_spec (length input) 384); try lia; [done|].
  destruct (length input mod 8 =? 0); [|done]. cbn [negb andb].
  unfold wbody. by destruct (fold_left _ _ _).
Qed.

Lemma akw_ol_ge il : (8 <= il)%nat -> (Z.of_nat il < 2 ^ 31)%Z -> akw_ol il = Z.of_nat (il - 8).
Proof. intros H H'. unfold akw_ol, wrap32, AKW_BLOCK_LEN. rewrite Z.mod_small; lia. Qed.

Lemma aes_unwrap_eq kl K input : 8 <= length input -> aes_unwrap kl K input =
  if kl_ok kl && (length input <=? 392) && (length input mod 8 =? 0) then
    let n := length input / 8 - 1 in
    let s := fold_left (ubody kl K n) (rev (wrap_steps n)) (take 8 input, drop 8 input) in
    if decide (fst s = aeskeywrapIV) then AkwOk (snd s) else AkwErr
  else AkwErr.
Proof.
  intros Hlen. unfold aes_unwrap. fold (kl_ok kl). unfold AKW_MAX_WRAP_LEN, AKW_BLOCK_LEN.
  destruct (kl_ok kl); [|done]. cbn [negb andb].
  destruct (Nat.ltb_spec (384 + 8) (length input)), (Nat.leb_spec (length input) 392); try lia; [done|].
  destruct (Nat.eqb_spec (length input mod 8) 0) as [Hm|]; [|done]. cbn [negb andb].
  rewrite akw_ol_ge by lia. destruct (Z.ltb_spec (Z.of_nat (384 + 8)) (Z.of_nat (length input - 8))); [lia|].
  rewrite Nat2Z.id. replace ((length input - 8) / 8) with (length input / 8 - 1).
  - unfold ubody, rd. rewrite (take_ge (drop 8 input)) by (rewrite length_drop; lia). by destruct (fold_left _ _ _).
  - apply mod8 in Hm. rewrite <- Hm at 2. replace (8 * (length input / 8) - 8) with ((length input / 8 - 1) * 8) by lia.
    by rewrite Nat.div_mul by lia.
Qed.

Lemma wrap_blocks_add il : (il + 8) mod 8 = il mod 8 /\ (il + 8) / 8 = il / 8 + 1.
Proof.
  replace (il + 8) with (il + 1 * 8) by lia. rewrite Nat.Div0.mod_add, Nat.div_add by lia. lia.
Qed.

Lemma unwrap_of_wrap kl K input :
  key_ok kl K -> bytes_ok input -> wrap_len_ok (length input) ->
  exists c, aes_wrap kl K input = Some c /\ length c = length input + 8 /\ bytes_ok c /\
            aes_unwrap kl K c = AkwOk input.
Proof.
  intros HK Hb [Hm Hmax]. set (n := length input / 8).
  assert (Hn : length input = 8 * n) by (by rewrite <- (mod8 (length input))).
  assert (Hkl : kl_ok kl = true) by (destruct HK as [_ [-> | [-> | ->]]]; done).
  rewrite aes_wrap_eq, Hkl, (proj2 (Nat.leb_le _ _) Hmax), (proj2 (Nat.eqb_eq _ _) Hm). fold n. cbn [andb].
  destruct (unwrap_fold kl K n HK (aeskeywrapIV, input)) as [Hu Hok]; [by apply wrap_init_ok|].
  cbv zeta. destruct (fold_left (wbody kl K n) _ _) as [A R]. destruct Hok as ([HA HAb] & HR & HRb). simpl in *.
  exists (A ++ R). assert (Hl : length (A ++ R) = length input + 8) by (rewrite length_app; lia).
  split_and!; [done|done|by apply Forall_app_2|].
  rewrite aes_unwrap_eq by lia. rewrite Hkl, Hl. destruct (wrap_blocks_add (length input)) as [-> ->].
  rewrite Hm, (proj2 (Nat.leb_le _ _)) by lia. fold n. replace (n + 1 - 1) with n by lia.
  rewrite take_app_length', drop_app_length' by done. cbn [andb Nat.eqb]. rewrite Hu. simpl.
  done.
Qed.

(** C32: key wrap round trip.  For every AES key size and every input aes_wrap takes
    (a multiple of 8 bytes, at most 384), it succeeds with 8 bytes more, and
    aes_unwrap of the result returns the input. *)
Theorem aes_unwrap_wrap kl K input :
  key_ok kl K -> bytes_ok input -> wrap_len_ok (length input) ->
  exists c, aes_wrap kl K input = Some c /\ length c = length input + 8 /\ bytes_ok c /\
            aes_unwrap kl K c = AkwOk input.
Proof. apply unwrap_of_wrap. Qed.

(** C33: aes_unwrap accepts only what aes_wrap produces: whenever it returns an
    output for at least one block of ciphertext, wrapping that output gives the
    ciphertext back, so a wrapped key cannot be altered and still unwrap. *)
Theorem aes_unwrap_sound kl K c output :
  bytes_ok K -> bytes_ok c -> 8 <= length c ->
  aes_unwrap kl K c = AkwOk output -> aes_wrap kl K output = Some c.
Proof.
  intros HK Hc Hlen. rewrite aes_unwrap_eq by done.
  destruct (kl_ok kl) eqn:Hkl; [|done]. pose proof (kl_ok_key kl K Hkl HK) as HKo.
  destruct (Nat.leb_spec (length c) 392) as [Hmax|]; [|done].
  destruct (Nat.eqb_spec (length c mod 8) 0) as [Hm|]; [|done]. cbn [andb].
  set (n := length c / 8 - 1). apply mod8 in Hm.
  assert (Hn : length (drop 8 c) = 8 * n) by (rewrite length_drop; lia).
  destruct (wrap_fold kl K n HKo (take 8 c, drop 8 c)) as [Hw Hok].
  { split_and!; [split; [simpl; rewrite length_take; lia|by apply Forall_take]|done|by apply Forall_drop]. }
  cbv zeta. destruct (fold_left (ubody kl K n) _ _) as [A R]. simpl in *.
  destruct (decide (A = aeskeywrapIV)) as [->|]; [|done]. intros [= ->].
  destruct Hok as (_ & HR & _). simpl in HR.
  rewrite aes_wrap_eq, Hkl, HR. replace (8 * n) with (n * 8) by lia.
  rewrite Nat.Div0.mod_mul, Nat.div_mul, (proj2 (Nat.leb_le _ _)) by lia. cbn [andb Nat.eqb].
  rewrite Hw. simpl. by rewrite take_drop.
Qed.

(** The one input that passes aes_unwrap's checks and still makes it copy past
    the end of its array is the empty one, where [il - AKW_BLOCK_LEN] wraps. *)
Theorem aes_unwrap_overrun kl K c : (Z.of_nat (length c) < 2 ^ 31)%Z ->
  aes_unwrap kl K c = AkwOverrun <-> c = [] /\ kl_ok kl = true.
Proof.
  intros Hlen. destruct (decide (8 <= length c)) as [H8|H8].
  - rewrite aes_unwrap_eq by done. split; [|intros [-> _]; simpl in H8; lia].
    destruct (_ && _); [|done]. cbv zeta. by destruct (decide _).
  - destruct c as [|x c].
    + unfold aes_unwrap. fold (kl_ok kl). destruct (kl_ok kl); [|by split; [|intros []]]. by split.
    + split; [|by intros [? _]]. unfold aes_unwrap. fold (kl_ok kl). destruct (kl_ok kl); [|done].
      cbn [negb]. destruct (_ <? _); [done|].
      assert (Hm : length (x :: c) mod AKW_BLOCK_LEN = length (x :: c)) by (apply Nat.mod_small; unfold AKW_BLOCK_LEN; lia).
      rewrite Hm. done.
Qed.

(** ** Comparison with RFC 3394 *)

(** [t] as a 64-bit big-endian integer, and the RFC's [A = MSB(64, B) ^ t]. *)
Definition be64 (t : nat) : list Z :=
  map (fun k => (Z.of_nat t / 256 ^ k) mod 256)%Z [7; 6; 5; 4; 3; 2; 1; 0]%Z.

Definition rfc_body (E : list Z -> list Z) (n : nat) (s : list Z * mem) (ji : nat * nat) : list Z * mem :=
  let '(A, R) := s in
  let B := E (A ++ rd R (snd ji * 8) 8) in
  (xor_bytes (take 8 B) (be64 (n * fst ji + snd ji + 1)), wr R (snd ji * 8) (drop 8 B)).

Definition rfc_wrap (E : list Z -> list Z) (input : list Z) : list Z :=
  let n := length input / 8 in
  let s := fold_left (rfc_body E n) (wrap_steps n) (aeskeywrapIV, input) in
  fst s ++ snd s.

Lemma be64_small t : t < 256 -> be64 t = [0; 0; 0; 0; 0; 0; 0; Z.of_nat t]%Z.
Proof.
  intros H. unfold be64. cbn [map].
  rewrite !(Z.div_small (Z.of_nat t)) by lia. change (256 ^ 0)%Z with 1%Z.
  by rewrite Z.div_1_r, (Z.mod_small (Z.of_nat t)) by lia.
Qed.

Lemma xor_last_be64 A t : half_ok A -> t < 256 -> xor_bytes A (be64 t) = xor_last A t.
Proof.
  intros [Hl Hb] Ht. rewrite be64_small by done. unfold xor_last.
  rewrite wrap8_lxor by by apply idx_u8. rewrite wrap8_id by (unfold is_u; lia).
  explode A Hl. unfold xor_bytes. simpl. by rewrite !Z.lxor_0_r.
Qed.

Lemma wrap_step_lt n j i : In (j, i) (wrap_steps n) -> n * j + i + 1 <= 6 * n.
Proof.
  unfold wrap_steps. rewrite in_concat. intros (l & Hl & Hin).
  apply in_map_iff in Hl as (j' & <- & Hj%in_seq). apply in_map_iff in Hin as (i' & [= <- <-] & Hi%in_seq).
  nia.
Qed.

Lemma fold_left_ext_inv {S K} (f g : S -> K -> S) (P : S -> Prop) ks s :
  P s -> (forall s k, P s -> In k ks -> f s k = g s k /\ P (g s k)) -> fold_left f ks s = fold_left g ks s.
Proof.
  revert s. induction ks as [|k ks IH]; intros s Hs H; simpl; [done|].
  destruct (H s k Hs) as [-> Hg]; [by left|]. apply IH; [done|]. intros; apply H; simpl; auto.
Qed.

(** For inputs of at most 336 bytes (42 blocks, so that the step counter fits in
    a byte) aes_wrap is the RFC 3394 wrap. *)
Theorem aes_wrap_rfc3394 kl K input :
  key_ok kl K -> bytes_ok input -> length input mod 8 = 0 -> length input <= 336 ->
  aes_wrap kl K input =
  Some (rfc_wrap (aes_block_encrypt (AES_ROUNDS kl) (snd (rijndaelKeySetupEnc K (AES_KEY_BITLEN kl)))) input).
Proof.
  intros HK Hb Hm Hmax. set (n := length input / 8).
  assert (Hn : length input = 8 * n) by (by rewrite <- (mod8 (length input))).
  assert (Hkl : kl_ok kl = true) by (destruct HK as [_ [-> | [-> | ->]]]; done).
  rewrite aes_wrap_eq, Hkl, (proj2 (Nat.leb_le _ _)), (proj2 (Nat.eqb_eq _ _) Hm) by lia.
  unfold rfc_wrap. fold n. cbn [andb]. cbv zeta. f_equal.
  rewrite (fold_left_ext_inv (wbody kl K n)
    (rfc_body (aes_block_encrypt (AES_ROUNDS kl) (snd (rijndaelKeySetupEnc K (AES_KEY_BITLEN kl)))) n)
    (akw_ok n)); [done|by apply wrap_init_ok|].
  intros s [j i] Hs Hin.
  assert (Heq : wbody kl K n s (j, i) = rfc_body (aes_block_encrypt (AES_ROUNDS kl)
    (snd (rijndaelKeySetupEnc K (AES_KEY_BITLEN kl)))) n s (j, i)).
  { pose proof (proj1 (List.Forall_forall _ _) (wrap_steps_ok n) _ Hin) as Hi. unfold step_ok in Hi. simpl in Hi.
    destruct s as [A R], Hs as (HA & HR & HRb). simpl in *.
    unfold wbody, wrap_body, rfc_body. simpl. f_equal. symmetry. apply xor_last_be64.
    - apply halves. pose proof (aes_block_pair kl K HK) as HB. apply (bp_ok (BlockPair := HB)).
      apply half_app; [done|]. by apply (rd_half_ok n).
    - apply wrap_step_lt in Hin. lia. }
  rewrite <- Heq. split; [done|]. apply (wbody_ok kl K n HK); [done|].
  by apply (proj1 (List.Forall_forall _ _) (wrap_steps_ok n)).
Qed.

(** At 344 bytes, which aes_wrap accepts, its result is not the RFC's: the step
    counter reaches 256 and the code exclusive-ors its low byte only. *)
Theorem aes_wrap_344_differs :
  exists K input, key_ok 16 K /\ bytes_ok input /\ length input = 344 /\
  exists c, aes_wrap 16 K input = Some c /\
  c <> rfc_wrap (aes_block_encrypt (AES_ROUNDS 16) (snd (rijndaelKeySetupEnc K (AES_KEY_BITLEN 16)))) input.
Proof.
  exists (zrange 16), (replicate 344 7%Z). split_and!; [split; [by_compute|lia]|by_compute|done|].
  eexists. split; [vm_compute; reflexivity|]. vm_compute. discriminate.
Qed.

(** ** Witnesses: RFC 3394 section 4.1 *)
Definition rfc_key : list Z := zrange 16.
Definition rfc_input : list Z := [0; 0x11; 0x22; 0x33; 0x44; 0x55; 0x66; 0x77; 0x88; 0x99; 0xaa; 0xbb; 0xcc; 0xdd; 0xee; 0xff]%Z.
Definition rfc_output : list Z :=
  [0x1f; 0xa6; 0x8b; 0x0a; 0x81; 0x12; 0xb4; 0x47; 0xae; 0xf3; 0x4b; 0xd8;
   0xfb; 0x5a; 0x7b; 0x82; 0x9d; 0x3e; 0x86; 0x23; 0x71; 0xd2; 0xcf; 0xe5]%Z.

Lemma aes_unwrap_wrap_witness :
  aes_wrap 16 rfc_key rfc_input = Some rfc_output /\ aes_unwrap 16 rfc_key rfc_output = AkwOk rfc_input.
Proof.
  assert (H : aes_wrap 16 rfc_key rfc_input = Some rfc_output) by (vm_compute; reflexivity).
  split; [exact H|]. destruct (aes_unwrap_wrap 16 rfc_key rfc_input) as (c & Hc & _ & _ & Hu).
  - split; by_compute.
  - by_compute.
  - split; by_compute.
  - rewrite H in Hc. injection Hc as <-. exact Hu.
Defined.

Lemma aes_unwrap_sound_witness : aes_wrap 16 rfc_key rfc_input = Some rfc_output.
Proof.
  apply (aes_unwrap_sound 16 rfc_key rfc_output rfc_input); by_compute.
Defined.

Lemma aes_unwrap_overrun_witness : aes_unwrap 16 rfc_key [] = AkwOverrun.
Proof. apply (aes_unwrap_overrun 16 rfc_key []); [by_compute | split; reflexivity]. Defined.

Lemma aes_wrap_rfc3394_witness : exists c, aes_wrap 16 rfc_key rfc_input = Some c /\ c = rfc_output.
Proof.
  eexists. split; [apply (aes_wrap_rfc3394 16 rfc_key rfc_input); try by_compute; split; by_compute|].
  vm_compute. reflexivity.
Defined.
