(* ===== verification/AesCcm.v ===== *)
(** CTR, CCM and CCMP of src/userspace/libbcmcrypto/src/aes.c.  The buffers the
    routines encrypt in place live in the flat memory of Mem.v; the local arrays
    (the counter block, the MAC, the nonce and the AAD that [aes_ccmp_cal_params]
    fills) are lists.  size_t is 32 bits wide, as on the routers the code is built
    for. *)
From stdpp Require Import base numbers list.
From Stdlib Require Import ZArith Lia.
From S2P Require Import Prelude AesTables Mem Rijndael AesCbc.

(** ** Definitions *)

Definition AES_CTR_MAXBLOCKS : Z := Z.shiftl 1 16.
Definition AES_CCM_LEN_FIELD_LEN : Z := 2.
Definition AES_CCM_AAD_MAX_LEN : Z := 0xFEFF.
Definition AES_CCM_NONCE_LEN : nat := 13.
Definition AES_CCM_CRYPT_FLAGS : Z := (AES_CCM_LEN_FIELD_LEN - 1)%Z.
Definition AES_CCM_AUTH_LEN : nat := 8.
Definition AES_CCM_AUTH_FLAGS : Z := (4 * (8 - 2) + (AES_CCM_LEN_FIELD_LEN - 1))%Z.
Definition AES_CCM_AUTH_AAD_FLAG : Z := 0x40.

(** [a - b] on size_t. *)
Definition size_sub (a b : Z) : Z := wrap32 (a - b).

(** [ctr[15]++; if (!ctr[15]) ctr[14]++;] on uint8. *)
Definition ctr_inc (ctr : list Z) : list Z :=
  let c := <[15 := wrap8 (idx ctr 15 + 1)]> ctr in
  if (idx c 15 =? 0)%Z then <[14 := wrap8 (idx c 14 + 1)]> c else c.

(** Memory, counter block, [ptxt] and [ctxt]. *)
Record ctr_st := Ctr { ct_m : mem; ct_ctr : list Z; ct_in : nat; ct_out : nat }.

Definition ctr_step (nr : Z) (rk : list Z) (s : ctr_st) : ctr_st :=
  let tmp := aes_block_encrypt nr rk (ct_ctr s) in
  Ctr (wr (ct_m s) (ct_out s) (xor_bytes (rd (ct_m s) (ct_in s) 16) tmp))
      (ctr_inc (ct_ctr s)) (ct_in s + 16) (ct_out s + 16).

(** [None] is the return value -1, with the memory untouched. *)
Definition aes_ctr_crypt (rk : list Z) (key_len : Z) (nonce : list Z) (m : mem)
    (data_len : Z) (ptxt ctxt : nat) : option mem :=
  if (16 * AES_CTR_MAXBLOCKS <? data_len)%Z then None
  else
    let nr := AES_ROUNDS key_len in
    let n := Z.to_nat data_len in
    let s := Nat.iter (n / 16) (ctr_step nr rk) (Ctr m (take 16 nonce) ptxt ctxt) in
    if n mod 16 =? 0 then Some (ct_m s)
    else
      let tmp := aes_block_encrypt nr rk (ct_ctr s) in
      Some (wr (ct_m s) (ct_out s) (xor_bytes (rd (ct_m s) (ct_in s) (n mod 16)) tmp)).

(** [while (j--) { X[k] ^= *aad++; k++; if (k == 16) { X = E(X); k = 0; } }] *)
Fixpoint ccm_absorb (E : list Z -> list Z) (X : list Z) (k : nat) (bs : list Z) : list Z * nat :=
  match bs with
  | [] => (X, k)
  | b :: bs =>
      let X := alter (fun x => Z.lxor x b) k X in
      if S k =? 16 then ccm_absorb E (E X) 0 bs else ccm_absorb E X (S k) bs
  end.

(** The whole blocks of the message, then [X[k] ^= *ptxt++] on the rest. *)
Definition ccm_mac_data (E : list Z -> list Z) (X data : list Z) : list Z :=
  let n := length data / 16 in
  let X := fold_left (fun X b => E (xor_bytes X b)) (chunk 16 n data) X in
  let r := drop (16 * n) data in
  if length data mod 16 =? 0 then X
  else E (xor_bytes X (r ++ replicate (16 - length r) 0%Z)).

Definition ccm_B_0 (nonce : list Z) (aad_len data_len : Z) : list Z :=
  let flags := if (aad_len =? 0)%Z then AES_CCM_AUTH_FLAGS
               else Z.lor AES_CCM_AUTH_FLAGS AES_CCM_AUTH_AAD_FLAG in
  flags :: take AES_CCM_NONCE_LEN nonce ++
  [Z.land (wrap8 (Z.shiftr data_len 8)) 0xff; wrap8 (Z.land data_len 0xff)].

Definition aes_ccm_mac (rk : list Z) (key_len : Z) (nonce aad data : list Z) : option (list Z) :=
  let aad_len := Z.of_nat (length aad) in
  if (AES_CCM_AAD_MAX_LEN <? aad_len)%Z then None
  else
    let E := aes_block_encrypt (AES_ROUNDS key_len) rk in
    let X := E (ccm_B_0 nonce aad_len (Z.of_nat (length data))) in
    let X :=
      if (aad_len =? 0)%Z then X
      else
        let X := alter (fun x => Z.lxor x (Z.land (Z.shiftr aad_len 8) 0xff)) 0 X in
        let X := alter (fun x => Z.lxor x (Z.land aad_len 0xff)) 1 X in
        let '(X, k) := ccm_absorb E X 2 aad in
        if k mod 16 =? 0 then X else E X in
    Some (take AES_CCM_AUTH_LEN (ccm_mac_data E X data)).

Definition ccm_ctr0 (nonce : list Z) (hi lo : Z) : list Z :=
  AES_CCM_CRYPT_FLAGS :: take AES_CCM_NONCE_LEN nonce ++ [hi; lo].

(** The data at [ptxt] is encrypted to [ctxt] and the encrypted MAC stored at [mac].
    The flag is the return value 0 (false: -1); the memory is what the call leaves
    on either return. *)
Definition aes_ccm_encrypt (rk : list Z) (key_len : Z) (nonce aad : list Z) (m : mem)
    (data_len : Z) (ptxt ctxt mac : nat) : bool * mem :=
  match aes_ccm_mac rk key_len nonce aad (rd m ptxt (Z.to_nat data_len)) with
  | None => (false, m)
  | Some X =>
      match aes_ctr_crypt rk key_len (ccm_ctr0 nonce 0 0) X 8 0 0 with
      | None => (false, m)
      | Some X =>
          let m1 := wr m mac (take AES_CCM_AUTH_LEN X) in
          match aes_ctr_crypt rk key_len (ccm_ctr0 nonce 0 1) m1 data_len ptxt ctxt with
          | None => (false, m1)
          | Some m2 => (true, m2)
          end
      end
  end.

Definition aes_ccm_decrypt (rk : list Z) (key_len : Z) (nonce aad : list Z) (m : mem)
    (data_len : Z) (ctxt ptxt : nat) : bool * mem :=
  let len := size_sub data_len 8 in
  match aes_ctr_crypt rk key_len (ccm_ctr0 nonce 0 1) m len ctxt ptxt with
  | None => (false, m)
  | Some m1 =>
      let d := Z.to_nat len in
      match aes_ctr_crypt rk key_len (ccm_ctr0 nonce 0 0) m1 8 (ctxt + d) (ptxt + d) with
      | None => (false, m1)
      | Some m2 =>
          match aes_ccm_mac rk key_len nonce aad (rd m2 ptxt d) with
          | None => (false, m2)
          | Some X => (bool_decide (X = rd m2 (ptxt + d) AES_CCM_AUTH_LEN), m2)
          end
      end
  end.

(** *** CCMP: the parameters read from the 802.11 header *)

Definition FC_TODS : Z := 0x100.
Definition FC_FROMDS : Z := 0x200.
Definition FC_SUBTYPE_MASK : Z := 0xF0.
Definition FC_TYPE (fc : Z) : Z := Z.shiftr (Z.land fc 0xC) 2.
Definition AES_CCMP_FC_MASK : Z :=
  Z.lnot (Z.lor (Z.lor (Z.lor 0x0070 0x800) 0x1000) 0x2000).
Definition AES_CCMP_LEGACY_FC_MASK : Z := Z.lnot 0x800.
Definition DOT11_A3_HDR_LEN : nat := 24.
Definition DOT11_A4_HDR_LEN : nat := 30.

(** [ltoh16] of a packed field. *)
Definition le16 (h : list Z) (o : nat) : Z :=
  Z.lor (nth o h 0%Z) (Z.shiftl (nth (o + 1) h 0%Z) 8).
Definition put16 (x : Z) : list Z := [wrap8 (Z.land x 0xff); wrap8 (Z.land (Z.shiftr x 8) 0xff)].

Record ccmp_params := CcmpParams { cp_nonce : list Z; cp_aad : list Z; cp_lh : nat }.

(** [*la] is the length of [cp_aad]: see [aes_ccmp_la]. *)
Definition aes_ccmp_cal_params (h : list Z) (legacy : bool) (nonce_1st_byte : Z) : ccmp_params :=
  let fc := le16 h 0 in
  let subtype := Z.shiftr (Z.land fc FC_SUBTYPE_MASK) 4 in
  let wds := (Z.land fc (Z.lor FC_TODS FC_FROMDS) =? Z.lor FC_TODS FC_FROMDS)%Z in
  let qos := (FC_TYPE fc =? 2)%Z && negb (Z.land subtype 8 =? 0)%Z in
  let qc := if qos then le16 h (if wds then DOT11_A4_HDR_LEN else DOT11_A3_HDR_LEN) else 0%Z in
  let addlen := (if wds then 6 else 0) + (if qos then 2 else 0) in
  let lh := DOT11_A3_HDR_LEN + 8 + addlen in
  let iv i := nth (DOT11_A3_HDR_LEN + addlen + i) h 0%Z in
  let nonce := nonce_1st_byte :: rd h 10 6 ++ [iv 7; iv 6; iv 5; iv 4; iv 1; iv 0] in
  let fc := Z.land fc (if legacy then AES_CCMP_LEGACY_FC_MASK else AES_CCMP_FC_MASK) in
  let seq := Z.land (le16 h 22) (if legacy then 0x0000 else 0x000f)%Z in
  let aad := put16 fc ++ rd h 4 18 ++ put16 seq ++ (if wds then rd h 24 6 else []) ++
             (if qos then put16 (Z.land qc (if legacy then 0xffff else 0x000f)%Z) else []) in
  CcmpParams nonce aad lh.

(** AES_CCMP_ENCRYPT_SUCCESS 0, AES_CCMP_ENCRYPT_ERROR -1; the frame is at [p]. *)
Definition aes_ccmp_encrypt (rk : list Z) (key_len data_len : Z) (m : mem) (p : nat)
    (legacy : bool) (nonce_1st_byte : Z) : Z * mem :=
  let c := aes_ccmp_cal_params (drop p m) legacy nonce_1st_byte in
  let '(ok, m') := aes_ccm_encrypt rk key_len (cp_nonce c) (cp_aad c) m
    (size_sub data_len (Z.of_nat (cp_lh c))) (p + cp_lh c) (p + cp_lh c) (p + Z.to_nat data_len) in
  (if ok then 0 else -1, m')%Z.

(** AES_CCMP_DECRYPT_SUCCESS 0, AES_CCMP_DECRYPT_MIC_FAIL -2. *)
Definition aes_ccmp_decrypt (rk : list Z) (key_len data_len : Z) (m : mem) (p : nat)
    (legacy : bool) (nonce_1st_byte : Z) : Z * mem :=
  let c := aes_ccmp_cal_params (drop p m) legacy nonce_1st_byte in
  let '(ok, m') := aes_ccm_decrypt rk key_len (cp_nonce c) (cp_aad c) m
    (size_sub data_len (Z.of_nat (cp_lh c))) (p + cp_lh c) (p + cp_lh c) in
  (if ok then 0 else -2, m')%Z.

#[local] Arguments Nat.div : simpl never.
#[local] Arguments Nat.modulo : simpl never.
#[local] Arguments Nat.mul : simpl never.
#[local] Opaque rijndaelEncrypt.

(** ** The key stream *)

Lemma aes_block_encrypt_length nr rk b : length (aes_block_encrypt nr rk b) = 16.
Proof. Transparent rijndaelEncrypt. unfold aes_block_encrypt, rijndaelEncrypt. by destruct (enc_loop _ _ _ _). Qed.

(** The blocks [E ctr, E (ctr+1), ...]. *)
Fixpoint ctr_stream (E : list Z -> list Z) (ctr : list Z) (n : nat) : list Z :=
  match n with
  | O => []
  | S n => E ctr ++ ctr_stream E (ctr_inc ctr) n
  end.

Section ctr.
Context (nr : Z) (rk : list Z).
#[local] Abbreviation E := (aes_block_encrypt nr rk).

Lemma ctr_stream_length ctr n : length (ctr_stream E ctr n) = 16 * n.
Proof.
  revert ctr. induction n as [|n IH]; intros ctr; cbn [ctr_stream]; [done|].
  rewrite length_app, IH, aes_block_encrypt_length. lia.
Qed.

Lemma ctr_stream_snoc ctr n :
  ctr_stream E ctr (S n) = ctr_stream E ctr n ++ E (Nat.iter n ctr_inc ctr).
Proof.
  revert ctr. induction n as [|n IH]; intros ctr.
  - simpl. by rewrite app_nil_r.
  - change (ctr_stream E ctr (S (S n))) with (E ctr ++ ctr_stream E (ctr_inc ctr) (S n)).
    rewrite IH, Nat.iter_succ_r. cbn [ctr_stream]. by rewrite app_assoc.
Qed.

Lemma ctr_iter_scalars n m ctr p c : let s := Nat.iter n (ctr_step nr rk) (Ctr m ctr p c) in
  ct_ctr s = Nat.iter n ctr_inc ctr /\ ct_in s = p + 16 * n /\ ct_out s = c + 16 * n.
Proof.
  induction n as [|n IH]; simpl; [split_and!; [done|lia|lia]|]. simpl in IH. destruct IH as (-> & -> & ->).
  split_and!; [done|lia|lia].
Qed.

(** The loop exclusive-ors the key stream onto the input, in place or not. *)
Lemma ctr_iter n m ctr p c :
  p + 16 * n <= length m -> c + 16 * n <= length m -> same_or_disj p c (16 * n) ->
  let m' := ct_m (Nat.iter n (ctr_step nr rk) (Ctr m ctr p c)) in
  length m' = length m /\
  rd m' c (16 * n) = xor_bytes (rd m p (16 * n)) (ctr_stream E ctr n) /\
  (forall o k, o + k <= length m -> disj c (16 * n) o k -> rd m' o k = rd m o k).
Proof.
  revert m ctr p c. induction n as [|n IH]; intros m ctr p c Hp Hc Hd; [done|].
  rewrite Nat.iter_succ_r. unfold ctr_step at 2. cbn [ct_m ct_ctr ct_in ct_out].
  set (w := xor_bytes (rd m p 16) (E ctr)).
  assert (Hw : length w = 16).
  { unfold w. rewrite xor_bytes_length, rd_length, aes_block_encrypt_length; lia. }
  assert (Hl : length (wr m c w) = length m) by (apply wr_length; lia).
  destruct (IH (wr m c w) (ctr_inc ctr) (p + 16) (c + 16)) as (IHl & IHr & IHk);
    [lia|lia|unfold same_or_disj, disj in *; lia|].
  rewrite Hl in *. split_and!; [done| |].
  - replace (16 * S n) with (16 + 16 * n) by lia. rewrite !rd_app, IHr.
    rewrite (IHk c 16) by (unfold disj; lia). rewrite rd_wr_same by lia. cbn [ctr_stream].
    rewrite xor_bytes_app by (rewrite rd_length, aes_block_encrypt_length; lia).
    do 2 f_equal. apply rd_wr_disj; [lia|lia|unfold same_or_disj, disj in *; lia].
  - intros o k Ho Hk. rewrite IHk by (unfold disj in *; lia).
    apply rd_wr_disj; [lia|lia|unfold disj in *; lia].
Qed.
End ctr.

(** What [aes_ctr_crypt] stores: the data exclusive-or the key stream. *)
Definition ctr_pad (rk : list Z) (key_len : Z) (nonce : list Z) (n : nat) : list Z :=
  take n (ctr_stream (aes_block_encrypt (AES_ROUNDS key_len) rk) (take 16 nonce) (n / 16 + 1)).

Lemma ctr_pad_length rk kl nonce n : length (ctr_pad rk kl nonce n) = n.
Proof.
  unfold ctr_pad. rewrite length_take, ctr_stream_length.
  pose proof (Nat.div_mod_eq n 16). pose proof (Nat.mod_upper_bound n 16). lia.
Qed.
#[export] Hint Rewrite ctr_pad_length xor_bytes_length : len.

Lemma aes_ctr_crypt_spec rk kl nonce m data_len p c : let n := Z.to_nat data_len in
  (0 <= data_len <= 16 * AES_CTR_MAXBLOCKS)%Z ->
  p + n <= length m -> c + n <= length m -> same_or_disj p c n ->
  exists m', aes_ctr_crypt rk kl nonce m data_len p c = Some m' /\ length m' = length m /\
    rd m' c n = xor_bytes (rd m p n) (ctr_pad rk kl nonce n) /\
    (forall o k, o + k <= length m -> disj c n o k -> rd m' o k = rd m o k).
Proof.
  intros n Hn Hp Hc Hd. unfold aes_ctr_crypt. fold n.
  rewrite (proj2 (Z.ltb_ge _ _)) by lia.
  pose proof (Nat.div_mod_eq n 16) as Hdm. pose proof (Nat.mod_upper_bound n 16 ltac:(lia)) as Hr.
  set (q := n / 16) in *. set (r := n mod 16) in *.
  assert (Hpad : ctr_pad rk kl nonce n = ctr_stream (aes_block_encrypt (AES_ROUNDS kl) rk) (take 16 nonce) q
    ++ take r (aes_block_encrypt (AES_ROUNDS kl) rk (Nat.iter q ctr_inc (take 16 nonce)))).
  { unfold ctr_pad. fold q. replace (q + 1) with (S q) by lia. rewrite ctr_stream_snoc.
    rewrite take_app, ctr_stream_length, (take_ge (ctr_stream _ _ _)) by (rewrite ctr_stream_length; lia).
    do 2 f_equal. lia. }
  destruct (ctr_iter (AES_ROUNDS kl) rk q m (take 16 nonce) p c) as (Hl & Hx & Hk);
    [lia|lia|unfold same_or_disj, disj in *; lia|].
  destruct (ctr_iter_scalars (AES_ROUNDS kl) rk q m (take 16 nonce) p c) as (-> & -> & ->).
  set (m' := ct_m _) in *. clearbody m'.
  destruct (Nat.eqb_spec r 0) as [Hr0|Hr0].
  - eexists. split; [done|]. split_and!; [done| |].
    + rewrite Hpad, Hr0. replace n with (16 * q) by lia. rewrite Hx. simpl. by rewrite app_nil_r.
    + intros. apply Hk; [done|unfold disj in *; lia].
  - set (w := xor_bytes _ _).
    assert (Hw : length w = r).
    { unfold w. rewrite xor_bytes_length, rd_length, aes_block_encrypt_length; lia. }
    eexists. split; [done|]. split_and!; [rewrite wr_length; lia| |].
    + rewrite Hpad, Hdm, !rd_app.
      rewrite xor_bytes_app by (rewrite rd_length, ctr_stream_length; lia).
      rewrite rd_wr_disj by (unfold disj; lia). rewrite Hx, rd_wr_same by lia. f_equal.
      unfold w. rewrite (Hk (p + 16 * q) r) by (unfold same_or_disj, disj in *; lia).
      set (e := aes_block_encrypt _ _ _). rewrite <- (take_ge (rd m (p + 16 * q) r) r) at 2 by (rewrite rd_length; lia).
      rewrite <- xor_bytes_take, take_ge; [done|]. rewrite xor_bytes_length, rd_length; lia.
    + intros o k Ho Hdo. rewrite rd_wr_disj by (unfold disj in *; lia). apply Hk; [done|unfold disj in *; lia].
Qed.

Lemma aes_ctr_crypt_too_long rk kl nonce m data_len p c :
  (16 * AES_CTR_MAXBLOCKS < data_len)%Z -> aes_ctr_crypt rk kl nonce m data_len p c = None.
Proof. intros H. unfold aes_ctr_crypt. by rewrite (proj2 (Z.ltb_lt _ _)). Qed.

(** ** The MAC is CBC-MAC over the formatted blocks *)

Definition cbc_mac (E : list Z -> list Z) (iv : list Z) (bs : list (list Z)) : list Z :=
  fold_left (fun X b => E (xor_bytes X b)) bs iv.

Definition pad_blocks (l : list Z) : list (list Z) := chunk 16 ((length l + 15) / 16) (pad_to 16 l).

(** RFC 3610: the first block, the length-prefixed AAD when there is one, the data. *)
Definition ccm_format (nonce aad data : list Z) : list (list Z) :=
  let la := Z.of_nat (length aad) in
  ccm_B_0 nonce la (Z.of_nat (length data)) ::
  (match aad with
   | [] => []
   | _ => pad_blocks (Z.land (Z.shiftr la 8) 0xff :: Z.land la 0xff :: aad)
   end) ++ pad_blocks data.

Section mac.
Context (E : list Z -> list Z).
Hypothesis E_length : forall b, length (E b) = 16.

(** [bs] exclusive-ored into [X] at [k]. *)
Definition xor_at (X : list Z) (k : nat) (bs : list Z) : list Z :=
  take k X ++ xor_bytes (take (length bs) (drop k X)) bs ++ drop (k + length bs) X.

Lemma xor_at_app A D bs :
  xor_at (A ++ D) (length A) bs = A ++ xor_bytes (take (length bs) D) bs ++ drop (length bs) D.
Proof.
  unfold xor_at. rewrite take_app_length, drop_app_length.
  by rewrite <- drop_drop, drop_app_length.
Qed.

Lemma xor_at_S X k b bs : k + S (length bs) <= length X ->
  xor_at (alter (fun x => Z.lxor x b) k X) (S k) bs = xor_at X k (b :: bs).
Proof.
  intros H. destruct (lookup_lt_is_Some_2 X k) as [x Hx]; [lia|].
  pose proof (take_drop_middle X k x Hx) as HX.
  assert (Hl : k = length (take k X)) by (rewrite length_take; lia).
  remember (take k X) as A eqn:HA. remember (drop (S k) X) as C eqn:HC. clear HA HC Hx.
  subst X k. rewrite xor_at_app, alter_app_r_alt, Nat.sub_diag by done.
  change (alter _ 0 (x :: C)) with (Z.lxor x b :: C).
  rewrite (cons_middle (Z.lxor x b)), app_assoc.
  replace (S (length A)) with (length (A ++ [Z.lxor x b])) by (rewrite length_app; simpl; lia).
  rewrite xor_at_app, <- app_assoc. done.
Qed.

Lemma xor_at_nil X k : k <= length X -> xor_at X k [] = X.
Proof. intros. unfold xor_at. simpl. rewrite Nat.add_0_r. apply take_drop. Qed.

(** Absorbing no more bytes than the block still takes. *)
Lemma ccm_absorb_block bs X k : length X = 16 -> k < 16 -> k + length bs <= 16 ->
  ccm_absorb E X k bs =
  if k + length bs =? 16 then (E (xor_at X k bs), 0) else (xor_at X k bs, k + length bs).
Proof using E_length.
  revert X k. induction bs as [|b bs IH]; intros X k HX Hk Hl; cbn [length] in *.
  - rewrite xor_at_nil, Nat.add_0_r by lia. cbn [ccm_absorb]. by destruct (Nat.eqb_spec k 16); [lia|].
  - cbn [ccm_absorb]. destruct (Nat.eqb_spec (S k) 16) as [Hk1|Hk1].
    + destruct bs; [|simpl in *; lia]. cbn [length ccm_absorb].
      rewrite <- xor_at_S, xor_at_nil by (rewrite ?length_alter; simpl; lia).
      by destruct (Nat.eqb_spec (k + 1) 16); [|lia].
    + rewrite IH by (rewrite ?length_alter; lia). rewrite xor_at_S by lia.
      by rewrite (Nat.add_succ_comm k).
Qed.

Lemma ccm_absorb_app a b X k :
  ccm_absorb E X k (a ++ b) = let '(X, k) := ccm_absorb E X k a in ccm_absorb E X k b.
Proof.
  revert X k. induction a as [|x a IH]; intros X k; [done|]. cbn [ccm_absorb app].
  destruct (S k =? 16); apply IH.
Qed.

Lemma xor_at_0 X bs : length X = 16 -> length bs <= 16 ->
  xor_at X 0 bs = xor_bytes X (bs ++ replicate (16 - length bs) 0%Z).
Proof.
  intros HX Hb. unfold xor_at. simpl. rewrite drop_0.
  rewrite <- (take_drop (length bs) X) at 3.
  rewrite xor_bytes_app by (rewrite length_take; lia). f_equal.
  rewrite <- (xor_bytes_0_r (drop (length bs) X)) at 1. by rewrite length_drop, HX.
Qed.

Lemma pad_to_length l : length (pad_to 16 l) = 16 * ((length l + 15) / 16).
Proof.
  unfold pad_to. rewrite length_app, length_replicate. replace (length l + 16 - 1) with (length l + 15) by lia.
  pose proof (Nat.div_mod_eq (length l + 15) 16). pose proof (Nat.mod_upper_bound (length l + 15) 16). lia.
Qed.

Lemma pad_blocks_split l : pad_blocks l =
  chunk 16 (length l / 16) l ++
  (if length l mod 16 =? 0 then []
   else [drop (16 * (length l / 16)) l ++ replicate (16 - length l mod 16) 0%Z]).
Proof.
  unfold pad_blocks. set (n := length l) in *.
  pose proof (Nat.div_mod_eq n 16) as Hdm. pose proof (Nat.mod_upper_bound n 16 ltac:(lia)) as Hr.
  pose proof (Nat.div_mod_eq (n + 15) 16) as Hdm2. pose proof (Nat.mod_upper_bound (n + 15) 16 ltac:(lia)) as Hr2.
  assert (Hpre : forall j, chunk 16 (n / 16 + j) (pad_to 16 l) =
    chunk 16 (n / 16) l ++ chunk 16 j (drop (16 * (n / 16)) (pad_to 16 l))).
  { intros j. rewrite chunk_app. f_equal.
    rewrite <- (chunk_take 16 (n / 16) (pad_to 16 l) n) by lia.
    unfold pad_to. by rewrite take_app_length'. }
  destruct (Nat.eqb_spec (n mod 16) 0) as [H0|H0].
  - replace ((n + 15) / 16) with (n / 16 + 0) by lia. by rewrite Hpre.
  - replace ((n + 15) / 16) with (n / 16 + 1) by lia. rewrite Hpre. f_equal.
    cbn [chunk]. f_equal. unfold pad_to. fold n. rewrite drop_app_le by lia.
    replace (n + 16 - 1) with (n + 15) by lia.
    replace (16 * ((n + 15) / 16) - n) with (16 - n mod 16) by lia.
    apply take_ge. rewrite length_app, length_drop, length_replicate. lia.
Qed.

Lemma cbc_mac_length X bs : length X = 16 -> length (cbc_mac E X bs) = 16.
Proof using E_length. intros HX. destruct bs as [|b bs] using rev_ind; [done|]. unfold cbc_mac. rewrite fold_left_app. apply E_length. Qed.

(** The byte loop with its final partial block is the block chain. *)
Lemma ccm_absorb_blocks l X : length X = 16 ->
  (let '(X, k) := ccm_absorb E X 0 l in if k mod 16 =? 0 then X else E X) = cbc_mac E X (pad_blocks l).
Proof using E_length.
  rewrite pad_blocks_split. pose proof (Nat.div_mod_eq (length l) 16) as Hdm.
  pose proof (Nat.mod_upper_bound (length l) 16 ltac:(lia)) as Hr.
  remember (length l / 16) as q eqn:Hq. remember (length l mod 16) as r eqn:Hr0. clear Hq Hr0.
  revert l X Hdm. induction q as [|q IH]; intros l X Hdm HX.
  - rewrite ccm_absorb_block by lia. rewrite Hdm, Nat.mul_0_r, !Nat.add_0_l, drop_0. cbn [chunk app].
    destruct (Nat.eqb_spec r 16); [lia|]. rewrite Nat.mod_small by lia. rewrite xor_at_0 by lia.
    destruct (Nat.eqb_spec r 0) as [Hz|Hz].
    + destruct l; [|simpl in *; lia]. cbn [length app cbc_mac fold_left]. change (16 - 0) with 16. rewrite <- HX at 1. apply xor_bytes_0_r.
    + cbn [cbc_mac fold_left]. by replace (length l) with r by lia.
  - rewrite <- (take_drop 16 l) at 1. rewrite ccm_absorb_app.
    assert (Ht : length (take 16 l) = 16) by (rewrite length_take; lia).
    rewrite ccm_absorb_block by lia. rewrite Ht. cbn [Nat.add Nat.eqb].
    rewrite xor_at_0, Ht by lia. cbn [Nat.sub replicate]. rewrite app_nil_r.
    replace (16 * S q) with (16 + 16 * q) by lia. rewrite <- drop_drop.
    apply IH; [rewrite length_drop; lia|done].
Qed.

Lemma ccm_mac_data_blocks X l : ccm_mac_data E X l = cbc_mac E X (pad_blocks l).
Proof.
  rewrite pad_blocks_split. unfold ccm_mac_data, cbc_mac. rewrite fold_left_app.
  destruct (Nat.eqb_spec (length l mod 16) 0) as [H|H]; [done|]. cbn [fold_left].
  do 4 f_equal. rewrite length_drop. pose proof (Nat.div_mod_eq (length l) 16). lia.
Qed.
End mac.

Lemma ccm_B_0_length nonce la ld : length nonce = 13 -> length (ccm_B_0 nonce la ld) = 16.
Proof. intros H. unfold ccm_B_0. simpl. rewrite length_app, length_take, H. done. Qed.

(** Aes_ccm_mac is the 8-byte CBC-MAC of the RFC 3610 formatted blocks (flags,
    nonce and length; the length-prefixed zero-padded AAD; the zero-padded data), and
    fails exactly when the AAD is longer than AES_CCM_AAD_MAX_LEN. *)
Theorem aes_ccm_mac_format rk kl nonce aad data : length nonce = 13 ->
  aes_ccm_mac rk kl nonce aad data =
  if (AES_CCM_AAD_MAX_LEN <? Z.of_nat (length aad))%Z then None
  else Some (take 8 (cbc_mac (aes_block_encrypt (AES_ROUNDS kl) rk) (replicate 16 0%Z)
                       (ccm_format nonce aad data))).
Proof.
  intros Hn. unfold aes_ccm_mac. destruct (_ <? _)%Z; [done|]. do 2 f_equal.
  set (E := aes_block_encrypt _ _). pose proof (aes_block_encrypt_length (AES_ROUNDS kl) rk : forall b, length (E b) = 16) as HE.
  unfold ccm_format. set (B := ccm_B_0 _ _ _). cbn [cbc_mac fold_left].
  assert (HB : xor_bytes (replicate 16 0%Z) B = B).
  { rewrite xor_bytes_comm, <- (ccm_B_0_length nonce (Z.of_nat (length aad)) (Z.of_nat (length data)) Hn).
    apply xor_bytes_0_r. }
  rewrite HB, ccm_mac_data_blocks. rewrite fold_left_app. unfold cbc_mac. f_equal.
  destruct aad as [|a aad]; [done|]. set (l := a :: aad).
  destruct (Z.eqb_spec (Z.of_nat (length l)) 0) as [Hz|_]; [subst l; simpl in Hz; lia|].
  set (la := Z.of_nat (length l)). change (match l with [] => _ | _ => ?x end) with x.
  pose proof (ccm_absorb_blocks E HE (Z.land (Z.shiftr la 8) 0xff :: Z.land la 0xff :: l) (E B) (HE B)) as H.
  exact H.
Qed.

(** RFC 3610, packet vector 1. *)
Lemma aes_ccm_mac_format_witness :
  aes_ccm_mac (snd (rijndaelKeySetupEnc (map (Z.add 0xC0) (zrange 16)) 128)) 16
    [0; 0; 0; 3; 2; 1; 0; 0xA0; 0xA1; 0xA2; 0xA3; 0xA4; 0xA5]%Z (zrange 8) (map (Z.add 8) (zrange 23)) =
  Some [0x2D; 0xC6; 0x97; 0xE4; 0x11; 0xCA; 0x83; 0xA8]%Z.
Proof. rewrite aes_ccm_mac_format; by_compute. Defined.

(** ** CCM *)

Lemma aes_ccm_mac_length rk kl nonce aad data X :
  aes_ccm_mac rk kl nonce aad data = Some X -> length X = 8.
Proof.
  unfold aes_ccm_mac. destruct (_ <? _)%Z; [done|]. set (E := aes_block_encrypt _ _).
  pose proof (aes_block_encrypt_length (AES_ROUNDS kl) rk : forall b, length (E b) = 16) as HE.
  match goal with |- context [ccm_mac_data E ?X _] => set (X0 := X) end.
  assert (HX0 : length X0 = 16).
  { subst X0. destruct (_ =? _)%Z; [done|].
    change (alter (fun x => Z.lxor x (Z.land (Z.of_nat (length aad)) 255)) 1 _) with
      (fst (ccm_absorb E (E (ccm_B_0 nonce (Z.of_nat (length aad)) (Z.of_nat (length data)))) 0
        [Z.land (Z.shiftr (Z.of_nat (length aad)) 8) 255; Z.land (Z.of_nat (length aad)) 255])).
    pose proof (ccm_absorb_blocks E HE (Z.land (Z.shiftr (Z.of_nat (length aad)) 8) 0xff ::
      Z.land (Z.of_nat (length aad)) 0xff :: aad) _ (HE (ccm_B_0 nonce (Z.of_nat (length aad)) (Z.of_nat (length data))))) as H.
    cbn in H |- *. rewrite H. by apply cbc_mac_length. }
  intros [= <-]. rewrite ccm_mac_data_blocks, length_take, cbc_mac_length by done. done.
Qed.

Section ccm.
Context (rk : list Z) (kl : Z) (nonce aad : list Z).
Hypothesis aad_len : (Z.of_nat (length aad) <= AES_CCM_AAD_MAX_LEN)%Z.

#[local] Abbreviation pad0 := (ctr_pad rk kl (ccm_ctr0 nonce 0 0) 8).
#[local] Abbreviation pad1 := (ctr_pad rk kl (ccm_ctr0 nonce 0 1)).

Lemma aes_ccm_mac_some data : exists X, aes_ccm_mac rk kl nonce aad data = Some X /\ length X = 8.
Proof using aad_len.
  destruct (aes_ccm_mac _ _ _ _ _) as [X|] eqn:H; [eauto using aes_ccm_mac_length|].
  unfold aes_ccm_mac in H. by rewrite (proj2 (Z.ltb_ge _ _)) in H.
Qed.

Lemma aes_ccm_encrypt_spec m n p c mac :
  (Z.of_nat n <= 16 * AES_CTR_MAXBLOCKS)%Z -> same_or_disj p c n ->
  p + n <= length m -> c + n <= length m -> mac + 8 <= length m -> disj mac 8 p n -> disj mac 8 c n ->
  exists X m', aes_ccm_mac rk kl nonce aad (rd m p n) = Some X /\
    aes_ccm_encrypt rk kl nonce aad m (Z.of_nat n) p c mac = (true, m') /\
    length m' = length m /\
    rd m' c n = xor_bytes (rd m p n) (pad1 n) /\ rd m' mac 8 = xor_bytes X pad0 /\
    (forall o k, o + k <= length m -> disj c n o k -> disj mac 8 o k -> rd m' o k = rd m o k).
Proof using aad_len.
  intros Hn Hd Hp Hc Hm Hdp Hdc. unfold aes_ccm_encrypt. rewrite Nat2Z.id.
  destruct (aes_ccm_mac_some (rd m p n)) as (X & HX & HXl). rewrite HX. exists X.
  destruct (aes_ctr_crypt_spec rk kl (ccm_ctr0 nonce 0 0) X 8 0 0) as (X1 & -> & HX1l & HX1 & _);
    [by vm_compute|cbn; lia|cbn; lia|by left|].
  change (Z.to_nat 8) with 8 in HX1. rewrite (take_ge X1) by (rewrite HX1l, HXl; done).
  unfold rd in HX1. rewrite !drop_0, !take_ge in HX1 by lia.
  destruct (aes_ctr_crypt_spec rk kl (ccm_ctr0 nonce 0 1) (wr m mac X1) (Z.of_nat n) p c)
    as (m2 & -> & Hl2 & Hr2 & Hk2); rewrite ?Nat2Z.id, ?wr_length in *; try lia; try done.
  eexists. split_and!; [done|done|done| | |].
  - rewrite Hr2. f_equal. apply rd_wr_disj; [lia|lia|]. by rewrite HX1l, HXl.
  - rewrite Hk2 by (done || unfold disj in *; lia). rewrite rd_wr_same by lia. done.
  - intros o k Ho H1 H2. rewrite Hk2 by done. apply rd_wr_disj; [lia|lia|]. by rewrite HX1l, HXl.
Qed.

Lemma aes_ccm_decrypt_spec m n c p :
  (Z.of_nat n <= 16 * AES_CTR_MAXBLOCKS)%Z -> same_or_disj c p (n + 8) ->
  c + (n + 8) <= length m -> p + (n + 8) <= length m ->
  let P := xor_bytes (rd m c n) (pad1 n) in
  let T := xor_bytes (rd m (c + n) 8) pad0 in
  exists m', aes_ccm_decrypt rk kl nonce aad m (Z.of_nat (n + 8)) c p =
      (bool_decide (aes_ccm_mac rk kl nonce aad P = Some T), m') /\
    length m' = length m /\ rd m' p n = P /\ rd m' (p + n) 8 = T /\
    (forall o k, o + k <= length m -> disj p (n + 8) o k -> rd m' o k = rd m o k).
Proof using aad_len.
  intros Hn Hd Hc Hp P T. unfold aes_ccm_decrypt.
  assert (Hs : size_sub (Z.of_nat (n + 8)) 8 = Z.of_nat n).
  { change (16 * AES_CTR_MAXBLOCKS)%Z with 1048576%Z in Hn. unfold size_sub.
    rewrite wrap32_id; unfold is_u; lia. }
  rewrite Hs, Nat2Z.id.
  destruct (aes_ctr_crypt_spec rk kl (ccm_ctr0 nonce 0 1) m (Z.of_nat n) c p)
    as (m1 & -> & Hl1 & Hr1 & Hk1); rewrite ?Nat2Z.id in *; try (unfold same_or_disj, disj in *; lia).
  destruct (aes_ctr_crypt_spec rk kl (ccm_ctr0 nonce 0 0) m1 8 (c + n) (p + n))
    as (m2 & -> & Hl2 & Hr2 & Hk2); [by vm_compute|cbn; unfold same_or_disj, disj in *; lia..|].
  change (Z.to_nat 8) with 8 in *.
  assert (HP : rd m2 p n = P) by (rewrite Hk2 by (unfold disj; lia); done).
  assert (HT : rd m2 (p + n) 8 = T).
  { rewrite Hr2. unfold T. f_equal. apply Hk1; unfold same_or_disj, disj in *; lia. }
  rewrite HP. change AES_CCM_AUTH_LEN with 8. rewrite HT.
  destruct (aes_ccm_mac_some P) as (X & HX & _). rewrite HX. exists m2. split_and!; [|lia|done|done|].
  - f_equal. apply bool_decide_ext. split; congruence.
  - intros o k Ho Hk. rewrite Hk2, Hk1 by (unfold disj in *; lia). done.
Qed.
End ccm.

(** Aes_ccm_decrypt accepts only what aes_ccm_encrypt produces.  When it returns
    success, encrypting the plaintext it stored, under the same nonce and AAD, gives
    back the ciphertext and the encrypted MAC byte for byte. *)
Theorem aes_ccm_decrypt_sound rk kl nonce aad m n c p m2 :
  (Z.of_nat (length aad) <= AES_CCM_AAD_MAX_LEN)%Z -> (Z.of_nat n <= 16 * AES_CTR_MAXBLOCKS)%Z ->
  same_or_disj c p (n + 8) -> c + (n + 8) <= length m -> p + (n + 8) <= length m ->
  aes_ccm_decrypt rk kl nonce aad m (Z.of_nat (n + 8)) c p = (true, m2) ->
  exists m3, aes_ccm_encrypt rk kl nonce aad m2 (Z.of_nat n) p p (p + n) = (true, m3) /\
    rd m3 p (n + 8) = rd m c (n + 8).
Proof.
  intros Ha Hn Hd Hc Hp Hdec.
  destruct (aes_ccm_decrypt_spec rk kl nonce aad Ha m n c p Hn Hd Hc Hp) as (m2' & Hdec' & Hl & HP & HT & _).
  rewrite Hdec in Hdec'. injection Hdec' as Hmac <-. symmetry in Hmac. apply bool_decide_eq_true in Hmac.
  destruct (aes_ccm_encrypt_spec rk kl nonce aad Ha m2 n p p (p + n))
    as (X & m3 & HX & Henc & _ & Hr & Hm & _); [done|by left|unfold disj in *; lia..|].
  exists m3. split; [done|]. rewrite HP, Hmac in HX. injection HX as <-.
  rewrite !rd_app, Hr, Hm, HP. f_equal.
  - apply xor_bytes_cancel. rewrite ctr_pad_length, rd_length; lia.
  - apply xor_bytes_cancel. rewrite ctr_pad_length, rd_length; lia.
Qed.

(** A frame made by encryption, checked by decryption and rebuilt. *)
Lemma aes_ccm_decrypt_sound_witness :
  let rk := snd (rijndaelKeySetupEnc (zrange 16) 128) in
  let m1 := snd (aes_ccm_encrypt rk 16 (zrange 13) (zrange 5) (zrange 60) 21 0 0 21) in
  exists m3, aes_ccm_encrypt rk 16 (zrange 13) (zrange 5)
      (snd (aes_ccm_decrypt rk 16 (zrange 13) (zrange 5) m1 29 0 30)) (Z.of_nat 21) 30 30 (30 + 21) = (true, m3) /\
    rd m3 30 (21 + 8) = rd m1 0 (21 + 8).
Proof.
  cbv zeta. eapply (aes_ccm_decrypt_sound _ 16 (zrange 13) (zrange 5) _ 21 0 30).
  1-2: by_compute. 1: right; by_compute. 1-2: by_compute. vm_compute; reflexivity.
Defined.

(** ** CCMP *)

Lemma le16_take h h' o k : take k h = take k h' -> o + 1 < k -> le16 h o = le16 h' o.
Proof.
  intros H Ho. unfold le16. rewrite !nth_lookup.
  rewrite <- (lookup_take_lt h k o), <- (lookup_take_lt h k (o + 1)) by lia.
  rewrite H, !lookup_take_lt by lia. done.
Qed.

Lemma nth_take h h' o k : take k h = take k h' -> o < k -> nth o h 0%Z = nth o h' 0%Z.
Proof.
  intros H Ho. rewrite !nth_lookup, <- (lookup_take_lt h k o), H, lookup_take_lt by lia. done.
Qed.

Lemma rd_take h h' o n k : take k h = take k h' -> o + n <= k -> rd h o n = rd h' o n.
Proof.
  intros H Ho. unfold rd. rewrite !take_drop_commute. f_equal.
  rewrite <- (Nat.min_l (o + n) k) by lia. by rewrite <- !take_take, H.
Qed.

(** The parameters depend only on the header and IV, the first [cp_lh] bytes. *)
Lemma ccmp_params_prefix h h' legacy b : let c := aes_ccmp_cal_params h legacy b in
  take (cp_lh c) h = take (cp_lh c) h' -> aes_ccmp_cal_params h' legacy b = c.
Proof.
  intros c H. unfold c in *. clear c. revert H. unfold aes_ccmp_cal_params. cbn [cp_lh].
  set (wds := (_ =? _)%Z). set (qos := _ && _). set (k := DOT11_A3_HDR_LEN + 8 + _). intros H.
  assert (Hk : 32 <= k) by (subst k; unfold DOT11_A3_HDR_LEN; lia).
  rewrite <- (le16_take h h' 0 k H) by lia. fold wds qos.
  rewrite <- (le16_take h h' 22 k H), <- (rd_take h h' 10 6 k H), <- (rd_take h h' 4 18 k H) by lia.
  assert (Hq : qos = true -> le16 h (if wds then DOT11_A4_HDR_LEN else DOT11_A3_HDR_LEN) =
    le16 h' (if wds then DOT11_A4_HDR_LEN else DOT11_A3_HDR_LEN)).
  { intros Hq. apply (le16_take h h' _ k H). subst k. rewrite Hq.
    destruct wds; unfold DOT11_A3_HDR_LEN, DOT11_A4_HDR_LEN; lia. }
  assert (Hiv : forall i, i < 8 -> nth (DOT11_A3_HDR_LEN + ((if wds then 6 else 0) + (if qos then 2 else 0)) + i) h' 0%Z =
    nth (DOT11_A3_HDR_LEN + ((if wds then 6 else 0) + (if qos then 2 else 0)) + i) h 0%Z).
  { intros i Hi. symmetry. apply (nth_take h h' _ k H). subst k. lia. }
  rewrite !Hiv by lia. rewrite <- (rd_take h h' 24 6 k H) by (lia).
  destruct qos; [rewrite Hq by done|]; done.
Qed.

Lemma ccmp_aad_length h legacy b : length (cp_aad (aes_ccmp_cal_params h legacy b)) <= 30.
Proof.
  unfold aes_ccmp_cal_params. cbn [cp_aad]. rewrite !length_app. unfold rd, put16.
  repeat case_match; cbn [length]; rewrite ?length_take; lia.
Qed.

Lemma ccmp_lh_bound h legacy b : 32 <= cp_lh (aes_ccmp_cal_params h legacy b) <= 40.
Proof.
  unfold aes_ccmp_cal_params. cbn [cp_lh]. unfold DOT11_A3_HDR_LEN.
  repeat case_match; lia.
Qed.

Lemma ccmp_aad_ok h legacy b :
  (Z.of_nat (length (cp_aad (aes_ccmp_cal_params h legacy b))) <= AES_CCM_AAD_MAX_LEN)%Z.
Proof. pose proof (ccmp_aad_length h legacy b). unfold AES_CCM_AAD_MAX_LEN. lia. Qed.

(** [data_len - lh] without wrap-around. *)
Lemma size_sub_nat a b : b <= a -> (Z.of_nat a < 2 ^ 32)%Z ->
  size_sub (Z.of_nat a) (Z.of_nat b) = Z.of_nat (a - b).
Proof. intros. unfold size_sub. rewrite wrap32_id; unfold is_u; lia. Qed.

(** C34: CCMP round trip in place.  A frame at [p] of [len] bytes whose header, IV
    included, fits, with room for the MIC behind it, is encrypted and decrypted with
    success and comes back unchanged; the header is never touched, and bytes outside the
    frame and its MIC are left alone. *)
Theorem aes_ccmp_roundtrip rk kl m p len legacy b :
  let lh := cp_lh (aes_ccmp_cal_params (drop p m) legacy b) in
  lh <= len -> (Z.of_nat (len - lh) <= 16 * AES_CTR_MAXBLOCKS)%Z -> p + len + 8 <= length m ->
  let '(r1, m1) := aes_ccmp_encrypt rk kl (Z.of_nat len) m p legacy b in
  let '(r2, m2) := aes_ccmp_decrypt rk kl (Z.of_nat (len + 8)) m1 p legacy b in
  r1 = 0%Z /\ r2 = 0%Z /\ rd m1 p lh = rd m p lh /\ rd m2 p len = rd m p len /\
  (forall o k, o + k <= length m -> disj p (len + 8) o k -> rd m2 o k = rd m o k).
Proof.
  intros lh Hlh Hmax Hp. pose proof (ccmp_lh_bound (drop p m) legacy b) as Hb.
  change (16 * AES_CTR_MAXBLOCKS)%Z with 1048576%Z in Hmax.
  unfold aes_ccmp_encrypt. fold lh in Hb |- *. set (c := aes_ccmp_cal_params _ _ _) in *.
  rewrite size_sub_nat, Nat2Z.id by lia. set (n := len - lh) in *.
  pose proof (ccmp_aad_ok (drop p m) legacy b) as Ha. fold c in Ha.
  destruct (aes_ccm_encrypt_spec rk kl (cp_nonce c) (cp_aad c) Ha m n (p + lh) (p + lh) (p + len))
    as (X & m1 & HX & -> & Hl1 & Hr1 & Hm1 & Hk1); [done|by left|unfold disj in *; lia..|].
  assert (Hhdr : rd m1 p lh = rd m p lh) by (apply Hk1; unfold disj; lia).
  unfold aes_ccmp_decrypt. replace (aes_ccmp_cal_params (drop p m1) legacy b) with c
    by (symmetry; apply ccmp_params_prefix; symmetry; exact Hhdr).
  fold lh. rewrite size_sub_nat by lia. replace (len + 8 - lh) with (n + 8) by lia.
  destruct (aes_ccm_decrypt_spec rk kl (cp_nonce c) (cp_aad c) Ha m1 n (p + lh) (p + lh))
    as (m2 & -> & Hl2 & HP & HT & Hk2); [done|by left|lia|lia|].
  replace (p + lh + n) with (p + len) in * by lia.
  rewrite Hr1, Hm1 in *.
  rewrite xor_bytes_cancel in HP |- * by (rewrite ctr_pad_length, rd_length; lia).
  rewrite xor_bytes_cancel in HT |- *
    by (rewrite ctr_pad_length; by apply aes_ccm_mac_length in HX).
  rewrite HX, bool_decide_eq_true_2 by done. split_and!; [done|done|done| |].
  - replace len with (lh + n) by lia. rewrite !rd_app, HP. f_equal.
    rewrite Hk2 by (unfold disj; lia). done.
  - intros o k Ho Hd. rewrite Hk2, Hk1 by (unfold disj in *; lia). done.
Qed.

Lemma aes_ccmp_roundtrip_witness :
  let rk := snd (rijndaelKeySetupEnc (zrange 16) 128) in
  let '(r1, m1) := aes_ccmp_encrypt rk 16 (Z.of_nat 70) (zrange 120) 3 false 0 in
  let '(r2, m2) := aes_ccmp_decrypt rk 16 (Z.of_nat (70 + 8)) m1 3 false 0 in
  r1 = 0%Z /\ r2 = 0%Z /\ rd m2 3 70 = rd (zrange 120) 3 70.
Proof.
  pose proof (aes_ccmp_roundtrip (snd (rijndaelKeySetupEnc (zrange 16) 128)) 16 (zrange 120) 3 70 false 0
    ltac:(by_compute) ltac:(by_compute) ltac:(by_compute)) as H.
  cbv zeta in H |- *.
  destruct (aes_ccmp_encrypt _ _ _ _ _ _ _) as [r1 m1]. destruct (aes_ccmp_decrypt _ _ _ _ _ _ _) as [r2 m2].
  destruct H as (? & ? & _ & ? & _). split_and!; assumption.
Defined.

(** A frame too short for its header and the MIC is rejected without touching it:
    the unsigned subtractions wrap to a length CTR refuses. *)
Theorem aes_ccmp_decrypt_short rk kl m p len legacy b :
  (0 <= len < Z.of_nat (cp_lh (aes_ccmp_cal_params (drop p m) legacy b)) + 8)%Z ->
  aes_ccmp_decrypt rk kl len m p legacy b = ((-2)%Z, m).
Proof.
  intros H. unfold aes_ccmp_decrypt. pose proof (ccmp_lh_bound (drop p m) legacy b) as Hb.
  set (c := aes_ccmp_cal_params _ _ _) in *. unfold aes_ccm_decrypt.
  rewrite aes_ctr_crypt_too_long; [done|]. change (16 * AES_CTR_MAXBLOCKS)%Z with 1048576%Z.
  unfold size_sub, wrap32. rewrite Zminus_mod_idemp_l.
  rewrite <- (Z.mod_unique_pos _ (2 ^ 32) (-1) (len - Z.of_nat (cp_lh c) - 8 + 2 ^ 32)) by lia. lia.
Qed.

Lemma aes_ccmp_decrypt_short_witness :
  aes_ccmp_decrypt (snd (rijndaelKeySetupEnc (zrange 16) 128)) 16 39 (zrange 60) 0 false 0 = ((-2)%Z, zrange 60).
Proof. apply aes_ccmp_decrypt_short. by_compute. Defined.
