(* ===== verification/AesCmac.v ===== *)
(** AES-CMAC of src/userspace/libbcmcrypto/src/aes.c, against the definition of NIST
    SP 800-38B / RFC 4493: the subkeys are doublings in GF(2^128), the tag the last
    block of a CBC chain over the message with its last block masked. *)
From stdpp Require Import base numbers list.
From Stdlib Require Import ZArith Lia.
From S2P Require Import Prelude AesTables Mem Rijndael AesCbc AesCcm.

(** ** Definitions *)

Definition Z128 : list Z := replicate 16 0%Z.
Definition R128 : list Z := replicate 15 0%Z ++ [0x87%Z].
Definition AES_CMAC_AUTH_LEN : nat := 16.

(** The loop [for (i = 15; i >= 0; i--)]: the shifted bytes and [high] after the bytes
    to the right of the current one. *)
Definition shl1_step (b : Z) (acc : list Z * Z) : list Z * Z :=
  let '(out, high) := acc in
  let low := wrap8 (Z.shiftl b 1) in
  (Z.lor low high :: out, Z.shiftr (Z.land b 0x80) 7).
Definition shl1 (L : list Z) : list Z := fst (fold_right shl1_step ([], 0%Z) L).

Definition cmac_double (L : list Z) : list Z :=
  if (Z.land (idx L 0) 0x80 =? 0)%Z then shl1 L else xor_bytes (shl1 L) R128.

Definition aes_cmac_gen_subkeys (kl : Z) (K : list Z) : list Z * list Z :=
  let L := aes_encrypt kl K Z128 in
  let K1 := cmac_double L in
  (K1, cmac_double K1).

Definition aes_cmac (key_len : Z) (K K1 K2 ptxt : list Z) : list Z :=
  let data_len := length ptxt in
  let n := if data_len =? 0 then 1 else (data_len + 16 - 1) / 16 in
  let Mn :=
    if data_len =? n * 16 then xor_bytes K1 (rd ptxt ((n - 1) * 16) 16)
    else
      let pblen := data_len - (n - 1) * 16 in
      xor_bytes K2 (rd ptxt ((n - 1) * 16) pblen ++ 0x80%Z :: replicate (16 - (pblen + 1)) 0%Z) in
  let rk := snd (rijndaelKeySetupEnc K (AES_KEY_BITLEN key_len)) in
  let E := aes_block_encrypt (AES_ROUNDS key_len) rk in
  let C := fold_left (fun C i => E (xor_bytes C (rd ptxt ((i - 1) * 16) 16))) (seq 1 (n - 1)) (replicate 16 0%Z) in
  take AES_CMAC_AUTH_LEN (E (xor_bytes C Mn)).

Definition aes_cmac_calc (data mic_key : list Z) (key_len : Z) : list Z :=
  let '(K1, K2) := aes_cmac_gen_subkeys key_len mic_key in
  aes_cmac key_len mic_key K1 K2 data.

(** ** The subkeys are doublings in GF(2^128) *)

(** The integer a byte string denotes, most significant byte first. *)
Definition be (l : list Z) : Z := fold_left (fun a b => a * 256 + b)%Z l 0%Z.

(** Multiplication by x modulo x^128 + x^7 + x^2 + x + 1. *)
Definition gf128_double (x : Z) : Z :=
  (if x <? 2 ^ 127 then 2 * x else Z.lxor ((2 * x) mod 2 ^ 128) 0x87)%Z.

Local Open Scope Z_scope.

Lemma be_app_acc l a : fold_left (fun a b => a * 256 + b) l a = a * 2 ^ (8 * Z.of_nat (length l)) + be l.
Proof.
  unfold be. revert a. induction l as [|b l IH]; intros a; cbn [fold_left length].
  - change (8 * Z.of_nat 0) with 0. rewrite Z.pow_0_r. lia.
  - rewrite IH, (IH (0 * 256 + b)).
    replace (8 * Z.of_nat (S (length l))) with (8 + 8 * Z.of_nat (length l)) by lia.
    rewrite Z.pow_add_r by lia. change (2 ^ 8) with 256. ring.
Qed.

Lemma be_cons b l : be (b :: l) = b * 2 ^ (8 * Z.of_nat (length l)) + be l.
Proof. unfold be at 1. cbn [fold_left]. rewrite be_app_acc. lia. Qed.

Lemma be_bound l : bytes_ok l -> 0 <= be l < 2 ^ (8 * Z.of_nat (length l)).
Proof.
  induction 1 as [|b l Hb Hl IH]; [done|]. rewrite be_cons. cbn [length].
  replace (8 * Z.of_nat (S (length l))) with (8 + 8 * Z.of_nat (length l)) by lia.
  rewrite Z.pow_add_r by lia. change (2 ^ 8) with 256. destruct Hb as [Hb0 Hb1].
  change (2 ^ 8) with 256 in Hb1. nia.
Qed.

Lemma shl1_byte b : u8 b -> (Z.lor (wrap8 (Z.shiftl b 1)) 0 + 256 * Z.shiftr (Z.land b 0x80) 7 = 2 * b) /\
  Z.lor (wrap8 (Z.shiftl b 1)) 1 = wrap8 (Z.shiftl b 1) + 1 /\ Z.shiftr (Z.land b 0x80) 7 = b / 128.
Proof.
  intros Hb. pose proof (forall_byte_spec (fun b =>
    ((Z.lor (wrap8 (Z.shiftl b 1)) 0 + 256 * Z.shiftr (Z.land b 0x80) 7 =? 2 * b) &&
    (Z.lor (wrap8 (Z.shiftl b 1)) 1 =? wrap8 (Z.shiftl b 1) + 1) && (Z.shiftr (Z.land b 0x80) 7 =? b / 128)))
    ltac:(vm_compute; reflexivity) b Hb) as H. simpl in H.
  rewrite !andb_true_iff, !Z.eqb_eq in H. tauto.
Qed.

(** The shift loop doubles: [high] is the carry out. *)
Lemma shl1_be L : bytes_ok L -> let '(out, high) := fold_right shl1_step ([], 0) L in
  length out = length L /\ bytes_ok out /\ (high = 0 \/ high = 1) /\
  be out + high * 2 ^ (8 * Z.of_nat (length L)) = 2 * be L.
Proof.
  induction 1 as [|b L Hb HL IH]; [simpl; split_and!; auto|].
  cbn [fold_right]. destruct (fold_right _ _ L) as [out high]. destruct IH as (Hl & Ho & Hh & IH).
  unfold shl1_step. destruct (shl1_byte b Hb) as (H1 & H2 & H3). rewrite Z.lor_0_r in H1.
  assert (Hbd : b / 128 = 0 \/ b / 128 = 1) 
    by (destruct Hb; change (2 ^ 8) with 256 in *; pose proof (Z.div_mod b 128 ltac:(lia));
        pose proof (Z.mod_pos_bound b 128 ltac:(lia)); lia).
  assert (Hlor : Z.lor (wrap8 (Z.shiftl b 1)) high = wrap8 (Z.shiftl b 1) + high)
    by (destruct Hh as [-> | ->]; [by rewrite Z.lor_0_r, Z.add_0_r | done]).
  split_and!.
  - simpl. by rewrite Hl.
  - constructor; [|done]. apply is_u_lor; [lia|auto with word|].
    unfold is_u. destruct Hh as [-> | ->]; lia.
  - rewrite H3. done.
  - rewrite !be_cons, Hlor, H3, Hl in *. cbn [length].
    replace (8 * Z.of_nat (S (length L))) with (8 + 8 * Z.of_nat (length L)) by lia.
    rewrite Z.pow_add_r by lia. change (2 ^ 8) with 256. nia.
Qed.

Lemma be_xor a b : length a = length b -> bytes_ok a -> bytes_ok b ->
  be (xor_bytes a b) = Z.lxor (be a) (be b).
Proof.
  intros Hl Ha. revert b Hl. induction Ha as [|x a Hx Ha IH]; intros [|y b] Hl Hb; simpl in Hl; try done.
  inversion Hb as [|? ? Hy Hb']; subst. change (xor_bytes (x :: a) (y :: b)) with (Z.lxor x y :: xor_bytes a b).
  rewrite !be_cons, IH, xor_bytes_length by (lia || done).
  replace (length b) with (length a) by lia. rewrite Nat.min_id.
  set (k := 8 * Z.of_nat (length a)).
  assert (Hka : is_u k (be a)) by (apply be_bound; done).
  assert (Hkb : is_u k (be b)) by (unfold k; replace (length a) with (length b) by lia; apply be_bound; done).
  assert (Hk : 0 <= k) by (subst k; lia). clearbody k.
  rewrite <- (lxor_shiftl_add k x (be a)), <- (lxor_shiftl_add k y (be b)) by done.
  rewrite <- (lxor_shiftl_add k (Z.lxor x y)) by (done || by apply is_u_lxor).
  rewrite Z.shiftl_lxor. lxor_solve.
Qed.

Lemma be_R128 : be R128 = 0x87.
Proof. reflexivity. Qed.

(** The sign test on the first byte. *)
Lemma be_top L : length L = 16%nat -> bytes_ok L ->
  (Z.land (idx L 0) 0x80 =? 0) = (be L <? 2 ^ 127).
Proof.
  intros Hl HL. destruct HL as [|b L Hb HL]; [done|]. simpl in Hl. rewrite be_cons.
  pose proof (be_bound L HL) as Hbd. replace (length L) with 15%nat in * by lia.
  change (idx (b :: L) 0) with b. change (8 * Z.of_nat 15) with 120 in *.
  pose proof (forall_byte_spec (fun b => Bool.eqb (Z.land b 0x80 =? 0) (b <? 128))
    ltac:(vm_compute; reflexivity) b Hb) as H. apply Bool.eqb_prop in H. rewrite H.
  change (2 ^ 127) with (128 * 2 ^ 120) in *.
  destruct (Z.ltb_spec b 128), (Z.ltb_spec (b * 2 ^ 120 + be L) (128 * 2 ^ 120)); try done; nia.
Qed.

Lemma cmac_double_spec L : length L = 16%nat -> bytes_ok L ->
  be (cmac_double L) = gf128_double (be L) /\ length (cmac_double L) = 16%nat /\ bytes_ok (cmac_double L).
Proof.
  intros Hl HL. unfold cmac_double, gf128_double, shl1. rewrite be_top by done.
  pose proof (shl1_be L HL) as H. destruct (fold_right _ _ L) as [out high].
  destruct H as (Hlo & Hok & Hh & Hbe). cbn [fst]. rewrite Hl in *. change (8 * Z.of_nat 16) with 128 in *.
  pose proof (be_bound out Hok) as Hbo. rewrite Hlo in Hbo. change (8 * Z.of_nat 16) with 128 in *.
  pose proof (be_bound L HL) as HbL. rewrite Hl in HbL. change (8 * Z.of_nat 16) with 128 in *.
  change (2 ^ 128) with (2 * 2 ^ 127) in *.
  destruct (Z.ltb_spec (be L) (2 ^ 127)) as [Hlt|Hge].
  - split_and!; [destruct Hh as [-> | ->]; lia|lia|done].
  - assert (HR : bytes_ok R128) by by_compute.
    rewrite be_xor, be_R128, xor_bytes_length by (lia || done).
    split_and!; [|rewrite Hlo; done|by apply xor_bytes_ok]. f_equal.
    destruct Hh as [-> | ->]; [lia|].
    apply Z.mod_unique with 1; lia.
Qed.

Local Close Scope Z_scope.

(** ** The tag *)

#[local] Arguments Nat.div : simpl never.
#[local] Arguments Nat.modulo : simpl never.
#[local] Arguments Nat.mul : simpl never.

(** RFC 4493, section 2.4: all blocks but the last as they are; the last masked with
    [K1] when it is whole, padded with 10..0 and masked with [K2] when it is not.
    [fuel] bounds the number of blocks; the length of the message is enough. *)
Fixpoint cmac_blocks (fuel : nat) (K1 K2 M : list Z) : list (list Z) :=
  match fuel with
  | S fuel => if 16 <? length M then take 16 M :: cmac_blocks fuel K1 K2 (drop 16 M) else
      [if length M =? 16 then xor_bytes K1 M
       else xor_bytes K2 (M ++ 0x80%Z :: replicate (15 - length M) 0%Z)]
  | O => [xor_bytes K2 (M ++ 0x80%Z :: replicate (15 - length M) 0%Z)]
  end.

Lemma chunk_seq {A} (f : nat -> list A) (l : list A) a k :
  (forall i, i < k -> f (a + i) = take 16 (drop (16 * i) l)) -> map f (seq a k) = chunk 16 k l.
Proof.
  revert a l. induction k as [|k IH]; intros a l H; [done|]. cbn [seq map chunk]. f_equal.
  - rewrite <- (Nat.add_0_r a), H by lia. by rewrite Nat.mul_0_r, drop_0.
  - apply IH. intros i Hi. rewrite Nat.add_succ_comm, H by lia. rewrite drop_drop. do 2 f_equal. lia.
Qed.

Lemma cmac_blocks_chunk q fuel K1 K2 M : q < fuel ->
  (length M = 0 /\ q = 0 \/ 16 * q < length M <= 16 * (q + 1)) ->
  cmac_blocks fuel K1 K2 M = chunk 16 q M ++
    [if length M =? 16 * (q + 1) then xor_bytes K1 (drop (16 * q) M)
     else xor_bytes K2 (drop (16 * q) M ++ 0x80%Z :: replicate (15 - (length M - 16 * q)) 0%Z)].
Proof.
  revert fuel M. induction q as [|q IH]; intros [|fuel] M Hf Hl; try lia; cbn [cmac_blocks chunk app].
  - rewrite (proj2 (Nat.ltb_ge _ _)) by lia. by rewrite Nat.mul_0_r, drop_0, Nat.sub_0_r.
  - rewrite (proj2 (Nat.ltb_lt _ _)) by lia. f_equal.
    rewrite IH by (rewrite ?length_drop; lia). rewrite length_drop, drop_drop.
    replace (length M - 16 - 16 * q) with (length M - 16 * S q) by lia.
    replace (16 + 16 * q) with (16 * S q) by lia.
    by destruct (Nat.eqb_spec (length M - 16) (16 * (q + 1))),
      (Nat.eqb_spec (length M) (16 * (S q + 1))); try lia.
Qed.

(** [n - 1] of aes_cmac. *)
Lemma cmac_n_bounds len : let n := if len =? 0 then 1 else (len + 16 - 1) / 16 in
  0 < n /\ (len = 0 /\ n = 1 \/ 16 * (n - 1) < len <= 16 * n).
Proof.
  destruct (Nat.eqb_spec len 0) as [->|H]; cbv zeta; [lia|].
  pose proof (Nat.div_mod_eq (len + 16 - 1) 16). pose proof (Nat.mod_upper_bound (len + 16 - 1) 16). lia.
Qed.

Lemma aes_cmac_blocks kl K K1 K2 M :
  aes_cmac kl K K1 K2 M =
  cbc_mac (aes_block_encrypt (AES_ROUNDS kl) (snd (rijndaelKeySetupEnc K (AES_KEY_BITLEN kl))))
    (replicate 16 0%Z) (cmac_blocks (S (length M)) K1 K2 M).
Proof.
  unfold aes_cmac. destruct (cmac_n_bounds (length M)) as [Hn Hb]. cbv zeta in Hn, Hb.
  set (n := if _ =? 0 then _ else _) in *. clearbody n. set (E := aes_block_encrypt _ _).
  rewrite (cmac_blocks_chunk (n - 1)) by lia. unfold cbc_mac. rewrite fold_left_app. cbn [fold_left].
  rewrite take_ge by (unfold E; rewrite aes_block_encrypt_length; done).
  rewrite <- (chunk_seq (fun i => rd M ((i - 1) * 16) 16) M 1 (n - 1)), fold_left_map.
  2: { intros i Hi. unfold rd. do 2 f_equal. lia. }
  f_equal. f_equal. replace (n - 1 + 1) with n by lia. rewrite (Nat.mul_comm 16 n), (Nat.mul_comm 16 (n - 1)).
  unfold rd. destruct (Nat.eqb_spec (length M) (n * 16)).
  - f_equal. apply take_ge. rewrite length_drop. lia.
  - rewrite take_ge by (rewrite length_drop; lia). do 4 f_equal. lia.
Qed.

(** Aes_cmac_calc is CMAC as SP 800-38B defines it: the subkeys are the first two
    doublings of E(0) in GF(2^128), and the tag is the CBC chain over the message
    blocks, the last one masked with the subkey its length selects. *)
Theorem aes_cmac_calc_spec kl K M : key_ok kl K ->
  let E := aes_block_encrypt (AES_ROUNDS kl) (snd (rijndaelKeySetupEnc K (AES_KEY_BITLEN kl))) in
  exists K1 K2, block_ok K1 /\ block_ok K2 /\
    be K1 = gf128_double (be (E (replicate 16 0%Z))) /\ be K2 = gf128_double (be K1) /\
    aes_cmac_calc M K kl = cbc_mac E (replicate 16 0%Z) (cmac_blocks (S (length M)) K1 K2 M).
Proof.
  intros HK E. unfold aes_cmac_calc, aes_cmac_gen_subkeys.
  assert (HL : aes_encrypt kl K Z128 = E Z128)
    by (unfold aes_encrypt, E; by destruct (rijndaelKeySetupEnc _ _)).
  rewrite HL. destruct (bp_ok (BlockPair := aes_block_pair kl K HK) Z128) as [Hl Hok]; [by_compute|].
  fold E in Hl, Hok. set (L := E Z128) in *.
  destruct (cmac_double_spec L Hl Hok) as (H1 & Hl1 & Hok1).
  destruct (cmac_double_spec (cmac_double L) Hl1 Hok1) as (H2 & Hl2 & Hok2).
  exists (cmac_double L), (cmac_double (cmac_double L)).
  split_and!; [done..|apply aes_cmac_blocks].
Qed.

(** RFC 4493, example 3: the tag of a 40-byte message. *)
Lemma aes_cmac_calc_spec_witness :
  let K := [0x2b; 0x7e; 0x15; 0x16; 0x28; 0xae; 0xd2; 0xa6; 0xab; 0xf7; 0x15; 0x88; 0x09; 0xcf; 0x4f; 0x3c]%Z in
  let M := [0x6b; 0xc1; 0xbe; 0xe2; 0x2e; 0x40; 0x9f; 0x96; 0xe9; 0x3d; 0x7e; 0x11; 0x73; 0x93; 0x17; 0x2a;
            0xae; 0x2d; 0x8a; 0x57; 0x1e; 0x03; 0xac; 0x9c; 0x9e; 0xb7; 0x6f; 0xac; 0x45; 0xaf; 0x8e; 0x51;
            0x30; 0xc8; 0x1c; 0x46; 0xa3; 0x5c; 0xe4; 0x11]%Z in
  aes_cmac_calc M K 16 =
    [0xdf; 0xa6; 0x67; 0x47; 0xde; 0x9a; 0xe6; 0x30; 0x30; 0xca; 0x32; 0x61; 0x14; 0x97; 0xc8; 0x27]%Z /\
  exists K1 K2, be K1 = gf128_double (be (aes_encrypt 16 K (replicate 16 0%Z))) /\
    aes_cmac_calc M K 16 = cbc_mac (aes_block_encrypt 10 (snd (rijndaelKeySetupEnc K 128)))
      (replicate 16 0%Z) (cmac_blocks 41 K1 K2 M).
Proof.
  split; [by_compute|].
  match goal with |- context [aes_cmac_calc ?M ?K 16] =>
    destruct (aes_cmac_calc_spec 16 K M) as (K1 & K2 & _ & _ & H1 & _ & H) end.
  - split; by_compute.
  - exists K1, K2. split; [rewrite H1; by_compute | exact H].
Defined.
