(* ===== verification/HashRef.v ===== *)
(** The reference the hash implementations are measured against: Merkle-Damgard
    hashing of a whole message, and HMAC over any such hash.  Each implementation
    (sha1.c, md5.c) works on a context it fills piece by piece; its file proves that
    the context represents the bytes so far and that the final call gives this hash,
    and its HMAC routine is proved to be [hmac_ref] over it. *)
From stdpp Require Import base numbers list.
From Stdlib Require Import ZArith Lia.
From S2P Require Import Prelude.

#[local] Arguments Nat.div : simpl never.
#[local] Arguments Nat.modulo : simpl never.
#[local] Arguments Nat.mul : simpl never.

(** 0x80, zeros up to 56 modulo 64, the bit length on 8 bytes. *)
Definition md_padding (enc : Z -> list Z) (n : nat) : list Z :=
  0x80%Z :: replicate ((119 - n mod 64) mod 64) 0%Z ++ enc (8 * Z.of_nat n)%Z.

Definition md_pad (enc : Z -> list Z) (msg : list Z) : list Z :=
  msg ++ md_padding enc (length msg).

Definition md_hash {H} (init : H) (compress : H -> list Z -> H) (enc : Z -> list Z)
    (out : H -> list Z) (msg : list Z) : list Z :=
  let p := md_pad enc msg in
  out (fold_left compress (chunk 64 (length p / 64) p) init).

(** RFC 2104 over 64-byte blocks. *)
Definition hmac_key (hash : list Z -> list Z) (key : list Z) : list Z :=
  let k := if 64 <? length key then hash key else key in
  k ++ replicate (64 - length k) 0%Z.

Definition hmac_ref (hash : list Z -> list Z) (key text : list Z) : list Z :=
  let k := hmac_key hash key in
  hash (map (Z.lxor 0x5c) k ++ hash (map (Z.lxor 0x36) k ++ text)).

(** The number of padded blocks, and what is in the last one or two. *)
Lemma md_pad_blocks enc msg : (forall x, length (enc x) = 8) ->
  let q := length msg / 64 in let r := length msg mod 64 in
  let rest := drop (64 * q) msg in
  let p := md_pad enc msg in
  chunk 64 (length p / 64) p = chunk 64 q msg ++
    (if r <=? 55 then [rest ++ 0x80%Z :: replicate (55 - r) 0%Z ++ enc (8 * Z.of_nat (length msg))%Z]
     else [rest ++ 0x80%Z :: replicate (63 - r) 0%Z;
           replicate 56 0%Z ++ enc (8 * Z.of_nat (length msg))%Z]).
Proof.
  intros Henc q r rest p. set (n := length msg) in *.
  assert (Hn : n = 64 * q + r) by apply Nat.div_mod_eq.
  assert (Hr : r < 64) by (apply Nat.mod_upper_bound; lia).
  assert (Hrest : length rest = r) by (unfold rest; rewrite length_drop; unfold n in *; lia).
  assert (Hmsg : msg = take (64 * q) msg ++ rest) by (symmetry; apply take_drop).
  assert (Hp : p = take (64 * q) msg ++ (rest ++ md_padding enc n))
    by (unfold p, md_pad; fold n; rewrite app_assoc, <- Hmsg; done).
  assert (Hpl : length (take (64 * q) msg) = 64 * q) by (rewrite length_take; unfold n in *; lia).
  assert (Hcut : forall j, length p = 64 * (q + j) -> chunk 64 (length p / 64) p =
    chunk 64 q msg ++ chunk 64 j (rest ++ md_padding enc n)).
  { intros j Hj. rewrite Hj, Nat.mul_comm, Nat.div_mul, chunk_app by lia. f_equal.
    - rewrite <- (chunk_take 64 q p (64 * q)), <- (chunk_take 64 q msg (64 * q)) by lia. f_equal.
      rewrite Hp. by rewrite take_app_length'.
    - f_equal. rewrite Hp. by rewrite drop_app_length'. }
  assert (Hlen : length p = 64 * q + r + 1 + (119 - r) mod 64 + 8).
  { rewrite Hp, !length_app, Hpl, Hrest. unfold md_padding. fold r. cbn [length].
    rewrite length_app, length_replicate, Henc. lia. }
  unfold md_padding in Hcut |- *. fold r in Hcut |- *.
  destruct (Nat.leb_spec r 55) as [H55|H55].
  - replace ((119 - r) mod 64) with (55 - r) in *
      by (replace (119 - r) with (55 - r + 1 * 64) by lia; rewrite Nat.Div0.mod_add, Nat.mod_small; lia).
    rewrite (Hcut 1) by lia. cbn [chunk]. rewrite take_ge; [done|].
    rewrite length_app. cbn [length]. rewrite length_app, length_replicate, Henc. lia.
  - rewrite (Nat.mod_small (119 - r)) in * by lia.
    rewrite (Hcut 2) by lia. cbn [chunk].
    assert (Hsplit : rest ++ 0x80%Z :: replicate (119 - r) 0%Z ++ enc (8 * Z.of_nat n)%Z =
      (rest ++ 0x80%Z :: replicate (63 - r) 0%Z) ++ (replicate 56 0%Z ++ enc (8 * Z.of_nat n)%Z)).
    { rewrite <- app_assoc. f_equal. cbn [app]. f_equal. rewrite app_assoc, <- replicate_add.
      do 2 f_equal. lia. }
    assert (H64 : length (rest ++ 0x80%Z :: replicate (63 - r) 0%Z) = 64).
    { rewrite length_app. cbn [length]. rewrite length_replicate. lia. }
    rewrite Hsplit, take_app_length', drop_app_length' by done.
    rewrite (take_ge (replicate 56 _ ++ _)) by (rewrite length_app, length_replicate, Henc; done). done.
Qed.
