(* ===== verification/Sha1.v ===== *)
(** SHA-1 of src/userspace/libbcmcrypto/src/sha1.c: the context, the byte-at-a-time
    input, padding and result.  The digest of a message fed in any number of pieces is
    the reference hash of the whole. *)
From stdpp Require Import base numbers list.
From Stdlib Require Import ZArith Lia.
From S2P Require Import Prelude Mem HashRef.

(** ** Definitions *)

Definition shaSuccess : Z := 0.
Definition shaStateError : Z := 3.
Definition SHA1HashSize : nat := 20.

Definition SHA1CircularShift (bits word : Z) : Z :=
  Z.lor (wrap32 (Z.shiftl word bits)) (Z.shiftr word (32 - bits)).

Record SHA1Context := {
  Intermediate_Hash : list Z;
  Length_Low : Z;
  Length_High : Z;
  Message_Block_Index : nat;
  Message_Block : list Z;
  Computed : bool;
  Corrupted : Z
}.

Definition sha1_init : list Z := [0x67452301; 0xEFCDAB89; 0x98BADCFE; 0x10325476; 0xC3D2E1F0]%Z.

(** [Message_Block] keeps what the uninitialised context held. *)
Definition SHA1Reset (c : SHA1Context) : SHA1Context :=
  {| Intermediate_Hash := sha1_init; Length_Low := 0; Length_High := 0; Message_Block_Index := 0;
     Message_Block := Message_Block c; Computed := false; Corrupted := 0 |}.

(** [W[t]] for t < 16. *)
Definition sha1_w (blk : list Z) (t : nat) : Z :=
  wrap32 (Z.lor (Z.lor (Z.lor (Z.shiftl (nth (t * 4) blk 0%Z) 24) (Z.shiftl (nth (t * 4 + 1) blk 0%Z) 16))
                       (Z.shiftl (nth (t * 4 + 2) blk 0%Z) 8)) (nth (t * 4 + 3) blk 0%Z)).

Definition sha1_sched (blk : list Z) : list Z :=
  fold_left (fun W t => W ++ [SHA1CircularShift 1
      (Z.lxor (Z.lxor (Z.lxor (nth (t - 3) W 0%Z) (nth (t - 8) W 0%Z)) (nth (t - 14) W 0%Z)) (nth (t - 16) W 0%Z))])
    (seq 16 64) (map (sha1_w blk) (seq 0 16)).

Definition sha1_f (t : nat) (B C D : Z) : Z :=
  if t <? 20 then Z.lor (Z.land B C) (Z.land (wrap32 (Z.lnot B)) D)
  else if t <? 40 then Z.lxor (Z.lxor B C) D
  else if t <? 60 then Z.lor (Z.lor (Z.land B C) (Z.land B D)) (Z.land C D)
  else Z.lxor (Z.lxor B C) D.

Definition sha1_K (t : nat) : Z :=
  if t <? 20 then 0x5A827999 else if t <? 40 then 0x6ED9EBA1
  else if t <? 60 then 0x8F1BBCDC else 0xCA62C1D6.

Definition sha1_round (W : list Z) (s : Z * Z * Z * Z * Z) (t : nat) : Z * Z * Z * Z * Z :=
  let '(A, B, C, D, E) := s in
  let temp := wrap32 (SHA1CircularShift 5 A + sha1_f t B C D + E + nth t W 0%Z + sha1_K t) in
  (temp, A, SHA1CircularShift 30 B, C, D).

(** The new Intermediate_Hash. *)
Definition sha1_compress (h blk : list Z) : list Z :=
  let W := sha1_sched blk in
  let '(A, B, C, D, E) :=
    fold_left (sha1_round W) (seq 0 80)
      (nth 0 h 0%Z, nth 1 h 0%Z, nth 2 h 0%Z, nth 3 h 0%Z, nth 4 h 0%Z) in
  [wrap32 (nth 0 h 0%Z + A); wrap32 (nth 1 h 0%Z + B); wrap32 (nth 2 h 0%Z + C);
   wrap32 (nth 3 h 0%Z + D); wrap32 (nth 4 h 0%Z + E)].

Definition SHA1ProcessMessageBlock (c : SHA1Context) : SHA1Context :=
  {| Intermediate_Hash := sha1_compress (Intermediate_Hash c) (Message_Block c);
     Length_Low := Length_Low c; Length_High := Length_High c; Message_Block_Index := 0;
     Message_Block := Message_Block c; Computed := Computed c; Corrupted := Corrupted c |}.

(** [Message_Block[Message_Block_Index++] = b] *)
Definition sha1_put (b : Z) (c : SHA1Context) : SHA1Context :=
  {| Intermediate_Hash := Intermediate_Hash c; Length_Low := Length_Low c; Length_High := Length_High c;
     Message_Block_Index := S (Message_Block_Index c);
     Message_Block := <[Message_Block_Index c := b]> (Message_Block c);
     Computed := Computed c; Corrupted := Corrupted c |}.

(** [Length_Low += 8] with its carry. *)
Definition sha1_count (c : SHA1Context) : SHA1Context :=
  let lo := wrap32 (Length_Low c + 8) in
  let hi := if (lo =? 0)%Z then wrap32 (Length_High c + 1) else Length_High c in
  {| Intermediate_Hash := Intermediate_Hash c; Length_Low := lo; Length_High := hi;
     Message_Block_Index := Message_Block_Index c; Message_Block := Message_Block c;
     Computed := Computed c;
     Corrupted := if (lo =? 0)%Z && (hi =? 0)%Z then 1%Z else Corrupted c |}.

Definition sha1_input_byte (c : SHA1Context) (b : Z) : SHA1Context :=
  let c := sha1_count (sha1_put (Z.land b 0xFF) c) in
  if Message_Block_Index c =? 64 then SHA1ProcessMessageBlock c else c.

(** [while (length-- && !context->Corrupted)] *)
Fixpoint sha1_input_loop (c : SHA1Context) (msg : list Z) : SHA1Context :=
  match msg with
  | [] => c
  | b :: msg => if (Corrupted c =? 0)%Z then sha1_input_loop (sha1_input_byte c b) msg else c
  end.

Definition set_corrupted (e : Z) (c : SHA1Context) : SHA1Context :=
  {| Intermediate_Hash := Intermediate_Hash c; Length_Low := Length_Low c; Length_High := Length_High c;
     Message_Block_Index := Message_Block_Index c; Message_Block := Message_Block c;
     Computed := Computed c; Corrupted := e |}.

(** The context pointers are not null at any call in the repository. *)
Definition SHA1Input (c : SHA1Context) (msg : list Z) : Z * SHA1Context :=
  if length msg =? 0 then (shaSuccess, c)
  else if Computed c then (shaStateError, set_corrupted shaStateError c)
  else if negb (Corrupted c =? 0)%Z then (Corrupted c, c)
  else (shaSuccess, sha1_input_loop c msg).

(** [while (Message_Block_Index < n) Message_Block[Message_Block_Index++] = 0] *)
Definition sha1_zeros (n : nat) (c : SHA1Context) : SHA1Context :=
  Nat.iter (n - Message_Block_Index c) (sha1_put 0) c.

Definition sha1_put_length (c : SHA1Context) : SHA1Context :=
  let byte x k := wrap8 (Z.shiftr x k) in
  let lb := [byte (Length_High c) 24; byte (Length_High c) 16; byte (Length_High c) 8; byte (Length_High c) 0;
             byte (Length_Low c) 24; byte (Length_Low c) 16; byte (Length_Low c) 8; byte (Length_Low c) 0]%Z in
  {| Intermediate_Hash := Intermediate_Hash c; Length_Low := Length_Low c; Length_High := Length_High c;
     Message_Block_Index := Message_Block_Index c;
     Message_Block := wr (Message_Block c) 56 lb;
     Computed := Computed c; Corrupted := Corrupted c |}.

Definition SHA1PadMessage (c : SHA1Context) : SHA1Context :=
  let c :=
    if 55 <? Message_Block_Index c
    then sha1_zeros 56 (SHA1ProcessMessageBlock (sha1_zeros 64 (sha1_put 0x80 c)))
    else sha1_zeros 56 (sha1_put 0x80 c) in
  SHA1ProcessMessageBlock (sha1_put_length c).

Definition sha1_digest (h : list Z) : list Z :=
  map (fun i => wrap8 (Z.shiftr (nth (i / 4) h 0%Z) (8 * (3 - Z.of_nat (i mod 4))))) (seq 0 20).

(** The message is cleared and the digest stored. *)
Definition SHA1Result (c : SHA1Context) : Z * list Z * SHA1Context :=
  if negb (Corrupted c =? 0)%Z then (Corrupted c, [], c)
  else
    let c :=
      if Computed c then c
      else
        let c := SHA1PadMessage c in
        {| Intermediate_Hash := Intermediate_Hash c; Length_Low := 0; Length_High := 0;
           Message_Block_Index := Message_Block_Index c; Message_Block := replicate 64 0%Z;
           Computed := true; Corrupted := Corrupted c |} in
    (shaSuccess, sha1_digest (Intermediate_Hash c), c).

(** ** What a context represents *)

#[local] Arguments Nat.div : simpl never.
#[local] Arguments Nat.modulo : simpl never.
#[local] Arguments Nat.mul : simpl never.

(** The 64-bit big-endian bit length. *)
Definition be64 (n : Z) : list Z := map (fun k => wrap8 (Z.shiftr n (8 * (7 - k)))) (zrange 8).

Definition sha1_ref : list Z -> list Z := md_hash sha1_init sha1_compress be64 sha1_digest.

#[local] Opaque sha1_compress.

(** [c] has absorbed [msg]. *)
Record sha1_repr (c : SHA1Context) (msg : list Z) : Prop := {
  repr_computed : Computed c = false;
  repr_corrupted : Corrupted c = 0%Z;
  repr_block_len : length (Message_Block c) = 64;
  repr_index : Message_Block_Index c = length msg mod 64;
  repr_lo : (Length_Low c = (8 * Z.of_nat (length msg)) mod 2 ^ 32)%Z;
  repr_hi : (Length_High c = (8 * Z.of_nat (length msg)) / 2 ^ 32)%Z;
  repr_block : take (Message_Block_Index c) (Message_Block c) = drop (64 * (length msg / 64)) msg;
  repr_hash : Intermediate_Hash c = fold_left sha1_compress (chunk 64 (length msg / 64) msg) sha1_init
}.

Lemma sha1_reset_repr c : length (Message_Block c) = 64 -> sha1_repr (SHA1Reset c) [].
Proof. intros H. by split. Qed.

Lemma byte_mask_ff b : u8 b -> Z.land b 0xFF = b.
Proof. intros H. by apply (is_u_land 8). Qed.

Lemma div_mod_succ n k : 0 < k -> (n mod k = k - 1 /\ S n mod k = 0 /\ S n / k = S (n / k)) \/
  (n mod k < k - 1 /\ S n mod k = S (n mod k) /\ S n / k = n / k).
Proof.
  intros Hk. pose proof (Nat.div_mod_eq n k) as H. pose proof (Nat.mod_upper_bound n k ltac:(lia)) as Hr.
  destruct (decide (n mod k = k - 1)) as [E|E].
  - left. assert (HS : S n = k * S (n / k) + 0) by lia. split_and!; [done| |].
    + symmetry. by apply (Nat.mod_unique _ _ (S (n / k))).
    + symmetry. by apply (Nat.div_unique _ _ _ 0).
  - right. assert (HS : S n = k * (n / k) + S (n mod k)) by lia. split_and!; [lia| |].
    + symmetry. apply (Nat.mod_unique _ _ (n / k)); lia.
    + symmetry. apply (Nat.div_unique _ _ _ (S (n mod k))); lia.
Qed.

(** Two-word bit counter. *)
Lemma sha1_count_spec n lo hi : (0 <= n)%Z -> (n + 8 < 2 ^ 64)%Z -> (n mod 8 = 0)%Z ->
  lo = (n mod 2 ^ 32)%Z -> hi = (n / 2 ^ 32)%Z ->
  let lo' := wrap32 (lo + 8) in
  let hi' := if (lo' =? 0)%Z then wrap32 (hi + 1) else hi in
  lo' = ((n + 8) mod 2 ^ 32)%Z /\ hi' = ((n + 8) / 2 ^ 32)%Z /\ ((lo' =? 0)%Z && (hi' =? 0)%Z) = false.
Proof.
  intros Hn Hmax H8 -> ->. cbv zeta. unfold wrap32. rewrite Z.add_mod_idemp_l by lia.
  pose proof (Z.div_mod n (2 ^ 32) ltac:(lia)) as Hdm. pose proof (Z.mod_pos_bound n (2 ^ 32) ltac:(lia)) as Hb.
  assert (Hq : (0 <= n / 2 ^ 32 < 2 ^ 32)%Z).
  { split; [apply Z.div_pos; lia|]. apply Z.div_lt_upper_bound; lia. }
  assert (H8' : ((n mod 2 ^ 32) mod 8 = 0)%Z).
  { change (2 ^ 32)%Z with (8 * 2 ^ 29)%Z. rewrite Z.rem_mul_r by lia.
    rewrite H8, Z.add_0_l, Z.mul_comm, Z.mod_mul; lia. }
  pose proof (Z.div_mod (n mod 2 ^ 32) 8 ltac:(lia)) as Hd8. rewrite H8' in Hd8.
  set (r := (n mod 2 ^ 32)%Z) in *. set (q := (n / 2 ^ 32)%Z) in *.
  destruct (decide (r + 8 = 2 ^ 32)%Z) as [E|E].
  - assert (E1 : ((n + 8) mod 2 ^ 32 = 0)%Z) by (symmetry; apply (Z.mod_unique _ _ (q + 1)); lia).
    assert (E2 : ((n + 8) / 2 ^ 32 = q + 1)%Z) by (symmetry; apply (Z.div_unique _ _ _ 0); lia).
    rewrite E1, E2, Z.eqb_refl. rewrite Z.mod_small by lia. split_and!; [done|done|].
    cbn [andb]. apply Z.eqb_neq. lia.
  - assert (E1 : ((n + 8) mod 2 ^ 32 = r + 8)%Z) by (symmetry; apply (Z.mod_unique _ _ q); lia).
    assert (E2 : ((n + 8) / 2 ^ 32 = q)%Z) by (symmetry; apply (Z.div_unique _ _ _ (r + 8)); lia).
    rewrite E1, E2. destruct (Z.eqb_spec (r + 8) 0); [lia|]. done.
Qed.

Lemma take_insert_snoc {A} (l : list A) i x : i < length l -> take (S i) (<[i:=x]> l) = take i l ++ [x].
Proof.
  intros H. rewrite (take_S_r _ _ x) by by rewrite list_lookup_insert_eq. by rewrite take_insert_ge.
Qed.

Lemma sha1_input_byte_repr c msg b : sha1_repr c msg -> u8 b ->
  (8 * (Z.of_nat (length msg) + 1) < 2 ^ 64)%Z -> sha1_repr (sha1_input_byte c b) (msg ++ [b]).
Proof.
  intros [Hcomp Hcorr Hbl Hi Hlo Hhi Hb Hh] Hub Hmax. set (n := length msg) in *.
  pose proof (Nat.div_mod_eq n 64) as Hdm. pose proof (Nat.mod_upper_bound n 64 ltac:(lia)) as Hr.
  destruct (sha1_count_spec (8 * Z.of_nat n) _ _ ltac:(lia) ltac:(lia) ltac:(rewrite Z.mul_comm, Z.mod_mul; lia) Hlo Hhi)
    as (Hlo' & Hhi' & Hov).
  assert (Hn' : length (msg ++ [b]) = S n) by (rewrite length_app; cbn [length]; unfold n; lia).
  replace (8 * Z.of_nat n + 8)%Z with (8 * Z.of_nat (S n))%Z in * by lia.
  assert (Htk : take (S (n mod 64)) (<[n mod 64:=b]> (Message_Block c)) = drop (64 * (n / 64)) (msg ++ [b])).
  { rewrite take_insert_snoc by lia. rewrite <- Hi, Hb, drop_app_le by (unfold n in *; lia). done. }
  assert (Hck : chunk 64 (n / 64) (msg ++ [b]) = chunk 64 (n / 64) msg)
    by (apply chunk_app_l; unfold n in *; lia).
  unfold sha1_input_byte. rewrite byte_mask_ff by done. cbn [sha1_count sha1_put Message_Block_Index].
  rewrite Hi. destruct (div_mod_succ n 64 ltac:(lia)) as [(E1 & E2 & E3)|(E1 & E2 & E3)].
  - rewrite (proj2 (Nat.eqb_eq _ _)) by lia. split; cbn -[sha1_compress Z.of_nat Z.mul Z.div Z.modulo Nat.modulo Nat.div wrap32]; rewrite ?Hn', ?E2, ?E3.
    + done.
    + by rewrite Hov.
    + by rewrite length_insert.
    + done.
    + done.
    + done.
    + symmetry. apply drop_ge. lia.
    + rewrite chunk_snoc, fold_left_app, Hck, Hh. cbn [fold_left]. f_equal.
      rewrite <- Htk, Hi. replace (S (n mod 64)) with 64 by lia. rewrite take_take.
      rewrite take_ge; [done|]. rewrite length_insert. lia.
  - rewrite (proj2 (Nat.eqb_neq _ _)) by lia. split; cbn -[sha1_compress Z.of_nat Z.mul Z.div Z.modulo Nat.modulo Nat.div wrap32]; rewrite ?Hn', ?E2, ?E3, ?Hi.
    + done.
    + by rewrite Hov.
    + by rewrite length_insert.
    + done.
    + done.
    + done.
    + done.
    + by rewrite Hck.
Qed.

Lemma sha1_input_loop_repr l c msg : sha1_repr c msg -> bytes_ok l ->
  (8 * Z.of_nat (length msg + length l) < 2 ^ 64)%Z -> sha1_repr (sha1_input_loop c l) (msg ++ l).
Proof.
  intros Hc Hl. revert c msg Hc. induction Hl as [|b l Hb Hl IH]; intros c msg Hc Hmax; cbn [sha1_input_loop].
  - by rewrite app_nil_r.
  - rewrite (repr_corrupted _ _ Hc), Z.eqb_refl. cbn [length] in Hmax.
    replace (msg ++ b :: l) with ((msg ++ [b]) ++ l) by by rewrite <- app_assoc.
    apply IH; [apply sha1_input_byte_repr; [done..|lia]|]. rewrite length_app. cbn [length]. lia.
Qed.

Lemma SHA1Input_repr c msg l : sha1_repr c msg -> bytes_ok l ->
  (8 * Z.of_nat (length msg + length l) < 2 ^ 64)%Z ->
  exists c', SHA1Input c l = (shaSuccess, c') /\ sha1_repr c' (msg ++ l).
Proof.
  intros Hc Hl Hmax. unfold SHA1Input. destruct l as [|b l]; [exists c; by rewrite app_nil_r|].
  cbn [length Nat.eqb]. rewrite (repr_computed _ _ Hc), (repr_corrupted _ _ Hc). cbn [Z.eqb negb].
  eexists. split; [done|]. by apply sha1_input_loop_repr.
Qed.

(** ** Padding *)

(** Filling with zeros leaves the prefix and writes zeros behind it. *)
Lemma sha1_zeros_spec k c : Message_Block_Index c + k <= 64 -> length (Message_Block c) = 64 ->
  let c' := Nat.iter k (sha1_put 0) c in
  Message_Block_Index c' = Message_Block_Index c + k /\ length (Message_Block c') = 64 /\
  take (Message_Block_Index c') (Message_Block c') =
    take (Message_Block_Index c) (Message_Block c) ++ replicate k 0%Z /\
  Intermediate_Hash c' = Intermediate_Hash c /\ Length_Low c' = Length_Low c /\
  Length_High c' = Length_High c /\ Computed c' = Computed c /\ Corrupted c' = Corrupted c.
Proof.
  intros Hk Hl. induction k as [|k IH]; cbn [Nat.iter].
  - rewrite Nat.add_0_r, app_nil_r. split_and!; done.
  - destruct IH as (Hi & Hl' & Ht & H1 & H2 & H3 & H4 & H5); [lia|]. simpl in *.
    rewrite length_insert, take_insert_snoc, Ht, Hi, <- app_assoc by lia.
    rewrite <- replicate_cons_app. split_and!; (done || lia).
Qed.

Lemma sha1_put_80 c msg : sha1_repr c msg -> let c' := sha1_put 0x80 c in
  Message_Block_Index c' = S (length msg mod 64) /\ length (Message_Block c') = 64 /\
  take (Message_Block_Index c') (Message_Block c') = drop (64 * (length msg / 64)) msg ++ [0x80%Z] /\
  Intermediate_Hash c' = Intermediate_Hash c /\ Length_Low c' = Length_Low c /\ Length_High c' = Length_High c.
Proof.
  intros [_ _ Hbl Hi _ _ Hb _]. pose proof (Nat.mod_upper_bound (length msg) 64 ltac:(lia)).
  cbn. rewrite length_insert, take_insert_snoc, Hb, Hi by lia. done.
Qed.

Lemma sha1_length_bytes n : (0 <= n < 2 ^ 64)%Z ->
  [wrap8 (Z.shiftr (n / 2 ^ 32) 24); wrap8 (Z.shiftr (n / 2 ^ 32) 16); wrap8 (Z.shiftr (n / 2 ^ 32) 8);
   wrap8 (Z.shiftr (n / 2 ^ 32) 0); wrap8 (Z.shiftr (n mod 2 ^ 32) 24); wrap8 (Z.shiftr (n mod 2 ^ 32) 16);
   wrap8 (Z.shiftr (n mod 2 ^ 32) 8); wrap8 (Z.shiftr (n mod 2 ^ 32) 0)] = be64 n.
Proof.
  intros Hn. unfold be64. cbn [zrange seq map Z.of_nat Pos.of_succ_nat Pos.succ].
  assert (Hhi : forall k, (0 <= k)%Z -> wrap8 (Z.shiftr (n / 2 ^ 32) k) = wrap8 (Z.shiftr n (32 + k))).
  { intros k Hk. rewrite <- Z.shiftr_div_pow2, Z.shiftr_shiftr by lia. done. }
  assert (Hlo : forall k, (0 <= k <= 24)%Z -> wrap8 (Z.shiftr (n mod 2 ^ 32) k) = wrap8 (Z.shiftr n k)).
  { intros k Hk. unfold wrap8. rewrite <- !Z.land_ones by lia. apply Z.bits_inj'. intros i Hi.
    rewrite !Z.land_spec. destruct (decide (i < 8)%Z).
    - rewrite !Z.shiftr_spec, Z.land_spec, (Z.ones_spec_low 32) by lia. by rewrite andb_true_r.
    - rewrite (Z.ones_spec_high 8) by lia. by rewrite !andb_false_r. }
  rewrite !Hhi, !Hlo by lia. done.
Qed.

(** Writing the length completes a block whose first 56 bytes are in place. *)
Lemma sha1_put_length_block c P n : length (Message_Block c) = 64 -> length P = 56 ->
  take 56 (Message_Block c) = P -> (0 <= n < 2 ^ 64)%Z ->
  Length_Low c = (n mod 2 ^ 32)%Z -> Length_High c = (n / 2 ^ 32)%Z ->
  Message_Block (sha1_put_length c) = P ++ be64 n.
Proof.
  intros Hl HP Ht Hn Hlo Hhi. unfold sha1_put_length. cbn [Message_Block]. rewrite Hlo, Hhi.
  rewrite sha1_length_bytes by done. unfold wr. rewrite Ht. f_equal.
  rewrite drop_ge; [apply app_nil_r|]. rewrite Hl. by vm_compute.
Qed.

Lemma SHA1PadMessage_hash c msg : sha1_repr c msg -> (8 * Z.of_nat (length msg) < 2 ^ 64)%Z ->
  let p := md_pad be64 msg in
  Intermediate_Hash (SHA1PadMessage c) = fold_left sha1_compress (chunk 64 (length p / 64) p) sha1_init.
Proof.
  intros Hc Hmax p. unfold p. rewrite md_pad_blocks by done. set (n := length msg) in *.
  pose proof (Nat.mod_upper_bound n 64 ltac:(lia)) as Hr.
  assert (Hrl : length (drop (64 * (n / 64)) msg) = n mod 64)
    by (rewrite length_drop; pose proof (Nat.div_mod_eq n 64); fold n; lia).
  destruct (sha1_put_80 c msg Hc) as (Hi & Hl & Ht & Hh & Hlo & Hhi). fold n in Hi, Ht.
  rewrite (repr_lo _ _ Hc) in Hlo. rewrite (repr_hi _ _ Hc) in Hhi. rewrite (repr_hash _ _ Hc) in Hh.
  fold n in Hlo, Hhi, Hh. unfold SHA1PadMessage. rewrite (repr_index _ _ Hc). fold n.
  set (c1 := sha1_put 0x80 c) in *. clearbody c1.
  rewrite fold_left_app, <- Hh.
  change (Intermediate_Hash (SHA1ProcessMessageBlock ?c)) with (sha1_compress (Intermediate_Hash c) (Message_Block c)).
  destruct (Nat.leb_spec (n mod 64) 55) as [H55|H55].
  - rewrite (proj2 (Nat.ltb_ge _ _)) by lia. cbn [fold_left]. unfold sha1_zeros. rewrite Hi.
    destruct (sha1_zeros_spec (56 - S (n mod 64)) c1) as (Hi2 & Hl2 & Ht2 & Hh2 & Hlo2 & Hhi2 & _); [lia|done|].
    set (c2 := Nat.iter _ _ c1) in *. clearbody c2.
    rewrite (sha1_put_length_block c2 (drop (64 * (n / 64)) msg ++ 0x80%Z :: replicate (55 - n mod 64) 0%Z) (8 * Z.of_nat n));
      [|done|rewrite length_app; cbn [length]; rewrite length_replicate; lia| |lia|congruence|congruence].
    + cbn [sha1_put_length Intermediate_Hash]. rewrite Hh2, <- app_assoc. done.
    + replace (Message_Block_Index c2) with 56 in Ht2 by lia. rewrite Ht2, Ht, <- app_assoc.
      do 3 f_equal; lia.
  - rewrite (proj2 (Nat.ltb_lt _ _)) by lia. cbn [fold_left]. unfold sha1_zeros. rewrite !Hi.
    destruct (sha1_zeros_spec (64 - S (n mod 64)) c1) as (Hi2 & Hl2 & Ht2 & Hh2 & Hlo2 & Hhi2 & _); [lia|done|].
    set (c2 := Nat.iter _ _ c1) in *. clearbody c2.
    replace (Message_Block_Index c2) with 64 in Ht2 by lia. rewrite take_ge in Ht2 by lia.
    change (Message_Block_Index (SHA1ProcessMessageBlock c2)) with 0.
    destruct (sha1_zeros_spec 56 (SHA1ProcessMessageBlock c2)) as (Hi3 & Hl3 & Ht3 & Hh3 & Hlo3 & Hhi3 & _); [cbn; lia|done|].
    change (56 - 0) with 56.
    change (Message_Block_Index (SHA1ProcessMessageBlock c2)) with 0 in Hi3, Ht3.
    change (Length_Low (SHA1ProcessMessageBlock c2)) with (Length_Low c2) in Hlo3.
    change (Length_High (SHA1ProcessMessageBlock c2)) with (Length_High c2) in Hhi3.
    set (c3 := Nat.iter _ _ (SHA1ProcessMessageBlock c2)) in *. clearbody c3.
    rewrite (sha1_put_length_block c3 (replicate 56 0%Z) (8 * Z.of_nat n));
      [|done|done| |lia|congruence|congruence].
    + cbn [sha1_put_length Intermediate_Hash]. rewrite Hh3. cbn [SHA1ProcessMessageBlock Intermediate_Hash].
      rewrite Hh2, Ht2, Ht, <- app_assoc. cbn [app]. replace (64 - S (n mod 64)) with (63 - n mod 64) by lia. done.
    + rewrite Hi3 in Ht3. exact Ht3.
Qed.

(** The digest of a context that has absorbed [msg]. *)
Lemma SHA1Result_repr c msg : sha1_repr c msg -> (8 * Z.of_nat (length msg) < 2 ^ 64)%Z ->
  exists c', SHA1Result c = (shaSuccess, sha1_ref msg, c') /\ Computed c' = true.
Proof.
  intros Hc Hmax. unfold SHA1Result. rewrite (repr_corrupted _ _ Hc), (repr_computed _ _ Hc).
  cbn [Z.eqb negb]. eexists. split.
  - f_equal. f_equal. unfold sha1_ref, md_hash.
    cbn [Intermediate_Hash]. by rewrite SHA1PadMessage_hash with (msg := msg).
  - reflexivity.
Qed.

(** Input in pieces. *)
Definition sha1_feed (c : SHA1Context) (pieces : list (list Z)) : SHA1Context :=
  fold_left (fun c l => snd (SHA1Input c l)) pieces c.

Lemma sha1_feed_repr pieces c msg : sha1_repr c msg -> Forall bytes_ok pieces ->
  (8 * Z.of_nat (length msg + length (concat pieces)) < 2 ^ 64)%Z ->
  sha1_repr (sha1_feed c pieces) (msg ++ concat pieces).
Proof.
  intros Hc Hp. revert c msg Hc. induction Hp as [|l pieces Hl Hp IH]; intros c msg Hc Hmax.
  - by rewrite app_nil_r.
  - cbn [concat] in *. rewrite length_app in Hmax. cbn [sha1_feed fold_left].
    destruct (SHA1Input_repr c msg l Hc Hl ltac:(lia)) as (c' & -> & Hc'). cbn [snd].
    rewrite app_assoc. apply IH; [done|]. rewrite length_app. lia.
Qed.


