(* ===== verification/Prf.v ===== *)
(** HMAC-SHA1 and the WPA key-derivation functions built on it:
    src/userspace/libbcmcrypto/src/prf.c (hmac_sha1, PRF, fPRF) and passhash.c
    (passhash and its incremental form).  hmac_sha1 stores the hash of a key longer
    than 64 bytes over the caller's key; the model passes the key buffer through. *)
From stdpp Require Import base numbers list.
From Stdlib Require Import ZArith Lia.
From S2P Require Import Prelude Mem HashRef Sha1.

(** ** Definitions *)

Definition PRF_MAX_I_D_LEN : nat := 128.
Definition PRF_MAX_KEY_LEN : nat := 64.

(** An automatic SHA1Context; SHA1Reset leaves its Message_Block as it is, and
    [sha1_reset_repr] holds for any contents. *)
Definition sha1_auto : SHA1Context :=
  {| Intermediate_Hash := []; Length_Low := 0; Length_High := 0; Message_Block_Index := 0;
     Message_Block := replicate 64 0%Z; Computed := false; Corrupted := 0 |}.

(** SHA1Input with the return value dropped, and the digest SHA1Result stores. *)
Definition sha1_in (c : SHA1Context) (l : list Z) : SHA1Context := snd (SHA1Input c l).
Definition sha1_out (c : SHA1Context) : list Z := snd (fst (SHA1Result c)).

(** The key after "if key is longer than 64 bytes reset it": the buffer and the
    [key_len] bytes used from it. *)
Definition hmac_reset_key (key : list Z) : list Z * list Z :=
  if PRF_MAX_KEY_LEN <? length key then
    let key := sha1_out (sha1_in (SHA1Reset sha1_auto) key) ++ drop 20 key in
    (key, take 20 key)
  else (key, key).

(** The pads: the key, zeros up to 64 bytes, 16 words exclusive-ored with the mask. *)
Definition hmac_pad (mask : Z) (k : list Z) : list Z :=
  map (Z.lxor mask) (k ++ replicate (64 - length k) 0%Z).

(** The digest and the key buffer left behind. *)
Definition hmac_sha1 (text key : list Z) : list Z * list Z :=
  let '(key, k) := hmac_reset_key key in
  let icontext := SHA1Reset sha1_auto in
  let ocontext := icontext in
  let icontext := sha1_in (sha1_in icontext (hmac_pad 0x36 k)) text in
  let digest := sha1_out icontext in
  let ocontext := sha1_in (sha1_in ocontext (hmac_pad 0x5c k)) digest in
  (sha1_out ocontext, key).

(** The return value -1, a store outside [input[PRF_MAX_I_D_LEN]], or the output
    and the key buffer. *)
Inductive prf_result :=
  | PRF_err
  | PRF_overrun
  | PRF_ok (output key : list Z).

Definition prf_input (prefix data : list Z) : list Z :=
  match prefix with [] => data | _ => prefix ++ 0%Z :: data end.

Definition prf_step (input : list Z) (s : list Z * list Z * Z) : list Z * list Z * Z :=
  let '(output, key, octet) := s in
  let '(digest, key) := hmac_sha1 (input ++ [octet]) key in
  (output ++ digest, key, wrap8 (octet + 1)).

Definition PRF (key prefix data : list Z) (len : nat) : prf_result :=
  if PRF_MAX_I_D_LEN <? length prefix + length data + 1 then PRF_err
  else
    let input := prf_input prefix data in
    (* input[total_len] = 0 *)
    if PRF_MAX_I_D_LEN <=? length input then PRF_overrun
    else
      let '(output, key, _) := Nat.iter ((len + 19) / 20) (prf_step input) ([], key, 0%Z) in
      PRF_ok output key.

Definition fprf_step (reficontext refocontext : SHA1Context) (input : list Z) (s : list Z * Z) : list Z * Z :=
  let '(output, octet) := s in
  let digest := sha1_out (sha1_in reficontext (input ++ [octet])) in
  let digest := sha1_out (sha1_in refocontext digest) in
  (output ++ digest, wrap8 (octet + 1)).

Definition fPRF (key prefix data : list Z) (len : nat) : prf_result :=
  if PRF_MAX_I_D_LEN <? length prefix + length data + 1 then PRF_err
  else
    let input := prf_input prefix data in
    if PRF_MAX_I_D_LEN <=? length input then PRF_overrun
    else
      let '(key, k) := hmac_reset_key key in
      let reficontext := SHA1Reset sha1_auto in
      let refocontext := reficontext in
      let reficontext := sha1_in reficontext (hmac_pad 0x36 k) in
      let refocontext := sha1_in refocontext (hmac_pad 0x5c k) in
      let '(output, _) := Nat.iter ((len + SHA1HashSize - 1) / SHA1HashSize)
                            (fprf_step reficontext refocontext input) ([], 0%Z) in
      PRF_ok output key.

(** *** passhash.c *)

(** S || int(i), with the ssid cut at 32 bytes. *)
Definition F_salt (ssid : list Z) (count : Z) : list Z :=
  take 32 ssid ++ [wrap8 (Z.land (Z.shiftr count 24) 0xff); wrap8 (Z.land (Z.shiftr count 16) 0xff);
                   wrap8 (Z.land (Z.shiftr count 8) 0xff); wrap8 (Z.land count 0xff)].

(** [Un = PRF(P, Un-1); output ^= Un]: the last digest, the output, the password. *)
Definition F_step (s : list Z * list Z * list Z) : list Z * list Z * list Z :=
  let '(last, output, password) := s in
  let '(digest, password) := hmac_sha1 last password in
  (digest, xor_bytes output digest, password).

Definition F (password ssid : list Z) (iterations count : Z) : list Z :=
  let '(digest1, password) := hmac_sha1 (F_salt ssid count) password in
  let '(_, output, _) := Nat.iter (Z.to_nat (iterations - 1)) F_step (digest1, digest1, password) in
  output.

(** [password] is the C string, of which [passlen] bytes are the key. *)
Definition passhash (password : list Z) (passlen : nat) (ssid : list Z) : option (list Z) :=
  if (length password <? 8) || (63 <? length password) || (32 <? length ssid) then None
  else Some (F (take passlen password) ssid 4096 1 ++ F (take passlen password) ssid 4096 2).

Record passhash_t := {
  ph_digest : list Z;
  ph_count : Z;
  ph_output : list Z;
  ph_password : list Z;
  ph_passlen : nat;
  ph_ssid : list Z;
  ph_iters : Z
}.

(** The digest and output are zero-filled. *)
Definition init_passhash (password : list Z) (passlen : nat) (ssid : list Z) : option passhash_t :=
  if (length password <? 8) || (63 <? length password) then None
  else Some {| ph_digest := replicate 20 0%Z; ph_count := 1; ph_output := replicate 40 0%Z;
               ph_password := password; ph_passlen := passlen; ph_ssid := ssid; ph_iters := 0 |}.

Definition init_F (password ssid : list Z) (count : Z) : list Z := fst (hmac_sha1 (F_salt ssid count) password).

(** lastdigest and output after the iterations. *)
Definition do_F (password : list Z) (iterations : Z) (lastdigest output : list Z) : list Z * list Z :=
  fst (Nat.iter (Z.to_nat iterations) F_step (lastdigest, output, password)).

Definition do_passhash (ph : passhash_t) (iterations : Z) : Z * passhash_t :=
  if (2 <? ph_count ph)%Z then ((-1)%Z, ph)
  else
    let pw := take (ph_passlen ph) (ph_password ph) in
    let o := 20 * Z.to_nat (ph_count ph - 1) in
    let '(digest, out, iters, iterations) :=
      if (ph_iters ph =? 0)%Z then
        let d := init_F pw (ph_ssid ph) (ph_count ph) in (d, d, 1%Z, (iterations - 1)%Z)
      else (ph_digest ph, rd (ph_output ph) o 20, ph_iters ph, iterations) in
    let iterations := if (4096 <? iters + iterations)%Z then (4096 - iters)%Z else iterations in
    let '(digest, out) := do_F pw iterations digest out in
    let iters := (iters + iterations)%Z in
    let '(count, iters) := if (iters =? 4096)%Z then ((ph_count ph + 1)%Z, 0%Z) else (ph_count ph, iters) in
    (if (2 <? count)%Z then 0%Z else 1%Z,
     {| ph_digest := digest; ph_count := count; ph_output := wr (ph_output ph) o out;
        ph_password := ph_password ph; ph_passlen := ph_passlen ph; ph_ssid := ph_ssid ph; ph_iters := iters |}).

Definition get_passhash (ph : passhash_t) (outlen : nat) : option (list Z) :=
  if (2 <? ph_count ph)%Z && (outlen <=? 40) then Some (take outlen (ph_output ph)) else None.

(** ** HMAC-SHA1 *)

#[local] Arguments Nat.div : simpl never.
#[local] Arguments Nat.modulo : simpl never.
#[local] Arguments Nat.mul : simpl never.
#[local] Opaque sha1_compress sha1_ref.

Lemma sha1_ref_length msg : length (sha1_ref msg) = 20.
Proof. Transparent sha1_ref. unfold sha1_ref, md_hash, sha1_digest. by rewrite length_map, length_seq. Qed.

Lemma sha1_ref_ok msg : bytes_ok (sha1_ref msg).
Proof.
  unfold sha1_ref, md_hash, sha1_digest. apply Forall_map, List.Forall_forall. intros. apply wrap8_u8.
Qed.
#[local] Opaque sha1_ref.

(** A context and what it has absorbed, bounded so that a digest can follow. *)
Lemma sha1_in_repr c msg l : sha1_repr c msg -> bytes_ok l ->
  (8 * Z.of_nat (length msg + length l) < 2 ^ 64)%Z -> sha1_repr (sha1_in c l) (msg ++ l).
Proof. intros H1 H2 H3. unfold sha1_in. destruct (SHA1Input_repr c msg l H1 H2 H3) as (? & -> & ?). done. Qed.

Lemma sha1_out_repr c msg : sha1_repr c msg -> (8 * Z.of_nat (length msg) < 2 ^ 64)%Z -> sha1_out c = sha1_ref msg.
Proof. intros H1 H2. unfold sha1_out. destruct (SHA1Result_repr c msg H1 H2) as (? & -> & _). done. Qed.

Lemma sha1_auto_repr : sha1_repr (SHA1Reset sha1_auto) [].
Proof. by apply sha1_reset_repr. Qed.

Lemma hmac_pad_length mask k : length k <= 64 -> length (hmac_pad mask k) = 64.
Proof. intros. unfold hmac_pad. rewrite length_map, length_app, length_replicate. lia. Qed.

Lemma hmac_pad_ok mask k : u8 mask -> bytes_ok k -> bytes_ok (hmac_pad mask k).
Proof.
  intros Hm Hk. apply Forall_map. apply Forall_app. split.
  - eapply Forall_impl; [done|]. intros x Hx. by apply is_u_lxor.
  - apply Forall_replicate. simpl. rewrite Z.lxor_0_r. done.
Qed.

(** A message short enough for three padded pieces. *)
Definition short (n : nat) : Prop := (8 * Z.of_nat (n + 64) < 2 ^ 64)%Z.

Lemma hmac_reset_key_spec key : bytes_ok key -> short (length key) ->
  let '(key', k) := hmac_reset_key key in
  k = (if 64 <? length key then sha1_ref key else key) /\ bytes_ok k /\ length k <= 64 /\
  (length key <= 64 -> key' = key).
Proof.
  intros Hk Hs. unfold short in Hs. unfold hmac_reset_key. change PRF_MAX_KEY_LEN with 64.
  destruct (Nat.ltb_spec 64 (length key)) as [Hl|Hl]; [|split_and!; (done || lia)].
  rewrite (sha1_out_repr _ key) by
    (lia || (apply (sha1_in_repr _ []); [apply sha1_auto_repr|done|cbn [length]; lia])).
  rewrite take_app_length' by by rewrite sha1_ref_length.
  split_and!; [done|apply sha1_ref_ok|rewrite sha1_ref_length; lia|lia].
Qed.

(** One HMAC from contexts that have absorbed the pads. *)
Lemma hmac_from_pads ic oc k text : sha1_repr ic (hmac_pad 0x36 k) -> sha1_repr oc (hmac_pad 0x5c k) ->
  length k <= 64 -> bytes_ok text -> short (length text) ->
  sha1_out (sha1_in oc (sha1_out (sha1_in ic text))) =
  sha1_ref (hmac_pad 0x5c k ++ sha1_ref (hmac_pad 0x36 k ++ text)).
Proof.
  intros Hi Ho Hk Ht Hs. unfold short in Hs.
  assert (Hil : length (hmac_pad 0x36 k) = 64) by by apply hmac_pad_length.
  assert (Hol : length (hmac_pad 0x5c k) = 64) by by apply hmac_pad_length.
  rewrite (sha1_out_repr (sha1_in ic text) (hmac_pad 0x36 k ++ text)).
  - apply sha1_out_repr; [apply sha1_in_repr; [done|apply sha1_ref_ok|]|rewrite length_app];
      rewrite sha1_ref_length; lia.
  - apply sha1_in_repr; [done..|lia].
  - rewrite length_app. lia.
Qed.

Lemma sha1_pad_repr mask k : u8 mask -> bytes_ok k -> length k <= 64 ->
  sha1_repr (sha1_in (SHA1Reset sha1_auto) (hmac_pad mask k)) (hmac_pad mask k).
Proof.
  intros. apply (sha1_in_repr _ []); [apply sha1_auto_repr|by apply hmac_pad_ok|].
  rewrite hmac_pad_length by done. cbn [length]. lia.
Qed.

(** hmac_sha1 is RFC 2104; a key of at most 64 bytes is left as it is. *)
Lemma hmac_sha1_spec text key : bytes_ok text -> bytes_ok key -> short (length text) -> short (length key) ->
  fst (hmac_sha1 text key) = hmac_ref sha1_ref key text /\
  (length key <= 64 -> snd (hmac_sha1 text key) = key).
Proof.
  intros Ht Hk Hst Hsk. unfold hmac_sha1. pose proof (hmac_reset_key_spec key Hk Hsk) as H.
  destruct (hmac_reset_key key) as [key' k]. destruct H as (Hkk & Hkok & Hkl & Hkeep). cbn [fst snd].
  split; [|done]. rewrite (hmac_from_pads _ _ k) by (done || by apply sha1_pad_repr).
  unfold hmac_ref, hmac_key. rewrite <- Hkk. done.
Qed.

(** ** PRF and fPRF *)

Lemma wrap8_succ i : wrap8 (wrap8 (Z.of_nat i) + 1) = wrap8 (Z.of_nat (S i)).
Proof. unfold wrap8. rewrite Z.add_mod_idemp_l by lia. f_equal. lia. Qed.

(** The output blocks: HMAC of the input and a one-octet counter. *)
Definition prf_ref (key input : list Z) (n : nat) : list Z :=
  concat (map (fun i => hmac_ref sha1_ref key (input ++ [wrap8 (Z.of_nat i)])) (seq 0 n)).

Lemma prf_ref_S key input n :
  prf_ref key input (S n) = prf_ref key input n ++ hmac_ref sha1_ref key (input ++ [wrap8 (Z.of_nat n)]).
Proof. unfold prf_ref. rewrite seq_S, map_app, concat_app. simpl. by rewrite app_nil_r. Qed.

Section prf.
Context (key input : list Z).
Hypothesis key_ok : bytes_ok key.
Hypothesis input_ok : bytes_ok input.
Hypothesis input_short : length input < 128.

Lemma prf_block_ok i : bytes_ok (input ++ [wrap8 i]) /\ short (length (input ++ [wrap8 i])).
Proof using input_ok input_short.
  split.
  - apply Forall_app. split; [done|]. constructor; [apply wrap8_u8|done].
  - unfold short. rewrite length_app. cbn [length]. lia.
Qed.

Lemma prf_iter n : length key <= 64 ->
  Nat.iter n (prf_step input) ([], key, 0%Z) = (prf_ref key input n, key, wrap8 (Z.of_nat n)).
Proof using key_ok input_ok input_short.
  intros Hk. induction n as [|n IH]; [done|]. rewrite Nat.iter_succ, IH. unfold prf_step.
  destruct (prf_block_ok (Z.of_nat n)) as [Hb Hs].
  destruct (hmac_sha1_spec (input ++ [wrap8 (Z.of_nat n)]) key Hb key_ok Hs ltac:(unfold short; lia)) as [H1 H2].
  destruct (hmac_sha1 _ _) as [d k]. cbn [fst snd] in *. rewrite H1, H2, wrap8_succ, prf_ref_S by done. done.
Qed.

Lemma fprf_iter n k : bytes_ok k -> length k <= 64 ->
  k = (if 64 <? length key then sha1_ref key else key) ->
  Nat.iter n (fprf_step (sha1_in (SHA1Reset sha1_auto) (hmac_pad 0x36 k))
                        (sha1_in (SHA1Reset sha1_auto) (hmac_pad 0x5c k)) input) ([], 0%Z) =
  (prf_ref key input n, wrap8 (Z.of_nat n)).
Proof using key_ok input_ok input_short.
  intros Hk Hl Hkey. induction n as [|n IH]; [done|]. rewrite Nat.iter_succ, IH. unfold fprf_step.
  destruct (prf_block_ok (Z.of_nat n)) as [Hb Hs].
  rewrite (hmac_from_pads _ _ k), wrap8_succ, prf_ref_S by (done || by apply sha1_pad_repr).
  unfold hmac_ref, hmac_key. rewrite <- Hkey. done.
Qed.
End prf.

Lemma prf_input_ok prefix data : bytes_ok prefix -> bytes_ok data -> bytes_ok (prf_input prefix data).
Proof.
  intros Hp Hd. destruct prefix; [done|]. apply Forall_app. split; [done|].
  constructor; [unfold is_u; lia|done].
Qed.



(** The limit PRF and fPRF check is one short.  With a prefix, inputs with
    prefix_len + data_len + 1 = PRF_MAX_I_D_LEN pass the check and the counter octet is
    stored at input[PRF_MAX_I_D_LEN], outside the array; that is the only case. *)
Theorem prf_overrun key prefix data len :
  (PRF key prefix data len = PRF_overrun <->
   prefix <> [] /\ length prefix + length data + 1 = PRF_MAX_I_D_LEN) /\
  (fPRF key prefix data len = PRF_overrun <->
   prefix <> [] /\ length prefix + length data + 1 = PRF_MAX_I_D_LEN).
Proof.
  unfold PRF, fPRF, PRF_MAX_I_D_LEN, prf_input.
  destruct (Nat.ltb_spec 128 (length prefix + length data + 1)) as [H|H]; [split; split; (done || lia)|].
  destruct prefix as [|x prefix]; cbn [length] in *.
  - rewrite (proj2 (Nat.leb_gt _ _)) by lia. destruct (Nat.iter _ _ _) as [[? ?] ?].
    destruct (hmac_reset_key key). destruct (Nat.iter _ _ _). split; split; try done; by intros [? ?].
  - rewrite length_app. cbn [length].
    destruct (Nat.leb_spec 128 (S (length prefix) + S (length data))).
    + split; split; intros _; try done; (split; [done|lia]).
    + destruct (Nat.iter _ _ _) as [[? ?] ?]. destruct (hmac_reset_key key). destruct (Nat.iter _ _ _).
      split; split; try done; intros [? ?]; lia.
Qed.

(** For a key longer than 64 bytes PRF hashes the key again for every block, over a
    buffer the previous call has partly overwritten, and differs from fPRF from the
    second block on. *)
Theorem prf_long_key_differs :
  exists o1 k1 o2 k2, PRF (zrange 65) [] (zrange 10) 40 = PRF_ok o1 k1 /\
    fPRF (zrange 65) [] (zrange 10) 40 = PRF_ok o2 k2 /\
    take 20 o1 = take 20 o2 /\ drop 20 o1 <> drop 20 o2.
Proof.
  eexists _, _, _, _. split; [vm_compute; reflexivity|]. split; [vm_compute; reflexivity|].
  split; [reflexivity|discriminate].
Qed.

(** ** passhash *)

Lemma hmac_sha1_key text key : length key <= 64 -> snd (hmac_sha1 text key) = key.
Proof.
  intros Hl. unfold hmac_sha1, hmac_reset_key. change PRF_MAX_KEY_LEN with 64.
  by rewrite (proj2 (Nat.ltb_ge _ _)).
Qed.

(** RFC 2898: U_1 = PRF(P, S || INT(i)), U_j = PRF(P, U_(j-1)), T_i the exclusive-or of
    the first c of them. *)
Definition pbkdf2_U (P S : list Z) (i : Z) (j : nat) : list Z :=
  Nat.iter j (hmac_ref sha1_ref P) (hmac_ref sha1_ref P (F_salt S i)).

Definition pbkdf2_T (P S : list Z) (i : Z) (c : nat) : list Z :=
  fold_left (fun o j => xor_bytes o (pbkdf2_U P S i j)) (seq 1 (c - 1)) (pbkdf2_U P S i 0).

Lemma hmac_ref_sha1_ok key text : length (hmac_ref sha1_ref key text) = 20 /\ bytes_ok (hmac_ref sha1_ref key text).
Proof. unfold hmac_ref. split; [apply sha1_ref_length|apply sha1_ref_ok]. Qed.

Section passhash.
Context (P S : list Z).
Hypothesis P_ok : bytes_ok P.
Hypothesis P_len : length P <= 64.
Hypothesis S_ok : bytes_ok S.

Lemma F_salt_ok i : bytes_ok (F_salt S i) /\ short (length (F_salt S i)).
Proof using S_ok P_ok P_len.
  unfold F_salt, short. split.
  - apply Forall_app. split; [by apply Forall_take|]. forall_split; apply wrap8_u8.
  - rewrite length_app, length_take. cbn [length]. lia.
Qed.

Lemma hmac_salt i : hmac_sha1 (F_salt S i) P = (pbkdf2_U P S i 0, P).
Proof using S_ok P_ok P_len.
  destruct (F_salt_ok i). destruct (hmac_sha1_spec (F_salt S i) P) as [H1 H2]; [done..|unfold short; lia|].
  destruct (hmac_sha1 _ _). cbn in *. by rewrite H1, H2.
Qed.

Lemma hmac_U i j : hmac_sha1 (pbkdf2_U P S i j) P = (pbkdf2_U P S i (Datatypes.S j), P).
Proof using S_ok P_ok P_len.
  assert (Hok : length (pbkdf2_U P S i j) = 20 /\ bytes_ok (pbkdf2_U P S i j))
    by (unfold pbkdf2_U; destruct j; [|rewrite Nat.iter_succ]; apply hmac_ref_sha1_ok).
  destruct Hok as [Hl Hok].
  destruct (hmac_sha1_spec (pbkdf2_U P S i j) P) as [H1 H2]; [done|done|unfold short; lia..|].
  destruct (hmac_sha1 _ _). cbn [fst snd] in *. rewrite H1, H2 by done. unfold pbkdf2_U. by rewrite Nat.iter_succ.
Qed.

Lemma F_iter i n : Nat.iter n F_step (pbkdf2_U P S i 0, pbkdf2_U P S i 0, P) =
  (pbkdf2_U P S i n, pbkdf2_T P S i (Datatypes.S n), P).
Proof using S_ok P_ok P_len.
  induction n as [|n IH]; [done|]. rewrite Nat.iter_succ, IH. unfold F_step. rewrite hmac_U.
  unfold pbkdf2_T. rewrite !Nat.sub_succ, !Nat.sub_0_r, (seq_S n 1), fold_left_app. done.
Qed.

Lemma pbkdf2_T_length i n : length (pbkdf2_T P S i n) = 20.
Proof.
  unfold pbkdf2_T. generalize (seq 1 (n - 1)) as l. intros l.
  assert (H : forall o, length o = 20 -> length (fold_left (fun o j => xor_bytes o (pbkdf2_U P S i j)) l o) = 20).
  { induction l as [|j l IH]; intros o Ho; [done|]. apply IH. rewrite xor_bytes_length, Ho.
    assert (HU : length (pbkdf2_U P S i j) = 20)
      by (unfold pbkdf2_U; destruct j; [|rewrite Nat.iter_succ]; apply hmac_ref_sha1_ok).
    by rewrite HU. }
  apply H. apply hmac_ref_sha1_ok.
Qed.

Lemma F_pbkdf2 i c : (1 <= c)%Z -> F P S c i = pbkdf2_T P S i (Z.to_nat c).
Proof using S_ok P_ok P_len.
  intros Hc. unfold F. rewrite hmac_salt, F_iter. f_equal. lia.
Qed.

(** *** The incremental form *)

(** Where a computation in progress stands: [ph_iters] iterations into block
    [ph_count], the blocks before it complete. *)
Record ph_inv (ph : passhash_t) : Prop := {
  inv_pw : take (ph_passlen ph) (ph_password ph) = P;
  inv_ssid : ph_ssid ph = S;
  inv_count : (1 <= ph_count ph <= 3)%Z;
  inv_iters : (0 <= ph_iters ph < 4096)%Z;
  inv_len : length (ph_output ph) = 40;
  inv_cur : (ph_iters ph <> 0)%Z -> (ph_count ph <= 2)%Z /\
    ph_digest ph = pbkdf2_U P S (ph_count ph) (Z.to_nat (ph_iters ph - 1)) /\
    rd (ph_output ph) (20 * Z.to_nat (ph_count ph - 1)) 20 =
      pbkdf2_T P S (ph_count ph) (Z.to_nat (ph_iters ph));
  inv_done : forall i, (1 <= i < ph_count ph)%Z ->
    rd (ph_output ph) (20 * Z.to_nat (i - 1)) 20 = pbkdf2_T P S i (Z.to_nat 4096)
}.

Definition ph_progress (ph : passhash_t) : Z := ((ph_count ph - 1) * 4096 + ph_iters ph)%Z.

(** The digest, the output slot and the iteration count after the call's loop. *)
Lemma do_F_resume i k n : (1 <= k)%Z -> (0 <= n)%Z ->
  do_F P n (pbkdf2_U P S i (Z.to_nat (k - 1))) (pbkdf2_T P S i (Z.to_nat k)) =
  (pbkdf2_U P S i (Z.to_nat (k + n - 1)), pbkdf2_T P S i (Z.to_nat (k + n))).
Proof using S_ok P_ok P_len.
  intros Hk Hn. unfold do_F.
  replace (pbkdf2_U P S i (Z.to_nat (k - 1)), pbkdf2_T P S i (Z.to_nat k), P) with
    (Nat.iter (Z.to_nat (k - 1)) F_step (pbkdf2_U P S i 0, pbkdf2_U P S i 0, P))
    by (rewrite F_iter; do 3 f_equal; lia).
  rewrite <- Nat.iter_add, F_iter. cbn [fst]. do 2 f_equal; lia.
Qed.

Lemma init_F_U i : init_F P S i = pbkdf2_U P S i (Z.to_nat (1 - 1)) /\ init_F P S i = pbkdf2_T P S i (Z.to_nat 1).
Proof using S_ok P_ok P_len. unfold init_F. rewrite hmac_salt. done. Qed.

Lemma do_passhash_step ph n : ph_inv ph -> (1 <= n)%Z -> (ph_count ph <= 2)%Z ->
  let '(r, ph') := do_passhash ph n in
  ph_inv ph' /\ (ph_progress ph < ph_progress ph')%Z /\ (r = if (2 <? ph_count ph')%Z then 0 else 1)%Z.
Proof using S_ok P_ok P_len.
  intros [Hpw Hss Hc Hit Hlen Hcur Hdone] Hn Hc2. unfold do_passhash.
  rewrite (proj2 (Z.ltb_ge _ _)) by lia. rewrite Hpw, Hss.
  set (o := 20 * Z.to_nat (ph_count ph - 1)) in *.
  set (k := Z.min 4096 (ph_iters ph + n)).
  set (st := if (ph_iters ph =? 0)%Z then _ else _).
  assert (Hst : exists it n0, st = (pbkdf2_U P S (ph_count ph) (Z.to_nat (it - 1)), pbkdf2_T P S (ph_count ph) (Z.to_nat it), it, n0)
    /\ (1 <= it)%Z /\ (it + n0 = ph_iters ph + n)%Z /\ (it <= 4096)%Z /\ (it = 1 \/ it = ph_iters ph)%Z).
  { unfold st. destruct (Z.eqb_spec (ph_iters ph) 0) as [Hz|Hz].
    - destruct (init_F_U (ph_count ph)) as [H1 H2]. exists 1%Z, (n - 1)%Z.
      split; [rewrite <- H1, <- H2; done|lia].
    - destruct (Hcur Hz) as (_ & -> & ->). exists (ph_iters ph), n. split; [done|lia]. }
  destruct Hst as (it & n0 & -> & Hit1 & Hsum & Hmax & Hdisj).
  set (m := if (4096 <? it + n0)%Z then (4096 - it)%Z else n0).
  assert (Hm : (it + m = k)%Z) by (subst m k; destruct (Z.ltb_spec 4096 (it + n0)); lia).
  assert (Hm0 : (0 <= m)%Z) by (subst m; destruct (Z.ltb_spec 4096 (it + n0)); lia).
  rewrite do_F_resume, Hm by lia. clearbody m.
  assert (Hk : (1 <= k <= 4096)%Z) by lia.
  assert (Hol : length (pbkdf2_T P S (ph_count ph) (Z.to_nat k)) = 20) by apply pbkdf2_T_length.
  assert (Hwr : length (wr (ph_output ph) o (pbkdf2_T P S (ph_count ph) (Z.to_nat k))) = 40)
    by (rewrite wr_length; lia).
  assert (Hsame : rd (wr (ph_output ph) o (pbkdf2_T P S (ph_count ph) (Z.to_nat k))) o 20 =
    pbkdf2_T P S (ph_count ph) (Z.to_nat k)) by (apply rd_wr_same; lia).
  assert (Hold : forall i, (1 <= i < ph_count ph)%Z ->
    rd (wr (ph_output ph) o (pbkdf2_T P S (ph_count ph) (Z.to_nat k))) (20 * Z.to_nat (i - 1)) 20 =
    pbkdf2_T P S i (Z.to_nat 4096)).
  { intros i Hi. rewrite rd_wr_disj by (unfold disj; lia). by apply Hdone. }
  destruct (Z.eqb_spec k 4096) as [Hk4|Hk4].
  - split_and!; [split; cbn [ph_passlen ph_password ph_ssid ph_count ph_iters ph_output ph_digest]; try (assumption || reflexivity || lia)| |].
    + intros i Hi. destruct (decide (i = ph_count ph)) as [->|]; [by rewrite <- Hk4|apply Hold; lia].
    + unfold ph_progress. cbn. lia.
    + done.
  - split_and!; [split; cbn [ph_passlen ph_password ph_ssid ph_count ph_iters ph_output ph_digest]; try (done || lia)| |].
    + unfold ph_progress. cbn. lia.
    + done.
Qed.

Lemma do_passhash_done ph n : (2 < ph_count ph)%Z -> do_passhash ph n = ((-1)%Z, ph).
Proof. intros H. unfold do_passhash. by rewrite (proj2 (Z.ltb_lt _ _)). Qed.

(** Any sequence of calls. *)
Definition ph_run (ph : passhash_t) (ns : list Z) : passhash_t := fold_left (fun ph n => snd (do_passhash ph n)) ns ph.

Lemma ph_run_inv ns ph : ph_inv ph -> Forall (Z.le 1) ns ->
  ph_inv (ph_run ph ns) /\ ((2 < ph_count (ph_run ph ns)) \/
    (ph_progress ph + Z.of_nat (length ns) <= ph_progress (ph_run ph ns)))%Z.
Proof using S_ok P_ok P_len.
  intros Hph Hns. revert ph Hph. induction Hns as [|n ns Hn Hns IH]; intros ph Hph.
  - split; [done|right]. cbn. lia.
  - cbn [ph_run fold_left]. destruct (decide (2 < ph_count ph)%Z) as [Hd|Hd].
    + rewrite do_passhash_done by done. cbn [snd]. destruct (IH ph Hph) as [H1 _]. split; [done|left].
      assert (Hfix : forall l, ph_run ph l = ph).
      { induction l as [|a l IHl]; [done|]. cbn [ph_run fold_left]. by rewrite do_passhash_done. }
      unfold ph_run in Hfix. by rewrite Hfix.
    + pose proof (do_passhash_step ph n Hph Hn ltac:(lia)) as Hs. destruct (do_passhash ph n) as [r ph'].
      destruct Hs as (Hinv & Hp & _). cbn [snd]. destruct (IH ph' Hinv) as [H1 H2]. split; [done|].
      destruct H2 as [H2|H2]; [by left|right]. unfold ph_run in H2. cbn [length]. lia.
Qed.
End passhash.

(** Passhash is PBKDF2 with HMAC-SHA1 and 4096 iterations: two 20-byte blocks, for
    passphrases of 8 to 63 characters and ssids of at most 32 bytes; anything else is
    refused. *)
Theorem passhash_pbkdf2 password passlen ssid : bytes_ok password -> bytes_ok ssid ->
  passhash password passlen ssid =
  if decide (8 <= length password <= 63 /\ length ssid <= 32) then
    let P := take passlen password in
    Some (pbkdf2_T P ssid 1 (Z.to_nat 4096) ++ pbkdf2_T P ssid 2 (Z.to_nat 4096))
  else None.
Proof.
  intros Hp Hs. unfold passhash.
  destruct (decide _) as [Hd|Hd].
  2: { destruct (Nat.ltb_spec (length password) 8), (Nat.ltb_spec 63 (length password)),
         (Nat.ltb_spec 32 (length ssid)); (reflexivity || (exfalso; lia)). }
  rewrite (proj2 (Nat.ltb_ge (length password) 8)), (proj2 (Nat.ltb_ge 63 _)), (proj2 (Nat.ltb_ge 32 _)) by lia. cbn [orb].
  assert (HP : bytes_ok (take passlen password)) by by apply Forall_take.
  assert (HPl : length (take passlen password) <= 64) by (rewrite length_take; lia).
  cbv zeta. rewrite !(F_pbkdf2 (take passlen password) ssid HP HPl Hs) by lia. done.
Qed.

Lemma passhash_pbkdf2_witness :
  passhash (map (Z.add 97) (zrange 10)) 10 (zrange 4) =
    let P := map (Z.add 97) (zrange 10) in
    Some (pbkdf2_T P (zrange 4) 1 (Z.to_nat 4096) ++ pbkdf2_T P (zrange 4) 2 (Z.to_nat 4096)).
Proof.
  rewrite passhash_pbkdf2 by by_compute. rewrite decide_True by (vm_compute; lia). reflexivity.
Defined.

(** The incremental hash.  From init_passhash, whatever the sizes of the steps
    do_passhash is asked for, its state stays consistent; once it has reported the end
    get_passhash returns the key passhash computes in one go, and 8192 calls always
    reach the end. *)
Theorem do_passhash_equiv password passlen ssid ph ns :
  bytes_ok password -> bytes_ok ssid -> length ssid <= 32 ->
  init_passhash password passlen ssid = Some ph -> Forall (Z.le 1) ns ->
  let ph' := ph_run ph ns in
  get_passhash ph' 40 = (if (2 <? ph_count ph')%Z then passhash password passlen ssid else None) /\
  ((8192 <= Z.of_nat (length ns))%Z -> (2 < ph_count ph')%Z).
Proof.
  intros Hp Hs Hsl Hinit Hns ph'. rewrite passhash_pbkdf2 by done.
  unfold init_passhash in Hinit.
  destruct (Nat.ltb_spec (length password) 8), (Nat.ltb_spec 63 (length password)); try done. cbn [orb] in Hinit.
  rewrite decide_True by lia. cbv zeta. set (P := take passlen password).
  assert (HP : bytes_ok P) by by apply Forall_take.
  assert (HPl : length P <= 64) by (unfold P; rewrite length_take; lia).
  assert (Hinv : ph_inv P ssid ph) by (injection Hinit as <-; split; cbn; try (reflexivity || lia)).
  assert (Hpr : ph_progress ph = 0%Z) by (by injection Hinit as <-).
  destruct (ph_run_inv P ssid HP HPl Hs ns ph Hinv Hns) as [[Hpw Hss Hc Hit Hlen Hcur Hdone] Hprog].
  fold ph' in Hpw, Hss, Hc, Hit, Hlen, Hcur, Hdone, Hprog. split.
  - unfold get_passhash. destruct (Z.ltb_spec 2 (ph_count ph')) as [H3|H3]; [|done]. cbn [andb Nat.leb].
    f_equal. rewrite <- (Hdone 1%Z), <- (Hdone 2%Z) by lia.
    change (20 * Z.to_nat (1 - 1)) with 0. change (20 * Z.to_nat (2 - 1)) with 20.
    unfold rd. rewrite drop_0, take_take_drop. done.
  - intros Hn. destruct Hprog as [Hprog|Hprog]; [done|]. unfold ph_progress in *.
    destruct (decide (ph_count ph' <= 2)%Z); [|lia]. exfalso.
    assert (ph_count ph' = 1 \/ ph_count ph' = 2)%Z as [E|E] by lia; rewrite E in Hprog; lia.
Qed.

Lemma do_passhash_equiv_witness :
  exists ph, init_passhash (map (Z.add 97) (zrange 10)) 10 (zrange 4) = Some ph /\
  (2 < ph_count (ph_run ph (replicate (Z.to_nat 8192) 100%Z)))%Z.
Proof.
  eexists. split; [reflexivity|].
  eapply (do_passhash_equiv (map (Z.add 97) (zrange 10)) 10 (zrange 4)).
  1-2: by_compute. 1: by_compute. 1: reflexivity. 1: apply Forall_replicate; lia.
  rewrite length_replicate. lia.
Defined.
