(* ===== verification/Rc4.v ===== *)
(** RC4 of src/userspace/libbcmcrypto/src/rc4.c: key schedule and stream.  The state
    stays a permutation of the 256 bytes, and a stream applied twice from the same
    state is undone, whatever pieces the data is processed in. *)
From stdpp Require Import base numbers list.
From Stdlib Require Import ZArith Lia.
From S2P Require Import Prelude.
Local Open Scope Z_scope.

(** ** Definitions *)

Definition RC4_STATE_NBYTES : Z := 256.

Record rc4_ks_t := Rc4 { rc4_state : list Z; rc4_x : Z; rc4_y : Z }.

(** [temp = s[i]; s[i] = s[j]; s[j] = temp] *)
Definition rc4_swap (s : list Z) (i j : Z) : list Z :=
  let temp := idx s i in
  let s := <[Z.to_nat i := idx s j]> s in
  <[Z.to_nat j := temp]> s.

(** One iteration of the key schedule: state, index1, index2. *)
Definition prepare_step (key : list Z) (a : list Z * Z * Z) (counter : Z) : list Z * Z * Z :=
  let '(s, index1, index2) := a in
  let key_byte := idx key index1 in
  let index2 := (key_byte + idx s counter + index2) mod RC4_STATE_NBYTES in
  (rc4_swap s counter index2, (index1 + 1) mod Z.of_nat (length key), index2).

Definition prepare_key (key_data : list Z) : rc4_ks_t :=
  let '(s, _, _) := fold_left (prepare_step key_data) (zrange 256) (zrange 256, 0, 0) in
  Rc4 s 0 0.

(** [x], [y] and [xor_ind] are uint8. *)
Definition rc4_step (ks : rc4_ks_t) (b : Z) : Z * rc4_ks_t :=
  let x := wrap8 (rc4_x ks + 1) in
  let y := wrap8 (rc4_y ks + idx (rc4_state ks) x) in
  let s := rc4_swap (rc4_state ks) x y in
  let xor_ind := wrap8 (idx s x + idx s y) in
  (Z.lxor b (idx s xor_ind), Rc4 s x y).

Fixpoint rc4 (buf : list Z) (ks : rc4_ks_t) : list Z * rc4_ks_t :=
  match buf with
  | [] => ([], ks)
  | b :: buf =>
      let '(c, ks) := rc4_step ks b in
      let '(cs, ks) := rc4 buf ks in
      (c :: cs, ks)
  end.

(** ** The stream *)

(** The bytes exclusive-ored onto the data and the state they leave. *)
Fixpoint rc4_stream (n : nat) (ks : rc4_ks_t) : list Z :=
  match n with
  | O => []
  | S n => let '(k, ks) := rc4_step ks 0 in k :: rc4_stream n ks
  end.

Definition rc4_skip (n : nat) (ks : rc4_ks_t) : rc4_ks_t := Nat.iter n (fun ks => snd (rc4_step ks 0)) ks.

Lemma rc4_stream_length n ks : length (rc4_stream n ks) = n.
Proof.
  revert ks. induction n as [|n IH]; intros ks; [done|]. cbn [rc4_stream].
  destruct (rc4_step ks 0). simpl. by rewrite IH.
Qed.

Lemma rc4_step_xor ks b : fst (rc4_step ks b) = Z.lxor b (fst (rc4_step ks 0)) /\ snd (rc4_step ks b) = snd (rc4_step ks 0).
Proof. done. Qed.

(** rc4 is a stream cipher: the key stream depends on the state and the length only. *)
Lemma rc4_eq buf ks : rc4 buf ks = (xor_bytes buf (rc4_stream (length buf) ks), rc4_skip (length buf) ks).
Proof.
  revert ks. induction buf as [|b buf IH]; intros ks; [done|]. cbn [rc4 length rc4_stream].
  destruct (rc4_step_xor ks b) as [H1 H2]. destruct (rc4_step ks b) as [c ks1].
  destruct (rc4_step ks 0) as [k ks0] eqn:E0. cbn [fst snd] in *. subst c ks1. rewrite IH.
  unfold rc4_skip. rewrite Nat.iter_succ_r. rewrite E0. done.
Qed.

Lemma rc4_length buf ks : length (fst (rc4 buf ks)) = length buf.
Proof. rewrite rc4_eq. cbn [fst]. rewrite xor_bytes_length, rc4_stream_length. lia. Qed.

(** Decrypting from the state encryption started in. *)
Lemma rc4_rc4 buf ks : fst (rc4 (fst (rc4 buf ks)) ks) = buf.
Proof.
  rewrite (rc4_eq (fst _)), rc4_length. rewrite rc4_eq. cbn [fst].
  apply xor_bytes_cancel. by rewrite rc4_stream_length.
Qed.

Lemma rc4_app a b ks : rc4 (a ++ b) ks =
  let '(a', ks) := rc4 a ks in let '(b', ks) := rc4 b ks in (a' ++ b', ks).
Proof.
  revert ks. induction a as [|x a IH]; intros ks; cbn [rc4 app].
  - by destruct (rc4 b ks).
  - destruct (rc4_step ks x) as [c ks1]. rewrite IH. destruct (rc4 a ks1) as [a' ks2].
    by destruct (rc4 b ks2).
Qed.

(** ** The permutation invariant *)

Definition rc4_ok (ks : rc4_ks_t) : Prop := rc4_state ks ≡ₚ zrange 256 /\ u8 (rc4_x ks) /\ u8 (rc4_y ks).

Lemma rc4_swap_perm s i j : length s = 256%nat -> u8 i -> u8 j -> rc4_swap s i j ≡ₚ s.
Proof.
  intros Hl Hi Hj. unfold is_u in *. unfold rc4_swap, idx.
  assert (Hi' : (Z.to_nat i < 256)%nat) by lia. assert (Hj' : (Z.to_nat j < 256)%nat) by lia.
  set (a := Z.to_nat i) in *. set (b := Z.to_nat j) in *. clearbody a b.
  destruct (lookup_lt_is_Some_2 s a) as [x Hx]; [lia|]. destruct (lookup_lt_is_Some_2 s b) as [y Hy]; [lia|].
  rewrite (nth_lookup_Some s a 0 x Hx), (nth_lookup_Some s b 0 y Hy).
  apply Permutation_inj. rewrite !length_insert. split; [done|].
  exists (fun k => if decide (k = a) then b else if decide (k = b) then a else k). split.
  - intros k1 k2. destruct (decide (k1 = a)), (decide (k2 = a)), (decide (k1 = b)), (decide (k2 = b)); intros; subst; congruence.
  - intros k. destruct (decide (k = b)) as [->|Hkb].
    + rewrite list_lookup_insert_eq by (rewrite length_insert; lia).
      destruct (decide (b = a)) as [->|]; done.
    + rewrite list_lookup_insert_ne by congruence. destruct (decide (k = a)) as [->|].
      * rewrite list_lookup_insert_eq by lia. done.
      * rewrite list_lookup_insert_ne by congruence. done.
Qed.

Lemma perm_state_length s : s ≡ₚ zrange 256 -> length s = 256%nat.
Proof. intros H. by rewrite H. Qed.

Lemma rc4_step_ok ks b : rc4_ok ks -> rc4_ok (snd (rc4_step ks b)).
Proof.
  intros (Hs & Hx & Hy). unfold rc4_step. cbn [snd]. split_and!; cbn [rc4_state rc4_x rc4_y]; auto with word.
  rewrite rc4_swap_perm; auto using perm_state_length with word.
Qed.

Lemma rc4_ok_pres buf ks : rc4_ok ks -> rc4_ok (snd (rc4 buf ks)).
Proof.
  revert ks. induction buf as [|b buf IH]; intros ks H; [done|]. cbn [rc4].
  pose proof (rc4_step_ok ks b H) as H1. destruct (rc4_step ks b) as [c ks1].
  pose proof (IH ks1 H1) as H2. by destruct (rc4 buf ks1).
Qed.

Lemma prepare_fold_perm key l s i1 i2 : Forall (is_u 8) l -> s ≡ₚ zrange 256 -> u8 i2 ->
  let '(s', _, _) := fold_left (prepare_step key) l (s, i1, i2) in s' ≡ₚ zrange 256.
Proof.
  intros Hl. revert s i1 i2. induction Hl as [|c l Hc Hl IH]; intros s i1 i2 Hs Hi; [done|].
  cbn [fold_left prepare_step].
  assert (Hm : u8 ((idx key i1 + idx s c + i2) mod RC4_STATE_NBYTES)) by (apply Z.mod_pos_bound; done).
  apply IH; [|done]. rewrite rc4_swap_perm; auto using perm_state_length.
Qed.

(** The RC4 state is a permutation of the 256 bytes after prepare_key and after any
    use of the stream; data encrypted in pieces from a prepared key is restored by
    decrypting it in any other pieces from the same key. *)
Theorem rc4_roundtrip key pre a b a' b' :
  a ++ b = a' ++ b' ->
  let ks := snd (rc4 pre (prepare_key key)) in
  let '(ca, ks1) := rc4 a ks in let '(cb, ks2) := rc4 b ks1 in
  let '(pa, ks1') := rc4 (take (length a') (ca ++ cb)) ks in
  let '(pb, ks2') := rc4 (drop (length a') (ca ++ cb)) ks1' in
  rc4_ok ks2 /\ ks2' = ks2 /\ pa = a' /\ pb = b'.
Proof.
  intros Hab ks.
  assert (Hk : rc4_ok (prepare_key key)).
  { unfold prepare_key. pose proof (prepare_fold_perm key (zrange 256) (zrange 256) 0 0
      ltac:(by_compute) ltac:(reflexivity) ltac:(unfold is_u; lia)) as H.
    destruct (fold_left _ _ _) as [[s ?] ?]. split_and!; [done|cbn; unfold is_u; lia|cbn; unfold is_u; lia]. }
  pose proof (rc4_ok_pres pre _ Hk) as Hks. fold ks in Hks.
  pose proof (rc4_ok_pres (a ++ b) ks Hks) as Hend.
  pose proof (rc4_rc4 (a ++ b) ks) as Hinv. pose proof (rc4_length (a ++ b) ks) as Hlen.
  pose proof (f_equal snd (rc4_eq (a ++ b) ks)) as Hskip.
  rewrite rc4_app in Hend, Hinv, Hlen, Hskip.
  destruct (rc4 a ks) as [ca ks1]. destruct (rc4 b ks1) as [cb ks2]. cbn [fst snd] in *.
  pose proof (f_equal snd (rc4_eq (ca ++ cb) ks)) as Hskip'. rewrite Hlen in Hskip'. cbn [snd] in Hskip'.
  rewrite <- (take_drop (length a') (ca ++ cb)) in Hinv, Hskip'. rewrite rc4_app in Hinv, Hskip'.
  pose proof (rc4_length (take (length a') (ca ++ cb)) ks) as Hl1.
  destruct (rc4 (take _ _) ks) as [pa ks1']. destruct (rc4 (drop _ _) ks1') as [pb ks2']. cbn [fst snd] in *.
  rewrite Hab in Hinv, Hlen. rewrite (length_app a') in Hlen.
  rewrite length_take, Hlen in Hl1. apply app_inj_1 in Hinv as [-> ->]; [|lia].
  split_and!; [done|congruence|done|done].
Qed.

Lemma rc4_roundtrip_witness :
  let ks := snd (rc4 (zrange 3) (prepare_key (zrange 16))) in
  let '(ca, ks1) := rc4 [1; 2; 3] ks in let '(cb, ks2) := rc4 [4] ks1 in
  let '(pa, ks1') := rc4 (take 1 (ca ++ cb)) ks in
  let '(pb, ks2') := rc4 (drop 1 (ca ++ cb)) ks1' in
  rc4_ok ks2 /\ ks2' = ks2 /\ pa = [1] /\ pb = [2; 3; 4].
Proof. apply (rc4_roundtrip (zrange 16) (zrange 3) [1; 2; 3] [4] [1] [2; 3; 4]). reflexivity. Defined.
