(* ===== verification/Md5.v ===== *)
(** MD5 and HMAC-MD5: src/userspace/libbcmcrypto/src/md5.c and hmac.c.  The digest of
    a message fed in any pieces is the reference hash, and hmac_md5 is RFC 2104 over
    it. *)
From stdpp Require Import base numbers list.
From Stdlib Require Import ZArith Lia.
From S2P Require Import Prelude Mem HashRef Sha1.

(** ** Definitions *)

Inductive md5_fn := FF | GG | HH | II.

Definition not32 (x : Z) : Z := wrap32 (Z.lnot x).

Definition md5_f (f : md5_fn) (x y z : Z) : Z :=
  match f with
  | FF => Z.lor (Z.land x y) (Z.land (not32 x) z)
  | GG => Z.lor (Z.land x z) (Z.land y (not32 z))
  | HH => Z.lxor (Z.lxor x y) z
  | II => Z.lxor y (Z.lor x (not32 z))
  end.

Definition ROTATE_LEFT (x n : Z) : Z := Z.lor (wrap32 (Z.shiftl x n)) (Z.shiftr x (32 - n)).

(** The 64 calls of Transform: function, index into [in], shift, constant.  The
    arguments rotate: (a,b,c,d), (d,a,b,c), (c,d,a,b), (b,c,d,a). *)
Definition md5_steps : list (md5_fn * nat * Z * Z) :=
  [(FF, 0, 7%Z, 3614090360%Z); (FF, 1, 12%Z, 3905402710%Z); (FF, 2, 17%Z, 606105819%Z); (FF, 3, 22%Z, 3250441966%Z);
   (FF, 4, 7%Z, 4118548399%Z); (FF, 5, 12%Z, 1200080426%Z); (FF, 6, 17%Z, 2821735955%Z); (FF, 7, 22%Z, 4249261313%Z);
   (FF, 8, 7%Z, 1770035416%Z); (FF, 9, 12%Z, 2336552879%Z); (FF, 10, 17%Z, 4294925233%Z); (FF, 11, 22%Z, 2304563134%Z);
   (FF, 12, 7%Z, 1804603682%Z); (FF, 13, 12%Z, 4254626195%Z); (FF, 14, 17%Z, 2792965006%Z); (FF, 15, 22%Z, 1236535329%Z);
   (GG, 1, 5%Z, 4129170786%Z); (GG, 6, 9%Z, 3225465664%Z); (GG, 11, 14%Z, 643717713%Z); (GG, 0, 20%Z, 3921069994%Z);
   (GG, 5, 5%Z, 3593408605%Z); (GG, 10, 9%Z, 38016083%Z); (GG, 15, 14%Z, 3634488961%Z); (GG, 4, 20%Z, 3889429448%Z);
   (GG, 9, 5%Z, 568446438%Z); (GG, 14, 9%Z, 3275163606%Z); (GG, 3, 14%Z, 4107603335%Z); (GG, 8, 20%Z, 1163531501%Z);
   (GG, 13, 5%Z, 2850285829%Z); (GG, 2, 9%Z, 4243563512%Z); (GG, 7, 14%Z, 1735328473%Z); (GG, 12, 20%Z, 2368359562%Z);
   (HH, 5, 4%Z, 4294588738%Z); (HH, 8, 11%Z, 2272392833%Z); (HH, 11, 16%Z, 1839030562%Z); (HH, 14, 23%Z, 4259657740%Z);
   (HH, 1, 4%Z, 2763975236%Z); (HH, 4, 11%Z, 1272893353%Z); (HH, 7, 16%Z, 4139469664%Z); (HH, 10, 23%Z, 3200236656%Z);
   (HH, 13, 4%Z, 681279174%Z); (HH, 0, 11%Z, 3936430074%Z); (HH, 3, 16%Z, 3572445317%Z); (HH, 6, 23%Z, 76029189%Z);
   (HH, 9, 4%Z, 3654602809%Z); (HH, 12, 11%Z, 3873151461%Z); (HH, 15, 16%Z, 530742520%Z); (HH, 2, 23%Z, 3299628645%Z);
   (II, 0, 6%Z, 4096336452%Z); (II, 7, 10%Z, 1126891415%Z); (II, 14, 15%Z, 2878612391%Z); (II, 5, 21%Z, 4237533241%Z);
   (II, 12, 6%Z, 1700485571%Z); (II, 3, 10%Z, 2399980690%Z); (II, 10, 15%Z, 4293915773%Z); (II, 1, 21%Z, 2240044497%Z);
   (II, 8, 6%Z, 1873313359%Z); (II, 15, 10%Z, 4264355552%Z); (II, 6, 15%Z, 2734768916%Z); (II, 13, 21%Z, 1309151649%Z);
   (II, 4, 6%Z, 4149444226%Z); (II, 11, 10%Z, 3174756917%Z); (II, 2, 15%Z, 718787259%Z); (II, 9, 21%Z, 3951481745%Z)].

(** One call; the four words are then renamed for the next one. *)
Definition md5_step (inp : list Z) (s : Z * Z * Z * Z) (st : md5_fn * nat * Z * Z) : Z * Z * Z * Z :=
  let '(a, b, c, d) := s in
  let '(f, i, n, ac) := st in
  let a := wrap32 (a + (md5_f f b c d + nth i inp 0%Z + ac)) in
  let a := wrap32 (ROTATE_LEFT a n + b) in
  (d, a, b, c).

Definition Transform (buf inp : list Z) : list Z :=
  let '(a, b, c, d) := fold_left (md5_step inp) md5_steps
    (nth 0 buf 0, nth 1 buf 0, nth 2 buf 0, nth 3 buf 0)%Z in
  [wrap32 (nth 0 buf 0 + a); wrap32 (nth 1 buf 0 + b); wrap32 (nth 2 buf 0 + c); wrap32 (nth 3 buf 0 + d)]%Z.

Record MD5_CTX := { md5_i0 : Z; md5_i1 : Z; md5_buf : list Z; md5_in : list Z }.

Definition md5_init : list Z := [0x67452301; 0xefcdab89; 0x98badcfe; 0x10325476]%Z.

(** The input buffer keeps what the uninitialised context held. *)
Definition MD5Init (c : MD5_CTX) : MD5_CTX :=
  {| md5_i0 := 0; md5_i1 := 0; md5_buf := md5_init; md5_in := md5_in c |}.

(** A little-endian word of the input buffer. *)
Definition md5_word (blk : list Z) (i : nat) : Z :=
  Z.lor (Z.lor (Z.lor (Z.shiftl (nth (4 * i + 3) blk 0%Z) 24) (Z.shiftl (nth (4 * i + 2) blk 0%Z) 16))
               (Z.shiftl (nth (4 * i + 1) blk 0%Z) 8)) (nth (4 * i) blk 0%Z).

Definition md5_words (n : nat) (blk : list Z) : list Z := map (md5_word blk) (seq 0 n).

(** The loop of MD5Update: buffer, digest words and [mdi]. *)
Fixpoint md5_loop (inp buf : list Z) (mdi : nat) (l : list Z) {struct l} : list Z * list Z :=
  match l with
  | [] => (inp, buf)
  | b :: l =>
      let inp := <[mdi := b]> inp in
      if S mdi =? 0x40 then md5_loop inp (Transform buf (md5_words 16 inp)) 0 l
      else md5_loop inp buf (S mdi) l
  end.

Definition md5_mdi (c : MD5_CTX) : nat := Z.to_nat (Z.land (Z.shiftr (md5_i0 c) 3) 0x3F).

(** [inLen] is 32 bits wide. *)
Definition MD5Update (c : MD5_CTX) (l : list Z) : MD5_CTX :=
  let inLen := Z.of_nat (length l) in
  let mdi := md5_mdi c in
  let bits := wrap32 (Z.shiftl inLen 3) in
  let i1 := if (wrap32 (md5_i0 c + bits) <? md5_i0 c)%Z then wrap32 (md5_i1 c + 1) else md5_i1 c in
  let '(inp, buf) := md5_loop (md5_in c) (md5_buf c) mdi l in
  {| md5_i0 := wrap32 (md5_i0 c + bits); md5_i1 := wrap32 (i1 + Z.shiftr inLen 29);
     md5_buf := buf; md5_in := inp |}.

Definition PADDING : list Z := 0x80%Z :: replicate 63 0%Z.

Definition md5_digest (buf : list Z) : list Z :=
  concat (map (fun w => [wrap8 (Z.land w 0xFF); wrap8 (Z.land (Z.shiftr w 8) 0xFF);
                         wrap8 (Z.land (Z.shiftr w 16) 0xFF); wrap8 (Z.land (Z.shiftr w 24) 0xFF)])
              (map (fun i => nth i buf 0%Z) (seq 0 4))).

(** The hash; the context is not used again. *)
Definition MD5Final (c : MD5_CTX) : list Z :=
  let in14 := md5_i0 c in
  let in15 := md5_i1 c in
  let mdi := md5_mdi c in
  let padLen := if mdi <? 56 then 56 - mdi else 120 - mdi in
  let c := MD5Update c (take padLen PADDING) in
  md5_digest (Transform (md5_buf c) (md5_words 14 (md5_in c) ++ [in14; in15])).

(** An automatic MD5_CTX. *)
Definition md5_auto : MD5_CTX := {| md5_i0 := 0; md5_i1 := 0; md5_buf := []; md5_in := replicate 64 0%Z |}.

Definition hmac_md5 (text key : list Z) : list Z :=
  let key := if 64 <? length key then MD5Final (MD5Update (MD5Init md5_auto) key) else key in
  let pad := key ++ replicate (64 - length key) 0%Z in
  let digest := MD5Final (MD5Update (MD5Update (MD5Init md5_auto) (map (Z.lxor 0x36) pad)) text) in
  MD5Final (MD5Update (MD5Update (MD5Init md5_auto) (map (Z.lxor 0x5c) pad)) digest).

(** ** What a context represents *)

#[local] Arguments Nat.div : simpl never.
#[local] Arguments Nat.modulo : simpl never.
#[local] Arguments Nat.mul : simpl never.

(** The 64-bit little-endian bit length. *)
Definition le64 (n : Z) : list Z := map (fun k => wrap8 (Z.shiftr n (8 * k))) (zrange 8).

Definition md5_compress (h blk : list Z) : list Z := Transform h (md5_words 16 blk).

Definition md5_ref : list Z -> list Z := md_hash md5_init md5_compress le64 md5_digest.

Example md5_abc : MD5Final (MD5Update (MD5Init md5_auto) [0x61; 0x62; 0x63]%Z) =
  [0x90; 0x01; 0x50; 0x98; 0x3c; 0xd2; 0x4f; 0xb0; 0xd6; 0x96; 0x3f; 0x7d; 0x28; 0xe1; 0x7f; 0x72]%Z.
Proof. vm_compute. reflexivity. Qed.

#[local] Opaque Transform.

Record md5_repr (c : MD5_CTX) (msg : list Z) : Prop := {
  m_i0 : (md5_i0 c = (8 * Z.of_nat (length msg)) mod 2 ^ 32)%Z;
  m_i1 : (md5_i1 c = ((8 * Z.of_nat (length msg)) / 2 ^ 32) mod 2 ^ 32)%Z;
  m_in_len : length (md5_in c) = 64;
  m_in : take (length msg mod 64) (md5_in c) = drop (64 * (length msg / 64)) msg;
  m_buf : md5_buf c = fold_left md5_compress (chunk 64 (length msg / 64) msg) md5_init
}.

Lemma md5_init_repr c : length (md5_in c) = 64 -> md5_repr (MD5Init c) [].
Proof. intros H. by split. Qed.

Lemma md5_mdi_repr c msg : md5_repr c msg -> md5_mdi c = length msg mod 64.
Proof.
  intros [H0 _ _ _ _]. unfold md5_mdi. rewrite H0. set (n := length msg).
  change 0x3F%Z with (Z.ones 6). rewrite Z.land_ones, Z.shiftr_div_pow2 by lia.
  change (2 ^ 32)%Z with (8 * 2 ^ 29)%Z. change (2 ^ 3)%Z with 8%Z.
  rewrite Z.mul_mod_distr_l, Z.mul_comm, Z.div_mul by lia.
  change (2 ^ 29)%Z with (2 ^ 6 * 2 ^ 23)%Z. rewrite Z.rem_mul_r by lia.
  rewrite (Z.mul_comm (2 ^ 6)), Z.mod_add, Z.mod_mod by lia.
  change (2 ^ 6)%Z with (Z.of_nat 64). rewrite <- Nat2Z.inj_mod. lia.
Qed.

(** The byte loop, for the buffer and digest words alone. *)
Lemma md5_loop_spec l inp buf msg : length inp = 64 ->
  take (length msg mod 64) inp = drop (64 * (length msg / 64)) msg ->
  buf = fold_left md5_compress (chunk 64 (length msg / 64) msg) md5_init ->
  let '(inp', buf') := md5_loop inp buf (length msg mod 64) l in
  let msg' := msg ++ l in
  length inp' = 64 /\ take (length msg' mod 64) inp' = drop (64 * (length msg' / 64)) msg' /\
  buf' = fold_left md5_compress (chunk 64 (length msg' / 64) msg') md5_init.
Proof.
  revert inp buf msg. induction l as [|b l IH]; intros inp buf msg Hl Ht Hb; cbn [md5_loop].
  - rewrite app_nil_r. done.
  - set (n := length msg) in *. pose proof (Nat.div_mod_eq n 64) as Hdm.
    pose proof (Nat.mod_upper_bound n 64 ltac:(lia)) as Hr.
    assert (Hn' : length (msg ++ [b]) = S n) by (rewrite length_app; cbn [length]; unfold n; lia).
    assert (Htk : take (S (n mod 64)) (<[n mod 64:=b]> inp) = drop (64 * (n / 64)) (msg ++ [b])).
    { rewrite take_insert_snoc by lia. rewrite Ht, drop_app_le by (unfold n in *; lia). done. }
    assert (Hck : chunk 64 (n / 64) (msg ++ [b]) = chunk 64 (n / 64) msg)
      by (apply chunk_app_l; unfold n in *; lia).
    replace (msg ++ b :: l) with ((msg ++ [b]) ++ l) by by rewrite <- app_assoc.
    destruct (div_mod_succ n 64 ltac:(lia)) as [(E1 & E2 & E3)|(E1 & E2 & E3)].
    + rewrite (proj2 (Nat.eqb_eq _ _)) by lia.
      specialize (IH (<[n mod 64:=b]> inp) (Transform buf (md5_words 16 (<[n mod 64:=b]> inp))) (msg ++ [b])).
      rewrite Hn', E2 in IH. apply IH; [by rewrite length_insert| |].
      * symmetry. apply drop_ge. lia.
      * rewrite E3, chunk_snoc, fold_left_app, Hck, <- Hb. cbn [fold_left]. unfold md5_compress.
        rewrite <- Htk. replace (S (n mod 64)) with 64 by lia. rewrite take_take.
        rewrite (take_ge (<[n mod 64:=b]> inp)) by (rewrite length_insert; lia). done.
    + rewrite (proj2 (Nat.eqb_neq _ _)) by lia.
      specialize (IH (<[n mod 64:=b]> inp) buf (msg ++ [b])). rewrite Hn', E2, E3 in IH.
      apply IH; [by rewrite length_insert|done|by rewrite Hck].
Qed.

(** The carry out of a word, seen as the sum being less than a summand. *)
Lemma add_carry M x y : (0 <= x < M)%Z -> (0 <= y < M)%Z ->
  ((x + y) / M = if ((x + y) mod M <? x)%Z then 1 else 0)%Z.
Proof.
  intros Hx Hy. destruct (decide (x + y < M)%Z) as [E|E].
  - rewrite Z.mod_small, Z.div_small by lia. by rewrite (proj2 (Z.ltb_ge _ _)) by lia.
  - replace ((x + y) mod M)%Z with (x + y - M)%Z by (apply (Z.mod_unique _ _ 1); lia).
    rewrite (proj2 (Z.ltb_lt _ _)) by lia. symmetry. apply (Z.div_unique _ _ _ (x + y - M)); lia.
Qed.

(** The two-word bit counter, modulo 2^64. *)
Lemma md5_count A B :
  let M := (2 ^ 32)%Z in
  let s := wrap32 (A mod M + B mod M) in
  s = ((A + B) mod M)%Z /\ ((A + B) / M = A / M + B / M + (if (s <? A mod M)%Z then 1 else 0))%Z.
Proof.
  intros M s. split; [unfold s, wrap32; fold M; by rewrite <- Z.add_mod by lia|].
  unfold s, wrap32. fold M. rewrite <- add_carry by (apply Z.mod_pos_bound; lia).
  rewrite (Z.div_mod A M) at 1 by lia. rewrite (Z.div_mod B M) at 1 by lia.
  replace (M * (A / M) + A mod M + (M * (B / M) + B mod M))%Z with
    (A mod M + B mod M + (A / M + B / M) * M)%Z by lia.
  rewrite Z.div_add by lia. lia.
Qed.

Lemma MD5Update_repr c msg l : md5_repr c msg -> md5_repr (MD5Update c l) (msg ++ l).
Proof.
  intros Hc. pose proof (md5_mdi_repr c msg Hc) as Hmdi. destruct Hc as [H0 H1 Hl Ht Hb].
  unfold MD5Update. rewrite Hmdi.
  pose proof (md5_loop_spec l (md5_in c) (md5_buf c) msg Hl Ht Hb) as H.
  destruct (md5_loop _ _ _ _) as [inp buf]. destruct H as (Hl' & Ht' & Hb').
  destruct (md5_count (8 * Z.of_nat (length msg)) (8 * Z.of_nat (length l))) as [C0 C1].
  assert (Hbits : wrap32 (Z.shiftl (Z.of_nat (length l)) 3) = ((8 * Z.of_nat (length l)) mod 2 ^ 32)%Z).
  { rewrite Z.shiftl_mul_pow2 by lia. unfold wrap32. f_equal. lia. }
  assert (Hhi : Z.shiftr (Z.of_nat (length l)) 29 = ((8 * Z.of_nat (length l)) / 2 ^ 32)%Z).
  { rewrite Z.shiftr_div_pow2 by lia. change (2 ^ 32)%Z with (8 * 2 ^ 29)%Z. by rewrite Z.div_mul_cancel_l by lia. }
  rewrite Hbits, Hhi, H0, H1.
  assert (Hn : (8 * Z.of_nat (length (msg ++ l)) = 8 * Z.of_nat (length msg) + 8 * Z.of_nat (length l))%Z)
    by (rewrite length_app; lia).
  split; cbn [md5_i0 md5_i1 md5_in md5_buf]; rewrite ?Hn; [exact C0| |done|done|done].
  rewrite C1. unfold wrap32 at 1.
  destruct (_ <? _)%Z; unfold wrap32; rewrite ?Z.add_mod_idemp_l by lia.
  - replace (((8 * Z.of_nat (length msg)) / 2 ^ 32) mod 2 ^ 32 + 1 + 8 * Z.of_nat (length l) / 2 ^ 32)%Z with
      (((8 * Z.of_nat (length msg)) / 2 ^ 32) mod 2 ^ 32 + (1 + 8 * Z.of_nat (length l) / 2 ^ 32))%Z by lia.
    rewrite Z.add_mod_idemp_l by lia. f_equal. lia.
  - f_equal. lia.
Qed.

Lemma testbit_wrap8 x j : (0 <= j)%Z -> Z.testbit (wrap8 x) j = (j <? 8)%Z && Z.testbit x j.
Proof.
  intros Hj. unfold wrap8. destruct (Z.ltb_spec j 8).
  - by rewrite Z.mod_pow2_bits_low.
  - by rewrite Z.mod_pow2_bits_high by lia.
Qed.

(** Four little-endian bytes of [n] from bit [8 k] on. *)
Lemma md5_word_le n k : (0 <= k)%Z ->
  Z.lor (Z.lor (Z.lor (Z.shiftl (wrap8 (Z.shiftr n (k + 24))) 24) (Z.shiftl (wrap8 (Z.shiftr n (k + 16))) 16))
               (Z.shiftl (wrap8 (Z.shiftr n (k + 8))) 8)) (wrap8 (Z.shiftr n k)) = wrap32 (Z.shiftr n k).
Proof.
  intros Hk. apply Z.bits_inj'. intros i Hi. rewrite !Z.lor_spec, !Z.shiftl_spec by lia.
  assert (Hw : Z.testbit (wrap32 (Z.shiftr n k)) i = (i <? 32)%Z && Z.testbit n (i + k)).
  { unfold wrap32. destruct (Z.ltb_spec i 32).
    - by rewrite Z.mod_pow2_bits_low, Z.shiftr_spec by lia.
    - by rewrite Z.mod_pow2_bits_high by lia. }
  rewrite Hw. clear Hw.
  assert (Hb : forall d, (0 <= d)%Z -> Z.testbit (wrap8 (Z.shiftr n (k + d))) (i - d) =
    (d <=? i)%Z && (i <? d + 8)%Z && Z.testbit n (i + k)).
  { intros d Hd. destruct (Z.leb_spec d i).
    - rewrite testbit_wrap8, Z.shiftr_spec by lia. replace (i - d + (k + d))%Z with (i + k)%Z by lia.
      by destruct (Z.ltb_spec (i - d) 8), (Z.ltb_spec i (d + 8)); try lia.
    - by rewrite Z.testbit_neg_r by lia. }
  rewrite !Hb by lia. specialize (Hb 0%Z ltac:(lia)). rewrite Z.add_0_r, Z.sub_0_r in Hb. rewrite Hb.
  destruct (Z.testbit n (i + k)); rewrite ?andb_false_r, ?andb_true_r; [|done].
  destruct (Z.leb_spec 24 i), (Z.leb_spec 16 i), (Z.leb_spec 8 i), (Z.leb_spec 0 i),
    (Z.ltb_spec i (24 + 8)), (Z.ltb_spec i (16 + 8)), (Z.ltb_spec i (8 + 8)), (Z.ltb_spec i (0 + 8)), (Z.ltb_spec i 32);
    (reflexivity || lia).
Qed.

Lemma md5_words_app P n : length P = 56 -> (0 <= n)%Z ->
  md5_words 16 (P ++ le64 n) = md5_words 14 P ++ [wrap32 n; wrap32 (Z.shiftr n 32)].
Proof.
  intros HP Hn. unfold md5_words. change 16 with (14 + 2). rewrite seq_app, map_app. f_equal.
  - apply map_ext_in. intros i Hi%in_seq. unfold md5_word. rewrite !app_nth1 by lia. done.
  - cbn [seq map Nat.add]. unfold md5_word. rewrite !app_nth2 by (rewrite HP; lia). rewrite HP.
    unfold le64. cbn -[Z.shiftr Z.shiftl wrap8 wrap32 Z.lor]. f_equal; [|f_equal].
    + replace (wrap32 n) with (wrap32 (Z.shiftr n 0)) by (by rewrite Z.shiftr_0_r). rewrite <- (md5_word_le n 0) by lia. done.
    + rewrite <- (md5_word_le n 32) by lia. done.
Qed.

(** The block MD5Final builds when [r] bytes are in the buffer. *)
Lemma MD5Final_repr c msg : md5_repr c msg -> MD5Final c = md5_ref msg.
Proof.
  intros Hc. unfold MD5Final. rewrite (md5_mdi_repr c msg Hc).
  set (r := length msg mod 64). set (padLen := if r <? 56 then 56 - r else 120 - r).
  assert (Hr : r < 64) by (apply Nat.mod_upper_bound; lia).
  assert (Hpl : take padLen PADDING = 0x80%Z :: replicate (padLen - 1) 0%Z).
  { unfold PADDING. destruct padLen as [|n] eqn:E; [unfold padLen in E; destruct (Nat.ltb_spec r 56); lia|].
    cbn [firstn]. rewrite take_replicate. do 2 f_equal. unfold padLen in E. destruct (Nat.ltb_spec r 56); lia. }
  assert (Hin : [md5_i0 c; md5_i1 c] = [wrap32 (8 * Z.of_nat (length msg)); wrap32 (Z.shiftr (8 * Z.of_nat (length msg)) 32)]).
  { destruct Hc as [-> -> _ _ _]. unfold wrap32. by rewrite Z.shiftr_div_pow2 by lia. }
  pose proof (MD5Update_repr c msg (take padLen PADDING) Hc) as [_ _ Hl Ht Hb]. rewrite Hpl in Hl, Ht, Hb |- *.
  set (c' := MD5Update _ _) in *. clearbody c'. rewrite Hin.
  set (pad := 0x80%Z :: replicate (padLen - 1) 0%Z) in *.
  assert (Hn : length (msg ++ pad) = 64 * (length msg / 64 + (if r <? 56 then 0 else 1)) + 56).
  { rewrite length_app. unfold pad. cbn [length]. rewrite length_replicate.
    pose proof (Nat.div_mod_eq (length msg) 64). fold r in H. unfold padLen. destruct (Nat.ltb_spec r 56); lia. }
  set (q := length msg / 64 + _) in Hn.
  assert (Hq : length (msg ++ pad) / 64 = q /\ length (msg ++ pad) mod 64 = 56).
  { rewrite Hn. split; symmetry; [apply (Nat.div_unique _ _ _ 56)|apply (Nat.mod_unique _ _ q)]; lia. }
  destruct Hq as [Hq1 Hq2]. rewrite Hq1, Hq2 in Ht. rewrite Hq1 in Hb.
  assert (Hw : md5_words 14 (md5_in c') = md5_words 14 (take 56 (md5_in c'))).
  { apply map_ext_in. intros i Hi%in_seq. unfold md5_word. rewrite <- (take_drop 56 (md5_in c')) at 1 2 3 4.
    rewrite !app_nth1 by (rewrite length_take, Hl; lia). done. }
  rewrite Hw, <- md5_words_app by first [rewrite length_take, Hl; reflexivity | lia]. rewrite Hb, Ht.
  unfold md5_ref, md_hash.
  assert (Hp : md_pad le64 msg = (msg ++ pad) ++ le64 (8 * Z.of_nat (length msg))).
  { unfold md_pad, md_padding, pad. fold r. rewrite <- app_assoc. cbn [app]. do 4 f_equal. unfold padLen.
    destruct (Nat.ltb_spec r 56); [|rewrite Nat.mod_small; lia].
    replace (119 - r) with (55 - r + 1 * 64) by lia. rewrite Nat.Div0.mod_add, Nat.mod_small; lia. }
  assert (Hpn : length (md_pad le64 msg) / 64 = S q).
  { rewrite Hp, length_app, Hn. symmetry. apply (Nat.div_unique _ _ _ 0); [lia|].
    change (length (le64 _)) with 8. lia. }
  rewrite Hpn, chunk_snoc, fold_left_app, Hp, (chunk_app_l _ _ (msg ++ pad)) by lia. cbn [fold_left]. unfold md5_compress at 2.
  rewrite (drop_app_le (msg ++ pad)) by lia.
  by rewrite (take_ge (drop _ _ ++ le64 _)) by (rewrite length_app, length_drop, Hn; change (length (le64 _)) with 8; lia).
Qed.

Definition md5_feed (c : MD5_CTX) (ps : list (list Z)) : MD5_CTX := fold_left MD5Update ps c.

Lemma md5_feed_repr ps c msg : md5_repr c msg -> md5_repr (md5_feed c ps) (msg ++ concat ps).
Proof.
  revert c msg. induction ps as [|l ps IH]; intros c msg Hc; cbn [md5_feed fold_left concat].
  - by rewrite app_nil_r.
  - rewrite app_assoc. by apply IH, MD5Update_repr.
Qed.

(** MD5Init, any sequence of MD5Update calls and MD5Final give the MD5 digest of the
    concatenated pieces, whatever the context held before (the bit counter wraps at
    2^64 as RFC 1321 asks). *)
Theorem md5_stream c pieces : length (md5_in c) = 64 ->
  MD5Final (md5_feed (MD5Init c) pieces) = md5_ref (concat pieces).
Proof.
  intros Hl. apply MD5Final_repr. apply (md5_feed_repr pieces _ []). by apply md5_init_repr.
Qed.

Lemma md5_stream_witness :
  MD5Final (md5_feed (MD5Init {| md5_i0 := 9; md5_i1 := 9; md5_buf := []; md5_in := replicate 64 0xAA%Z |})
              [[0x61]; [0x62; 0x63]]%Z) = md5_ref [0x61; 0x62; 0x63]%Z.
Proof. apply (md5_stream _ [[0x61]; [0x62; 0x63]]%Z). reflexivity. Defined.

(** Hmac_md5 is RFC 2104 over MD5, for keys and texts of any length. *)
Theorem hmac_md5_spec text key : hmac_md5 text key = hmac_ref md5_ref key text.
Proof.
  assert (H1 : forall l, MD5Final (MD5Update (MD5Init md5_auto) l) = md5_ref l)
    by (intros l; apply MD5Final_repr, (MD5Update_repr _ []), md5_init_repr; done).
  assert (H2 : forall l m, MD5Final (MD5Update (MD5Update (MD5Init md5_auto) l) m) = md5_ref (l ++ m))
    by (intros l m; apply MD5Final_repr, MD5Update_repr, (MD5Update_repr _ []), md5_init_repr; done).
  unfold hmac_md5, hmac_ref, hmac_key. rewrite H1, !H2. done.
Qed.
