(* ===== verification/Monad.v ===== *)
(** Record update and the state monad of the network access server model.  A handler
    of nas is a function of the server's state that either returns, stops the box for
    good (nas_handle_error resets the board and spins) or reads or writes outside an
    array. *)
From stdpp Require Import base option list.
From Stdlib Require Import ZArith Lia.

(** ** Record update

    A record type gives its eta-expansion once; the setter of a field is computed
    from it by replacing the projection. *)

Class Settable (R : Type) := eta_of : R -> R.
Class Setter {R T : Type} (proj : R -> T) := upd : (T -> T) -> R -> R.
Arguments upd {R T} proj {_}.

Ltac make_setter proj :=
  match type of proj with
  | ?R -> ?T =>
      let e := constr:(fun r : R => ltac:(
        let i := constr:(_ : Settable R) in
        let h := (match i with ?h => eval cbv delta [h] in h end) in
        let t := (eval cbv beta in (h r)) in exact t)) in
      let p := (eval pattern proj in e) in
      match p with
      | ?f proj => exact (fun (g : T -> T) (r : R) => f (fun r => g (proj r)) r)
      end
  end.

#[export] Hint Extern 1 (Setter ?proj) => make_setter proj : typeclass_instances.

Declare Scope upd_scope.
Delimit Scope upd_scope with upd.
Open Scope upd_scope.
Notation "r <| proj := v |>" := (upd proj (fun _ => v) r)
  (at level 1, left associativity, format "r  <| proj  :=  v |>") : upd_scope.
Notation "r <| proj ::= f |>" := (upd proj f r)
  (at level 1, left associativity, format "r  <| proj  ::=  f |>") : upd_scope.

(** ** The monad *)

Inductive res (S A : Type) : Type :=
| Ret (a : A) (s : S)
| Halt (s : S)
| Oob.
Arguments Ret {S A}.
Arguments Halt {S A}.
Arguments Oob {S A}.

Definition M (S A : Type) : Type := S -> res S A.

#[export] Instance M_ret S : MRet (M S) := fun A a s => Ret a s.
#[export] Instance M_bind S : MBind (M S) := fun A B k m s =>
  match m s with
  | Ret a s' => k a s'
  | Halt s' => Halt s'
  | Oob => Oob
  end.

Definition get {S A} (f : S -> A) : M S A := fun s => Ret (f s) s.
Definition modify {S} (f : S -> S) : M S unit := fun s => Ret tt (f s).
Definition halt {S A} : M S A := fun s => Halt s.
Definition oob {S A} : M S A := fun _ => Oob.

(** An access guarded by the bounds of what it accesses. *)
Definition within {S} (b : bool) : M S unit := if b then mret tt else oob.

Definition when {S} (b : bool) (m : M S unit) : M S unit := if b then m else mret tt.

Fixpoint for_each {S A} (l : list A) (f : A -> M S unit) : M S unit :=
  match l with
  | [] => mret tt
  | x :: l => f x ;; for_each l f
  end.

(** ** Weakest preconditions

    [wpx P m Q s]: from [s], [m] returns with [Q], or [P] holds.  [wp] is partial
    correctness; [twp] also says that [m] returns. *)

Definition wpx {S A} (P : Prop) (m : M S A) (Q : A -> S -> Prop) (s : S) : Prop :=
  match m s with
  | Ret a s' => Q a s'
  | Halt _ | Oob => P
  end.

Abbreviation wp := (wpx True).
Abbreviation twp := (wpx False).

Section wp.
Context {S : Type} {P : Prop}.
Implicit Types s : S.

Lemma wp_ret {A} (a : A) Q s : Q a s -> wpx P (mret a) Q s.
Proof. done. Qed.

Lemma wp_bind {A B} (m : M S A) (k : A -> M S B) Q s :
  wpx P m (fun a s' => wpx P (k a) Q s') s -> wpx P (m ≫= k) Q s.
Proof. unfold wpx, mbind, M_bind. by destruct (m s). Qed.

Lemma wp_bind_inv {A B} (m : M S A) (k : A -> M S B) Q s :
  wpx P (m ≫= k) Q s -> wpx P m (fun a s' => wpx P (k a) Q s') s.
Proof. unfold wpx, mbind, M_bind. by destruct (m s). Qed.

Lemma wp_get {A} (f : S -> A) Q s : Q (f s) s -> wpx P (get f) Q s.
Proof. done. Qed.

Lemma wp_modify f (Q : unit -> S -> Prop) s : Q tt (f s) -> wpx P (modify f) Q s.
Proof. done. Qed.

Lemma wp_within b (Q : unit -> S -> Prop) s :
  (b = true -> Q tt s) -> (b = false -> P) -> wpx P (within b) Q s.
Proof. destruct b; unfold wpx; simpl; auto. Qed.

Lemma wp_mono {A} (m : M S A) (Q1 Q2 : A -> S -> Prop) s :
  wpx P m Q1 s -> (forall a s', Q1 a s' -> Q2 a s') -> wpx P m Q2 s.
Proof. unfold wpx. destruct (m s); auto. Qed.

Lemma wp_if {A} (b : bool) (m1 m2 : M S A) Q s :
  (b = true -> wpx P m1 Q s) -> (b = false -> wpx P m2 Q s) -> wpx P (if b then m1 else m2) Q s.
Proof. destruct b; auto. Qed.

Lemma wp_when (b : bool) (m : M S unit) Q s :
  (b = true -> wpx P m Q s) -> (b = false -> Q tt s) -> wpx P (when b m) Q s.
Proof. destruct b; unfold when; intros H1 H2; [by apply H1|by apply H2]. Qed.

(** A loop keeps what each round keeps. *)
Lemma wp_for_each {A} (l : list A) (f : A -> M S unit) (I : S -> Prop) s :
  I s -> (forall x s, x ∈ l -> I s -> wpx P (f x) (fun _ s' => I s') s) ->
  wpx P (for_each l f) (fun _ s' => I s') s.
Proof.
  revert s. induction l as [|x l IH]; intros s Hs Hf; [done|]. cbn [for_each].
  apply wp_bind. apply (wp_mono _ (fun _ s' => I s')); [apply Hf; [apply list_elem_of_here|done]|].
  intros _ s' Hs'. apply IH; [done|]. intros y s'' Hy. apply Hf. by apply list_elem_of_further.
Qed.

Lemma wp_ret_inv {A} (m : M S A) Q s a s' : wpx P m Q s -> m s = Ret a s' -> Q a s'.
Proof. unfold wpx. intros H E. by rewrite E in H. Qed.

Lemma twp_wp {A} (m : M S A) Q s : twp m Q s -> wpx P m Q s.
Proof. unfold wpx. by destruct (m s). Qed.

Lemma wp_conj {A} (m : M S A) (Q1 Q2 : A -> S -> Prop) s :
  wpx P m Q1 s -> wpx P m Q2 s -> wpx P m (fun a s' => Q1 a s' /\ Q2 a s') s.
Proof. unfold wpx. by destruct (m s). Qed.
End wp.

Lemma twp_inv {S A} (m : M S A) Q s : twp m Q s -> exists a s', m s = Ret a s' /\ Q a s'.
Proof. unfold wpx. destruct (m s); [eauto|done..]. Qed.

(** ** Relations between the start and the end of a handler *)

Class Rel {S A} (R : relation S) (m : M S A) : Prop := rel : forall s, wp m (fun _ s' => R s s') s.

Section rel.
Context {S : Type} (R : relation S) `{PO : !PreOrder R}.

#[export] Instance rel_ret {A} (a : A) : Rel R (mret a : M S A).
Proof. intros s. apply wp_ret. reflexivity. Qed.

#[export] Instance rel_get {A} (f : S -> A) : Rel R (get f).
Proof. intros s. apply wp_get. reflexivity. Qed.

#[export] Instance rel_halt {A} : Rel R (halt : M S A).
Proof. intros s. exact I. Qed.

#[export] Instance rel_oob {A} : Rel R (oob : M S A).
Proof. intros s. exact I. Qed.

#[export] Instance rel_within b : Rel R (within b).
Proof. destruct b; [apply rel_ret|apply rel_oob]. Qed.

Lemma rel_bind {A B} (m : M S A) (k : A -> M S B) : Rel R m -> (forall a, Rel R (k a)) -> Rel R (m ≫= k).
Proof.
  intros Hm Hk s. apply wp_bind. eapply wp_mono; [apply Hm|]. intros a s1 H1. eapply wp_mono; [apply Hk|].
  intros b s2 H2. by transitivity s1.
Qed.

Lemma rel_when b (m : M S unit) : (b = true -> Rel R m) -> Rel R (when b m).
Proof. destruct b; [auto|]. intros _. apply rel_ret. Qed.

Lemma rel_for_each {A} (l : list A) (f : A -> M S unit) : (forall x, x ∈ l -> Rel R (f x)) -> Rel R (for_each l f).
Proof.
  intros Hf s. apply (wp_for_each l f (R s)); [reflexivity|]. intros x s' Hx Hs'.
  eapply wp_mono; [by apply Hf|]. intros ? s'' ?. by transitivity s'.
Qed.

Lemma rel_modify f : (forall s, R s (f s)) -> Rel R (modify f).
Proof. intros H s. by apply wp_modify. Qed.
End rel.

(** Splits a handler into its parts; [side] is tried on what is not a known part. *)
Ltac rel_step :=
  cbv zeta;
  lazymatch goal with
  | |- Rel _ (_ ≫= _) => apply rel_bind; [exact _| |intros ?]
  | |- Rel _ (when _ _) => apply rel_when; [exact _|intros ?]
  | |- Rel _ (for_each _ _) => apply rel_for_each; [exact _|intros ? ?]
  | |- Rel _ (match ?x with _ => _ end) => destruct x eqn:?
  | |- Rel _ _ => exact _
  end.

Ltac rel_auto := repeat rel_step.

Create HintDb wp.

(** Walks through the sequencing of a handler; calls it does not know are left to the
    proof. *)
Ltac wp_step :=
  match goal with
  | |- wpx _ (_ ≫= _) _ _ => apply wp_bind
  | |- wpx _ (mret _) _ _ => apply wp_ret
  | |- wpx _ (get _) _ _ => apply wp_get
  | |- wpx _ (modify _) _ _ => apply wp_modify
  | |- wpx _ (within _) _ _ => apply wp_within; [intros ?|intros ?; first [exact I|idtac]]
  | |- wpx True halt _ _ => exact I
  | |- wpx True oob _ _ => exact I
  | |- wpx _ (when _ _) _ _ => apply wp_when; intros ?
  | |- wpx _ (if ?b then _ else _) _ _ => apply wp_if; intros ?
  | |- wpx _ (let '(_, _) := ?p in _) _ _ => destruct p eqn:?
  | |- wpx _ (match ?o with _ => _ end) _ _ => destruct o eqn:?
  end.
