(* ===== verification/NasState.v ===== *)
(** The state of the network access server (src/userspace/nas/src/nas.h and wpa.h), the
    calls it makes to the wireless driver, the timer module and the sockets, and the
    replies it can get.  Every handler of the model is a computation over [world]: the
    server's structures and the list of the calls made so far, newest first.  The
    replies come from an environment [Env], an arbitrary function of that history, so
    that a theorem holds for every behaviour of the driver. *)
From stdpp Require Import base option list numbers strings.
From Stdlib Require Import ZArith Lia.
From S2P Require Import Prelude Monad.
Local Open Scope Z_scope.

(** ** Constants *)

Definition MAX_SUPPLICANTS : nat := 128.
Definition ETHER_ADDR_LEN : nat := 6.
Definition REPLAY_LEN : nat := 8.
Definition NONCE_LEN : nat := 32.
Definition PMK_LEN : nat := 32.
Definition KEY_COUNTER_LEN : nat := 32.
Definition TKIP_PTK_LEN : Z := 64.
Definition TKIP_TK_LEN : Z := 32.
Definition AES_PTK_LEN : Z := 48.
Definition AES_TK_LEN : Z := 16.
Definition MIC_KEY_LEN : nat := 16.
Definition MAX_WPA_IE : nat := 256.
Definition WPA_RETRY : Z := 7.
Definition WPA2_PMKID_LEN : nat := 16.
Definition WPA2_DEFAULT_RETRY_MSECS : Z := 990.

(** Authentication modes, a bit each. *)
Definition WPA : Z := 0x02.
Definition WPA_PSK : Z := 0x04.
Definition WPA2 : Z := 0x40.
Definition WPA2_PSK : Z := 0x80.
Definition RADIUS : Z := 0x20.

Definition WEP_ENABLED : Z := 1.
Definition TKIP_ENABLED : Z := 2.
Definition AES_ENABLED : Z := 4.

Definition CRYPTO_ALGO_OFF : Z := 0.
Definition CRYPTO_ALGO_WEP1 : Z := 1.
Definition CRYPTO_ALGO_TKIP : Z := 2.
Definition CRYPTO_ALGO_WEP128 : Z := 3.
Definition CRYPTO_ALGO_AES_CCM : Z := 4.

Definition WPA_EAPOL_VERSION : Z := 1.
Definition WPA2_EAPOL_VERSION : Z := 2.

Definition DOT11_RC_UNSPECIFIED : Z := 1.
Definition DOT11_RC_AUTH_INVAL : Z := 2.
Definition DOT11_RC_BUSY : Z := 5.
Definition DOT11_RC_MIC_FAILURE : Z := 14.
Definition DOT11_RC_4WH_TIMEOUT : Z := 15.
Definition DOT11_RC_GTK_UPDATE_TIMEOUT : Z := 16.
Definition DOT11_RC_8021X_AUTH_FAIL : Z := 23.

Definition STA_REAUTH_MAX : Z := 2.
Definition STA_TXPERIOD_MAX : Z := 30.
Definition STA_AUTHWHILE_MAX : Z := 60.
Definition STA_QUIETWHILE_MAX : Z := 60.

Definition STA_FLAG_PRE_AUTH : Z := 1.

(** A C condition on a masked word. *)
Definition has (x mask : Z) : bool := negb (Z.land x mask =? 0).

Definition CHECK_NAS (mode : Z) : bool := has mode (Z.lor (Z.lor WPA WPA_PSK) (Z.lor WPA2 WPA2_PSK)).
Definition CHECK_PSK (mode : Z) : bool := has mode (Z.lor WPA_PSK WPA2_PSK).
Definition CHECK_RADIUS (mode : Z) : bool := has mode (Z.lor (Z.lor WPA RADIUS) WPA2).
Definition CHECK_WPA2 (mode : Z) : bool := has mode (Z.lor WPA2 WPA2_PSK).

(** ** Structures *)

Inductive pae_state_t := INITIALIZE | DISCONNECTED | CONNECTING | AUTHENTICATING | ABORTING | HELD | AUTHENTICATED.
#[export] Instance pae_state_eq : EqDecision pae_state_t.
Proof. solve_decision. Defined.

Inductive wpa_suppl_state_t :=
| WPA_DISCONNECT | WPA_DISCONNECTED | WPA_INITIALIZE | WPA_AUTHENTICATION2 | WPA_INITPMK | WPA_INITPSK
| WPA_PTKSTART | WPA_PTKINITNEGOTIATING | WPA_PTKINITDONE | WPA_UPDATEKEYS | WPA_INTEGRITYFAILURE
| WPA_KEYUPDATE | WPA_REKEYNEGOTIATING | WPA_KEYERRROR | WPA_REKEYESTABLISHED | WPA_SETKEYS
| WPA_SETKEYSDONE | WPA_SUP_DISCONNECTED | WPA_SUP_INITIALIZE | WPA_SUP_AUTHENTICATION
| WPA_SUP_STAKEYSTARTP | WPA_SUP_STAKEYSTARTG | WPA_SUP_KEYUPDATE.
#[export] Instance wpa_suppl_state_eq : EqDecision wpa_suppl_state_t.
Proof. solve_decision. Defined.

Inductive eapol_sup_pk_state_t :=
| EAPOL_SUP_PK_ERROR | EAPOL_SUP_PK_UNKNOWN | EAPOL_SUP_PK_MICOK | EAPOL_SUP_PK_MICFAILED
| EAPOL_SUP_PK_MSG1 | EAPOL_SUP_PK_MSG3 | EAPOL_SUP_PK_DONE.
#[export] Instance eapol_sup_pk_state_eq : EqDecision eapol_sup_pk_state_t.
Proof. solve_decision. Defined.

Inductive itimer_status_t := ITIMER_OK | ITIMER_CREATE_ERROR | ITIMER_CONNECT_ERROR | ITIMER_SET_ERROR.

(** The port access entity: RADIUS user name, state attribute and last request are
    heap copies or NULL. *)
Record pae_t := Pae {
  pae_state_ : pae_state_t;
  pae_id : Z;
  pae_username : option (list Z);
  pae_radius_state : option (list Z);
  pae_request : option (list Z);
  pae_flags : Z;
  pae_ssnto : Z
}.

#[export] Instance eta_pae_t : Settable pae_t := fun r =>
  Pae (pae_state_ r) (pae_id r) (pae_username r) (pae_radius_state r) (pae_request r) (pae_flags r) (pae_ssnto r).

(** The five key arrays eapol_mic_key .. temp_rx_key are contiguous and written with one
    memcpy: they are the 64 bytes of [sp_ptk]. *)
Record wpa_suppl_t := Suppl {
  sp_assoc_wpaie : list Z;
  sp_assoc_wpaie_len : Z;
  sp_state : wpa_suppl_state_t;
  sp_retry_state : wpa_suppl_state_t;
  sp_pmk : list Z;
  sp_pmk_len : Z;
  sp_pmkid : list Z;
  sp_ptk_len : Z;
  sp_tk_len : Z;
  sp_desc : Z;
  sp_anonce : list Z;
  sp_snonce : list Z;
  sp_replay : list Z;
  sp_ptk : list Z;
  sp_pk_state : eapol_sup_pk_state_t;
  sp_eapol_temp_ptk : list Z
}.

#[export] Instance eta_wpa_suppl_t : Settable wpa_suppl_t := fun r =>
  Suppl (sp_assoc_wpaie r) (sp_assoc_wpaie_len r) (sp_state r) (sp_retry_state r) (sp_pmk r) (sp_pmk_len r) (sp_pmkid r) (sp_ptk_len r) (sp_tk_len r) (sp_desc r) (sp_anonce r) (sp_snonce r) (sp_replay r) (sp_ptk r) (sp_pk_state r) (sp_eapol_temp_ptk r).

(** A station.  Pointers to stations are indices into [na_sta], timer descriptors are
    numbers with 0 for none, and the one handler ever stored in retx_exceed_hndlr is
    wpa_goto_rekeyneg. *)
Record nas_sta_t := Sta {
  st_used : bool;
  st_retries : Z;
  st_ea : list Z;
  st_next : option nat;
  st_last_use : Z;
  st_td : Z;
  st_pae : pae_t;
  st_suppl : wpa_suppl_t;
  st_wds_td : Z;
  st_mode : Z;
  st_key_auth_type : Z;
  st_wsec : Z;
  st_algo : Z;
  st_flags : Z;
  st_wpa_msg_timeout_s : Z;
  st_wpa_msg_timeout_ms : Z;
  st_listen_interval_ms : Z;
  st_rxauths : Z;
  st_tx_when : Z;
  st_auth_while : Z;
  st_quiet_while : Z;
  st_eapol_version : Z;
  st_retx_exceed_hndlr : bool;
  st_MIC_failures : Z;
  st_prev_MIC_error : Z;
  st_cap : list Z;
  st_rc4keysec : Z;
  st_rc4keyusec : Z;
  st_rc4keycntr : Z
}.

#[export] Instance eta_nas_sta_t : Settable nas_sta_t := fun r =>
  Sta (st_used r) (st_retries r) (st_ea r) (st_next r) (st_last_use r) (st_td r) (st_pae r) (st_suppl r) (st_wds_td r) (st_mode r) (st_key_auth_type r) (st_wsec r) (st_algo r) (st_flags r) (st_wpa_msg_timeout_s r) (st_wpa_msg_timeout_ms r) (st_listen_interval_ms r) (st_rxauths r) (st_tx_when r) (st_auth_while r) (st_quiet_while r) (st_eapol_version r) (st_retx_exceed_hndlr r) (st_MIC_failures r) (st_prev_MIC_error r) (st_cap r)
    (st_rc4keysec r) (st_rc4keyusec r) (st_rc4keycntr r).

(** The authenticator. *)
Record wpa_t := Wpa {
  wp_global_key_counter : list Z;
  wp_initial_gkc : list Z;
  wp_pmk : list Z;
  wp_pmk_len : Z;
  wp_gmk : list Z;
  wp_gtk : list Z;
  wp_gtk_rsc : list Z;
  wp_gtk_len : Z;
  wp_gtk_index : Z;
  wp_gtk_rekey_secs : Z;
  wp_ptk_rekey_secs : Z;
  wp_gnonce : list Z;
  wp_gtk_rekey_timer : Z;
  wp_ptk_rekey_timer : Z;
  wp_countermeasures_timer : Z;
  wp_cap : list Z;
  wp_wds_to : Z
}.

#[export] Instance eta_wpa_t : Settable wpa_t := fun r =>
  Wpa (wp_global_key_counter r) (wp_initial_gkc r) (wp_pmk r) (wp_pmk_len r) (wp_gmk r) (wp_gtk r) (wp_gtk_rsc r) (wp_gtk_len r) (wp_gtk_index r) (wp_gtk_rekey_secs r) (wp_ptk_rekey_secs r) (wp_gnonce r) (wp_gtk_rekey_timer r) (wp_ptk_rekey_timer r) (wp_countermeasures_timer r) (wp_cap r) (wp_wds_to r).

(** The five bits of the flags word. *)
Record nas_flags_t := Flags {
  f_supplicant : bool;
  f_authenticator : bool;
  f_wds : bool;
  f_gtk_plumbed : bool;
  f_igtk_plumbed : bool
}.

#[export] Instance eta_nas_flags_t : Settable nas_flags_t := fun r =>
  Flags (f_supplicant r) (f_authenticator r) (f_wds r) (f_gtk_plumbed r) (f_igtk_plumbed r).

(** Notifications asked for by the RADIUS server and not sent yet; [None] when the
    request flag is off.  A URL is [None] for a null pointer and otherwise the
    characters of the string. *)
Record deauth_params_t := DeauthParams { dp_reason_code : Z; dp_reauth_delay : Z; dp_reason_url : option (list Z) }.
Record subrem_params_t := SubremParams { sr_subrem_url : option (list Z); sr_serverMethod : Z }.
Record bsstran_params_t := BsstranParams {
  bt_reqmode : Z; bt_swt : Z; bt_dur : Z; bt_url : option (list Z) }.

(** The server for one interface. *)
Record nas_t := Nas {
  na_ssid : list Z;
  na_mode : Z;
  na_wsec : Z;
  na_ea : list Z;
  na_wpa : wpa_t;
  na_sta : list nas_sta_t;
  na_sta_hashed : list (option nat);
  na_MIC_failures : Z;
  na_MIC_countermeasures : bool;
  na_prev_MIC_error : Z;
  na_flags : nas_flags_t;
  na_remote : list Z;
  na_watchdog_td : Z;
  na_disable_preauth : bool;
  na_client : list Z;
  na_type : Z;
  na_ssn_to : Z;
  na_secret : list Z;
  na_nas_id : list Z;
  na_m_deauth_params : option deauth_params_t;
  na_m_subrem_params : option subrem_params_t;
  na_m_bsstran_params : option bsstran_params_t
}.

#[export] Instance eta_nas_t : Settable nas_t := fun r =>
  Nas (na_ssid r) (na_mode r) (na_wsec r) (na_ea r) (na_wpa r) (na_sta r) (na_sta_hashed r) (na_MIC_failures r) (na_MIC_countermeasures r) (na_prev_MIC_error r) (na_flags r) (na_remote r) (na_watchdog_td r) (na_disable_preauth r)
    (na_client r) (na_type r) (na_ssn_to r) (na_secret r) (na_nas_id r) (na_m_deauth_params r) (na_m_subrem_params r)
    (na_m_bsstran_params r).

(** What memset(sta, 0, sizeof( *sta)) leaves. *)
Definition pae_zero : pae_t := Pae INITIALIZE 0 None None None 0 0.

Definition suppl_zero : wpa_suppl_t :=
  Suppl (replicate MAX_WPA_IE 0) 0 WPA_DISCONNECT WPA_DISCONNECT (replicate PMK_LEN 0) 0
    (replicate WPA2_PMKID_LEN 0) 0 0 0 (replicate NONCE_LEN 0) (replicate NONCE_LEN 0)
    (replicate REPLAY_LEN 0) (replicate 64 0) EAPOL_SUP_PK_ERROR (replicate 32 0).

Definition sta_zero : nas_sta_t :=
  Sta false 0 (replicate ETHER_ADDR_LEN 0) None 0 0 pae_zero suppl_zero 0 0 0 0 0 0 0 0 0 0 0 0 0 0
    false 0 0 [0; 0] 0 0 0.

(** Views of the key block. *)
Definition eapol_mic_key (s : wpa_suppl_t) : list Z := take 16 (sp_ptk s).
Definition eapol_encr_key (s : wpa_suppl_t) : list Z := take 16 (drop 16 (sp_ptk s)).
Definition temp_encr_key (s : wpa_suppl_t) (len : nat) : list Z := take len (drop 32 (sp_ptk s)).

(** ** Calls out of the server *)

Record wl_wsec_key_t := WsecKey {
  wk_index : Z; wk_len : Z; wk_data : list Z; wk_flags : Z;
  wk_rxiv_hi : Z; wk_rxiv_lo : Z; wk_iv_initialized : bool; wk_ea : option (list Z) }.

Inductive timer_handler_t :=
| wpa_retransmission_h (sta : nat) | wpa_new_gtk_callback_h | wpa_new_ptk_callback_h
| wpa_countermeasures_cb_h | start_pkinit_h (sta : nat) | request_pkinit_h (sta : nat) | nas_watchdog_h.

Inductive event :=
| EvSetKey (k : wl_wsec_key_t)
| EvAuthorize (ea : list Z)
| EvDeauthorize (ea : list Z)
| EvDeauthenticate (ea : list Z) (reason : Z)
| EvGetKeySeq (index : Z)
| EvTkipCountermeasures (enable : bool)
| EvDisassoc
| EvSetSsid (ssid : list Z)
| EvGetVar (name : string)
| EvNotify (ea : list Z) (reason : Z)
| EvSend (pkt : list Z)
| EvSendPreauth (pkt : list Z)
| EvTimerSet (h : timer_handler_t) (secs msecs : Z)
| EvTimerDelete (td : Z)
| EvTimerChange (td secs msecs : Z)
| EvSleep (ms : Z)
| EvTime
| EvRand128
| EvActFrame (bssid da : list Z) (dwell : Z) (data : list Z)
| EvSetVar (name : string) (data : list Z)
| EvRadiusSend (pkt : list Z)
| EvGettimeofday.

(** What the callees answer, given the calls made so far (the current one first):
    the return value and output buffer of an ioctl, the outcome of setting a timer and
    its descriptor, the time in seconds, 16 random bytes and the time of day in
    seconds and microseconds.  The three constants are of a header that is not in the
    repository. *)
Class Env := {
  env_ret : list event -> Z;
  env_buf : list event -> list Z;
  env_timer : list event -> itimer_status_t * Z;
  env_time : list event -> Z;
  env_rand128 : list event -> list Z;
  env_timeofday : list event -> Z * Z;
  HSPOT_WNM_TYPE : Z;
  HSPOT_WNM_SUBSCRIPTION_REMEDIATION : Z;
  HSPOT_WNM_DEAUTHENTICATION_IMMINENT : Z
}.

Record world := World { w_nas : nas_t; w_log : list event }.
#[export] Instance eta_world : Settable world := fun r => World (w_nas r) (w_log r).

Definition N (A : Type) : Type := M world A.

Definition emit (e : event) : N unit := modify (fun w => w <| w_log ::= cons e |>).

(** Field access. *)
Definition nas {A} (f : nas_t -> A) : N A := get (fun w => f (w_nas w)).
Definition wpa {A} (f : wpa_t -> A) : N A := nas (fun n => f (na_wpa n)).
Definition sta_at (n : nas_t) (i : nat) : nas_sta_t := nth i (na_sta n) sta_zero.
Definition sta {A} (i : nat) (f : nas_sta_t -> A) : N A := nas (fun n => f (sta_at n i)).
Definition suppl {A} (i : nat) (f : wpa_suppl_t -> A) : N A := sta i (fun s => f (st_suppl s)).

Definition set_nas (f : nas_t -> nas_t) : N unit := modify (fun w => w <| w_nas ::= f |>).
Definition set_flags (f : nas_flags_t -> nas_flags_t) : N unit := set_nas (fun n => n <| na_flags ::= f |>).
Definition set_wpa (f : wpa_t -> wpa_t) : N unit := set_nas (fun n => n <| na_wpa ::= f |>).
Definition upd_sta (n : nas_t) (i : nat) (f : nas_sta_t -> nas_sta_t) : nas_t :=
  n <| na_sta ::= alter f i |>.
Definition set_sta (i : nat) (f : nas_sta_t -> nas_sta_t) : N unit := set_nas (fun n => upd_sta n i f).
Definition set_suppl (i : nat) (f : wpa_suppl_t -> wpa_suppl_t) : N unit :=
  set_sta i (fun s => s <| st_suppl ::= f |>).

Section Calls.
Context `{E : Env}.

Definition reply {A} (f : list event -> A) : N A := get (fun w => f (w_log w)).

Definition call (e : event) : N Z := emit e ;; reply env_ret.

Definition time_ : N Z := emit EvTime ;; reply env_time.
Definition nas_rand128 : N (list Z) := emit EvRand128 ;; reply env_rand128.
Definition nas_sleep_ms (ms : Z) : N unit := emit (EvSleep ms).

(** nas_handle_error: resets the board and never returns. *)
Definition nas_handle_error {A} : N A := halt.

(** ** nas_wl.c: requests to the driver *)

Definition DOT11_MAX_KEY_SIZE : Z := 32.
Definition WL_PRIMARY_KEY : Z := 2.

(** [key] is the array the caller passes; a nil pointer comes with length 0. *)
Definition nas_set_key (ea : option (list Z)) (key : list Z) (len index : Z) (tx : bool) (hi lo : Z) (force : bool) : N Z :=
  let wlen := Z.min len DOT11_MAX_KEY_SIZE in
  call (EvSetKey
    {| wk_index := wrap32 index; wk_len := wlen;
       wk_data := take (Z.to_nat wlen) key ++ replicate (32 - Z.to_nat wlen) 0;
       wk_flags := match ea with Some _ => 0 | None => if tx then WL_PRIMARY_KEY else 0 end;
       wk_rxiv_hi := if negb (lo =? 0) || negb (hi =? 0) then hi else 0;
       wk_rxiv_lo := if negb (lo =? 0) || negb (hi =? 0) then lo else 0;
       wk_iv_initialized := negb (lo =? 0) || negb (hi =? 0) || force;
       wk_ea := ea |}).

Definition nas_authorize (ea : list Z) : N Z := call (EvAuthorize ea).

Definition nas_deauthorize (ea : list Z) : N Z := call (EvDeauthorize ea).

Definition nas_deauthenticate (ea : list Z) (reason : Z) : N Z :=
  nas_set_key (Some ea) [] 0 0 false 0 0 false ;;
  call (EvDeauthenticate ea (wrap32 reason)).

(** [None] when the ioctl fails. *)
Definition nas_get_group_rsc (index : Z) : N (option (list Z)) :=
  r ← call (EvGetKeySeq index);
  if r =? 0 then rsc ← reply env_buf; mret (Some (take 8 (rsc ++ replicate 8 0))) else mret None.

Definition nas_wl_tkip_countermeasures (enable : bool) : N Z := call (EvTkipCountermeasures enable).

Definition nas_disassoc : N Z := call EvDisassoc.

Definition nas_set_ssid (ssid : list Z) : N Z := call (EvSetSsid (take 32 ssid)).

(** The capabilities, or [None] when the variable cannot be read. *)
Definition nas_get_wpacap : N (option (list Z)) :=
  err ← call (EvGetVar "wpa_cap");
  if err =? 0 then cap ← reply env_buf; mret (Some [Z.land (idx cap 0) 0xff; Z.land (idx cap 1) 0xff])
  else mret None.

(** The sta_info answer: the caller's 300 zero bytes with the name and the address in
    front, overwritten by the driver when the call succeeds. *)
Definition nas_get_stainfo (ea : list Z) : N (list Z) :=
  r ← call (EvGetVar "sta_info");
  if r =? 0 then buf ← reply env_buf; mret (take 300 (buf ++ replicate 300 0))
  else mret ([115; 116; 97; 95; 105; 110; 102; 111; 0] ++ ea ++ replicate 285 0).

Definition sta_info_listen_interval_inms (buf : list Z) : Z :=
  idx buf 48 + 2 ^ 8 * idx buf 49 + 2 ^ 16 * idx buf 50 + 2 ^ 24 * idx buf 51.

Definition nas_send_brcm_event (ea : list Z) (reason : Z) : N Z := call (EvNotify ea (wrap32 reason)).

Definition nas_eapol_send_packet (pkt : list Z) : N unit := emit (EvSend pkt).
Definition nas_preauth_send_packet (pkt : list Z) : N unit := emit (EvSendPreauth pkt).

(** ** Timers of wpa.c *)

(** The descriptor is written when the timer was created, whatever follows. *)
Definition wpa_set_itimer (h : timer_handler_t) (secs msecs : Z) : N (itimer_status_t * option Z) :=
  emit (EvTimerSet h secs msecs) ;;
  r ← reply env_timer;
  let '(ts, id) := r in
  match ts with
  | ITIMER_CREATE_ERROR => mret (ts, None)
  | _ => mret (ts, Some id)
  end.

Definition wpa_set_timeout (td secs msecs : Z) : N unit :=
  let '(secs, msecs) := if 1000 <=? msecs then (msecs / 1000, msecs mod 1000) else (secs, msecs) in
  emit (EvTimerChange td secs msecs).

Definition TIMER_DELETE (td : Z) : N unit := emit (EvTimerDelete td).

Definition wpa_stop_retx (i : nat) : N unit :=
  td ← sta i st_td;
  when (negb (td =? 0)) (TIMER_DELETE td ;; set_sta i (fun s => s <| st_td := 0 |>)) ;;
  set_sta i (fun s => s <| st_retx_exceed_hndlr := false |>).

(** The retransmission timer of a station, with its stored timeout. *)
Definition set_retx_timer (i : nat) : N unit :=
  s ← sta i (fun s => s);
  r ← wpa_set_itimer (wpa_retransmission_h i) (st_wpa_msg_timeout_s s) (st_wpa_msg_timeout_ms s);
  match snd r with
  | Some id => set_sta i (fun s => s <| st_td := id |>)
  | None => mret tt
  end.

End Calls.

(** ** Access lemmas *)

Lemma sta_at_upd n i j f : (i < length (na_sta n))%nat ->
  sta_at (upd_sta n i f) j = if decide (i = j) then f (sta_at n j) else sta_at n j.
Proof.
  intros Hi. unfold sta_at. change (na_sta (upd_sta n i f)) with (alter f i (na_sta n)).
  rewrite !nth_lookup. destruct (decide (i = j)) as [<-|Hn].
  - rewrite list_lookup_alter_eq. by destruct (lookup_lt_is_Some_2 _ _ Hi) as [s ->].
  - by rewrite list_lookup_alter_ne.
Qed.

Lemma upd_sta_length n i f : length (na_sta (upd_sta n i f)) = length (na_sta n).
Proof. apply length_alter. Qed.

Lemma sta_at_upd_same n i f : (i < length (na_sta n))%nat -> sta_at (upd_sta n i f) i = f (sta_at n i).
Proof. intros. rewrite sta_at_upd by done. by rewrite decide_True. Qed.

Lemma sta_at_upd_other n i j f : i <> j -> sta_at (upd_sta n i f) j = sta_at n j.
Proof.
  intros Hn. unfold sta_at. change (na_sta (upd_sta n i f)) with (alter f i (na_sta n)).
  by rewrite !nth_lookup, list_lookup_alter_ne.
Qed.

Lemma upd_sta_upd n i f g : upd_sta (upd_sta n i g) i f = upd_sta n i (f ∘ g).
Proof. unfold upd_sta, upd. destruct n. cbn. f_equal. apply list_alter_alter_eq. Qed.

Lemma upd_sta_ext n i f g : ((i < length (na_sta n))%nat -> f (sta_at n i) = g (sta_at n i)) -> upd_sta n i f = upd_sta n i g.
Proof.
  intros H. unfold upd_sta, upd, sta_at in *. destruct n. cbn in *. f_equal. apply list_alter_ext; [|done].
  intros s Hs. rewrite nth_lookup, Hs in H. apply H. by eapply lookup_lt_Some.
Qed.

(** ** Stepping through a handler *)

Section Steps.
Context `{E : Env} {P : Prop}.
Implicit Types w : world.

Lemma wp_nas {A} (f : nas_t -> A) Q w : Q (f (w_nas w)) w -> wpx P (nas f) Q w.
Proof. done. Qed.
Lemma wp_wpa {A} (f : wpa_t -> A) Q w : Q (f (na_wpa (w_nas w))) w -> wpx P (wpa f) Q w.
Proof. done. Qed.
Lemma wp_sta {A} i (f : nas_sta_t -> A) Q w : Q (f (sta_at (w_nas w) i)) w -> wpx P (sta i f) Q w.
Proof. done. Qed.
Lemma wp_suppl {A} i (f : wpa_suppl_t -> A) Q w : Q (f (st_suppl (sta_at (w_nas w) i))) w -> wpx P (suppl i f) Q w.
Proof. done. Qed.
Lemma wp_reply {A} (f : list event -> A) Q w : Q (f (w_log w)) w -> wpx P (reply f) Q w.
Proof. done. Qed.
Lemma wp_emit e Q w : Q tt (World (w_nas w) (e :: w_log w)) -> wpx P (emit e) Q w.
Proof. done. Qed.
Lemma wp_call e Q w : Q (env_ret (e :: w_log w)) (World (w_nas w) (e :: w_log w)) -> wpx P (call e) Q w.
Proof. done. Qed.
Lemma wp_set_nas f Q w : Q tt (World (f (w_nas w)) (w_log w)) -> wpx P (set_nas f) Q w.
Proof. done. Qed.
Lemma wp_set_flags f Q w : Q tt (World ((w_nas w) <| na_flags ::= f |>) (w_log w)) -> wpx P (set_flags f) Q w.
Proof. done. Qed.
Lemma wp_set_wpa f Q w : Q tt (World ((w_nas w) <| na_wpa ::= f |>) (w_log w)) -> wpx P (set_wpa f) Q w.
Proof. done. Qed.
Lemma wp_set_sta i f Q w : Q tt (World (upd_sta (w_nas w) i f) (w_log w)) -> wpx P (set_sta i f) Q w.
Proof. done. Qed.
Lemma wp_set_suppl i f Q w :
  Q tt (World (upd_sta (w_nas w) i (fun s => s <| st_suppl ::= f |>)) (w_log w)) -> wpx P (set_suppl i f) Q w.
Proof. done. Qed.
End Steps.

Ltac nas_step :=
  match goal with
  | |- wpx _ (nas _) _ _ => apply wp_nas
  | |- wpx _ (wpa _) _ _ => apply wp_wpa
  | |- wpx _ (sta _ _) _ _ => apply wp_sta
  | |- wpx _ (suppl _ _) _ _ => apply wp_suppl
  | |- wpx _ (reply _) _ _ => apply wp_reply
  | |- wpx _ (emit _) _ _ => apply wp_emit
  | |- wpx _ (call _) _ _ => apply wp_call
  | |- wpx _ (set_nas _) _ _ => apply wp_set_nas
  | |- wpx _ (set_flags _) _ _ => apply wp_set_flags
  | |- wpx _ (set_wpa _) _ _ => apply wp_set_wpa
  | |- wpx _ (set_sta _ _) _ _ => apply wp_set_sta
  | |- wpx _ (set_suppl _ _) _ _ => apply wp_set_suppl
  | _ => wp_step
  end.

Ltac nas_steps := repeat (nas_step; cbn [w_nas w_log]).

(** ** A small concrete configuration *)

(** The two bzero calls of nas_start. *)
Definition table_reset (n : nas_t) : nas_t :=
  n <| na_sta := replicate MAX_SUPPLICANTS sta_zero |> <| na_sta_hashed := replicate MAX_SUPPLICANTS None |>.

(** A driver that accepts everything and a clock stopped at 1000. *)
Definition env_yes : Env :=
  {| env_ret := fun _ => 0; env_buf := fun _ => replicate 8 0; env_timer := fun _ => (ITIMER_OK, 1);
     env_time := fun _ => 1000; env_rand128 := fun _ => zrange 16; env_timeofday := fun _ => (1000, 0);
     HSPOT_WNM_TYPE := 1; HSPOT_WNM_SUBSCRIPTION_REMEDIATION := 0; HSPOT_WNM_DEAUTHENTICATION_IMMINENT := 1 |}.

Definition ap_ea : list Z := [0x00; 0x10; 0x18; 0xaa; 0xbb; 0x01].
Definition cl_ea : list Z := [0x00; 0x0c; 0xf1; 0x12; 0x34; 0x56].

Definition wpa_demo : wpa_t :=
  Wpa (zrange 32) (repeat 7 32) (zrange 32) 32 (repeat 9 32) (replicate 32 0) (replicate 8 0) 0 1 0 0
    (replicate 32 0) 0 0 0 [0; 0] 0.

Definition nas_demo (mode wsec : Z) (auth : bool) : nas_t :=
  table_reset (Nas [] mode wsec (if auth then ap_ea else cl_ea) wpa_demo [] [] 0 false 0
    (Flags (negb auth) auth false false false) (replicate 6 0) 0 false [] 0 0 [] [] None None None).
