(* ===== verification/NasSta.v ===== *)
(** The station table of nas.c: 128 station structures, hashed by address into chains
    threaded through their [next] fields.  lookup_sta finds or creates a station,
    evicting the least recently used one when the table is full; toss_sta unlinks one;
    cleanup_sta also tells the driver and keeps stations with a cached PMK.  The table
    is proved to be a partial map from addresses to slots. *)
From stdpp Require Import base option list numbers sets.
From Stdlib Require Import ZArith Lia.
From S2P Require Import Prelude Monad NasState.
Local Open Scope Z_scope.

(** ** Definitions *)

Definition pae_hash (ea : list Z) : nat :=
  Z.to_nat (Z.land (Z.lxor (Z.lxor (idx ea 3) (idx ea 4)) (idx ea 5)) (Z.of_nat MAX_SUPPLICANTS - 1)).

Definition hashed (n : nas_t) (h : nat) : option nat := nth h (na_sta_hashed n) None.
Definition set_hashed (h : nat) (p : option nat) : N unit := set_nas (fun n => n <| na_sta_hashed ::= <[h := p]> |>).

Definition ea_eqb (a b : list Z) : bool := bool_decide (a = b).

(** Walking a chain.  A chain is at most as long as the table; a longer walk is a
    cycle, in which the loop of the code does not end. *)
Fixpoint chain_find (fuel : nat) (n : nas_t) (stop : nat -> bool) (p : option nat) : option (option nat) :=
  match p with
  | None => Some None
  | Some j =>
      if stop j then Some (Some j)
      else match fuel with
           | O => None
           | S fuel => chain_find fuel n stop (st_next (sta_at n j))
           end
  end.

Definition walk (stop : nas_t -> nat -> bool) (p : option nat) : N (option nat) :=
  n ← nas (fun n => n);
  match chain_find MAX_SUPPLICANTS n (stop n) p with
  | Some r => mret r
  | None => halt
  end.

Section Table.
Context `{E : Env}.

Definition toss_sta (i : nat) (reason : Z) (driver_signal : bool) : N unit :=
  ea ← sta i st_ea;
  when (negb driver_signal) (nas_deauthenticate ea reason ;; mret tt) ;;
  wpa_stop_retx i ;;
  let hash := pae_hash ea in
  sta_list ← nas (fun n => hashed n hash);
  next ← sta i st_next;
  (if bool_decide (sta_list = Some i) then set_hashed hash next
   else
     r ← walk (fun n j => bool_decide (st_next (sta_at n j) = Some i)) sta_list;
     match r with
     | None => mret tt
     | Some j => set_sta j (fun s => s <| st_next := next |>)
     end) ;;
  set_sta i (fun s => s <| st_used := false |>).

Definition cleanup_sta (i : nat) (reason : Z) (driver_signal : bool) : N unit :=
  flags ← nas na_flags;
  let wds := f_wds flags && f_authenticator flags in
  when (wds && negb driver_signal) (set_suppl i (fun s => s <| sp_state := WPA_DISCONNECTED |>)) ;;
  let driver_signal := driver_signal || wds in
  s ← sta i (fun s => s);
  when (negb driver_signal) (nas_deauthenticate (st_ea s) reason ;; mret tt) ;;
  wpa_stop_retx i ;;
  s ← sta i (fun s => s);
  if has (st_mode s) WPA2 && bool_decide (pae_state_ (st_pae s) = AUTHENTICATED) && negb (pae_ssnto (st_pae s) =? 0) then
    set_suppl i (fun s => s <| sp_state := WPA_PTKSTART |>)
  else when (negb wds) (toss_sta i 0 true).

(** The search for a slot: the first unused one, or the index of the oldest before
    [oldest]. *)
Fixpoint find_slot (l : list nas_sta_t) (i : nat) (oldest : Z) (old_idx : option nat) : option nat * option nat :=
  match l with
  | [] => (None, old_idx)
  | s :: l =>
      if negb (st_used s) then (Some i, old_idx)
      else if st_last_use s <? oldest then find_slot l (S i) (st_last_use s) (Some i)
      else find_slot l (S i) oldest old_idx
  end.

(** The entry after memset and the assignments that follow. *)
Definition new_sta (n : nas_t) (ea : list Z) (next : option nat) : nas_sta_t :=
  let s := sta_zero <| st_ea := ea |> <| st_used := true |> <| st_eapol_version := WPA_EAPOL_VERSION |> in
  let s := if f_authenticator (na_flags n) then
      s <| st_suppl ::= fun p => p <| sp_state := WPA_AUTHENTICATION2 |> <| sp_retry_state := WPA_AUTHENTICATION2 |> |>
    else s in
  let s := if f_supplicant (na_flags n) then
      s <| st_suppl ::= fun p => p <| sp_state := WPA_SUP_AUTHENTICATION |> <| sp_retry_state := WPA_SUP_AUTHENTICATION |> |>
    else s in
  let s := s <| st_suppl ::= fun p => p <| sp_pk_state := EAPOL_SUP_PK_UNKNOWN |> |> in
  let s := if has (na_mode n) RADIUS && has (na_wsec n) WEP_ENABLED then
      s <| st_mode := RADIUS |> <| st_wsec := WEP_ENABLED |> <| st_algo := CRYPTO_ALGO_WEP128 |>
    else s in
  s <| st_next := next |>.

Inductive sta_lookup_mode_t := SEARCH_ONLY | SEARCH_ENTER.

Definition init_sta (i : nat) (ea : list Z) : N unit :=
  flags ← nas na_flags;
  when (f_supplicant flags)
    (set_flags (fun f => f <| f_gtk_plumbed := false |> <| f_igtk_plumbed := false |>)) ;;
  let hash := pae_hash ea in
  n ← nas (fun n => n);
  set_sta i (fun _ => new_sta n ea (hashed n hash)) ;;
  set_hashed hash (Some i).

Definition lookup_sta (ea : list Z) (mode : sta_lookup_mode_t) : N (option nat) :=
  head ← nas (fun n => hashed n (pae_hash ea));
  found ← walk (fun n j => ea_eqb (st_ea (sta_at n j)) ea) head;
  now ← time_;
  match found with
  | Some i => set_sta i (fun s => s <| st_last_use := now |>) ;; mret (Some i)
  | None =>
      match mode with
      | SEARCH_ONLY => mret None
      | SEARCH_ENTER =>
          tbl ← nas na_sta;
          slot ← (match find_slot tbl 0 now None with
                  | (Some i, _) => mret (Some i)
                  | (None, None) => mret None
                  | (None, Some i) => toss_sta i DOT11_RC_BUSY false ;; mret (Some i)
                  end);
          match slot with
          | None => mret None
          | Some i => init_sta i ea ;; set_sta i (fun s => s <| st_last_use := now |>) ;; mret (Some i)
          end
      end
  end.

End Table.

(** ** Chains *)

Inductive chain (n : nas_t) : option nat -> list nat -> Prop :=
| chain_nil : chain n None []
| chain_cons i l : chain n (st_next (sta_at n i)) l -> chain n (Some i) (i :: l).

Lemma chain_det n p c c' : chain n p c -> chain n p c' -> c = c'.
Proof.
  intros H. revert c'. induction H as [|i l _ IH]; intros c' H'; inversion H'; subst; [done|].
  f_equal. by apply IH.
Qed.

(** A chain cut at one of its elements. *)
Lemma chain_split n p c1 i c2 : chain n p (c1 ++ i :: c2) -> chain n (Some i) (i :: c2).
Proof.
  revert p. induction c1 as [|x c1 IH]; intros p H; inversion H; subst; [done|]. eauto.
Qed.

Lemma chain_NoDup n p c : chain n p c -> NoDup c.
Proof.
  revert p. induction c as [|i c IH]; intros p H; constructor; [|inversion H; subst; eauto].
  intros (c1 & c2 & ->)%list_elem_of_split. inversion H as [|? ? H']; subst.
  pose proof (chain_split _ _ _ _ _ H') as H''.
  pose proof (chain_det _ _ _ _ H H'') as Heq. apply (f_equal length) in Heq.
  cbn [length] in Heq. rewrite length_app in Heq. cbn [length] in Heq. lia.
Qed.

Lemma chain_ext n n' p c : chain n p c -> (forall i, i ∈ c -> st_next (sta_at n' i) = st_next (sta_at n i)) -> chain n' p c.
Proof.
  intros H. induction H as [|i l _ IH]; intros Hn; constructor.
  rewrite Hn by apply list_elem_of_here. apply IH. intros. apply Hn. by apply list_elem_of_further.
Qed.

Lemma chain_find_spec fuel n stop p c : chain n p c -> (length c <= fuel)%nat ->
  chain_find fuel n stop p = Some (List.find stop c).
Proof.
  intros H. revert fuel. induction H as [|i l _ IH]; intros fuel Hf; cbn [chain_find List.find].
  - by destruct fuel.
  - destruct fuel as [|fuel]; cbn [length] in Hf; [lia|]. cbn [chain_find].
    destruct (stop i); [done|]. apply IH. lia.
Qed.

(** ** The invariant *)

Definition in_use (n : nas_t) (i : nat) : Prop := (i < MAX_SUPPLICANTS)%nat /\ st_used (sta_at n i) = true.

Record table_ok (n : nas_t) : Prop := {
  t_len : length (na_sta n) = MAX_SUPPLICANTS;
  t_hlen : length (na_sta_hashed n) = MAX_SUPPLICANTS;
  t_chain : forall h, (h < MAX_SUPPLICANTS)%nat -> exists c, chain n (hashed n h) c /\
    forall i, i ∈ c <-> in_use n i /\ pae_hash (st_ea (sta_at n i)) = h;
  t_uniq : forall i j, in_use n i -> in_use n j -> st_ea (sta_at n i) = st_ea (sta_at n j) -> i = j
}.

Lemma pae_hash_lt ea : (pae_hash ea < MAX_SUPPLICANTS)%nat.
Proof.
  unfold pae_hash. change (Z.of_nat MAX_SUPPLICANTS - 1) with (Z.ones 7). rewrite Z.land_ones by lia.
  pose proof (Z.mod_pos_bound (Z.lxor (Z.lxor (idx ea 3) (idx ea 4)) (idx ea 5)) (2 ^ 7) ltac:(lia)).
  unfold MAX_SUPPLICANTS. lia.
Qed.

Lemma chain_short n p c : chain n p c -> (forall i, i ∈ c -> (i < MAX_SUPPLICANTS)%nat) -> (length c <= MAX_SUPPLICANTS)%nat.
Proof.
  intros H Hc. apply chain_NoDup in H. rewrite <- (length_seq MAX_SUPPLICANTS 0).
  apply submseteq_length, NoDup_submseteq; [done|]. intros i Hi. apply elem_of_seq. specialize (Hc i Hi). lia.
Qed.

(** The slot of an address. *)
Definition slot_of (n : nas_t) (ea : list Z) (i : nat) : bool := st_used (sta_at n i) && ea_eqb (st_ea (sta_at n i)) ea.
Definition view (n : nas_t) (ea : list Z) : option nat := List.find (slot_of n ea) (seq 0 MAX_SUPPLICANTS).

Lemma ea_eqb_spec a b : ea_eqb a b = true <-> a = b.
Proof. apply bool_decide_eq_true. Qed.

Lemma view_Some n ea i : table_ok n -> view n ea = Some i <-> in_use n i /\ st_ea (sta_at n i) = ea.
Proof.
  intros Hn. split.
  - intros H. apply find_some in H as [Hi H]. apply andb_prop in H as [Hu He].
    apply ea_eqb_spec in He. apply in_seq in Hi. unfold in_use. split; [split; [lia|done]|done].
  - intros [[Hi Hu] He]. destruct (view n ea) as [j|] eqn:Hv.
    + apply find_some in Hv as [Hj Hv]. apply andb_prop in Hv as [Huj Hej]. apply ea_eqb_spec in Hej.
      apply in_seq in Hj. f_equal. apply (t_uniq n Hn); [unfold in_use; split; [lia|done]|done|congruence].
    + unfold view in Hv. pose proof (find_none _ _ Hv i ltac:(apply in_seq; unfold MAX_SUPPLICANTS in *; lia)) as H.
      unfold slot_of in H. rewrite Hu in H. cbn [andb] in H. by rewrite (proj2 (ea_eqb_spec _ _) He) in H.
Qed.

Lemma view_None n ea : view n ea = None <-> forall i, in_use n i -> st_ea (sta_at n i) <> ea.
Proof.
  split.
  - intros Hv i [Hi Hu] He. pose proof (find_none _ _ Hv i ltac:(apply in_seq; unfold MAX_SUPPLICANTS in *; lia)) as H.
    unfold slot_of in H. rewrite Hu in H. cbn [andb] in H. by rewrite (proj2 (ea_eqb_spec _ _) He) in H.
  - intros H. destruct (view n ea) as [j|] eqn:Hv; [|done]. exfalso.
    apply find_some in Hv as [Hj Hv]. apply andb_prop in Hv as [Hu He]. apply ea_eqb_spec in He.
    apply in_seq in Hj. apply (H j); [|done]. unfold in_use, MAX_SUPPLICANTS in *. split; [lia|done].
Qed.

(** Two states whose tables are linked alike. *)
Definition links (s : nas_sta_t) : bool * list Z * option nat := (st_used s, st_ea s, st_next s).

Definition same_table (n n' : nas_t) : Prop :=
  length (na_sta n') = length (na_sta n) /\ na_sta_hashed n' = na_sta_hashed n /\
  forall i, links (sta_at n' i) = links (sta_at n i).

#[export] Instance same_table_equiv : Equivalence same_table.
Proof.
  split.
  - intros n. split_and!; done.
  - intros n n' (H1 & H2 & H3). split_and!; done.
  - intros n1 n2 n3 (H1 & H2 & H3) (H1' & H2' & H3'). split_and!; [congruence..|].
    intros i. by rewrite H3', H3.
Qed.

Lemma same_table_links n n' i : same_table n n' ->
  st_used (sta_at n' i) = st_used (sta_at n i) /\ st_ea (sta_at n' i) = st_ea (sta_at n i) /\
  st_next (sta_at n' i) = st_next (sta_at n i).
Proof. intros (_ & _ & H). specialize (H i). unfold links in H. by simplify_eq. Qed.

#[export] Instance table_ok_proper : Proper (same_table ==> iff) table_ok.
Proof.
  assert (Himp : forall n n', same_table n n' -> table_ok n -> table_ok n').
  { intros n n' Hs [H1 H2 H3 H4]. pose proof (fun i => same_table_links n n' i Hs) as Hl.
    destruct Hs as (Hlen & Hh & _).
    assert (Huse : forall i, in_use n' i <-> in_use n i)
      by (intros i; unfold in_use; destruct (Hl i) as (-> & _); done).
    split; [congruence|congruence| |].
    - intros h Hlt. destruct (H3 h Hlt) as (c & Hc & Hi). exists c. unfold hashed in *. rewrite Hh. split.
      + apply (chain_ext n); [done|]. intros i _. apply Hl.
      + intros i. rewrite Hi, Huse. destruct (Hl i) as (_ & -> & _). done.
    - intros i j Hi Hj. destruct (Hl i) as (_ & -> & _), (Hl j) as (_ & -> & _). apply H4; by apply Huse. }
  intros n n' H. split; apply Himp; [done|by symmetry].
Qed.

Lemma view_same n n' ea : same_table n n' -> view n' ea = view n ea.
Proof.
  intros Hs. unfold view. induction (seq 0 MAX_SUPPLICANTS) as [|i l IH]; [done|]. cbn [List.find].
  assert (slot_of n' ea i = slot_of n ea i) as ->
    by (unfold slot_of; destruct (same_table_links n n' i Hs) as (-> & -> & _); done).
  by rewrite IH.
Qed.

Lemma same_table_upd n i f : (forall s, links (f s) = links s) -> same_table n (upd_sta n i f).
Proof.
  intros Hf. split_and!; [apply upd_sta_length|done|]. intros j.
  destruct (decide (i = j)) as [<-|Hn]; [|by rewrite sta_at_upd_other].
  destruct (decide (i < length (na_sta n))%nat).
  - rewrite sta_at_upd_same by done. apply Hf.
  - unfold sta_at. change (na_sta (upd_sta n i f)) with (alter f i (na_sta n)).
    rewrite !nth_overflow by (rewrite ?length_alter; lia). done.
Qed.

(** ** Unlinking *)

Lemma table_unlink n n' i c1 c2 h :
  table_ok n -> h = pae_hash (st_ea (sta_at n i)) -> in_use n i ->
  length (na_sta n') = MAX_SUPPLICANTS -> length (na_sta_hashed n') = MAX_SUPPLICANTS ->
  (forall j, j <> i -> st_used (sta_at n' j) = st_used (sta_at n j) /\ st_ea (sta_at n' j) = st_ea (sta_at n j)) ->
  st_used (sta_at n' i) = false ->
  chain n (hashed n h) (c1 ++ i :: c2) -> chain n' (hashed n' h) (c1 ++ c2) ->
  (forall h', h' <> h -> hashed n' h' = hashed n h') ->
  (forall j, j ∉ c1 ++ i :: c2 -> st_next (sta_at n' j) = st_next (sta_at n j)) ->
  table_ok n'.
Proof.
  intros [H1 H2 H3 H4] Hh Hi Hl1 Hl2 Hsame Hun Hc Hc' Hhash Hnext.
  assert (Hlt : (h < MAX_SUPPLICANTS)%nat) by (subst; apply pae_hash_lt).
  assert (Huse : forall j, in_use n' j <-> in_use n j /\ j <> i).
  { intros j. unfold in_use. destruct (decide (j = i)) as [->|Hn]; [rewrite Hun; split; [by intros [_ ?]|by intros [_ []]]|].
    destruct (Hsame j Hn) as [-> _]. clear -Hn. tauto. }
  split; [done|done| |].
  - intros h' Hlt'. destruct (H3 h' Hlt') as (c & Hch & Hin). destruct (decide (h' = h)) as [->|Hne].
    + exists (c1 ++ c2). split; [done|]. pose proof (chain_det _ _ _ _ Hc Hch) as <-.
      apply chain_NoDup, list.NoDup_app in Hc as (_ & Hd1 & Hd2). inversion Hd2; subst.
      intros j. rewrite Huse. specialize (Hin j). rewrite elem_of_app, elem_of_cons in Hin. rewrite elem_of_app.
      destruct (decide (j = i)) as [->|Hn].
      * split; [|tauto]. intros [Hj|Hj]; [|done]. exfalso. apply (Hd1 i Hj), list_elem_of_here.
      * destruct (Hsame j Hn) as [_ ->]. tauto.
    + exists c. rewrite Hhash by done. split.
      * apply (chain_ext n); [done|]. intros j Hj. apply Hnext. intros Hj'.
        destruct (H3 h Hlt) as (ch & Hch' & Hin'). pose proof (chain_det _ _ _ _ Hc Hch') as <-.
        apply Hin in Hj as [_ Hj]. apply Hin' in Hj' as [_ Hj']. congruence.
      * intros j. rewrite Huse, Hin. destruct (decide (j = i)) as [->|Hn].
        -- split; [intros [_ Hx]; congruence|tauto].
        -- destruct (Hsame j Hn) as [_ ->]. tauto.
  - intros j k [Hj Hnj]%Huse [Hk Hnk]%Huse. destruct (Hsame j Hnj) as [_ ->], (Hsame k Hnk) as [_ ->]. by apply H4.
Qed.

(** The predecessor of an element that is not the head. *)
Lemma chain_pred n p x c1 i c2 : chain n p ((x :: c1) ++ i :: c2) ->
  exists c1' j, x :: c1 = c1' ++ [j] /\ st_next (sta_at n j) = Some i /\
    List.find (fun j => bool_decide (st_next (sta_at n j) = Some i)) ((x :: c1) ++ i :: c2) = Some j.
Proof.
  revert p x. induction c1 as [|y c1 IH]; intros p x H.
  - exists [], x. inversion H as [|? ? H']; subst. inversion H'; subst. split_and!; [done|done|].
    cbn. by rewrite bool_decide_eq_true_2.
  - inversion H as [|? ? H']; subst. destruct (IH _ _ H') as (c1' & j & Heq & Hj & Hf).
    exists (x :: c1'), j. split_and!; [by rewrite Heq|done|]. cbn [app List.find] in Hf |- *.
    inversion H' as [|? ? H'' Hnx]; subst. rewrite bool_decide_eq_false_2; [done|].
    intros [= <-]. apply chain_NoDup in H'. inversion H' as [|? ? Hni]; subst. apply Hni.
    apply elem_of_app. right. apply list_elem_of_here.
Qed.

Lemma chain_app_next n p c1 j c2 : chain n p (c1 ++ j :: c2) -> chain n (st_next (sta_at n j)) c2.
Proof. intros H%chain_split. by inversion H. Qed.

(** Redirecting the pointer of [j], wherever it is, to the chain [c2]. *)
Lemma chain_redirect n n' p c1 j c c2 : chain n p (c1 ++ j :: c) ->
  chain n' (st_next (sta_at n' j)) c2 -> (forall x, x ∈ c1 -> st_next (sta_at n' x) = st_next (sta_at n x)) ->
  chain n' p (c1 ++ j :: c2).
Proof.
  revert p. induction c1 as [|x c1 IH]; intros p H H2 Hx; inversion H as [|? ? H']; subst; constructor; [done|].
  rewrite Hx by apply list_elem_of_here. apply IH; [done|done|]. intros. apply Hx. by apply list_elem_of_further.
Qed.

Lemma table_unlink_head n i : table_ok n -> in_use n i ->
  hashed n (pae_hash (st_ea (sta_at n i))) = Some i ->
  table_ok (upd_sta (n <| na_sta_hashed ::= <[pae_hash (st_ea (sta_at n i)) := st_next (sta_at n i)]> |>) i
              (fun s => s <| st_used := false |>)).
Proof.
  intros Hn Hi Hh. set (h := pae_hash (st_ea (sta_at n i))) in *. pose proof (pae_hash_lt (st_ea (sta_at n i))) as Hlt.
  fold h in Hlt. pose proof (t_len n Hn). pose proof (t_hlen n Hn). destruct (t_chain n Hn h Hlt) as (c & Hc & _).
  rewrite Hh in Hc. inversion Hc as [|? c2 Hc2]; subst. set (n1 := n <| na_sta_hashed ::= _ |>).
  assert (Hil : (i < length (na_sta n1))%nat) by (destruct Hi as [Hi _]; change (na_sta n1) with (na_sta n); lia).
  assert (Hnx : forall j, st_next (sta_at (upd_sta n1 i (fun s => s <| st_used := false |>)) j) = st_next (sta_at n j)).
  { intros j. rewrite sta_at_upd by done. by destruct (decide (i = j)). }
  apply (table_unlink n _ i [] c2 h); try done.
  - rewrite upd_sta_length. done.
  - change (na_sta_hashed (upd_sta n1 i _)) with (<[h := st_next (sta_at n i)]> (na_sta_hashed n)).
    by rewrite length_insert.
  - intros j Hj. by rewrite sta_at_upd_other.
  - by rewrite sta_at_upd_same.
  - by rewrite Hh.
  - cbn [app]. unfold hashed. change (na_sta_hashed (upd_sta n1 i _)) with (<[h := st_next (sta_at n i)]> (na_sta_hashed n)).
    rewrite nth_lookup, list_lookup_insert_eq by lia. cbn. apply (chain_ext n); [done|]. intros j _. apply Hnx.
  - intros h' Hne. unfold hashed. change (na_sta_hashed (upd_sta n1 i _)) with (<[h := st_next (sta_at n i)]> (na_sta_hashed n)).
    by rewrite !nth_lookup, list_lookup_insert_ne.
Qed.

Lemma table_unlink_mid n i j c1 c2 : table_ok n -> in_use n i ->
  chain n (hashed n (pae_hash (st_ea (sta_at n i)))) (c1 ++ j :: i :: c2) ->
  table_ok (upd_sta (upd_sta n j (fun s => s <| st_next := st_next (sta_at n i) |>)) i (fun s => s <| st_used := false |>)).
Proof.
  intros Hn Hi Hc. pose proof (t_len n Hn) as Hl. set (h := pae_hash (st_ea (sta_at n i))) in *.
  pose proof (chain_NoDup _ _ _ Hc) as Hnd.
  assert (Hji : j <> i).
  { intros ->. apply list.NoDup_app in Hnd as (_ & _ & Hnd). inversion Hnd; subst. apply H1, list_elem_of_here. }
  assert (Hjl : (j < length (na_sta n))%nat).
  { destruct (t_chain n Hn h (pae_hash_lt _)) as (c & Hc' & Hin). pose proof (chain_det _ _ _ _ Hc Hc') as <-.
    specialize (Hin j). destruct (proj1 Hin) as [[? _] _]; [|lia]. apply elem_of_app. right. apply list_elem_of_here. }
  set (n1 := upd_sta n j _).
  assert (Hil : (i < length (na_sta n1))%nat) by (unfold n1; rewrite upd_sta_length; destruct Hi; lia).
  assert (Hat : forall x, x <> i -> sta_at (upd_sta n1 i (fun s => s <| st_used := false |>)) x = sta_at n1 x)
    by (intros; by rewrite sta_at_upd_other).
  assert (Hi1 : sta_at n1 i = sta_at n i) by (unfold n1; by rewrite sta_at_upd_other).
  assert (Hnx : forall x, x <> j -> st_next (sta_at (upd_sta n1 i (fun s => s <| st_used := false |>)) x) = st_next (sta_at n x)).
  { intros x Hx. rewrite sta_at_upd by done. destruct (decide (i = x)) as [<-|]; [by rewrite Hi1|].
    unfold n1. by rewrite sta_at_upd_other. }
  assert (Happ : c1 ++ j :: i :: c2 = (c1 ++ [j]) ++ i :: c2) by by rewrite <- app_assoc.
  apply (table_unlink n _ i (c1 ++ [j]) c2 h); try done.
  - rewrite upd_sta_length. unfold n1. by rewrite upd_sta_length.
  - apply (t_hlen n Hn).
  - intros x Hx. rewrite Hat by done. unfold n1. rewrite sta_at_upd by done. by destruct (decide (j = x)).
  - by rewrite sta_at_upd_same.
  - by rewrite <- Happ.
  - rewrite <- app_assoc. apply (chain_redirect n _ _ _ _ (i :: c2)); [done| |].
    + rewrite Hat by done. unfold n1. rewrite sta_at_upd_same by done. change (chain (upd_sta n1 i (fun s => s <| st_used := false |>)) (st_next (sta_at n i)) c2).
      apply (chain_ext n); [rewrite Happ in Hc; by apply chain_app_next in Hc|].
      intros x Hx. apply Hnx. intros ->. apply list.NoDup_app in Hnd as (_ & _ & Hnd). inversion Hnd; subst.
      apply H1. by apply list_elem_of_further.
    + intros x Hx. apply Hnx. intros ->. apply list.NoDup_app in Hnd as (_ & Hnd & _). apply (Hnd j Hx), list_elem_of_here.
  - intros x Hx. apply Hnx. intros ->. apply Hx. rewrite <- Happ. apply elem_of_app. right. apply list_elem_of_here.
Qed.

(** ** The operations *)

(** What stays when only the table changes. *)
Definition rest_same (n n' : nas_t) : Prop :=
  n' = n <| na_sta := na_sta n' |> <| na_sta_hashed := na_sta_hashed n' |>.

Lemma rest_same_trans n1 n2 n3 : rest_same n1 n2 -> rest_same n2 n3 -> rest_same n1 n3.
Proof. unfold rest_same. intros H1 H2. rewrite H2, H1. done. Qed.

Section Ops.
Context `{E : Env}.

Lemma nas_deauthenticate_nas ea reason w :
  twp (nas_deauthenticate ea reason) (fun _ w' => w_nas w' = w_nas w) w.
Proof. done. Qed.

(** Stopping the retransmission timer touches two fields of the station. *)
Definition stopped (s : nas_sta_t) : nas_sta_t := s <| st_td := 0 |> <| st_retx_exceed_hndlr := false |>.

Lemma wpa_stop_retx_nas i w : (i < length (na_sta (w_nas w)))%nat ->
  twp (wpa_stop_retx i) (fun _ w' => w_nas w' = upd_sta (w_nas w) i stopped) w.
Proof.
  intros Hi. unfold wpa_stop_retx, TIMER_DELETE. nas_steps.
  - apply upd_sta_upd.
  - apply upd_sta_ext. intros _. apply negb_false_iff, Z.eqb_eq in H.
    unfold stopped, upd. destruct (sta_at (w_nas w) i). cbn in *. by subst.
Qed.

Lemma walk_spec stop p c w : chain (w_nas w) p c -> (length c <= MAX_SUPPLICANTS)%nat ->
  twp (walk stop p) (fun r w' => r = List.find (stop (w_nas w)) c /\ w' = w) w.
Proof.
  intros Hc Hl. unfold walk. nas_steps.
  - rewrite (chain_find_spec _ _ _ _ c) in Heqo by done. by simplify_eq.
  - by rewrite (chain_find_spec _ _ _ _ c) in Heqo.
Qed.

(** The chain of a hash value, with its bound. *)
Lemma table_chain n h : table_ok n -> (h < MAX_SUPPLICANTS)%nat -> exists c, chain n (hashed n h) c /\
  (length c <= MAX_SUPPLICANTS)%nat /\ forall i, i ∈ c <-> in_use n i /\ pae_hash (st_ea (sta_at n i)) = h.
Proof.
  intros Hn Hh. destruct (t_chain n Hn h Hh) as (c & Hc & Hin). exists c. split_and!; [done| |done].
  eapply chain_short; [done|]. intros i Hi. by apply Hin in Hi as [[? _] _].
Qed.

(** What tossing station [i] leaves: the others keep everything but their links. *)
Definition tossed (i : nat) (n n' : nas_t) : Prop :=
  table_ok n' /\ rest_same n n' /\ st_used (sta_at n' i) = false /\
  sta_at n' i = (stopped (sta_at n i)) <| st_used := false |> /\
  forall j, j <> i -> sta_at n' j = (sta_at n j) <| st_next := st_next (sta_at n' j) |>.

(** The two ways the code unlinks, from a table [n] in which the timer is stopped. *)
Lemma tossed_head n i : table_ok n -> (i < MAX_SUPPLICANTS)%nat ->
  hashed n (pae_hash (st_ea (sta_at n i))) = Some i ->
  let n' := upd_sta (n <| na_sta_hashed ::= <[pae_hash (st_ea (sta_at n i)) := st_next (sta_at n i)]> |>) i
              (fun s => s <| st_used := false |>) in
  table_ok n' /\ rest_same n n' /\ sta_at n' i = (sta_at n i) <| st_used := false |> /\
  forall j, j <> i -> sta_at n' j = sta_at n j.
Proof.
  intros Hn Hi Hh n'. pose proof (t_len n Hn) as Hl.
  destruct (table_chain n _ Hn (pae_hash_lt (st_ea (sta_at n i)))) as (c & Hc & _ & Hin).
  rewrite Hh in Hc. inversion Hc; subst. split_and!.
  - apply table_unlink_head; [done| |done]. apply (Hin i). apply list_elem_of_here.
  - by destruct n.
  - unfold n'. rewrite sta_at_upd_same; [done|]. change (i < length (na_sta n))%nat. lia.
  - intros j Hj. unfold n'. by rewrite sta_at_upd_other.
Qed.

Lemma tossed_mid n i j c : table_ok n -> (i < MAX_SUPPLICANTS)%nat ->
  chain n (hashed n (pae_hash (st_ea (sta_at n i)))) c -> j ∈ c -> st_next (sta_at n j) = Some i ->
  let n' := upd_sta (upd_sta n j (fun s => s <| st_next := st_next (sta_at n i) |>)) i (fun s => s <| st_used := false |>) in
  table_ok n' /\ rest_same n n' /\ sta_at n' i = (sta_at n i) <| st_used := false |> /\
  forall k, k <> i -> sta_at n' k = (sta_at n k) <| st_next := st_next (sta_at n' k) |>.
Proof.
  intros Hn Hi Hc Hj Hnj n'. pose proof (t_len n Hn) as Hl.
  destruct (table_chain n _ Hn (pae_hash_lt (st_ea (sta_at n i)))) as (c' & Hc' & _ & Hin).
  pose proof (chain_det _ _ _ _ Hc Hc') as <-. apply list_elem_of_split in Hj as (c1 & c2 & ->).
  pose proof (chain_app_next _ _ _ _ _ Hc) as Hc2. rewrite Hnj in Hc2. inversion Hc2 as [|? c3 Hc3]; subst.
  assert (Hj : (j < MAX_SUPPLICANTS)%nat /\ in_use n i /\ j <> i).
  { split_and!; [apply (Hin j); set_solver|apply (Hin i); set_solver|].
    intros ->. apply chain_NoDup, list.NoDup_app in Hc as (_ & _ & Hd). inversion Hd; subst. set_solver. }
  destruct Hj as (Hj & Hui & Hji). split_and!.
  - by apply table_unlink_mid with (c1 := c1) (c2 := c3).
  - by destruct n.
  - unfold n'. rewrite sta_at_upd_same by (rewrite upd_sta_length; lia). by rewrite sta_at_upd_other.
  - intros k Hk. unfold n'. rewrite sta_at_upd_other by done. rewrite sta_at_upd by lia.
    destruct (decide (j = k)) as [<-|]; [done|]. by destruct (sta_at n k).
Qed.

(** Not linked: only the flag is written. *)
Lemma tossed_none n i c : table_ok n -> (i < MAX_SUPPLICANTS)%nat ->
  chain n (hashed n (pae_hash (st_ea (sta_at n i)))) c -> hashed n (pae_hash (st_ea (sta_at n i))) <> Some i ->
  List.find (fun j => bool_decide (st_next (sta_at n j) = Some i)) c = None ->
  let n' := upd_sta n i (fun s => s <| st_used := false |>) in
  table_ok n' /\ rest_same n n' /\ sta_at n' i = (sta_at n i) <| st_used := false |> /\
  forall j, j <> i -> sta_at n' j = sta_at n j.
Proof.
  intros Hn Hi Hc Hh Hf n'. pose proof (t_len n Hn) as Hl.
  destruct (table_chain n _ Hn (pae_hash_lt (st_ea (sta_at n i)))) as (c' & Hc' & _ & Hin).
  pose proof (chain_det _ _ _ _ Hc Hc') as <-.
  assert (Hni : i ∉ c).
  { intros (c1 & c2 & ->)%list_elem_of_split. destruct c1 as [|x c1]; [inversion Hc; congruence|].
    destruct (chain_pred _ _ _ _ _ _ Hc) as (? & ? & _ & _ & ?). congruence. }
  assert (Hu : st_used (sta_at n i) = false).
  { destruct (st_used (sta_at n i)) eqn:Hu; [|done]. destruct Hni. by apply Hin. }
  assert (Heq : sta_at n' i = (sta_at n i) <| st_used := false |>) by (unfold n'; by rewrite sta_at_upd_same by lia).
  assert (Hne : forall j, j <> i -> sta_at n' j = sta_at n j) by (intros; unfold n'; by rewrite sta_at_upd_other).
  split_and!; [|by destruct n|done|done].
  rewrite <- (table_ok_proper n n'); [done|]. split_and!; [apply upd_sta_length|done|].
  intros j. destruct (decide (j = i)) as [->|]; [|by rewrite Hne]. rewrite Heq. unfold links.
  by destruct (sta_at n i); cbn in *; subst.
Qed.

Lemma toss_sta_spec i reason ds w : table_ok (w_nas w) -> (i < MAX_SUPPLICANTS)%nat ->
  twp (toss_sta i reason ds) (fun _ w' => tossed i (w_nas w) (w_nas w')) w.
Proof.
  intros Hn Hi. pose proof (t_len _ Hn) as Hl. unfold toss_sta. do 2 nas_step.
  assert (Hgo : forall w1, w_nas w1 = w_nas w -> twp
    (wpa_stop_retx i ;;
     sta_list ← nas (fun n => hashed n (pae_hash (st_ea (sta_at (w_nas w) i))));
     next ← sta i st_next;
     (if bool_decide (sta_list = Some i) then set_hashed (pae_hash (st_ea (sta_at (w_nas w) i))) next
      else
        r ← walk (fun n j => bool_decide (st_next (sta_at n j) = Some i)) sta_list;
        match r with
        | None => mret tt
        | Some j => set_sta j (fun s => s <| st_next := next |>)
        end) ;;
     set_sta i (fun s => s <| st_used := false |>)) (fun _ w' => tossed i (w_nas w) (w_nas w')) w1).
  { intros w1 Hw1. wp_step. eapply wp_mono; [apply wpa_stop_retx_nas; rewrite Hw1; lia|]. intros ? w2 Hw2.
    rewrite Hw1 in Hw2. set (n := w_nas w) in *. set (n2 := upd_sta n i stopped) in *.
    assert (Hst : same_table n n2) by (apply same_table_upd; done).
    assert (Hn2 : table_ok n2) by (by rewrite <- Hst).
    assert (Hr2 : rest_same n n2) by (unfold n2; by destruct n).
    assert (Hi2 : sta_at n2 i = stopped (sta_at n i)) by (unfold n2; apply sta_at_upd_same; lia).
    assert (Ho2 : forall j, j <> i -> sta_at n2 j = sta_at n j) by (intros; unfold n2; by rewrite sta_at_upd_other).
    assert (Hea : st_ea (sta_at n i) = st_ea (sta_at n2 i)) by by rewrite Hi2. rewrite Hea.
    assert (Hwrap : forall n', table_ok n' /\ rest_same n2 n' /\ sta_at n' i = (sta_at n2 i) <| st_used := false |> /\
      (forall j, j <> i -> sta_at n' j = (sta_at n2 j) <| st_next := st_next (sta_at n' j) |>) -> tossed i n n').
    { intros n' (H1 & H2 & H3 & H4). rewrite Hi2 in H3. split_and!; [done|by eapply rest_same_trans|by rewrite H3|done|].
      intros j Hj. rewrite (H4 j Hj) at 1. by rewrite Ho2. }
    assert (Hsame : forall n', (forall j, j <> i -> sta_at n' j = sta_at n2 j) ->
      forall j, j <> i -> sta_at n' j = (sta_at n2 j) <| st_next := st_next (sta_at n' j) |>).
    { intros n' H j Hj. rewrite (H j Hj). by destruct (sta_at n2 j). }
    unfold set_hashed. do 4 nas_step. rewrite !Hw2. do 2 nas_step.
    - apply bool_decide_eq_true in H. nas_steps.
      rewrite !Hw2. change (tossed i n (upd_sta (n2 <| na_sta_hashed ::= <[pae_hash (st_ea (sta_at n2 i)) := st_next (sta_at n2 i)]> |>) i (fun s => s <| st_used := false |>))).
      apply Hwrap. destruct (tossed_head n2 i Hn2 Hi H) as (? & ? & ? & ?). split_and!; auto.
    - apply bool_decide_eq_false in H. destruct (table_chain n2 _ Hn2 (pae_hash_lt (st_ea (sta_at n2 i)))) as (c & Hc & Hlc & _).
      wp_step. eapply wp_mono; [eapply walk_spec; [rewrite Hw2; exact Hc|done]|]. intros r w3 [Hr ->]. rewrite Hw2 in Hr.
      destruct r as [j|]; nas_steps.
      + symmetry in Hr. apply find_some in Hr as [Hj Hnj]. apply bool_decide_eq_true in Hnj. apply list_elem_of_In in Hj.
        rewrite !Hw2. change (tossed i n (upd_sta (upd_sta n2 j (fun s => s <| st_next := st_next (sta_at n2 i) |>)) i (fun s => s <| st_used := false |>))).
        apply Hwrap. by apply (tossed_mid n2 i j c).
      + rewrite !Hw2. change (tossed i n (upd_sta n2 i (fun s => s <| st_used := false |>))).
        apply Hwrap. destruct (tossed_none n2 i c Hn2 Hi Hc H (eq_sym Hr)) as (? & ? & ? & ?). split_and!; auto. }
  nas_step. nas_step; [|by apply Hgo]. nas_step. eapply wp_mono; [apply nas_deauthenticate_nas|].
  intros ? w1 Hw1. nas_step. by apply Hgo.
Qed.

(** Cleaning a station up keeps the table, and the other stations but for their links;
    the station itself stays in the table only with a cached PMK or on a WDS link. *)
Definition cleaned (i : nat) (n n' : nas_t) : Prop :=
  table_ok n' /\ rest_same n n' /\
  (forall j, j <> i -> sta_at n' j = (sta_at n j) <| st_next := st_next (sta_at n' j) |>) /\
  (st_used (sta_at n' i) = true -> f_wds (na_flags n) && f_authenticator (na_flags n) = true \/
     (has (st_mode (sta_at n i)) WPA2 = true /\ pae_state_ (st_pae (sta_at n i)) = AUTHENTICATED /\
      pae_ssnto (st_pae (sta_at n i)) <> 0)).

(** Writing fields of station [i] other than its links. *)
Lemma cleaned_upd i n f : table_ok n -> (forall s, links (f s) = links s) ->
  table_ok (upd_sta n i f) /\ rest_same n (upd_sta n i f) /\
  forall j, j <> i -> sta_at (upd_sta n i f) j = (sta_at n j) <| st_next := st_next (sta_at (upd_sta n i f) j) |>.
Proof.
  intros Hn Hf. split_and!.
  - by rewrite <- (same_table_upd n i f Hf).
  - by destruct n.
  - intros j Hj. rewrite sta_at_upd_other by done. by destruct (sta_at n j).
Qed.

(** The end of cleanup_sta, when only fields that it does not test were written. *)
Lemma cleanup_tail i wds n f w : table_ok n -> (i < MAX_SUPPLICANTS)%nat ->
  wds = f_wds (na_flags n) && f_authenticator (na_flags n) -> w_nas w = upd_sta n i f ->
  (forall s, links (f s) = links s /\ st_mode (f s) = st_mode s /\ st_pae (f s) = st_pae s) ->
  twp (s ← sta i (fun s => s);
       if has (st_mode s) WPA2 && bool_decide (pae_state_ (st_pae s) = AUTHENTICATED) && negb (pae_ssnto (st_pae s) =? 0)
       then set_suppl i (fun s => s <| sp_state := WPA_PTKSTART |>)
       else when (negb wds) (toss_sta i 0 true)) (fun _ w' => cleaned i n (w_nas w')) w.
Proof.
  intros Hn Hi Hwds Hw Hf. pose proof (t_len n Hn) as Hl. do 2 nas_step. rewrite Hw, sta_at_upd_same by lia.
  destruct (Hf (sta_at n i)) as (_ & -> & ->). nas_step.
  - nas_step. cbn [w_nas]. rewrite Hw, upd_sta_upd.
    destruct (cleaned_upd i n ((fun s => s <| st_suppl ::= fun p => p <| sp_state := WPA_PTKSTART |> |>) ∘ f) Hn) as (? & ? & ?);
      [intros s; apply (Hf s)|].
    split_and!; [done..|]. intros _. right. apply andb_prop in H as [[Ha Hb]%andb_prop Hc].
    split_and!; [done|by apply bool_decide_eq_true in Hb|]. by apply negb_true_iff, Z.eqb_neq in Hc.
  - destruct (cleaned_upd i n f Hn) as (Hok & Hr & Ho); [intros s; apply (Hf s)|]. nas_step.
    + eapply wp_mono; [apply toss_sta_spec; rewrite ?Hw; done|]. intros ? w' (Ht1 & Ht2 & Ht3 & _ & Ht5). rewrite Hw in *.
      split_and!; [done|by eapply rest_same_trans| |by rewrite Ht3].
      intros j Hj. rewrite (Ht5 j Hj) at 1. by rewrite sta_at_upd_other.
    + rewrite Hw. split_and!; [done..|]. intros _. left. apply negb_false_iff in H0. congruence.
Qed.

Lemma cleanup_sta_spec i reason ds w : table_ok (w_nas w) -> (i < MAX_SUPPLICANTS)%nat ->
  twp (cleanup_sta i reason ds) (fun _ w' => cleaned i (w_nas w) (w_nas w')) w.
Proof.
  intros Hn Hi. pose proof (t_len _ Hn) as Hl. unfold cleanup_sta. do 2 nas_step. set (wds := f_wds _ && f_authenticator _).
  assert (Hgo : forall w1 f, w_nas w1 = upd_sta (w_nas w) i f ->
    (forall s, links (f s) = links s /\ st_mode (f s) = st_mode s /\ st_pae (f s) = st_pae s) ->
    twp (s ← sta i (fun s => s);
         when (negb (ds || wds)) (nas_deauthenticate (st_ea s) reason ;; mret tt) ;;
         wpa_stop_retx i ;;
         s ← sta i (fun s => s);
         if has (st_mode s) WPA2 && bool_decide (pae_state_ (st_pae s) = AUTHENTICATED) && negb (pae_ssnto (st_pae s) =? 0)
         then set_suppl i (fun s => s <| sp_state := WPA_PTKSTART |>)
         else when (negb wds) (toss_sta i 0 true)) (fun _ w' => cleaned i (w_nas w) (w_nas w')) w1).
  { intros w1 f Hw1 Hf.
    assert (Hstop : forall w2, w_nas w2 = upd_sta (w_nas w) i f -> twp (wpa_stop_retx i ;;
         s ← sta i (fun s => s);
         if has (st_mode s) WPA2 && bool_decide (pae_state_ (st_pae s) = AUTHENTICATED) && negb (pae_ssnto (st_pae s) =? 0)
         then set_suppl i (fun s => s <| sp_state := WPA_PTKSTART |>)
         else when (negb wds) (toss_sta i 0 true)) (fun _ w' => cleaned i (w_nas w) (w_nas w')) w2).
    { intros w2 Hw2. nas_step. eapply wp_mono; [apply wpa_stop_retx_nas; rewrite Hw2, upd_sta_length; lia|].
      intros ? w3 Hw3. rewrite Hw2, upd_sta_upd in Hw3. by apply (cleanup_tail i wds (w_nas w) (stopped ∘ f)). }
    do 3 nas_step. nas_step; [|by apply Hstop]. nas_step. eapply wp_mono; [apply nas_deauthenticate_nas|].
    intros ? w2 Hw2. nas_step. apply Hstop. by rewrite Hw2. }
  nas_step. nas_step.
  - nas_step. by apply (Hgo _ (fun s => s <| st_suppl ::= fun p => p <| sp_state := WPA_DISCONNECTED |> |>)).
  - apply (Hgo _ (fun s => s)); [|done]. unfold upd_sta, upd. destruct (w_nas w). cbn. f_equal.
    symmetry. apply list_alter_id. done.
Qed.

(** An index that is not of the table: nothing is written. *)
Lemma upd_sta_ge n i f : (length (na_sta n) <= i)%nat -> upd_sta n i f = n.
Proof.
  intros Hi. unfold upd_sta, upd. destruct n. cbn in *. f_equal. apply list_eq. intros j.
  destruct (decide (i = j)) as [<-|]; [|by apply list_lookup_alter_ne]. rewrite list_lookup_alter_eq.
  by rewrite lookup_ge_None_2.
Qed.

Lemma toss_sta_out i reason ds w : table_ok (w_nas w) -> (MAX_SUPPLICANTS <= i)%nat ->
  wp (toss_sta i reason ds) (fun _ w' => w_nas w' = w_nas w) w.
Proof.
  intros Hn Hi. pose proof (t_len _ Hn) as Hl. unfold toss_sta. do 2 nas_step. set (h := pae_hash _).
  assert (Hst : forall w1, w_nas w1 = w_nas w -> wp (wpa_stop_retx i) (fun _ w' => w_nas w' = w_nas w) w1).
  { intros w1 Hw1. unfold wpa_stop_retx, TIMER_DELETE. nas_steps; by rewrite !upd_sta_ge by (rewrite ?upd_sta_length, ?Hw1; lia). }
  destruct (table_chain _ h Hn (pae_hash_lt _)) as (c & Hc & Hlc & Hin).
  nas_step. apply (wp_mono _ (fun _ w' => w_nas w' = w_nas w)); [unfold nas_deauthenticate; by nas_steps|].
  intros ? w1 Hw1. nas_step. eapply wp_mono; [by apply Hst|]. intros ? w2 Hw2. do 4 nas_step. rewrite !Hw2.
  do 2 nas_step.
  - apply bool_decide_eq_true in H. rewrite H in Hc. inversion Hc; subst.
    destruct (Hin i) as [[[? _] _] _]; [apply list_elem_of_here|lia].
  - wp_step. eapply wp_mono; [apply twp_wp; eapply walk_spec; [rewrite Hw2; exact Hc|done]|]. intros r w3 [Hr ->]. rewrite Hw2 in Hr.
    destruct r as [j|]; nas_steps; [|rewrite upd_sta_ge; [done|rewrite Hw2; lia]].
    symmetry in Hr. apply find_some in Hr as [Hj Hnj]. apply bool_decide_eq_true in Hnj.
    apply list_elem_of_In, list_elem_of_split in Hj as (c1 & c2 & ->).
    pose proof (chain_app_next _ _ _ _ _ Hc) as Hc2. rewrite Hnj in Hc2. inversion Hc2; subst.
    destruct (Hin i) as [[[? _] _] _]; [set_solver|lia].
Qed.

Lemma cleanup_sta_out i reason ds w : table_ok (w_nas w) -> (MAX_SUPPLICANTS <= i)%nat ->
  wp (cleanup_sta i reason ds) (fun _ w' => w_nas w' = w_nas w) w.
Proof.
  intros Hn Hi. pose proof (t_len _ Hn) as Hl. unfold cleanup_sta. do 2 nas_step. nas_step.
  apply (wp_mono _ (fun _ w' => w_nas w' = w_nas w)); [nas_steps; [rewrite upd_sta_ge; [done|lia]|done]|].
  intros ? w1 Hw1. do 3 nas_step.
  apply (wp_mono _ (fun _ w' => w_nas w' = w_nas w)); [unfold nas_deauthenticate; by nas_steps|].
  intros ? w2 Hw2. nas_step. apply (wp_mono _ (fun _ w' => w_nas w' = w_nas w)).
  { unfold wpa_stop_retx, TIMER_DELETE. nas_steps; by rewrite !upd_sta_ge by (rewrite ?upd_sta_length, ?Hw2; lia). }
  intros ? w3 Hw3. do 3 nas_step; [nas_step; cbn [w_nas]; rewrite upd_sta_ge; [done|rewrite Hw3; lia]|]. nas_step; [|done].
  eapply wp_mono; [apply toss_sta_out; [by rewrite Hw3|done]|]. intros ? w4 Hw4. congruence.
Qed.

End Ops.

(** ** Linking *)

Lemma table_link n i s : table_ok n -> (i < MAX_SUPPLICANTS)%nat -> st_used (sta_at n i) = false ->
  view n (st_ea s) = None -> st_used s = true -> st_next s = hashed n (pae_hash (st_ea s)) ->
  let n' := (upd_sta n i (fun _ => s)) <| na_sta_hashed ::= <[pae_hash (st_ea s) := Some i]> |> in
  table_ok n' /\ view n' (st_ea s) = Some i /\ forall a, a <> st_ea s -> view n' a = view n a.
Proof.
  intros Hn Hi Hun Hv Hu Hnx n'. destruct Hn as [H1 H2 H3 H4]. set (h := pae_hash (st_ea s)) in *.
  assert (Hat : forall j, sta_at n' j = if decide (i = j) then s else sta_at n j).
  { intros j. change (sta_at n' j) with (sta_at (upd_sta n i (fun _ => s)) j). rewrite sta_at_upd by lia. done. }
  assert (Hlen : length (na_sta n') = length (na_sta n)) by apply upd_sta_length.
  assert (Hhd : na_sta_hashed n' = <[h := Some i]> (na_sta_hashed n)) by done. clearbody n'.
  assert (Huse : forall j, in_use n' j <-> in_use n j \/ j = i).
  { intros j. unfold in_use. rewrite Hat. destruct (decide (i = j)) as [<-|Hne]; [tauto|].
    split; [tauto|]. by intros [?|?]. }
  assert (Hno : forall j, in_use n j -> i <> j) by (intros j [_ Hj] ->; congruence).
  assert (Hok : table_ok n').
  { split.
    - by rewrite Hlen.
    - by rewrite Hhd, length_insert.
    - intros h' Hlt. destruct (H3 h' Hlt) as (c & Hc & Hin).
      assert (Hce : chain n' (hashed n h') c).
      { apply (chain_ext n); [done|]. intros j Hj. apply Hin in Hj as [Hj _]. rewrite Hat, decide_False; auto. }
      unfold hashed at 1. rewrite Hhd, nth_lookup.
      destruct (decide (h' = h)) as [->|Hne].
      + exists (i :: c). rewrite list_lookup_insert_eq by lia. cbn. split.
        * constructor. rewrite Hat, decide_True, Hnx by done. done.
        * intros j. rewrite elem_of_cons, Hin, Huse, Hat. destruct (decide (i = j)) as [<-|Hne]; [tauto|].
          split; [intros [->|?]; [done|tauto]|]. intros [[?|?] ?]; [tauto|congruence].
      + exists c. rewrite list_lookup_insert_ne by done. rewrite <- nth_lookup. split; [done|].
        intros j. rewrite Hin, Huse, Hat. destruct (decide (i = j)) as [<-|Hn'].
        * split; [intros [? ?]; by destruct (Hno i)|intros [_ <-]; by destruct Hne].
        * split; [tauto|]. intros [[?|?] ?]; [tauto|congruence].
    - intros j k Hj Hk. apply Huse in Hj, Hk. rewrite !Hat.
      destruct (decide (i = j)) as [<-|Hj'], (decide (i = k)) as [<-|Hk']; [done|..].
      + destruct Hk as [Hk|?]; [|congruence]. intros He. by destruct (proj1 (view_None n (st_ea s)) Hv k Hk).
      + destruct Hj as [Hj|?]; [|congruence]. intros He. by destruct (proj1 (view_None n (st_ea s)) Hv j Hj).
      + destruct Hj as [Hj|?], Hk as [Hk|?]; [|congruence..]. by apply H4. }
  split_and!; [done| |].
  - apply view_Some; [done|]. split; [apply Huse; by right|]. by rewrite Hat, decide_True.
  - intros a Ha. destruct (view n a) as [j|] eqn:Hva.
    + apply view_Some in Hva as [Hj He]; [|by split]. apply view_Some; [done|]. rewrite Huse, Hat, decide_False by auto. tauto.
    + apply view_None. intros j Hj. rewrite Hat. destruct (decide (i = j)) as [<-|Hne]; [auto|].
      apply Huse in Hj as [Hj|?]; [|congruence]. by apply (proj1 (view_None n a) Hva).
Qed.

(** The scan for a slot: an unused one, or when all are used the least recently used
    one, if it is older than the clock. *)
Lemma find_slot_spec l i0 oldest oi :
  match find_slot l i0 oldest oi with
  | (Some k, _) => exists s, (i0 <= k)%nat /\ l !! (k - i0)%nat = Some s /\ st_used s = false
  | (None, o) => Forall (fun s => st_used s = true) l /\
      ((o = oi /\ Forall (fun s => oldest <= st_last_use s) l) \/
       exists k s, o = Some k /\ (i0 <= k)%nat /\ l !! (k - i0)%nat = Some s /\ st_last_use s < oldest /\
         Forall (fun s' => st_last_use s <= st_last_use s') l)
  end.
Proof.
  revert i0 oldest oi. induction l as [|s l IH]; intros i0 oldest oi; cbn [find_slot].
  - split; [constructor|]. left. by split; [|constructor].
  - destruct (st_used s) eqn:Hu; cbn [negb].
    2: { exists s. rewrite Nat.sub_diag. done. }
    assert (Hlk : forall k x, (S i0 <= k)%nat -> l !! (k - S i0)%nat = Some x -> (s :: l) !! (k - i0)%nat = Some x).
    { intros k x Hk Hx. replace (k - i0)%nat with (S (k - S i0)) by lia. done. }
    destruct (Z.ltb_spec (st_last_use s) oldest).
    + specialize (IH (S i0) (st_last_use s) (Some i0)). destruct (find_slot _ _ _ _) as [[k|] o].
      * destruct IH as (x & Hk & Hx & Hux). exists x. split_and!; [lia|by apply Hlk|done].
      * destruct IH as [Hall [[-> Hge]|(k & x & -> & Hk & Hx & Hlt & Hge)]]; (split; [by constructor|right]).
        -- exists i0, s. rewrite Nat.sub_diag. split_and!; [done|lia|done|done|]. by constructor.
        -- exists k, x. split_and!; [done|lia|by apply Hlk|lia|]. constructor; [lia|done].
    + specialize (IH (S i0) oldest oi). destruct (find_slot _ _ _ _) as [[k|] o].
      * destruct IH as (x & Hk & Hx & Hux). exists x. split_and!; [lia|by apply Hlk|done].
      * destruct IH as [Hall [[-> Hge]|(k & x & -> & Hk & Hx & Hlt & Hge)]]; (split; [by constructor|]).
        -- left. split; [done|]. by constructor.
        -- right. exists k, x. split_and!; [done|lia|by apply Hlk|lia|]. constructor; [lia|done].
Qed.

(** A chain holds the slot of every address with its hash value. *)
Lemma find_view n ea c : table_ok n -> chain n (hashed n (pae_hash ea)) c ->
  List.find (fun j => ea_eqb (st_ea (sta_at n j)) ea) c = view n ea.
Proof.
  intros Hn Hc. destruct (table_chain n _ Hn (pae_hash_lt ea)) as (c' & Hc' & _ & Hin).
  pose proof (chain_det _ _ _ _ Hc Hc') as <-. destruct (List.find _ c) as [j|] eqn:Hf.
  - apply find_some in Hf as [Hj He]. apply ea_eqb_spec in He. apply list_elem_of_In, Hin in Hj as [Hj _].
    symmetry. by apply view_Some.
  - symmetry. apply view_None. intros i Hi He. eapply find_none in Hf; [|apply list_elem_of_In, (Hin i); by rewrite He].
    cbn in Hf. by rewrite (proj2 (ea_eqb_spec _ _) He) in Hf.
Qed.

Lemma tossed_view n n' i a : table_ok n -> tossed i n n' ->
  view n' a = if decide (view n a = Some i) then None else view n a.
Proof.
  intros Hn (Hok & _ & Hu & _ & Ho).
  assert (Huse : forall j, in_use n' j <-> in_use n j /\ j <> i).
  { intros j. unfold in_use. destruct (decide (j = i)) as [->|Hj]; [rewrite Hu; split; [by intros [_ ?]|by intros [_ []]]|].
    rewrite (Ho j Hj). change (st_used ((sta_at n j) <| st_next := st_next (sta_at n' j) |>)) with (st_used (sta_at n j)). tauto. }
  assert (Hea : forall j, j <> i -> st_ea (sta_at n' j) = st_ea (sta_at n j)) by (intros j Hj; by rewrite (Ho j Hj)).
  destruct (decide (view n a = Some i)) as [Hv|Hv].
  - apply view_Some in Hv as [Hi He]; [|done]. apply view_None. intros j [Hj Hne]%Huse. rewrite (Hea j Hne).
    intros He'. apply Hne. apply (t_uniq n Hn); [done..|congruence].
  - destruct (view n a) as [j|] eqn:Hva.
    + apply view_Some in Hva as [Hj He]; [|done]. apply view_Some; [done|]. assert (j <> i) by congruence.
      rewrite Huse, Hea by done. done.
    + apply view_None. intros j [Hj Hne]%Huse. rewrite (Hea j Hne). by apply (proj1 (view_None n a) Hva).
Qed.

Section Lookup.
Context `{E : Env}.

Lemma init_sta_spec i ea w : table_ok (w_nas w) -> (i < MAX_SUPPLICANTS)%nat -> st_used (sta_at (w_nas w) i) = false ->
  view (w_nas w) ea = None ->
  twp (init_sta i ea) (fun _ w' => table_ok (w_nas w') /\ view (w_nas w') ea = Some i /\
    forall a, a <> ea -> view (w_nas w') a = view (w_nas w) a) w.
Proof.
  intros Hn Hi Hu Hv. unfold init_sta. do 3 nas_step.
  assert (Hgo : forall n1, same_table (w_nas w) n1 -> let s := new_sta n1 ea (hashed n1 (pae_hash ea)) in
    let n' := (upd_sta n1 i (fun _ => s)) <| na_sta_hashed ::= <[pae_hash ea := Some i]> |> in
    table_ok n' /\ view n' ea = Some i /\ forall a, a <> ea -> view n' a = view (w_nas w) a).
  { intros n1 Hs s. assert (Hs1 : st_ea s = ea /\ st_used s = true /\ st_next s = hashed n1 (pae_hash ea)).
    { unfold s, new_sta. destruct (f_authenticator _), (f_supplicant _), (_ && _); done. }
    destruct Hs1 as (He & Hus & Hnx). rewrite <- He. rewrite <- He in Hv, Hnx.
    destruct (table_link n1 i s) as (H1 & H2 & H3); [by rewrite <- Hs|done| | |done|done|].
    - destruct (same_table_links _ _ i Hs) as (-> & _). done.
    - by rewrite (view_same _ _ _ Hs).
    - split_and!; [done..|]. intros a Ha. rewrite H3 by done. by apply view_same. }
  unfold set_hashed. nas_step; nas_steps.
  - apply (Hgo ((w_nas w) <| na_flags ::= fun f => f <| f_gtk_plumbed := false |> <| f_igtk_plumbed := false |> |>)). done.
  - apply (Hgo (w_nas w)). done.
Qed.


Lemma enter_spec i ea now w : table_ok (w_nas w) -> (i < MAX_SUPPLICANTS)%nat -> st_used (sta_at (w_nas w) i) = false ->
  view (w_nas w) ea = None ->
  twp (init_sta i ea ;; set_sta i (fun s => s <| st_last_use := now |>) ;; mret (Some i))
    (fun r w' => r = Some i /\ table_ok (w_nas w') /\ view (w_nas w') ea = Some i /\
      forall a, a <> ea -> view (w_nas w') a = view (w_nas w) a) w.
Proof.
  intros Hn Hi Hu Hv. nas_step. eapply wp_mono; [by apply init_sta_spec|]. intros ? w1 (H1 & H2 & H3). nas_steps.
  assert (Hs : same_table (w_nas w1) (upd_sta (w_nas w1) i (fun s => s <| st_last_use := now |>))) by by apply same_table_upd.
  split_and!; [done|by rewrite <- Hs|by rewrite (view_same _ _ _ Hs)|]. intros b Hb. rewrite (view_same _ _ _ Hs). by apply H3.
Qed.

(** In a table without a free slot every slot is in use. *)
Lemma all_used n (P : nas_sta_t -> Prop) : length (na_sta n) = MAX_SUPPLICANTS -> Forall (fun s => st_used s = true) (na_sta n) ->
  Forall P (na_sta n) -> forall j, (j < MAX_SUPPLICANTS)%nat -> in_use n j /\ P (sta_at n j).
Proof.
  intros Hl Hu HP j Hj. destruct (lookup_lt_is_Some_2 (na_sta n) j ltac:(lia)) as [s Hs].
  assert (Hat : sta_at n j = s) by (unfold sta_at; by rewrite nth_lookup, Hs).
  unfold in_use. rewrite Hat. split_and!; [done|by eapply (Forall_lookup_1 _ _ _ _ Hu)|by eapply (Forall_lookup_1 _ _ _ _ HP)].
Qed.

Lemma sta_at_lookup n i s : na_sta n !! i = Some s -> sta_at n i = s /\ (i < length (na_sta n))%nat.
Proof. intros H. unfold sta_at. rewrite nth_lookup, H. split; [done|by eapply lookup_lt_Some]. Qed.

Lemma lookup_sta_ok ea mode w : table_ok (w_nas w) ->
  twp (lookup_sta ea mode) (fun r w' => let n := w_nas w in let n' := w_nas w' in
    table_ok n' /\
    match view n ea, r with
    | Some i, _ => r = Some i /\ forall a, view n' a = view n a
    | None, Some i => mode = SEARCH_ENTER /\ view n' ea = Some i /\
        (forall a, a <> ea -> view n' a = if decide (view n a = Some i) then None else view n a) /\
        (in_use n i -> forall j, (j < MAX_SUPPLICANTS)%nat ->
           in_use n j /\ st_last_use (sta_at n i) <= st_last_use (sta_at n j))
    | None, None => n' = n /\ (mode = SEARCH_ONLY \/ forall j, (j < MAX_SUPPLICANTS)%nat ->
        in_use n j /\ env_time (EvTime :: w_log w) <= st_last_use (sta_at n j))
    end) w.
Proof.
  intros Hn. pose proof (t_len _ Hn) as Hl. unfold lookup_sta, time_. set (n := w_nas w) in *. do 2 nas_step.
  destruct (table_chain n _ Hn (pae_hash_lt ea)) as (c & Hc & Hlc & _).
  nas_step. eapply wp_mono; [by apply (walk_spec _ _ c)|]. intros r w0 [Hr ->]. fold n in Hr. rewrite (find_view n ea c Hn Hc) in Hr. subst r.
  nas_steps; fold n.
  - (* found *)
    assert (Hs : same_table n (upd_sta n n0 (fun s => s <| st_last_use := env_time (EvTime :: w_log w) |>)))
      by by apply same_table_upd.
    split_and!; [by rewrite <- Hs|done|]. intros a. by apply view_same.
  - (* search only *) split_and!; [done|done|by left].
  - (* a free slot *)
    pose proof (find_slot_spec (na_sta n) 0 (env_time (EvTime :: w_log w)) None) as Hf. unfold n in Hf. rewrite Heqp in Hf.
    destruct Hf as (s & _ & Hs & Hu). rewrite Nat.sub_0_r in Hs. apply sta_at_lookup in Hs as [<- Hlt]. fold n in Hu, Hlt.
    apply wp_bind_inv. eapply wp_mono; [apply enter_spec; cbn [w_nas]; [done|lia|done|done]|].
    intros r w' (-> & H1 & H2 & H3). cbn [w_nas] in H3. split_and!; [done|done|done| |].
    + intros a Ha. rewrite H3 by done. destruct (decide _) as [Hv|]; [|done].
      apply view_Some in Hv as [[_ Hv] _]; [|done]. congruence.
    + intros [_ Hv]. congruence.
  - (* eviction *)
    pose proof (find_slot_spec (na_sta n) 0 (env_time (EvTime :: w_log w)) None) as Hf. unfold n in Hf. rewrite Heqp in Hf.
    destruct Hf as [Hall [[? _]|(k & s & [= <-] & _ & Hs & _ & Hmin)]]; [done|]. rewrite Nat.sub_0_r in Hs.
    apply sta_at_lookup in Hs as [Hs Hlt]. fold n in Hs, Hlt, Hall, Hmin.
    eapply wp_mono; [apply toss_sta_spec; cbn [w_nas]; [done|lia]|]. intros ? w1 Ht. cbn [w_nas] in Ht. nas_step.
    pose proof Ht as (Hok & _ & Hu & _). pose proof (fun a => tossed_view n (w_nas w1) n0 a Hn Ht) as Hvw.
    eapply wp_mono; [apply enter_spec; [done|lia|done|]|].
    { rewrite Hvw, decide_False; [done|]. congruence. }
    intros r w' (-> & H1 & H2 & H3). split_and!; [done|done|done| |].
    + intros b Hb. rewrite H3 by done. apply Hvw.
    + intros _. rewrite Hs. by apply (all_used n (fun s' => st_last_use s <= st_last_use s')).
  - (* full *)
    pose proof (find_slot_spec (na_sta n) 0 (env_time (EvTime :: w_log w)) None) as Hf. unfold n in Hf. rewrite Heqp in Hf.
    destruct Hf as [Hall [[_ Hge]|(? & ? & ? & _)]]; [|done]. split_and!; [done|done|right].
    by apply (all_used n (fun s => env_time (EvTime :: w_log w) <= st_last_use s)).
Qed.

(** C6: the station table is a map from addresses to slots.  lookup_sta returns the slot
    of a known address and changes no other binding.  An unknown address gets no slot
    in a search; otherwise it is bound to a slot that was free, or, when all 128 are
    taken, to that of the station unused for longest, which is evicted; it is refused
    only if every station was last used at the current time or later.  The call always
    returns and the chains stay well formed. *)
Theorem lookup_sta_spec ea mode w : table_ok (w_nas w) ->
  twp (lookup_sta ea mode) (fun r w' => let n := w_nas w in let n' := w_nas w' in
    table_ok n' /\
    match view n ea, r with
    | Some i, _ => r = Some i /\ forall a, view n' a = view n a
    | None, Some i => mode = SEARCH_ENTER /\ view n' ea = Some i /\
        (forall a, a <> ea -> view n' a = if decide (view n a = Some i) then None else view n a) /\
        (in_use n i -> forall j, (j < MAX_SUPPLICANTS)%nat ->
           in_use n j /\ st_last_use (sta_at n i) <= st_last_use (sta_at n j))
    | None, None => n' = n /\ (mode = SEARCH_ONLY \/ forall j, (j < MAX_SUPPLICANTS)%nat ->
        in_use n j /\ env_time (EvTime :: w_log w) <= st_last_use (sta_at n j))
    end) w.
Proof. apply lookup_sta_ok. Qed.
End Lookup.

(** The table nas_start sets up. *)
Lemma table_reset_ok n : table_ok (table_reset n).
Proof.
  assert (Hu : forall i, ~ in_use (table_reset n) i).
  { intros i [Hi Hu]. unfold sta_at in Hu. change (na_sta (table_reset n)) with (replicate MAX_SUPPLICANTS sta_zero) in Hu.
    rewrite nth_lookup, (proj2 (lookup_replicate _ _ _ _)) in Hu by done. done. }
  split; [done|done| |].
  - intros h Hh. exists []. unfold hashed. change (na_sta_hashed (table_reset n)) with (replicate MAX_SUPPLICANTS (@None nat)).
    rewrite nth_lookup, (proj2 (lookup_replicate _ _ _ _)) by done. split; [constructor|].
    intros i. split; [by intros ?%elem_of_nil|]. intros [Hi _]. by destruct (Hu i).
  - intros i j Hi. by destruct (Hu i).
Qed.

Lemma lookup_sta_spec_witness :
  let w := World (nas_demo WPA2_PSK AES_ENABLED true) [] in
  exists w', lookup_sta (E := env_yes) cl_ea SEARCH_ENTER w = Ret (Some 0%nat) w' /\
    table_ok (w_nas w') /\ view (w_nas w') cl_ea = Some 0%nat.
Proof.
  intros w.
  destruct (twp_inv _ _ _ (lookup_sta_spec (E := env_yes) cl_ea SEARCH_ENTER w ltac:(apply table_reset_ok))) as (r & w' & Hr & H).
  exists w'. assert (Hrv : r = Some 0%nat) by (vm_compute in Hr; by injection Hr). subst r.
  destruct H as [Hok H]. assert (Hv : view (w_nas w) cl_ea = None) by (vm_compute; reflexivity).
  rewrite Hv in H. destruct H as (_ & H & _). done.
Defined.
