(* ===== verification/WpaIe.v ===== *)
(** WPA and RSN information elements, from src/userspace/nas/src/wpa.c: the suite and mode
    translations, wpa_parse_ie (an authenticator reading a station's element),
    wpa_check_ie and wpa_find_mckey_algo (a supplicant reading an access point's), the
    element a supplicant or a WDS peer builds, and wpa_set_suppl.

    An element is read through a pointer with a length that came with it.  The model
    keeps the bytes from that pointer to the end of the memory that may be read, and
    tells apart a refused element from a read past that end. *)
From stdpp Require Import base option list numbers strings.
From Stdlib Require Import ZArith Lia.
From S2P Require Import Prelude Monad NasState.
Local Open Scope Z_scope.

(** ** Definitions *)

Inductive ie_res (A : Type) : Type := IeOk (a : A) | IeFail | IeOob.
Arguments IeOk {A}.
Arguments IeFail {A}.
Arguments IeOob {A}.

Definition ie_bind {A B} (m : ie_res A) (k : A -> ie_res B) : ie_res B :=
  match m with IeOk a => k a | IeFail => IeFail | IeOob => IeOob end.

Notation "'let*' p ':=' m 'in' k" := (ie_bind m (fun p => k))
  (at level 10, p strict pattern, k at level 200, format "'[v' 'let*'  p  ':='  m  'in'  '/' k ']'").

(** [n] bytes at offset [o]. *)
Definition rd_bytes (ie : list Z) (o : Z) (n : nat) : ie_res (list Z) :=
  if (0 <=? o) && (o + Z.of_nat n <=? Z.of_nat (length ie)) then IeOk (take n (drop (Z.to_nat o) ie)) else IeOob.

Definition rd_byte (ie : list Z) (o : Z) : ie_res Z := let* b := rd_bytes ie o 1 in IeOk (idx b 0).

Definition ltoh16_ua (b : list Z) : Z := Z.lor (idx b 0) (Z.shiftl (idx b 1) 8).

Definition rd_le16 (ie : list Z) (o : Z) : ie_res Z := let* b := rd_bytes ie o 2 in IeOk (ltoh16_ua b).

Definition WPA_OUI : list Z := [0x00; 0x50; 0xF2].
Definition WPA2_OUI : list Z := [0x00; 0x0F; 0xAC].
Definition BRCM_OUI : list Z := [0x00; 0x10; 0x18].

Definition DOT11_MNG_RSN_ID : Z := 48.
Definition DOT11_MNG_WPA_ID : Z := 221.

Definition WPA_CIPHER_NONE : Z := 0.
Definition WPA_CIPHER_WEP_40 : Z := 1.
Definition WPA_CIPHER_TKIP : Z := 2.
Definition WPA_CIPHER_AES_CCM : Z := 4.
Definition WPA_CIPHER_WEP_104 : Z := 5.

Definition WPA_CIPHER2WSEC (cipher : Z) : Z :=
  if cipher =? WPA_CIPHER_WEP_40 then WEP_ENABLED
  else if cipher =? WPA_CIPHER_WEP_104 then WEP_ENABLED
  else if cipher =? WPA_CIPHER_TKIP then TKIP_ENABLED
  else if cipher =? WPA_CIPHER_AES_CCM then AES_ENABLED
  else 0.

Definition WPA_CIPHER2ALGO (cipher : Z) : Z :=
  if cipher =? WPA_CIPHER_WEP_40 then CRYPTO_ALGO_WEP1
  else if cipher =? WPA_CIPHER_WEP_104 then CRYPTO_ALGO_WEP128
  else if cipher =? WPA_CIPHER_TKIP then CRYPTO_ALGO_TKIP
  else if cipher =? WPA_CIPHER_AES_CCM then CRYPTO_ALGO_AES_CCM
  else CRYPTO_ALGO_OFF.

Definition CRYPTO_ALGO2CIPHER (algo : Z) : Z :=
  if algo =? CRYPTO_ALGO_WEP1 then WPA_CIPHER_WEP_40
  else if algo =? CRYPTO_ALGO_WEP128 then WPA_CIPHER_WEP_104
  else if algo =? CRYPTO_ALGO_TKIP then WPA_CIPHER_TKIP
  else if algo =? CRYPTO_ALGO_AES_CCM then WPA_CIPHER_AES_CCM
  else WPA_CIPHER_NONE.

Definition WEP_KEY2ALGO (len : Z) : Z :=
  if len =? 5 then CRYPTO_ALGO_WEP1 else if len =? 13 then CRYPTO_ALGO_WEP128 else CRYPTO_ALGO_OFF.

Definition WPA_MCAST_CIPHER (wsec algo : Z) : Z :=
  if has wsec WEP_ENABLED then (if algo =? CRYPTO_ALGO_WEP128 then WPA_CIPHER_WEP_104 else WPA_CIPHER_WEP_40)
  else if has wsec TKIP_ENABLED then WPA_CIPHER_TKIP
  else if has wsec AES_ENABLED then WPA_CIPHER_AES_CCM
  else WPA_CIPHER_NONE.

(** The WPA_AUTH values are those of the modes. *)
Definition WPA_AUTH_DISABLED : Z := 0.
Definition WPA_AUTH_NONE : Z := 1.
Definition WPA_AUTH_UNSPECIFIED : Z := 0x02.
Definition WPA_AUTH_PSK : Z := 0x04.
Definition WPA2_AUTH_UNSPECIFIED : Z := 0x40.
Definition WPA2_AUTH_PSK : Z := 0x80.

Definition RSN_AKM_NONE : Z := 0.
Definition RSN_AKM_UNSPECIFIED : Z := 1.
Definition RSN_AKM_PSK : Z := 2.

Definition wpa_auth2akm (auth : Z) : Z :=
  if auth =? WPA_AUTH_PSK then RSN_AKM_PSK
  else if auth =? WPA_AUTH_UNSPECIFIED then RSN_AKM_UNSPECIFIED
  else if auth =? WPA2_AUTH_PSK then RSN_AKM_PSK
  else if auth =? WPA2_AUTH_UNSPECIFIED then RSN_AKM_UNSPECIFIED
  else RSN_AKM_NONE.

Definition wpa_mode2auth (mode : Z) : Z :=
  if mode =? WPA_PSK then WPA_AUTH_PSK
  else if mode =? WPA then WPA_AUTH_UNSPECIFIED
  else if mode =? WPA2_PSK then WPA2_AUTH_PSK
  else if mode =? WPA2 then WPA2_AUTH_UNSPECIFIED
  else WPA_AUTH_DISABLED.

Definition wpa_auth2mode (auth : Z) : Z :=
  if auth =? WPA_AUTH_PSK then WPA_PSK
  else if auth =? WPA_AUTH_UNSPECIFIED then WPA
  else if auth =? WPA2_AUTH_PSK then WPA2_PSK
  else if auth =? WPA2_AUTH_UNSPECIFIED then WPA2
  else RADIUS.

Definition wpa_akm2auth (akm : Z) : Z :=
  if akm =? RSN_AKM_PSK then WPA_AUTH_PSK
  else if akm =? RSN_AKM_UNSPECIFIED then WPA_AUTH_UNSPECIFIED
  else WPA_AUTH_NONE.

Definition wpa2_akm2auth (akm : Z) : Z :=
  if akm =? RSN_AKM_PSK then WPA2_AUTH_PSK
  else if akm =? RSN_AKM_UNSPECIFIED then WPA2_AUTH_UNSPECIFIED
  else WPA_AUTH_NONE.

Definition KEYAUTH_SHA1 : Z := 4.

Definition bcm_valid_tlv (ie : list Z) (buflen : Z) : ie_res bool :=
  if 2 <=? buflen then let* l := rd_byte ie 1 in IeOk (2 + l <=? buflen) else IeOk false.

(** The type-specific header: whether it is an RSN element, the offset of the multicast
    suite, and the length left. *)
Definition ie_header (ie : list Z) (ie_len : Z) : ie_res (bool * Z * Z) :=
  let* v := bcm_valid_tlv ie ie_len in
  if negb v then IeFail
  else
    let* t := rd_byte ie 0 in
    let* l := rd_byte ie 1 in
    if t =? DOT11_MNG_RSN_ID then
      if l <? 2 then IeFail
      else let* ver := rd_le16 ie 2 in
           if negb (ver =? 1) then IeFail else IeOk (true, 4, ie_len - 4)
    else if t =? DOT11_MNG_WPA_ID then
      if l <? 6 then IeFail
      else let* o := rd_bytes ie 2 4 in
           if negb (bool_decide (o = WPA_OUI ++ [1])) then IeFail
           else let* ver := rd_le16 ie 6 in
                if negb (ver =? 1) then IeFail else IeOk (false, 8, ie_len - 8)
    else IeFail.

Definition ie_oui (rsn : bool) : list Z := if rsn then WPA2_OUI else WPA_OUI.

(** The type of the suite at [o], if its OUI is the expected one. *)
Definition suite_type (ie : list Z) (rsn : bool) (o : Z) : ie_res (option Z) :=
  let* u := rd_bytes ie o 3 in
  if bool_decide (u = ie_oui rsn) then let* t := rd_byte ie (o + 3) in IeOk (Some t) else IeOk None.

(** What wpa_parse_ie stores through its pointers. *)
Record parsed_ie := ParsedIe { pi_wsec : Z; pi_mode : Z; pi_pmkc : Z; pi_key_auth_type : option Z; pi_cap : list Z }.

(** The multicast suite: its cipher and the length left. *)
Definition parse_mcast (ie : list Z) (rsn : bool) (mcast len : Z) : ie_res (Z * Z) :=
  if 4 <=? len then
    let* t := suite_type ie rsn mcast in
    IeOk (match t with Some t => WPA_CIPHER2WSEC t | None => 0 end, len - 4)
  else IeOk (0, len).

(** The unicast suite list: cipher, length left, and where it was. *)
Definition parse_ucast (ie : list Z) (rsn : bool) (ucast len wsec : Z) : ie_res (Z * Z * option Z) :=
  if 2 <=? len then
    let* count := rd_le16 ie ucast in
    if negb (count =? 1) then IeFail
    else let* t := suite_type ie rsn (ucast + 2) in
         IeOk (match t with Some t => Z.lor wsec (WPA_CIPHER2WSEC t) | None => wsec end, len - 2 - 4, Some ucast)
  else IeOk (wsec, len, None).

(** The key management suite list: mode, key authentication type, length left, and
    where it was.  The list comes after a one-element unicast list. *)
Definition parse_mgmt (ie : list Z) (rsn : bool) (ucast : option Z) (len : Z) : ie_res (Z * option Z * Z * option Z) :=
  if 2 <=? len then
    match ucast with
    | None => IeOob
    | Some ucast =>
        let mgmt := ucast + 2 + 4 in
        let* count := rd_le16 ie mgmt in
        if negb (count =? 1) then IeFail
        else let* t := suite_type ie rsn (mgmt + 2) in
             match t with
             | Some t => IeOk (wpa_auth2mode ((if rsn then wpa2_akm2auth else wpa_akm2auth) t), Some KEYAUTH_SHA1, len - 2 - 4, Some mgmt)
             | None => IeOk (0, None, len - 2 - 4, Some mgmt)
             end
    end
  else IeOk (0, None, len, None).

Definition parse_cap (ie : list Z) (mgmt : option Z) (len : Z) : ie_res (list Z * Z * option Z) :=
  if 2 <=? len then
    match mgmt with
    | None => IeOob
    | Some mgmt => let* c := rd_bytes ie (mgmt + 2 + 4) 2 in IeOk (c, len - 2, Some (mgmt + 2 + 4))
    end
  else IeOk ([0; 0], len, None).

(** The search in the PMKID list. *)
Fixpoint find_pmkid (k : nat) (ie : list Z) (o len : Z) (pmkid : list Z) : ie_res bool :=
  match k with
  | O => IeOk false
  | S k =>
      if 16 <=? len then
        let* p := rd_bytes ie o 16 in
        if bool_decide (p = pmkid) then IeOk true else find_pmkid k ie (o + 16) (len - 16) pmkid
      else IeOk false
  end.

(** [pmkid] is that of the station passed in, [None] for a NULL station. *)
Definition parse_pmkid (ie : list Z) (rsn : bool) (cap : option Z) (len m : Z) (pmkid : option (list Z)) : ie_res Z :=
  match pmkid with
  | None => IeOk 0
  | Some pmkid =>
      if negb rsn || (len <? 2) || negb (m =? WPA2) then IeOk 0
      else match cap with
           | None => IeOob
           | Some c =>
               let* count := rd_le16 ie (c + 2) in
               let* f := find_pmkid (Z.to_nat count) ie (c + 4) (len - 2) pmkid in
               IeOk (if f then 1 else wrap32 (-1))
           end
  end.

Definition wpa_parse_ie (ie : list Z) (ie_len : Z) (pmkid : option (list Z)) : ie_res parsed_ie :=
  let* (rsn, mcast, len) := ie_header ie ie_len in
  let* (wsec, len) := parse_mcast ie rsn mcast len in
  let* (wsec, len, ucast) := parse_ucast ie rsn (mcast + 4) len wsec in
  let* (m, key_auth, len, mgmt) := parse_mgmt ie rsn ucast len in
  let* (cap, len, cap_off) := parse_cap ie mgmt len in
  let* pmkc := parse_pmkid ie rsn cap_off len m pmkid in
  IeOk (ParsedIe wsec m pmkc key_auth cap).

(** A list of [k] suites of which as many are read as the length allows; the bits of
    each are cleared in [v]. *)
Fixpoint clear_suites (k : nat) (ie : list Z) (rsn : bool) (o len v : Z) (bits : Z -> Z) : ie_res (Z * Z) :=
  match k with
  | O => IeOk (v, len)
  | S k =>
      if 4 <=? len then
        let* t := suite_type ie rsn o in
        clear_suites k ie rsn (o + 4) (len - 4) (match t with Some t => Z.ldiff v (bits t) | None => v end) bits
      else IeOk (v, len)
  end.

(** What is left of the wanted ciphers and modes (0 when the access point offers all)
    and the capabilities read, if any. *)
Definition wpa_check_ie (ie : list Z) (ie_len wsec mode : Z) : ie_res (Z * option (list Z)) :=
  let* (rsn, mcast, len) := ie_header ie ie_len in
  let akm2auth := if rsn then wpa2_akm2auth else wpa_akm2auth in
  let* (wsec, len) :=
    (if 4 <=? len then
       let* t := suite_type ie rsn mcast in
       IeOk (match t with Some t => Z.ldiff wsec (WPA_CIPHER2WSEC t) | None => wsec end, len - 4)
     else IeOk (wsec, len)) in
  let ucast := mcast + 4 in
  let* (wsec, len, count, ucast_set) :=
    (if 2 <=? len then
       let* count := rd_le16 ie ucast in
       let* (wsec, len) := clear_suites (Z.to_nat count) ie rsn (ucast + 2) (len - 2) wsec WPA_CIPHER2WSEC in
       IeOk (wsec, len, count, true)
     else IeOk (wsec, len, 0, false)) in
  let mgmt := ucast + 2 + 4 * count in
  let* (mode, len, mgmt_set) :=
    (if 2 <=? len then
       if negb ucast_set then IeOob
       else
         let* count := rd_le16 ie mgmt in
         let* (mode, len) := clear_suites (Z.to_nat count) ie rsn (mgmt + 2) (len - 2) mode (fun t => wpa_auth2mode (akm2auth t)) in
         IeOk (mode, len, true)
     else IeOk (mode, len, false)) in
  let* cap :=
    (if 2 <=? len then
       if negb mgmt_set then IeOob
       else let* c := rd_bytes ie (mgmt + 2 + 4) 2 in IeOk (Some c)
     else IeOk None) in
  IeOk (wrap32 (wsec + mode), cap).

Definition wpa_find_mckey_algo (ie : list Z) (ie_len : Z) : ie_res Z :=
  let* (rsn, mcast, len) := ie_header ie ie_len in
  if 4 <=? len then
    let* t := suite_type ie rsn mcast in
    IeOk (match t with Some t => WPA_CIPHER2ALGO t | None => CRYPTO_ALGO_OFF end)
  else IeOk CRYPTO_ALGO_OFF.

(** ** Building an element *)

(** A check [tag_len + n > buf_len] and the addition that follows it. *)
Definition room (buf_len : Z) (tag_len : option Z) (n : Z) : option Z :=
  t ← tag_len; if buf_len <? t + n then None else Some (t + n).

(** The ciphers listed; a supplicant or WDS peer lists the first one only. *)
Definition ucast_list (one : bool) (wsec : Z) : list Z :=
  let tkip := if has wsec TKIP_ENABLED then [WPA_CIPHER_TKIP] else [] in
  let l := if has wsec AES_ENABLED then WPA_CIPHER_AES_CCM :: (if one then [] else tkip) else tkip in
  if bool_decide (l = []) then [WPA_CIPHER_NONE] else l.

Definition akm_list (one rsn : bool) (mode : Z) : list Z :=
  let ent := if rsn then WPA2 else WPA in
  let psk := if rsn then WPA2_PSK else WPA_PSK in
  let l2 := if has mode psk then [wpa_auth2akm (wpa_mode2auth psk)] else [] in
  let l := if has mode ent then wpa_auth2akm (wpa_mode2auth ent) :: (if one then [] else l2) else l2 in
  if bool_decide (l = []) then [wpa_auth2akm WPA_AUTH_NONE] else l.

Definition suites (oui : list Z) (l : list Z) : list Z := concat (map (fun t => oui ++ [t]) l).

Definition le16 (x : Z) : list Z := [wrap8 x; wrap8 (Z.shiftr x 8)].

(** One element of [wpa_build_ie]: the RSN one or the WPA one. *)
Definition build_ie (rsn wds sup : bool) (wsec algo mode buf_len : Z) (cap : list Z) : option (list Z) :=
  let fixed := if rsn then 4 else 8 in
  if buf_len <? fixed then None
  else
    let buf_len := buf_len - 2 in
    let oui := ie_oui rsn in
    let mtype := if sup && negb (has wsec WEP_ENABLED) then CRYPTO_ALGO2CIPHER algo else WPA_MCAST_CIPHER wsec algo in
    let mcast := if wds then BRCM_OUI ++ [0] else oui ++ [mtype] in
    let ucast := ucast_list (sup || wds) wsec in
    let akm := akm_list (sup || wds) rsn mode in
    t ← foldl (room buf_len) (Some (fixed - 2)) ([4; 2] ++ map (fun _ => 4) ucast ++ [2] ++ map (fun _ => 4) akm);
    let tag_len := if wds then t else t + 2 in
    Some ([if rsn then DOT11_MNG_RSN_ID else DOT11_MNG_WPA_ID; wrap8 tag_len] ++
          (if rsn then le16 1 else WPA_OUI ++ [1] ++ le16 1) ++ mcast ++
          le16 (Z.of_nat (length ucast)) ++ suites oui ucast ++
          le16 (Z.of_nat (length akm)) ++ suites oui akm ++
          (if wds then [] else cap)).

Section Build.
Context `{E : Env}.

Definition WLC_IOCTL_SMLEN : nat := 256.

(** The driver's answer in a zeroed buffer. *)
Definition iovar_getbuf (name : string) : N (option (list Z)) :=
  err ← call (EvGetVar name);
  if err =? 0 then buf ← reply env_buf; mret (Some (take WLC_IOCTL_SMLEN (buf ++ replicate WLC_IOCTL_SMLEN 0)))
  else mret None.

Definition lift_ie {A} (r : ie_res A) : N (option A) :=
  match r with
  | IeOk a => mret (Some a)
  | IeFail => mret None
  | IeOob => oob
  end.

(** The walk of wpa_get_rsn_cap to the RSN element: where it stops and the length it
    then believes is left.  The length subtracted is that of the element stepped to. *)
Fixpoint rsn_cap_walk (fuel : nat) (buf : list Z) (o ie_len : Z) : ie_res (Z * Z) :=
  let* l := rd_byte buf (o + 1) in
  if l =? 0 then IeOk (o, ie_len)
  else if ie_len <? l + 2 then IeFail
  else
    let* t := rd_byte buf o in
    if t =? DOT11_MNG_RSN_ID then IeOk (o, ie_len)
    else match fuel with
         | O => IeOob
         | S fuel =>
             let o := o + (l + 2) in
             let* l := rd_byte buf (o + 1) in
             rsn_cap_walk fuel buf o (ie_len - (l + 2))
         end.

Definition wpa_get_rsn_cap : N (option (list Z)) :=
  b ← iovar_getbuf "assoc_req_ies"%string;
  match b with
  | None => mret None
  | Some buf =>
      r ← lift_ie (rsn_cap_walk WLC_IOCTL_SMLEN buf 0 (Z.of_nat WLC_IOCTL_SMLEN));
      match r with
      | None => mret None
      | Some (o, ie_len) =>
          l ← lift_ie (rd_byte buf (o + 1));
          if bool_decide (l = Some 0) then mret None
          else
            p ← lift_ie (wpa_parse_ie (drop (Z.to_nat o) buf) ie_len (Some (replicate WPA2_PMKID_LEN 0)));
            mret (pi_cap <$> p)
      end
  end.

(** The element the driver advertises for the station's mode, at most [len] bytes. *)
Fixpoint pick_wpa_ie (k : nat) (buf : list Z) (o : Z) (sta_mode len : Z) : ie_res (list Z) :=
  match k with
  | O => IeOk []
  | S k =>
      let* wpa_len := rd_byte buf (o + 1) in
      if wpa_len =? 0 then IeOk []
      else
        let* id := rd_byte buf o in
        let skip := if id =? DOT11_MNG_RSN_ID then (sta_mode =? WPA) || (sta_mode =? WPA_PSK)
                    else (sta_mode =? WPA2) || (sta_mode =? WPA2_PSK) in
        if skip then pick_wpa_ie k buf (o + (wpa_len + 2)) sta_mode len
        else if wpa_len + 2 <=? len then rd_bytes buf o (Z.to_nat (wpa_len + 2))
        else IeOk []
  end.

Definition nas_get_wpa_ie (ret_buf_len sta_mode : Z) : N (list Z) :=
  b ← iovar_getbuf "wpaie"%string;
  match b with
  | None => mret []
  | Some buf =>
      r ← lift_ie (pick_wpa_ie 2 buf 0 sta_mode ret_buf_len);
      mret (default [] r)
  end.

(** The bytes written to the caller's buffer of [buf_len]; [None] when it is too small. *)
Definition wpa_build_ie (wsec algo sta_mode buf_len : Z) : N (option (list Z)) :=
  flags ← nas na_flags;
  mode ← nas na_mode;
  let sup := f_supplicant flags in
  let wds := f_wds flags in
  if negb wds && negb sup then
    if has sta_mode (Z.lor (Z.lor WPA2 WPA2_PSK) (Z.lor WPA WPA_PSK)) then
      ie ← nas_get_wpa_ie buf_len sta_mode; mret (Some ie)
    else mret (Some [])
  else
    let caps : N (list Z) :=
      own ← wpa wp_cap;
      if sup then c ← wpa_get_rsn_cap; mret (default own c) else mret own in
    let rsn := CHECK_WPA2 mode && CHECK_WPA2 sta_mode in
    let legacy := has mode (Z.lor WPA WPA_PSK) && has sta_mode (Z.lor WPA WPA_PSK) in
    first ← (if rsn then
               match build_ie true wds sup wsec algo mode buf_len [0; 0] with
               | None => mret None
               | Some _ =>
                   cap ← (if wds then mret [0; 0] else caps);
                   mret (build_ie true wds sup wsec algo mode buf_len cap)
               end
             else mret (Some []));
    match first with
    | None => mret None
    | Some ie1 =>
        if (rsn && wds) || negb legacy then mret (Some ie1)
        else
          let buf_len := if rsn then buf_len - 2 else buf_len in
          match build_ie false wds sup wsec algo mode buf_len [0; 0] with
          | None => mret None
          | Some _ =>
              cap ← (if wds then mret [0; 0] else caps);
              ie2 ← mret (build_ie false wds sup wsec algo mode buf_len cap);
              mret ((fun l => ie1 ++ l) <$> ie2)
          end
    end.

(** [false] when the mode or the cipher is not one the server is configured for. *)
Definition wpa_set_suppl (i : nat) (mode wsec algo : Z) : N bool :=
  n ← nas (fun n => n);
  if negb (mode =? Z.land mode (na_mode n)) then mret false
  else if negb (wsec =? Z.land wsec (na_wsec n)) then mret false
  else
    let keys := if has wsec AES_ENABLED then Some (AES_PTK_LEN, AES_TK_LEN, 2)
                else if has wsec TKIP_ENABLED then Some (TKIP_PTK_LEN, TKIP_TK_LEN, 1) else None in
    match keys with
    | None => mret false
    | Some (ptk_len, tk_len, desc) =>
        set_suppl i (fun s => s <| sp_ptk_len := ptk_len |> <| sp_tk_len := tk_len |> <| sp_desc := desc |>) ;;
        set_sta i (fun s => s <| st_mode := mode |>
          <| st_eapol_version := if CHECK_WPA2 mode then WPA2_EAPOL_VERSION else WPA_EAPOL_VERSION |>
          <| st_wsec := wsec |> <| st_algo := wrap16 algo |>) ;;
        mret true
    end.

End Build.

(** ** Reading more memory does not change what was read *)

Definition ie_mono {A} (f : list Z -> ie_res A) : Prop := forall ie tail, f ie <> IeOob -> f (ie ++ tail) = f ie.

Class IeMono {A} (f : list Z -> ie_res A) : Prop := mono : ie_mono f.

#[export] Instance mono_const {A} (r : ie_res A) : IeMono (fun _ => r).
Proof. by intros ie tail _. Qed.

#[export] Instance mono_bind {A B} (f : list Z -> ie_res A) (g : A -> list Z -> ie_res B) :
  IeMono f -> (forall a, IeMono (g a)) -> IeMono (fun ie => ie_bind (f ie) (fun a => g a ie)).
Proof.
  intros Hf Hg ie tail Hn. unfold ie_bind in *. rewrite Hf by (by intros E; rewrite E in Hn).
  destruct (f ie); [|done..]. by apply Hg.
Qed.

#[export] Instance mono_if {A} (b : bool) (f g : list Z -> ie_res A) :
  IeMono f -> IeMono g -> IeMono (fun ie => if b then f ie else g ie).
Proof. intros Hf Hg. by destruct b. Qed.

#[export] Instance mono_option {A B} (o : option A) (f : A -> list Z -> ie_res B) (g : list Z -> ie_res B) :
  (forall a, IeMono (f a)) -> IeMono g -> IeMono (fun ie => match o with Some a => f a ie | None => g ie end).
Proof. intros Hf Hg. destruct o; [apply Hf|done]. Qed.

#[export] Instance mono_rd_bytes o n : IeMono (fun ie => rd_bytes ie o n).
Proof.
  intros ie tail. unfold rd_bytes. rewrite length_app.
  destruct (Z.leb_spec 0 o), (Z.leb_spec (o + Z.of_nat n) (Z.of_nat (length ie))); cbn [andb]; try done.
  intros _. rewrite (proj2 (Z.leb_le _ _)) by lia. cbn [andb]. f_equal.
  rewrite drop_app_le by lia. rewrite take_app_le; [done|]. rewrite length_drop. lia.
Qed.

#[export] Instance mono_rd_byte o : IeMono (fun ie => rd_byte ie o).
Proof. unfold rd_byte. apply _. Qed.

#[export] Instance mono_rd_le16 o : IeMono (fun ie => rd_le16 ie o).
Proof. unfold rd_le16. apply _. Qed.

#[export] Instance mono_header len : IeMono (fun ie => ie_header ie len).
Proof. unfold ie_header, bcm_valid_tlv. apply _. Qed.

#[export] Instance mono_suite_type rsn o : IeMono (fun ie => suite_type ie rsn o).
Proof. unfold suite_type. apply _. Qed.

#[export] Instance mono_find_pmkid k o len pmkid : IeMono (fun ie => find_pmkid k ie o len pmkid).
Proof.
  revert o len. induction k as [|k IH]; intros o len; cbn [find_pmkid]; [apply _|]. apply _.
Qed.

#[export] Instance mono_parse len pmkid : IeMono (fun ie => wpa_parse_ie ie len pmkid).
Proof.
  unfold wpa_parse_ie. apply mono_bind; [apply _|]. intros [[rsn mcast] len1].
  apply mono_bind; [unfold parse_mcast; apply _|]. intros [wsec len2].
  apply mono_bind; [unfold parse_ucast; apply _|]. intros [[wsec' len3] ucast].
  apply mono_bind; [unfold parse_mgmt; apply _|]. intros [[[m ka] len4] mgmt].
  apply mono_bind; [unfold parse_cap; apply _|]. intros [[cap len5] co].
  unfold parse_pmkid. apply _.
Qed.

(** ** Round trip *)

(** The mode a one-suite list for [mode] stands for. *)
Definition akm_mode (rsn : bool) (mode : Z) : Z :=
  if rsn then (if has mode WPA2 then WPA2 else if has mode WPA2_PSK then WPA2_PSK else RADIUS)
  else (if has mode WPA then WPA else if has mode WPA_PSK then WPA_PSK else RADIUS).

Lemma foldl_room b l t0 t : foldl (room b) (Some t0) l = Some t -> t = t0 + foldl Z.add 0 l.
Proof.
  assert (Hadd : forall l a, foldl Z.add a l = a + foldl Z.add 0 l).
  { clear. induction l as [|x l IH]; intros a; cbn [foldl]; [lia|]. rewrite (IH (a + x)), (IH (0 + x)). lia. }
  revert t0. induction l as [|x l IH]; intros t0; cbn [foldl].
  - intros [= <-]. lia.
  - unfold room at 2. cbn [mbind option_bind]. destruct (b <? t0 + x).
    + assert (HN : forall l, foldl (room b) None l = None) by (clear; induction l; done). by rewrite HN.
    + intros H%IH. rewrite (Hadd l (0 + x)). lia.
Qed.

Lemma ucast_one wsec : exists u, ucast_list true wsec = [u].
Proof. unfold ucast_list. destruct (has wsec AES_ENABLED), (has wsec TKIP_ENABLED); eauto. Qed.

Lemma akm_one rsn mode : exists a, akm_list true rsn mode = [a] /\
  wpa_auth2mode ((if rsn then wpa2_akm2auth else wpa_akm2auth) a) = akm_mode rsn mode.
Proof.
  unfold akm_list, akm_mode. destruct rsn; [destruct (has mode WPA2), (has mode WPA2_PSK)|destruct (has mode WPA), (has mode WPA_PSK)]; eauto.
Qed.

(** The element a supplicant or a WDS peer builds is accepted by the authenticator's
    parser, which recovers the unicast cipher, the multicast cipher (absent on a WDS
    link, where its OUI is Broadcom's), the key management mode and the capabilities,
    whatever bytes follow the element. *)
Theorem wpa_ie_roundtrip rsn wds sup wsec algo mode buf_len cap ie tail pmkid :
  sup || wds = true -> length cap = 2%nat ->
  build_ie rsn wds sup wsec algo mode buf_len cap = Some ie ->
  wpa_parse_ie (ie ++ tail) (Z.of_nat (length ie)) pmkid = IeOk
    (ParsedIe (Z.lor (if wds then 0 else WPA_CIPHER2WSEC
                 (if sup && negb (has wsec WEP_ENABLED) then CRYPTO_ALGO2CIPHER algo else WPA_MCAST_CIPHER wsec algo))
               (WPA_CIPHER2WSEC (hd 0 (ucast_list true wsec))))
       (akm_mode rsn mode) 0 (Some KEYAUTH_SHA1) (if wds then [0; 0] else cap)).
Proof.
  intros Hone Hcap. destruct cap as [|c0 [|c1 [|? ?]]]; try done. clear Hcap.
  unfold build_ie. rewrite Hone. destruct (buf_len <? _); [done|].
  destruct (ucast_one wsec) as [u ->], (akm_one rsn mode) as (k & -> & <-).
  destruct (foldl _ _ _) as [t|] eqn:Ht; [|done]. apply foldl_room in Ht. cbn [mbind option_bind]. intros [= <-].
  set (mt := if sup && _ then _ else _). clearbody mt. clear Hone.
  match goal with |- wpa_parse_ie (?ie ++ _) ?l _ = ?r =>
    assert (H : wpa_parse_ie ie l pmkid = r) end.
  { subst t. destruct rsn, wds, pmkid; vm_compute; reflexivity. }
  by rewrite (mono_parse _ _ _ tail), H by (rewrite H; discriminate).
Qed.

(** WPA2-PSK with AES for an access point that uses TKIP for multicast. *)
Lemma wpa_ie_roundtrip_witness :
  exists ie, build_ie true false true AES_ENABLED CRYPTO_ALGO_TKIP WPA2_PSK 256 [0x0c; 0x00] = Some ie /\
    wpa_parse_ie (ie ++ [1; 2; 3]) (Z.of_nat (length ie)) None = IeOk (ParsedIe 6 WPA2_PSK 0 (Some KEYAUTH_SHA1) [0x0c; 0]).
Proof.
  eexists. split; [vm_compute; reflexivity|].
  apply (wpa_ie_roundtrip true false true AES_ENABLED CRYPTO_ALGO_TKIP WPA2_PSK 256 [0x0c; 0x00]); vm_compute; reflexivity.
Defined.

(** ** Bounds *)

Definition ie_post {A} (m : ie_res A) (Q : A -> Prop) : Prop :=
  match m with IeOk a => Q a | IeFail => True | IeOob => False end.

Lemma post_bind {A B} (m : ie_res A) (k : A -> ie_res B) Q : ie_post m (fun a => ie_post (k a) Q) -> ie_post (ie_bind m k) Q.
Proof. by destruct m. Qed.

Lemma post_mono {A} (m : ie_res A) (Q R : A -> Prop) : ie_post m Q -> (forall a, Q a -> R a) -> ie_post m R.
Proof. destruct m; simpl; auto. Qed.

Section Bounds.
Context (ie : list Z) (ie_ok : bytes_ok ie).

Lemma post_rd_bytes o n Q : 0 <= o -> o + Z.of_nat n <= Z.of_nat (length ie) ->
  (forall b, length b = n -> bytes_ok b -> Q b) -> ie_post (rd_bytes ie o n) Q.
Proof using ie_ok.
  intros H1 H2 HQ. unfold rd_bytes. rewrite (proj2 (Z.leb_le _ _)), (proj2 (Z.leb_le _ _)) by lia. cbn [andb ie_post].
  apply HQ; [rewrite length_take, length_drop; lia|]. by apply Forall_take, Forall_drop.
Qed.

Lemma post_rd_byte o (Q : Z -> Prop) : 0 <= o -> o + 1 <= Z.of_nat (length ie) ->
  (forall b, 0 <= b < 256 -> Q b) -> ie_post (rd_byte ie o) Q.
Proof using ie_ok.
  intros H1 H2 HQ. unfold rd_byte. apply post_bind, post_rd_bytes; [done|done|]. intros b Hl Hb. apply HQ.
  pose proof (idx_u8 b 0 Hb). unfold is_u in *. lia.
Qed.

Lemma post_rd_le16 o (Q : Z -> Prop) : 0 <= o -> o + 2 <= Z.of_nat (length ie) -> (forall b, Q b) -> ie_post (rd_le16 ie o) Q.
Proof using ie_ok. intros. unfold rd_le16. apply post_bind, post_rd_bytes; [done|done|]. intros. apply H1. Qed.

Lemma post_suite_type rsn o (Q : option Z -> Prop) : 0 <= o -> o + 4 <= Z.of_nat (length ie) -> (forall t, Q t) ->
  ie_post (suite_type ie rsn o) Q.
Proof using ie_ok.
  intros H1 H2 HQ. unfold suite_type. apply post_bind, post_rd_bytes; [lia|lia|]. intros u _ _.
  destruct (bool_decide _); [|apply HQ]. apply post_bind, post_rd_byte; [lia|lia|]. intros t _. apply HQ.
Qed.

Lemma post_find_pmkid k o len pmkid (Q : bool -> Prop) : 0 <= o -> o + len <= Z.of_nat (length ie) -> (forall b, Q b) ->
  ie_post (find_pmkid k ie o len pmkid) Q.
Proof using ie_ok.
  revert o len. induction k as [|k IH]; intros o len H1 H2 HQ; [apply HQ|]. cbn [find_pmkid].
  destruct (Z.leb_spec 16 len); [|apply HQ]. apply post_bind, post_rd_bytes; [lia|lia|]. intros p _ _.
  destruct (bool_decide _); [apply HQ|]. apply IH; [lia|lia|done].
Qed.

(** The offset and the length left always add up to the length given. *)
Lemma post_header ie_len : ie_len <= Z.of_nat (length ie) ->
  ie_post (ie_header ie ie_len) (fun '(_, mcast, len) => 4 <= mcast /\ mcast + len = ie_len /\ 0 <= len).
Proof using ie_ok.
  intros Hl. unfold ie_header, bcm_valid_tlv. destruct (Z.leb_spec 2 ie_len); [|done].
  pose proof (post_rd_byte 1 (fun b => 0 <= b < 256) ltac:(lia) ltac:(lia) ltac:(auto)) as Hb.
  destruct (rd_byte ie 1) as [l| |]; [|done..]. cbn [ie_post] in Hb. cbn [ie_bind].
  destruct (Z.leb_spec (2 + l) ie_len); cbn [negb]; [|done].
  apply post_bind, post_rd_byte; [lia|lia|]. intros t _.
  destruct (t =? DOT11_MNG_RSN_ID).
  - destruct (Z.ltb_spec l 2); [done|]. apply post_bind, post_rd_le16; [lia|lia|]. intros v.
    destruct (negb (v =? 1)); [done|]. cbn. lia.
  - destruct (t =? DOT11_MNG_WPA_ID); [|done]. destruct (Z.ltb_spec l 6); [done|].
    apply post_bind, post_rd_bytes; [lia|lia|]. intros o _ _. destruct (negb (bool_decide _)); [done|].
    apply post_bind, post_rd_le16; [lia|lia|]. intros v. destruct (negb (v =? 1)); [done|]. cbn. lia.
Qed.

Lemma wpa_parse_safe ie_len pmkid : ie_len + 8 <= Z.of_nat (length ie) -> ie_post (wpa_parse_ie ie ie_len pmkid) (fun _ => True).
Proof using ie_ok.
  intros Hl. unfold wpa_parse_ie. apply post_bind. eapply post_mono; [apply post_header; lia|].
  intros [[rsn mcast] len] (Hm & Hs & Hp). apply post_bind.
  apply post_mono with (Q := fun '(_, len') => len' = len - 4 /\ 4 <= len \/ len' = len /\ len < 4).
  { unfold parse_mcast. destruct (Z.leb_spec 4 len); [|cbn; lia]. apply post_bind, post_suite_type; [lia|lia|]. intros t. cbn. lia. }
  intros [wsec len1] H1. apply post_bind.
  apply post_mono with (Q := fun '(_, len', u) => match u with Some u => u = mcast + 4 /\ len' = len1 - 6 | None => len' = len1 /\ len1 < 2 end).
  { unfold parse_ucast. destruct (Z.leb_spec 2 len1); [|cbn; lia]. apply post_bind, post_rd_le16; [lia|lia|]. intros c.
    destruct (negb _); [done|]. apply post_bind, post_suite_type; [lia|lia|]. intros t. cbn. lia. }
  intros [[wsec' len2] u] H2. apply post_bind.
  apply post_mono with (Q := fun '(_, _, len', g) => match g with Some g => g = mcast + 10 /\ len' = len2 - 6 /\ 4 <= len | None => len' = len2 /\ len2 < 2 end).
  { unfold parse_mgmt. destruct (Z.leb_spec 2 len2); [|cbn; lia]. destruct u as [u|]; [|lia]. apply post_bind, post_rd_le16; [lia|lia|]. intros c.
    destruct (negb _); [done|]. apply post_bind, post_suite_type; [lia|lia|]. intros [t|]; cbn; lia. }
  intros [[[m ka] len3] g] H3. apply post_bind.
  apply post_mono with (Q := fun '(_, len', c) => match c with Some c => c + 2 + len' = ie_len /\ 0 <= c | None => len' < 2 end).
  { unfold parse_cap. destruct (Z.leb_spec 2 len3); [|cbn; lia]. destruct g as [g|], u as [u|]; try lia.
    apply post_bind, post_rd_bytes; [lia|lia|]. intros c _ _. cbn. lia. }
  intros [[cap len4] c] H4. apply post_bind. unfold parse_pmkid. destruct pmkid as [pmkid|]; [|done].
  destruct (negb rsn); cbn [orb]; [done|]. destruct (Z.ltb_spec len4 2); cbn [orb]; [done|].
  destruct (negb (m =? WPA2)); [done|]. destruct c as [c|]; [|lia]. apply post_bind, post_rd_le16; [lia|lia|]. intros n.
  apply post_bind, post_find_pmkid; [lia|lia|]. done.
Qed.
End Bounds.

(** Wpa_parse_ie reads at most 8 bytes past the length it is given, and a 6-byte
    element makes it do so: the unicast suite count is looked for after a multicast
    suite even when that suite is absent. *)
Theorem wpa_parse_ie_bounds ie ie_len pmkid : bytes_ok ie -> ie_len + 8 <= Z.of_nat (length ie) ->
  wpa_parse_ie ie ie_len pmkid <> IeOob /\
  wpa_parse_ie [DOT11_MNG_RSN_ID; 4; 1; 0; 0; 0] 6 None = IeOob.
Proof.
  intros Hok Hl. split; [|reflexivity]. pose proof (wpa_parse_safe ie Hok ie_len pmkid Hl) as H.
  by intros E; rewrite E in H.
Qed.

Lemma wpa_parse_ie_bounds_witness :
  wpa_parse_ie ([DOT11_MNG_RSN_ID; 4; 1; 0; 0; 0] ++ repeat 0xff 8) 6 None <> IeOob.
Proof.
  apply (wpa_parse_ie_bounds ([DOT11_MNG_RSN_ID; 4; 1; 0; 0; 0] ++ repeat 0xff 8) 6 None); [by_compute|].
  by vm_compute.
Defined.

Lemma clear_suites_short k ie rsn o len v bits : len < 4 -> clear_suites k ie rsn o len v bits = IeOk (v, len).
Proof. intros H. destruct k; [done|]. cbn [clear_suites]. by rewrite (proj2 (Z.leb_gt _ _)) by lia. Qed.

(** Wpa_check_ie trusts the unicast suite count of the access point's element: for a
    12-byte RSN element with a count of 65535 it looks for the key management suites
    262 kilobytes further on, past the end of any shorter buffer. *)
Theorem wpa_check_ie_wild suite tail wsec mode : length suite = 4%nat -> Z.of_nat (length tail) < 262138 ->
  wpa_check_ie ([DOT11_MNG_RSN_ID; 10; 1; 0] ++ suite ++ [0xff; 0xff; 0; 0] ++ tail) 12 wsec mode = IeOob.
Proof.
  intros Hs Hl. destruct suite as [|a [|b [|c [|d [|? ?]]]]]; try done.
  set (p := [DOT11_MNG_RSN_ID; 10; 1; 0; a; b; c; d; 0xff; 0xff; 0; 0]).
  change (wpa_check_ie (p ++ tail) 12 wsec mode = IeOob).
  assert (Hh : ie_header (p ++ tail) 12 = IeOk (true, 4, 8)) by by rewrite (mono_header 12 p tail).
  assert (Hm : exists t, suite_type (p ++ tail) true 4 = IeOk t).
  { assert (Hp : exists t, suite_type p true 4 = IeOk t).
    { unfold suite_type. change (rd_bytes p 4 3) with (IeOk [a; b; c]). cbn [ie_bind].
      destruct (bool_decide _); eexists; reflexivity. }
    destruct Hp as [t Hp]. exists t. rewrite (mono_suite_type true 4 p tail); [done|]. by rewrite Hp. }
  assert (Hc : rd_le16 (p ++ tail) 8 = IeOk 65535) by by rewrite (mono_rd_le16 8 p tail).
  assert (Hw : rd_le16 (p ++ tail) 262150 = IeOob).
  { unfold rd_le16, rd_bytes. rewrite length_app. change (length p) with 12%nat.
    assert ((262150 + Z.of_nat 2 <=? Z.of_nat (12 + length tail)) = false) as -> by (apply Z.leb_gt; lia). done. }
  destruct Hm as [t Hm]. unfold wpa_check_ie. rewrite Hh. cbn [ie_bind]. change (4 <=? 8) with true. cbn iota.
  rewrite Hm. cbn [ie_bind]. change (2 <=? 8 - 4) with true. cbn iota. change (4 + 4) with 8. rewrite Hc. cbn [ie_bind].
  rewrite clear_suites_short by done. cbn [ie_bind]. change (2 <=? 8 - 4 - 2) with true. cbn [negb].
  change (8 + 2 + 4 * 65535) with 262150. by rewrite Hw.
Qed.

Lemma wpa_check_ie_wild_witness :
  wpa_check_ie ([DOT11_MNG_RSN_ID; 10; 1; 0] ++ (WPA2_OUI ++ [4]) ++ [0xff; 0xff; 0; 0] ++ replicate 4096 0) 12 AES_ENABLED WPA2_PSK = IeOob.
Proof. apply (wpa_check_ie_wild (WPA2_OUI ++ [4]) (replicate 4096 0)); by vm_compute. Defined.
