(* ===== verification/WpaKey.v ===== *)
(** Keys and EAPOL-Key frames, from src/userspace/nas/src/wpa.c and the helpers it uses in
    src/vendor/shared/bcmwpa.c: the pairwise and group key derivations, the key
    counter, the message integrity code, the encryption of the key data field and of
    the group key, and the key data encapsulations.  The primitives are those of
    [Prf], [Md5], [Rc4] and [KeyWrap]. *)
From stdpp Require Import base option list numbers.
From Stdlib Require Import ZArith Lia.
From S2P Require Import Prelude Monad NasState WpaIe KeyWrap Sha1 Prf Rc4 Md5.
Local Open Scope Z_scope.

(** ** Frames *)

Definition WPA_KEY_DESC_V1 : Z := 0x01.
Definition WPA_KEY_DESC_V2 : Z := 0x02.
Definition WPA_KEY_PAIRWISE : Z := 0x08.
Definition WPA_KEY_INSTALL : Z := 0x40.
Definition WPA_KEY_ACK : Z := 0x80.
Definition WPA_KEY_MIC : Z := 0x100.
Definition WPA_KEY_SECURE : Z := 0x200.
Definition WPA_KEY_ERROR : Z := 0x400.
Definition WPA_KEY_REQ : Z := 0x800.
Definition WPA_KEY_INDEX_MASK : Z := 0x30.
Definition WPA_KEY_INDEX_SHIFT : Z := 4.
Definition WPA_KEY_ENCRYPTED_DATA : Z := 0x1000.

Definition EAPOL_WPA_KEY_LEN : Z := 95.
Definition EAPOL_HEADER_LEN : Z := 18.
Definition EAPOL_KEY : Z := 3.
Definition EAPOL_WPA_KEY : Z := 254.
Definition EAPOL_WPA2_KEY : Z := 2.
Definition ETHER_TYPE_802_1X : Z := 0x888e.

(** An EAPOL-Key frame: the Ethernet and EAPOL headers, the WPA key header, and the
    bytes of the buffer after it, of which [ek_data_len] are the key data.  Multi-byte
    fields hold their values. *)
Record eapol_key_t := EapolKey {
  ek_dhost : list Z; ek_shost : list Z; ek_ether_type : Z;
  ek_version : Z; ek_ptype : Z; ek_length : Z;
  ek_type : Z; ek_key_info : Z; ek_key_len : Z; ek_replay : list Z; ek_nonce : list Z;
  ek_iv : list Z; ek_rsc : list Z; ek_id : list Z; ek_mic : list Z; ek_data_len : Z; ek_data : list Z
}.
#[export] Instance eta_eapol_key_t : Settable eapol_key_t := fun r =>
  EapolKey (ek_dhost r) (ek_shost r) (ek_ether_type r) (ek_version r) (ek_ptype r) (ek_length r)
    (ek_type r) (ek_key_info r) (ek_key_len r) (ek_replay r) (ek_nonce r) (ek_iv r) (ek_rsc r) (ek_id r)
    (ek_mic r) (ek_data_len r) (ek_data r).

Definition be16 (x : Z) : list Z := [wrap8 (Z.shiftr x 8); wrap8 x].

(** The frame from the EAPOL version field on. *)
Definition eapol_bytes (p : eapol_key_t) : list Z :=
  [ek_version p; ek_ptype p] ++ be16 (ek_length p) ++ [ek_type p] ++ be16 (ek_key_info p) ++ be16 (ek_key_len p) ++
  ek_replay p ++ ek_nonce p ++ ek_iv p ++ ek_rsc p ++ ek_id p ++ ek_mic p ++ be16 (ek_data_len p) ++ ek_data p.

Definition frame_bytes (p : eapol_key_t) : list Z :=
  ek_dhost p ++ ek_shost p ++ be16 (ek_ether_type p) ++ eapol_bytes p.

Definition get16 (b : list Z) (o : nat) : Z := Z.lor (Z.shiftl (nth o b 0) 8) (nth (S o) b 0).

Definition field (b : list Z) (o n : nat) : list Z := take n (drop o b).

(** The view of a receive buffer through the two header structures. *)
Definition eapol_parse (b : list Z) : eapol_key_t :=
  EapolKey (field b 0 6) (field b 6 6) (get16 b 12) (nth 14 b 0) (nth 15 b 0) (get16 b 16)
    (nth 18 b 0) (get16 b 19) (get16 b 21) (field b 23 8) (field b 31 32) (field b 63 16) (field b 79 8)
    (field b 87 8) (field b 95 16) (get16 b 111) (drop 113 b).

(** ** bcmwpa.c helpers *)

(** The smaller or larger of two arrays, the first when they are equal. *)
Fixpoint wpa_array_cmp (max : bool) (x y x0 y0 : list Z) : list Z :=
  match x, y with
  | a :: x, b :: y =>
      if a =? b then wpa_array_cmp max x y x0 y0
      else if max then (if a <? b then y0 else x0) else (if b <? a then y0 else x0)
  | _, _ => x0
  end.

Definition wpa_array_min (x y : list Z) : list Z := wpa_array_cmp false x y x y.
Definition wpa_array_max (x y : list Z) : list Z := wpa_array_cmp true x y x y.

(** A big-endian counter plus one; the carry goes on while the bytes are 0xff. *)
Fixpoint incr_le (l : list Z) : list Z :=
  match l with
  | [] => []
  | b :: l => if b =? 0xff then wrap8 (b + 1) :: incr_le l else wrap8 (b + 1) :: l
  end.

Definition wpa_incr_array (a : list Z) : list Z := rev (incr_le (rev a)).

(** ** Key derivation *)

Definition ascii_pairwise : list Z :=
  [80; 97; 105; 114; 119; 105; 115; 101; 32; 107; 101; 121; 32; 101; 120; 112; 97; 110; 115; 105; 111; 110].
Definition ascii_group : list Z :=
  [71; 114; 111; 117; 112; 32; 107; 101; 121; 32; 101; 120; 112; 97; 110; 115; 105; 111; 110].
Definition ascii_init_counter : list Z := [73; 110; 105; 116; 32; 67; 111; 117; 110; 116; 101; 114].
Definition ascii_pmk_name : list Z := [80; 77; 75; 32; 78; 97; 109; 101].

(** The result buffer of fPRF. *)
Definition fPRF_out {S} (key prefix data : list Z) (len : nat) : M S (list Z) :=
  match fPRF key prefix data len with
  | PRF_ok out _ => mret out
  | _ => oob
  end.

Definition ptk_data (ea1 ea2 snonce anonce : list Z) : list Z :=
  wpa_array_min ea1 ea2 ++ wpa_array_max ea1 ea2 ++ wpa_array_min snonce anonce ++ wpa_array_max snonce anonce.

(** memcpy of [n] bytes over the start of an array. *)
Definition overwrite (dst src : list Z) (n : nat) : list Z := take n src ++ drop n dst.

Section Keys.
Context `{E : Env}.

Definition nas_wpa_calc_pmkid (i : nat) : N unit :=
  own ← nas na_ea;
  ea ← sta i st_ea;
  s ← suppl i (fun s => s);
  let '(digest, _) := hmac_sha1 (ascii_pmk_name ++ own ++ ea) (take (Z.to_nat (sp_pmk_len s)) (sp_pmk s)) in
  set_suppl i (fun s => s <| sp_pmkid := take WPA2_PMKID_LEN digest |>).

Definition wpa_calc_ptk (i : nat) : N unit :=
  own ← nas na_ea;
  ea ← sta i st_ea;
  s ← suppl i (fun s => s);
  if TKIP_PTK_LEN <? sp_ptk_len s then nas_handle_error
  else
    let ptk_len := Z.to_nat (sp_ptk_len s) in
    prf ← fPRF_out (take (Z.to_nat (sp_pmk_len s)) (sp_pmk s)) ascii_pairwise
            (ptk_data own ea (sp_snonce s) (sp_anonce s)) ptk_len;
    set_suppl i (fun s => s <| sp_ptk := overwrite (sp_ptk s) prf ptk_len |>).

Definition initialize_global_key_counter : N unit :=
  r1 ← nas_rand128;
  r2 ← nas_rand128;
  own ← nas na_ea;
  prf ← fPRF_out (r1 ++ r2) ascii_init_counter own KEY_COUNTER_LEN;
  set_wpa (fun w => w <| wp_global_key_counter := take KEY_COUNTER_LEN prf |>
                      <| wp_initial_gkc := take KEY_COUNTER_LEN prf |>).

Definition initialize_gmk : N unit :=
  r1 ← nas_rand128;
  r2 ← nas_rand128;
  set_wpa (fun w => w <| wp_gmk := r1 ++ r2 |>).

Definition wpa_incr_gkc : N unit :=
  set_wpa (fun w => w <| wp_global_key_counter ::= wpa_incr_array |>) ;;
  w ← wpa (fun w => w);
  when (bool_decide (wp_global_key_counter w = wp_initial_gkc w)) initialize_global_key_counter.

Definition wpa_gen_gtk : N unit :=
  wsec ← nas na_wsec;
  w ← wpa (fun w => w);
  let cipher := WPA_MCAST_CIPHER wsec (WEP_KEY2ALGO (wp_gtk_len w)) in
  let len := if cipher =? WPA_CIPHER_TKIP then Some TKIP_TK_LEN
             else if cipher =? WPA_CIPHER_AES_CCM then Some AES_TK_LEN else None in
  match len with
  | None => mret tt
  | Some gtk_len =>
      set_wpa (fun w => w <| wp_gtk_len := gtk_len |> <| wp_gnonce := wp_global_key_counter w |>) ;;
      wpa_incr_gkc ;;
      own ← nas na_ea;
      w ← wpa (fun w => w);
      prf ← fPRF_out (wp_gmk w) ascii_group (own ++ wp_gnonce w) (Z.to_nat gtk_len);
      set_wpa (fun w => w <| wp_gtk := overwrite (wp_gtk w) prf (Z.to_nat gtk_len) |>
                          <| wp_gtk_rsc := replicate 8 0 |>)
  end.

Definition ENODEV : Z := 19.

Definition get_le (b : list Z) : Z := foldr (fun x acc => x + 2 ^ 8 * acc) 0 b.

Definition wpa_plumb_gtk (primary : bool) : N Z :=
  w ← wpa (fun w => w);
  let lo := get_le (take 2 (wp_gtk_rsc w)) in
  let hi := get_le (take 4 (drop 2 (wp_gtk_rsc w))) in
  ret ← nas_set_key None (wp_gtk w) (wp_gtk_len w) (wp_gtk_index w) primary hi lo false;
  if ret <? 0 then (if ret =? - ENODEV then mret (- ENODEV) else nas_handle_error)
  else set_flags (fun f => f <| f_gtk_plumbed := true |>) ;; mret ret.

Definition wpa_set_gtk_timer : N unit :=
  secs ← wpa wp_gtk_rekey_secs;
  when (negb (secs =? 0))
    (r ← wpa_set_itimer wpa_new_gtk_callback_h secs 0;
     match snd r with
     | Some id => set_wpa (fun w => w <| wp_gtk_rekey_timer := id |>)
     | None => mret tt
     end).

Definition wpa_init_gtk : N unit :=
  wpa_gen_gtk ;;
  wpa_plumb_gtk true ;;
  wpa_set_gtk_timer.

(** The group key's sequence counter, from the driver or zeros. *)
Definition refresh_gtk_rsc : N unit :=
  ix ← wpa wp_gtk_index;
  r ← nas_get_group_rsc ix;
  set_wpa (fun w => w <| wp_gtk_rsc := default (replicate 8 0) r |>).

(** ** Message integrity *)

(** [None] for an unknown descriptor version. *)
Definition wpa_do_mic (kdver : Z) (key buf : list Z) : option (list Z) :=
  if kdver =? WPA_KEY_DESC_V1 then Some (take 16 (hmac_md5 buf key))
  else if kdver =? WPA_KEY_DESC_V2 then Some (take 16 (fst (hmac_sha1 buf key)))
  else None.

(** The bytes the MIC covers: as many as the frame says. *)
Definition mic_input (p : eapol_key_t) : list Z :=
  take (Z.to_nat (4 + EAPOL_WPA_KEY_LEN + ek_data_len p)) (eapol_bytes (p <| ek_mic := replicate 16 0 |>)).

Definition mic_ok (key : list Z) (p : eapol_key_t) : bool :=
  match wpa_do_mic (Z.land (ek_key_info p) 3) key (mic_input p) with
  | Some digest => bool_decide (digest = ek_mic p)
  | None => false
  end.

(** The key data must lie within the buffer. *)
Definition data_len_ok (p : eapol_key_t) : bool := ek_data_len p <=? Z.of_nat (length (ek_data p)).
Definition data_within (p : eapol_key_t) : N unit := within (data_len_ok p).

Definition wpa_check_mic (i : nat) (p : eapol_key_t) : N bool :=
  data_within p ;;
  s ← suppl i (fun s => s);
  mret (mic_ok (eapol_mic_key s) p).

(** ** Key encryption *)

(** RC4 with the first 256 bytes of the stream dropped. *)
Definition rc4_drop256 (iv key data : list Z) : list Z :=
  let ks := prepare_key (iv ++ key) in
  let ks := snd (rc4 (replicate 256 0) ks) in
  fst (rc4 data ks).

Definition key_iv (w : wpa_t) : list Z := drop (KEY_COUNTER_LEN - 16) (wp_global_key_counter w).

Definition WPA2_KEY_DATA_PAD : Z := 0xdd.

(** Padding of the key data to a multiple of 8 bytes, at least 16. *)
Definition pad_key_data (data : list Z) : list Z :=
  let len := length data in
  if (len <? 16)%nat then data ++ WPA2_KEY_DATA_PAD :: replicate (15 - len) 0
  else if (len mod 8 =? 0)%nat then data
  else data ++ WPA2_KEY_DATA_PAD :: replicate (7 - len mod 8) 0.

(** [None] is FALSE. *)
Definition wpa_encr_key_data (desc : Z) (iv key data : list Z) : option (list Z) :=
  if desc =? WPA_KEY_DESC_V1 then Some (rc4_drop256 iv key data)
  else if desc =? WPA_KEY_DESC_V2 then aes_wrap 16 key (pad_key_data data)
  else None.

(** The buffer after decryption in place: the unwrapped key is 8 bytes shorter and the
    bytes after it stay. *)
Definition wpa_decr_key_data (desc : Z) (key : list Z) (p : eapol_key_t) : N (option eapol_key_t) :=
  data_within p ;;
  let len := Z.to_nat (ek_data_len p) in
  let data := take len (ek_data p) in
  if desc =? WPA_KEY_DESC_V1 then
    mret (Some (p <| ek_data := rc4_drop256 (ek_iv p) key data ++ drop len (ek_data p) |>))
  else if desc =? WPA_KEY_DESC_V2 then
    match aes_unwrap 16 key data with
    | AkwOk out => mret (Some (p <| ek_data := out ++ drop (length out) (ek_data p) |>))
    | AkwErr => mret None
    | AkwOverrun => oob
    end
  else mret None.

(** The group key encrypted for a WPA group message, with the length reported (without
    the 8 bytes of the key wrap).  Version 2 pads the key where it is stored. *)
Definition wpa_encr_gtk (desc : Z) (key : list Z) : N (option (list Z * Z)) :=
  w ← wpa (fun w => w);
  within (wp_gtk_len w <=? Z.of_nat (length (wp_gtk w))) ;;
  let len := Z.to_nat (wp_gtk_len w) in
  if desc =? WPA_KEY_DESC_V1 then
    mret (Some (rc4_drop256 (key_iv w) key (take len (wp_gtk w)), wp_gtk_len w))
  else if desc =? WPA_KEY_DESC_V2 then
    let len' := if (len <? 16)%nat then 16%nat else if (len mod 8 =? 0)%nat then len else (len + (8 - len mod 8))%nat in
    within (len' <=? length (wp_gtk w))%nat ;;
    set_wpa (fun w => w <| wp_gtk := take len (wp_gtk w) ++ replicate (len' - len) 0 ++ drop len' (wp_gtk w) |>) ;;
    gtk ← wpa wp_gtk;
    match aes_wrap 16 key (take len' gtk) with
    | Some out => mret (Some (out, Z.of_nat len'))
    | None => mret None
    end
  else mret None.

(** The supplicant's side; the key and its length come from the frame, the array for it
    has 32 bytes. *)
Definition wpa_decr_gtk (desc : Z) (key : list Z) (p : eapol_key_t) : N bool :=
  data_within p ;;
  set_wpa (fun w => w <| wp_gtk_len := ek_key_len p |>
    <| wp_gtk_index := Z.shiftr (Z.land (ek_key_info p) WPA_KEY_INDEX_MASK) WPA_KEY_INDEX_SHIFT |>) ;;
  let len := Z.to_nat (ek_data_len p) in
  let data := take len (ek_data p) in
  if desc =? WPA_KEY_DESC_V1 then
    let buf := rc4_drop256 (ek_iv p) key data ++ drop len (ek_data p) in
    gtk ← wpa wp_gtk;
    within ((ek_key_len p <=? Z.of_nat (length gtk)) && (ek_key_len p <=? Z.of_nat (length buf))) ;;
    set_wpa (fun w => w <| wp_gtk := overwrite gtk buf (Z.to_nat (ek_key_len p)) |>) ;;
    mret true
  else if desc =? WPA_KEY_DESC_V2 then
    match aes_unwrap 16 key data with
    | AkwOk out =>
        gtk ← wpa wp_gtk;
        within (length out <=? length gtk)%nat ;;
        set_wpa (fun w => w <| wp_gtk := overwrite gtk out (length out) |>) ;;
        mret true
    | AkwErr => mret false
    | AkwOverrun => oob
    end
  else mret false.

(** ** Key data encapsulations *)

Definition DOT11_MNG_PROPR_ID : Z := 221.
Definition WPA2_KEY_DATA_SUBTYPE_GTK : Z := 1.
Definition WPA2_KEY_DATA_SUBTYPE_PMKID : Z := 4.

Definition gtk_kde (index : Z) (gtk : list Z) (gtk_len : Z) : list Z :=
  [DOT11_MNG_PROPR_ID; wrap8 (4 + 2 + gtk_len)] ++ WPA2_OUI ++ [WPA2_KEY_DATA_SUBTYPE_GTK] ++
  [Z.land index 0x03; 0] ++ take (Z.to_nat gtk_len) gtk.

Definition pmkid_kde (pmkid : list Z) : list Z :=
  [DOT11_MNG_PROPR_ID; 4 + 16] ++ WPA2_OUI ++ [WPA2_KEY_DATA_SUBTYPE_PMKID] ++ take WPA2_PMKID_LEN pmkid.

(** The group key goes after the [data] already in the field; the key's sequence
    counter goes into the frame. *)
Definition wpa_insert_gtk (data : list Z) : N (list Z * list Z) :=
  plumbed ← nas (fun n => f_gtk_plumbed (na_flags n));
  (if (plumbed : bool) then refresh_gtk_rsc else wpa_init_gtk) ;;
  w ← wpa (fun w => w);
  within (wp_gtk_len w <=? Z.of_nat (length (wp_gtk w))) ;;
  mret (data ++ gtk_kde (wp_gtk_index w) (wp_gtk w) (wp_gtk_len w), wp_gtk_rsc w).

Definition wpa_insert_pmkid (i : nat) (data : list Z) : N (list Z) :=
  s ← suppl i (fun s => s);
  mret (data ++ pmkid_kde (sp_pmkid s)).

(** bcm_parse_tlvs: the offset of the first element with tag [key] that fits. *)
Fixpoint bcm_parse_tlvs (fuel : nat) (buf : list Z) (o totlen key : Z) : ie_res (option Z) :=
  if 2 <=? totlen then
    let* len := rd_byte buf (o + 1) in
    let* id := rd_byte buf o in
    if (id =? key) && (len + 2 <=? totlen) then IeOk (Some o)
    else match fuel with
         | O => IeOob
         | S fuel => bcm_parse_tlvs fuel buf (o + (len + 2)) (totlen - (len + 2)) key
         end
  else IeOk None.

(** wpa_find_kde: the first vendor element with the WPA2 OUI and the subtype. *)
Fixpoint wpa_find_kde (fuel : nat) (buf : list Z) (o len subtype : Z) : ie_res (option Z) :=
  let* ie := bcm_parse_tlvs (length buf) buf o len DOT11_MNG_PROPR_ID in
  match ie with
  | None => IeOk None
  | Some e =>
      let* l := rd_byte buf (e + 1) in
      let* hit :=
        (if 4 <=? l then
           let* u := rd_bytes buf (e + 2) 3 in
           let* t := rd_byte buf (e + 5) in
           IeOk (bool_decide (u = WPA2_OUI) && (t =? subtype))
         else IeOk false) in
      if (hit : bool) then IeOk (Some e)
      else match fuel with
           | O => IeOob
           | S fuel => wpa_find_kde fuel buf (e + (l + 2)) (len - (e + (l + 2) - o)) subtype
           end
  end.

Definition EAPOL_WPA2_GTK_ENCAP_MIN_LEN : Z := 6.

Definition wpa_find_gtk_encap (buf : list Z) (len : Z) : ie_res (option Z) :=
  let* e := wpa_find_kde (length buf) buf 0 len WPA2_KEY_DATA_SUBTYPE_GTK in
  match e with
  | None => IeOk None
  | Some e =>
      let* l := rd_byte buf (e + 1) in
      IeOk (if l <? EAPOL_WPA2_GTK_ENCAP_MIN_LEN then None else Some e)
  end.

Definition wpa_extract_gtk (p : eapol_key_t) : N bool :=
  data_within p ;;
  r ← lift_ie (
    let* e := wpa_find_gtk_encap (ek_data p) (ek_data_len p) in
    match e with
    | None => IeOk None
    | Some e =>
        let* l := rd_byte (ek_data p) (e + 1) in
        let* flags := rd_byte (ek_data p) (e + 6) in
        if l - EAPOL_WPA2_GTK_ENCAP_MIN_LEN <=? 32 then
          let* gtk := rd_bytes (ek_data p) (e + 8) (Z.to_nat (l - 6)) in
          IeOk (Some (l - 6, Z.land flags 0x03, gtk))
        else IeOk None
    end);
  match mjoin r with
  | None => mret false
  | Some (gtk_len, index, gtk) =>
      set_wpa (fun w => w <| wp_gtk_len := gtk_len |> <| wp_gtk_index := index |>
                          <| wp_gtk := overwrite (wp_gtk w) gtk (Z.to_nat gtk_len) |>) ;;
      if has (ek_key_info p) WPA_KEY_ENCRYPTED_DATA then
        set_wpa (fun w => w <| wp_gtk_rsc := ek_rsc p |>) ;; mret true
      else mret false
  end.

End Keys.

(** ** Counters *)

Definition be_val (l : list Z) : Z := get_le (rev l).

Lemma get_le_bound l : bytes_ok l -> 0 <= get_le l < 2 ^ (8 * Z.of_nat (length l)).
Proof.
  induction 1 as [|b l Hb _ IH]; cbn [get_le foldr length]; [lia|]. fold (get_le l).
  rewrite Nat2Z.inj_succ, Z.mul_succ_r, Z.pow_add_r by lia. unfold is_u in Hb. nia.
Qed.

Lemma incr_le_val l : bytes_ok l ->
  get_le (incr_le l) = (get_le l + 1) mod 2 ^ (8 * Z.of_nat (length l)) /\ bytes_ok (incr_le l) /\
  length (incr_le l) = length l.
Proof.
  induction 1 as [|b l Hb Hl IH]; cbn [incr_le].
  - split_and!; [done|constructor|done].
  - pose proof (get_le_bound l Hl) as Hbd. destruct IH as (IH1 & IH2 & IH3). unfold is_u in Hb.
    cbn [length]. rewrite Nat2Z.inj_succ, Z.mul_succ_r, Z.pow_add_r by lia. set (n := 2 ^ (8 * Z.of_nat (length l))) in *.
    destruct (Z.eqb_spec b 0xff) as [->|Hne].
    + change (wrap8 (255 + 1)) with 0. split_and!; [|by constructor|cbn; lia].
      cbn [get_le foldr]. fold (get_le (incr_le l)) (get_le l). rewrite IH1.
      replace (255 + 2 ^ 8 * get_le l + 1) with (2 ^ 8 * (get_le l + 1)) by lia.
      rewrite (Z.mul_comm n), Z.mul_mod_distr_l by lia. done.
    + assert (Hw : wrap8 (b + 1) = b + 1) by (unfold wrap8; apply Z.mod_small; lia). rewrite Hw.
      split_and!; [|constructor; [unfold is_u; lia|done]|done].
      cbn [get_le foldr]. fold (get_le l). rewrite Z.mod_small; nia.
Qed.

Lemma wpa_incr_array_ok a : bytes_ok a -> bytes_ok (wpa_incr_array a) /\ length (wpa_incr_array a) = length a.
Proof.
  intros Ha. unfold wpa_incr_array. destruct (incr_le_val (rev a)) as (_ & H2 & H3); [by apply Forall_rev|].
  split; [by apply Forall_rev|]. by rewrite length_rev, H3, length_rev.
Qed.

(** Wpa_incr_array adds one to a big-endian counter of any length, modulo its size;
    so [k] increments of a replay counter add [k] modulo 2^64. *)
Theorem wpa_incr_array_spec a : bytes_ok a ->
  be_val (wpa_incr_array a) = (be_val a + 1) mod 2 ^ (8 * Z.of_nat (length a)) /\
  forall k, be_val (Nat.iter k wpa_incr_array a) = (be_val a + Z.of_nat k) mod 2 ^ (8 * Z.of_nat (length a)).
Proof.
  intros Ha.
  assert (H1 : forall a, bytes_ok a -> be_val (wpa_incr_array a) = (be_val a + 1) mod 2 ^ (8 * Z.of_nat (length a))).
  { clear. intros a Ha. unfold be_val, wpa_incr_array. rewrite rev_involutive.
    destruct (incr_le_val (rev a)) as (-> & _); [by apply Forall_rev|]. by rewrite length_rev. }
  assert (Hi : forall k, bytes_ok (Nat.iter k wpa_incr_array a) /\ length (Nat.iter k wpa_incr_array a) = length a /\
    be_val (Nat.iter k wpa_incr_array a) = (be_val a + Z.of_nat k) mod 2 ^ (8 * Z.of_nat (length a))).
  { induction k as [|k (IH1 & IH2 & IH3)].
    - cbn [Nat.iter nat_rect]. split_and!; [done|done|]. rewrite Z.add_0_r, Z.mod_small; [done|].
      unfold be_val. rewrite <- (length_rev a). apply get_le_bound. by apply Forall_rev.
    - rewrite Nat.iter_succ. destruct (wpa_incr_array_ok _ IH1) as [H2 H3]. split_and!; [done|congruence|].
      rewrite H1, IH3, IH2, Z.add_mod_idemp_l by (done || (apply Z.pow_nonzero; lia)). f_equal. lia. }
  split; [by apply H1|]. intros k. apply Hi.
Qed.

Lemma wpa_incr_array_spec_witness :
  be_val (wpa_incr_array [0; 0; 0; 0; 0; 0; 0x0f; 0xff]) = 0x1000.
Proof.
  rewrite (proj1 (wpa_incr_array_spec [0; 0; 0; 0; 0; 0; 0x0f; 0xff] ltac:(by_compute))). vm_compute. reflexivity.
Defined.

(** ** The pairwise key is the same on both sides *)

Lemma wpa_array_cmp_swap max x y x0 y0 : length x = length y -> (x = y -> x0 = y0) ->
  wpa_array_cmp max x y x0 y0 = wpa_array_cmp max y x y0 x0.
Proof.
  revert y. induction x as [|a x IH]; intros [|b y] Hl H0; try done; cbn [wpa_array_cmp].
  - by apply H0.
  - rewrite Z.eqb_sym. destruct (Z.eqb_spec b a) as [->|Hne].
    + apply IH; [cbn in Hl; lia|]. intros ->. by apply H0.
    + destruct (Z.ltb_spec a b), (Z.ltb_spec b a); try lia; by destruct max.
Qed.

Lemma ptk_data_swap ea1 ea2 s a : length ea1 = length ea2 -> ptk_data ea1 ea2 s a = ptk_data ea2 ea1 s a.
Proof.
  intros H. unfold ptk_data, wpa_array_min, wpa_array_max.
  rewrite (wpa_array_cmp_swap false ea1 ea2), (wpa_array_cmp_swap true ea1 ea2); done.
Qed.

(** ** Encryption round trips *)

Lemma rc4_drop256_inv iv key d : rc4_drop256 iv key (rc4_drop256 iv key d) = d.
Proof. unfold rc4_drop256. apply rc4_rc4. Qed.

Lemma rc4_drop256_length iv key d : length (rc4_drop256 iv key d) = length d.
Proof. unfold rc4_drop256. apply rc4_length. Qed.

Lemma pad_key_data_spec d : exists pad, pad_key_data d = d ++ pad /\
  (length (pad_key_data d) mod 8 = 0)%nat /\ (16 <= length (pad_key_data d) < length d + 17)%nat /\
  ((16 <= length d)%nat -> (length (pad_key_data d) < length d + 8)%nat) /\
  (bytes_ok d -> bytes_ok (pad_key_data d)).
Proof.
  unfold pad_key_data. set (n := length d). pose proof (Nat.mod_upper_bound n 8 ltac:(lia)) as Hm.
  pose proof (Nat.div_mod_eq n 8) as Hd.
  assert (Hz : forall k, bytes_ok (WPA2_KEY_DATA_PAD :: replicate k 0)).
  { intros k. constructor; [unfold is_u, WPA2_KEY_DATA_PAD; lia|]. apply Forall_replicate. unfold is_u. lia. }
  destruct (Nat.ltb_spec n 16).
  - eexists. split; [reflexivity|]. rewrite length_app. cbn [length]. rewrite length_replicate. fold n.
    replace (n + S (15 - n))%nat with 16%nat by lia. split_and!; [done|lia|lia|lia|]. intros. by apply Forall_app_2.
  - destruct (Nat.eqb_spec (n mod 8) 0).
    + exists []. rewrite app_nil_r. fold n. split_and!; [done|done|lia|lia|lia|done].
    + eexists. split; [reflexivity|]. rewrite length_app. cbn [length]. rewrite length_replicate. fold n.
      split_and!; [|lia|lia|lia|intros; by apply Forall_app_2].
      replace (n + S (7 - n mod 8))%nat with (0 + (n / 8 + 1) * 8)%nat by lia. by rewrite Nat.Div0.mod_add.
Qed.

(** Decrypting the key data field of a frame gives back what was encrypted for it,
    followed by the padding (none for RC4), and leaves the rest of the buffer alone:
    RC4 for descriptor version 1, AES key wrap for version 2. *)
Theorem wpa_key_data_roundtrip desc iv key data :
  desc = WPA_KEY_DESC_V1 \/ desc = WPA_KEY_DESC_V2 ->
  length key = 16%nat -> bytes_ok key -> bytes_ok data -> (length data <= 376)%nat ->
  exists c pad, wpa_encr_key_data desc iv key data = Some c /\
    (length data <= length c < length data + 25)%nat /\
    forall p tail w, twp (wpa_decr_key_data desc key
        (p <| ek_iv := iv |> <| ek_data := c ++ tail |> <| ek_data_len := Z.of_nat (length c) |>))
      (fun r w' => w' = w /\ exists tail', r = Some (p <| ek_iv := iv |> <| ek_data := data ++ pad ++ tail' |>
         <| ek_data_len := Z.of_nat (length c) |>)) w.
Proof.
  intros Hd Hkl Hk Hb Hl. unfold wpa_encr_key_data, wpa_decr_key_data, data_within.
  assert (Htk : forall c tail, take (Z.to_nat (Z.of_nat (length c))) (c ++ tail) = c /\ drop (Z.to_nat (Z.of_nat (length c))) (c ++ tail) = tail :> list Z)
    by (intros; rewrite Nat2Z.id, take_app_length, drop_app_length; done).
  destruct Hd as [-> | ->]; cbn [Z.eqb].
  - exists (rc4_drop256 iv key data), []. split_and!; [done|rewrite rc4_drop256_length; lia|rewrite rc4_drop256_length; lia|].
    intros p tail w. unfold upd; cbn [ek_iv ek_data ek_data_len]. nas_step. nas_step; [|unfold data_len_ok in H; cbn [ek_data ek_data_len] in H; rewrite length_app in H; apply Z.leb_gt in H; lia].
    destruct (Htk (rc4_drop256 iv key data) tail) as [-> ->]. cbn [WPA_KEY_DESC_V1 Z.eqb Pos.eqb]. nas_step.
    rewrite rc4_drop256_inv. split; [done|]. by exists tail.
  - destruct (pad_key_data_spec data) as (pad & Hp & Hm & Hlen & Hlen' & Hok).
    assert (Hmax : (length (pad_key_data data) <= 384)%nat).
    { destruct (decide (16 <= length data)%nat); [|lia]. pose proof (Nat.div_mod_eq (length (pad_key_data data)) 8). lia. }
    destruct (unwrap_of_wrap 16 key (pad_key_data data)) as (c & Hw & Hcl & Hcb & Hu); [split; [done|by left]|by apply Hok|by split|].
    exists c, pad. assert (Hpl : length (pad_key_data data) = (length data + length pad)%nat) by (by rewrite Hp, length_app).
    split_and!; [done|lia|lia|].
    intros p tail w. unfold upd; cbn [ek_iv ek_data ek_data_len]. nas_step. nas_step; [|unfold data_len_ok in H; cbn [ek_data ek_data_len] in H; rewrite length_app in H; apply Z.leb_gt in H; lia].
    destruct (Htk c tail) as [-> _]. cbn [WPA_KEY_DESC_V1 WPA_KEY_DESC_V2 Z.eqb Pos.eqb]. rewrite Hu. nas_step.
    split; [done|]. rewrite Hp, <- app_assoc. eauto.
Qed.

Lemma wpa_key_data_roundtrip_witness :
  exists c, wpa_encr_key_data WPA_KEY_DESC_V2 (zrange 16) (zrange 16) [1; 2; 3] = Some c.
Proof.
  destruct (wpa_key_data_roundtrip WPA_KEY_DESC_V2 (zrange 16) (zrange 16) [1; 2; 3]) as (c & _ & H & _);
    [by right|reflexivity|by_compute|by_compute|cbn; lia|]. by exists c.
Defined.

(** ** Frames and their bytes *)

Definition u16 (x : Z) : Prop := 0 <= x < 2 ^ 16.

Record frame_ok (p : eapol_key_t) : Prop := {
  fo_dhost : length (ek_dhost p) = 6%nat;
  fo_shost : length (ek_shost p) = 6%nat;
  fo_replay : length (ek_replay p) = 8%nat;
  fo_nonce : length (ek_nonce p) = 32%nat;
  fo_iv : length (ek_iv p) = 16%nat;
  fo_rsc : length (ek_rsc p) = 8%nat;
  fo_id : length (ek_id p) = 8%nat;
  fo_mic : length (ek_mic p) = 16%nat;
  fo_words : u16 (ek_ether_type p) /\ u16 (ek_length p) /\ u16 (ek_key_info p) /\ u16 (ek_key_len p) /\ u16 (ek_data_len p)
}.

Lemma be16_get x : u16 x -> Z.lor (Z.shiftl (wrap8 (Z.shiftr x 8)) 8) (wrap8 x) = x.
Proof.
  unfold u16, wrap8. intros H. rewrite Z.shiftr_div_pow2, Z.shiftl_mul_pow2 by lia.
  rewrite (Z.mod_small (x / 2 ^ 8)) by (split; [apply Z.div_pos; lia|apply Z.div_lt_upper_bound; lia]).
  assert (Hl : Z.land (x / 2 ^ 8 * 2 ^ 8) (x mod 2 ^ 8) = 0).
  { rewrite <- Z.shiftl_mul_pow2 by lia. apply Z.bits_inj'. intros n Hn. rewrite Z.land_spec, Z.bits_0.
    destruct (Z.lt_ge_cases n 8).
    - by rewrite Z.shiftl_spec_low.
    - rewrite Z.mod_pow2_bits_high by lia. apply andb_false_r. }
  pose proof (Z.add_lor_land (x / 2 ^ 8 * 2 ^ 8) (x mod 2 ^ 8)). pose proof (Z.div_mod x (2 ^ 8) ltac:(lia)). lia.
Qed.

Lemma eapol_parse_bytes p tail : frame_ok p -> eapol_parse (frame_bytes p ++ tail) = p <| ek_data := ek_data p ++ tail |>.
Proof.
  intros [Hd Hs Hr Hn Hi Hc Hid Hm (W1 & W2 & W3 & W4 & W5)].
  destruct p as [dh sh et ver pt len ty ki kl rp nn iv rsc id mic dl data]. unfold upd. cbn in *.
  do 6 (destruct dh as [|? dh]; [done|]). destruct dh; [|done].
  do 6 (destruct sh as [|? sh]; [done|]). destruct sh; [|done].
  do 8 (destruct rp as [|? rp]; [done|]). destruct rp; [|done].
  do 32 (destruct nn as [|? nn]; [done|]). destruct nn; [|done].
  do 16 (destruct iv as [|? iv]; [done|]). destruct iv; [|done].
  do 8 (destruct rsc as [|? rsc]; [done|]). destruct rsc; [|done].
  do 8 (destruct id as [|? id]; [done|]). destruct id; [|done].
  do 16 (destruct mic as [|? mic]; [done|]). destruct mic; [|done].
  clear -W1 W2 W3 W4 W5. unfold eapol_parse, field, get16. cbn [frame_bytes eapol_bytes be16 app nth drop take
    ek_dhost ek_shost ek_ether_type ek_version ek_ptype ek_length ek_type ek_key_info ek_key_len ek_replay ek_nonce ek_iv
    ek_rsc ek_id ek_mic ek_data_len ek_data].
  by rewrite !be16_get.
Qed.

Lemma eapol_bytes_app p tail : eapol_bytes (p <| ek_data := ek_data p ++ tail |>) = eapol_bytes p ++ tail.
Proof. unfold eapol_bytes, upd. cbn. by rewrite <- !app_assoc. Qed.

Lemma eapol_bytes_length p : frame_ok p -> length (eapol_bytes p) = (99 + length (ek_data p))%nat.
Proof.
  intros [Hd Hs Hr Hn Hi Hc Hid Hm _]. unfold eapol_bytes, be16. rewrite !length_app, Hr, Hn, Hi, Hc, Hid, Hm. cbn. lia.
Qed.

Lemma frame_ok_mic p m : frame_ok p -> length m = 16%nat -> frame_ok (p <| ek_mic := m |>).
Proof. intros [] Hm. by constructor. Qed.

(** The MIC does not depend on what follows the key data in the buffer, nor on the MIC
    field. *)
Lemma mic_input_tail p tail : frame_ok p -> ek_data_len p = Z.of_nat (length (ek_data p)) ->
  mic_input (p <| ek_data := ek_data p ++ tail |>) = mic_input p.
Proof.
  intros Hp Hl. unfold mic_input.
  change (p <| ek_data := ek_data p ++ tail |> <| ek_mic := replicate 16 0 |>) with
    (p <| ek_mic := replicate 16 0 |> <| ek_data := ek_data (p <| ek_mic := replicate 16 0 |>) ++ tail |>).
  rewrite eapol_bytes_app. change (ek_data_len (p <| ek_data := ek_data p ++ tail |>)) with (ek_data_len p).
  rewrite Hl, take_app_le; [done|]. rewrite eapol_bytes_length by (by apply frame_ok_mic).
  change (ek_data (p <| ek_mic := replicate 16 0 |>)) with (ek_data p). unfold EAPOL_WPA_KEY_LEN. lia.
Qed.
