(* ===== verification/NasWnm.v ===== *)
(** The wireless network management notifications of src/userspace/nas/src/nas_wl.c: the
    action frame encoder over a bounded buffer, the two notification frames and the
    BSS transition request, and the sending of whatever the RADIUS server asked for. *)
From stdpp Require Import base option list numbers strings.
From Stdlib Require Import ZArith Lia.
From S2P Require Import Prelude Monad NasState WpaIe.
Local Open Scope Z_scope.

(** ** The encoder *)

Record wnm_encode_t := WnmEncode { we_maxLength : Z; we_buf : list Z }.

Definition bcm_encode_init (maxLength : Z) : wnm_encode_t := WnmEncode maxLength [].
Definition bcm_encode_length (pkt : wnm_encode_t) : Z := Z.of_nat (length (we_buf pkt)).

Definition isLengthValid (pkt : wnm_encode_t) (length : Z) : bool := bcm_encode_length pkt + length <=? we_maxLength pkt.

(** What does not fit is left out; no caller looks at the result. *)
Definition bcm_encode_bytes (bytes : list Z) (pkt : wnm_encode_t) : wnm_encode_t :=
  if isLengthValid pkt (Z.of_nat (length bytes)) then WnmEncode (we_maxLength pkt) (we_buf pkt ++ bytes) else pkt.

Definition bcm_encode_byte (byte : Z) : wnm_encode_t -> wnm_encode_t := bcm_encode_bytes [wrap8 byte].

Definition bcm_encode_le16 (value : Z) : wnm_encode_t -> wnm_encode_t :=
  bcm_encode_bytes [wrap8 value; wrap8 (Z.shiftr value 8)].

Definition DOT11_ACTION_CAT_WNM : Z := 10.
Definition DOT11_WNM_ACTION_NOTFCTN_REQ : Z := 26.
Definition DOT11_MNG_VS_ID : Z := 221.
Definition WFA_OUI : list Z := [0x50; 0x6F; 0x9A].

(** A sequence of encoder calls. *)
Definition encode (calls : list (wnm_encode_t -> wnm_encode_t)) (pkt : wnm_encode_t) : wnm_encode_t :=
  fold_left (fun pkt f => f pkt) calls pkt.

Section Wnm.
Context `{E : Env}.

Definition bcm_encode_wnm_subscription_remediation (dialogToken : Z) (url : list Z) (serverMethod : Z)
    : wnm_encode_t -> wnm_encode_t :=
  let urlLen := Z.of_nat (length url) in
  encode ([bcm_encode_byte DOT11_ACTION_CAT_WNM; bcm_encode_byte DOT11_WNM_ACTION_NOTFCTN_REQ;
           bcm_encode_byte dialogToken; bcm_encode_byte HSPOT_WNM_TYPE; bcm_encode_byte DOT11_MNG_VS_ID;
           (if 0 <? urlLen then bcm_encode_byte (6 + urlLen) else bcm_encode_byte 5);
           bcm_encode_bytes WFA_OUI; bcm_encode_byte HSPOT_WNM_SUBSCRIPTION_REMEDIATION; bcm_encode_byte urlLen] ++
          (if 0 <? urlLen then [bcm_encode_bytes url; bcm_encode_byte serverMethod] else [])).

Definition bcm_encode_wnm_deauthentication_imminent (dialogToken reason reauthDelay : Z) (url : list Z)
    : wnm_encode_t -> wnm_encode_t :=
  let urlLen := Z.of_nat (length url) in
  encode ([bcm_encode_byte DOT11_ACTION_CAT_WNM; bcm_encode_byte DOT11_WNM_ACTION_NOTFCTN_REQ;
           bcm_encode_byte dialogToken; bcm_encode_byte HSPOT_WNM_TYPE; bcm_encode_byte DOT11_MNG_VS_ID;
           bcm_encode_byte (8 + urlLen); bcm_encode_bytes WFA_OUI;
           bcm_encode_byte HSPOT_WNM_DEAUTHENTICATION_IMMINENT; bcm_encode_byte reason;
           bcm_encode_le16 reauthDelay; bcm_encode_byte urlLen] ++
          (if 0 <? urlLen then [bcm_encode_bytes url] else [])).

(** ** Sending *)

Definition ACTION_FRAME_SIZE : Z := 1800.

Definition wl_actframe (bssid da : list Z) (dwell_time : Z) (data : list Z) : N Z :=
  if ACTION_FRAME_SIZE <? Z.of_nat (length data) then mret (-1)
  else call (EvActFrame bssid da dwell_time data).

(** The allocation has [count] bytes, computed in a byte; the length and the URL are
    written to it. *)
Definition wl_wnm_url (url : list Z) : N Z :=
  let datalen := Z.of_nat (length url) in
  let count := wrap8 (2 + datalen - 1) in
  within (1 + datalen <=? count) ;;
  call (EvSetVar "wnm_url" (take (Z.to_nat count) (datalen :: url))).

Definition wl_wnm_bsstrans_req (reqmode tbtt dur unicast : Z) : N Z :=
  call (EvSetVar "wnm_bsstrans_req" (le16 tbtt ++ le16 dur ++ [wrap8 reqmode; wrap8 unicast])).

Definition url_chars (url : option (list Z)) : list Z := default [] url.

Definition nas_send_wnm_subscription_remediation (url : option (list Z)) (ea : list Z) (serverMethod : Z) : N unit :=
  if 255 <? Z.of_nat (length (url_chars url)) then mret tt
  else
    own ← nas na_ea;
    let enc := bcm_encode_wnm_subscription_remediation 1 (url_chars url) serverMethod
                 (bcm_encode_init (Z.of_nat WLC_IOCTL_SMLEN)) in
    wl_actframe own ea 250 (we_buf enc) ;; mret tt.

Definition nas_send_wnm_deauthentication_imminent (reason reauthDelay : Z) (url : option (list Z)) (ea : list Z) : N unit :=
  if 255 <? Z.of_nat (length (url_chars url)) then mret tt
  else
    own ← nas na_ea;
    let enc := bcm_encode_wnm_deauthentication_imminent 1 reason reauthDelay (url_chars url)
                 (bcm_encode_init (Z.of_nat WLC_IOCTL_SMLEN)) in
    wl_actframe own ea 250 (we_buf enc) ;; mret tt.

Definition nas_send_bss_transition_mgmt_req (url : option (list Z)) (reqmode tbtt dur unicast : Z) : N unit :=
  if 255 <? Z.of_nat (length (url_chars url)) then mret tt
  else
    r ← wl_wnm_url (url_chars url);
    if r <? 0 then mret tt
    else wl_wnm_bsstrans_req reqmode tbtt dur unicast ;; mret tt.

(** Each pending request is sent and its parameters are cleared. *)
Definition nas_send_wnm_notifications (ea : list Z) : N unit :=
  d ← nas na_m_deauth_params;
  (match d with
   | Some p =>
       nas_send_wnm_deauthentication_imminent (dp_reason_code p) (dp_reauth_delay p) (dp_reason_url p) ea ;;
       set_nas (fun n => n <| na_m_deauth_params := None |>)
   | None => mret tt
   end) ;;
  r ← nas na_m_subrem_params;
  (match r with
   | Some p =>
       nas_send_wnm_subscription_remediation (sr_subrem_url p) ea (sr_serverMethod p) ;;
       set_nas (fun n => n <| na_m_subrem_params := None |>)
   | None => mret tt
   end) ;;
  b ← nas na_m_bsstran_params;
  (match b with
   | Some p =>
       nas_send_bss_transition_mgmt_req (bt_url p) (bt_reqmode p) (wrap16 (bt_swt p * 600)) (bt_dur p) 1 ;;
       set_nas (fun n => n <| na_m_bsstran_params := None |>)
   | None => mret tt
   end).

End Wnm.

(** ** What the encoder writes *)

Lemma encode_fits pieces max b : Z.of_nat (length b + length (concat pieces)) <= max ->
  encode (map bcm_encode_bytes pieces) (WnmEncode max b) = WnmEncode max (b ++ concat pieces).
Proof.
  revert b. induction pieces as [|p l IH]; intros b H; cbn [map encode fold_left concat].
  - by rewrite app_nil_r.
  - cbn [concat] in H. rewrite length_app in H. unfold bcm_encode_bytes at 2, isLengthValid, bcm_encode_length.
    cbn [we_buf we_maxLength]. rewrite (proj2 (Z.leb_le _ _)) by lia. fold (encode (map bcm_encode_bytes l)).
    rewrite IH by (rewrite length_app; lia). by rewrite <- app_assoc.
Qed.

Lemma encode_app a b pkt : encode (a ++ b) pkt = encode b (encode a pkt).
Proof. apply fold_left_app. Qed.

Lemma encode_drops bytes max b : max < Z.of_nat (length b + length bytes) ->
  bcm_encode_bytes bytes (WnmEncode max b) = WnmEncode max b.
Proof.
  intros H. unfold bcm_encode_bytes, isLengthValid, bcm_encode_length. cbn. by rewrite (proj2 (Z.leb_gt _ _)) by lia.
Qed.

(** The fixed part of a deauthentication imminent notification. *)
Definition deauth_head `{E : Env} (token reason delay urlLen : Z) : list Z :=
  [10; 26; wrap8 token; wrap8 HSPOT_WNM_TYPE; 221; wrap8 (8 + urlLen)] ++ WFA_OUI ++
  [wrap8 HSPOT_WNM_DEAUTHENTICATION_IMMINENT; wrap8 reason; wrap8 delay; wrap8 (Z.shiftr delay 8); wrap8 urlLen].

(** A URL of at most 242 bytes goes whole into the deauthentication imminent frame,
    whose element length byte is then that of the element; a longer one, up to the 255
    the caller lets through, is left out of the frame, whose length bytes still count
    it. *)
Theorem deauth_imminent_frame `{E : Env} token reason delay url : (length url <= 255)%nat ->
  let n := Z.of_nat (length url) in
  we_buf (bcm_encode_wnm_deauthentication_imminent token reason delay url (bcm_encode_init (Z.of_nat WLC_IOCTL_SMLEN))) =
  deauth_head token reason delay n ++ (if n <=? 242 then url else []) /\
  (n <= 242 -> nth 5 (deauth_head token reason delay n) 0 =
               Z.of_nat (length (drop 6 (deauth_head token reason delay n ++ url)))).
Proof.
  intros Hl n. split.
  - unfold bcm_encode_wnm_deauthentication_imminent, bcm_encode_init. rewrite encode_app. fold n.
    set (calls := [bcm_encode_byte DOT11_ACTION_CAT_WNM; _; _; _; _; _; _; _; _; _; _]).
    assert (Hc : encode calls (WnmEncode (Z.of_nat WLC_IOCTL_SMLEN) []) =
                 WnmEncode (Z.of_nat WLC_IOCTL_SMLEN) (deauth_head token reason delay n)).
    { refine (encode_fits [[10]; [26]; [wrap8 token]; [wrap8 HSPOT_WNM_TYPE]; [221]; [wrap8 (8 + n)]; WFA_OUI;
        [wrap8 HSPOT_WNM_DEAUTHENTICATION_IMMINENT]; [wrap8 reason]; [wrap8 delay; wrap8 (Z.shiftr delay 8)]; [wrap8 n]] 256 [] _).
      cbn. lia. }
    rewrite Hc. change (Z.of_nat WLC_IOCTL_SMLEN) with 256.
    destruct (Z.ltb_spec 0 n) as [Hn|Hn]; destruct (Z.leb_spec n 242); unfold n in *; try lia.
    + pose proof (encode_fits [url] 256 (deauth_head token reason delay (Z.of_nat (length url)))) as He.
      cbn [concat map] in He. rewrite app_nil_r in He. rewrite He; [done|cbn; lia].
    + cbn [encode fold_left]. rewrite encode_drops; [by rewrite app_nil_r|cbn; lia].
    + destruct url; [by rewrite app_nil_r|cbn in *; lia].
  - intros Hn. cbn [deauth_head nth app WFA_OUI drop length]. unfold wrap8. rewrite Z.mod_small by (unfold n in *; lia).
    unfold n. lia.
Qed.

Lemma deauth_imminent_frame_witness :
  we_buf (bcm_encode_wnm_deauthentication_imminent (E := env_yes) 1 3 600 (repeat 97 243) (bcm_encode_init (Z.of_nat WLC_IOCTL_SMLEN))) =
  [10; 26; 1; 1; 221; 251; 0x50; 0x6F; 0x9A; 1; 3; 88; 2; 243].
Proof.
  rewrite (proj1 (deauth_imminent_frame (E := env_yes) 1 3 600 (repeat 97 243) ltac:(rewrite repeat_length; lia))).
  vm_compute. reflexivity.
Defined.
