(* ===== verification/NasRel.v ===== *)
(** Relational reasoning about the handlers.  [Rel R m] says that whenever [m] returns,
    its start and end states are related by [R].  Here are the primitive steps and the
    library calls of nas for every [R] that a few closure conditions make possible
    ([StepRel], [StaRel], ...), and the relations the theorems are stated with: the
    station table stays well formed, and the calls made are of certain kinds only. *)
From stdpp Require Import base option list numbers strings.
From Stdlib Require Import ZArith Lia.
From S2P Require Import Prelude Monad NasState NasSta WpaIe WpaKey NasWnm.
Local Open Scope Z_scope.

(** Instances are found by the name of the handler, not by unfolding it. *)
#[export] Typeclasses Opaque emit call nas wpa sta suppl reply nas_handle_error set_nas set_flags set_wpa set_sta set_suppl walk lift_ie time_ nas_rand128 nas_sleep_ms
  nas_set_key nas_authorize nas_deauthorize nas_deauthenticate nas_get_group_rsc nas_wl_tkip_countermeasures nas_disassoc nas_set_ssid
  nas_get_wpacap nas_get_stainfo nas_send_brcm_event nas_eapol_send_packet nas_preauth_send_packet wpa_set_itimer wpa_set_timeout
  TIMER_DELETE wpa_stop_retx set_retx_timer toss_sta cleanup_sta init_sta lookup_sta set_hashed
  iovar_getbuf wpa_get_rsn_cap nas_get_wpa_ie wpa_build_ie wpa_set_suppl
  fPRF_out nas_wpa_calc_pmkid wpa_calc_ptk initialize_global_key_counter initialize_gmk wpa_incr_gkc wpa_gen_gtk wpa_plumb_gtk
  wpa_set_gtk_timer wpa_init_gtk refresh_gtk_rsc data_within wpa_check_mic wpa_decr_key_data wpa_encr_gtk wpa_decr_gtk
  wpa_insert_gtk wpa_insert_pmkid wpa_extract_gtk
  wl_actframe wl_wnm_url wl_wnm_bsstrans_req nas_send_wnm_notifications.

(** ** Closure conditions *)

(** Every call but sending a frame, authorizing a station and giving the driver a
    pairwise key. *)
Definition tame (e : event) : Prop :=
  match e with
  | EvSend _ | EvAuthorize _ => False
  | EvSetKey k => wk_ea k = None \/ wk_len k <= 0
  | _ => True
  end.

(** The parts of the server the group key machinery does not write. *)
Definition same_frame (n n' : nas_t) : Prop :=
  na_sta n' = na_sta n /\ na_sta_hashed n' = na_sta_hashed n /\ na_ea n' = na_ea n /\ na_mode n' = na_mode n /\
  f_wds (na_flags n') = f_wds (na_flags n) /\ f_supplicant (na_flags n') = f_supplicant (na_flags n) /\
  f_authenticator (na_flags n') = f_authenticator (na_flags n).

Class StepRel (R : relation world) : Prop := {
  step_pre :: PreOrder R;
  step_emit : forall e w, tame e -> R w (World (w_nas w) (e :: w_log w));
  step_nas : forall f w, same_frame (w_nas w) (f (w_nas w)) -> R w (World (f (w_nas w)) (w_log w))
}.

(** ... sending a frame, and writing a station but for its links. *)
Class UpdRel (R : relation world) : Prop := {
  upd_step :: StepRel R;
  upd_send : forall pkt w, R w (World (w_nas w) (EvSend pkt :: w_log w));
  upd_links : forall i f w, (forall s, links (f s) = links s) -> R w (World (upd_sta (w_nas w) i f) (w_log w))
}.

(** ... finding, making and tossing stations. *)
Class StaRel `{Env} (R : relation world) : Prop := {
  sta_upd :: UpdRel R;
  sta_cleanup : forall i reason ds, Rel R (cleanup_sta i reason ds);
  sta_lookup : forall ea mode, Rel R (lookup_sta ea mode)
}.

(** Authorizing a station, and giving the driver any key. *)
Class AuthRel (R : relation world) : Prop :=
  auth_emit : forall ea w, R w (World (w_nas w) (EvAuthorize ea :: w_log w)).
Class KeyRel (R : relation world) : Prop :=
  key_emit : forall k w, R w (World (w_nas w) (EvSetKey k :: w_log w)).

#[export] Hint Extern 1 (tame _) => exact I : core.
#[export] Hint Extern 1 (same_frame _ _) => repeat split; fail : core.

(** ** Primitive steps and calls *)

Section Step.
Context `{E : Env} (R : relation world) `{HR : !StepRel R}.

#[export] Instance rel_nas {A} (f : nas_t -> A) : Rel R (nas f).
Proof. apply rel_get, _. Qed.
#[export] Instance rel_wpa {A} (f : wpa_t -> A) : Rel R (wpa f).
Proof. apply rel_get, _. Qed.
#[export] Instance rel_sta {A} i (f : nas_sta_t -> A) : Rel R (sta i f).
Proof. apply rel_get, _. Qed.
#[export] Instance rel_suppl {A} i (f : wpa_suppl_t -> A) : Rel R (suppl i f).
Proof. apply rel_get, _. Qed.
#[export] Instance rel_reply {A} (f : list event -> A) : Rel R (reply f).
Proof. apply rel_get, _. Qed.
#[export] Instance rel_handle_error {A} : Rel R (nas_handle_error : N A).
Proof. apply rel_halt. Qed.

Lemma rel_emit e : tame e -> Rel R (emit e).
Proof. intros He w. apply wp_emit. by apply step_emit. Qed.

Lemma rel_call e : tame e -> Rel R (call e).
Proof. intros He. apply rel_bind; [apply _|by apply rel_emit|intros; apply _]. Qed.

Lemma rel_set_nas f : (forall n, same_frame n (f n)) -> Rel R (set_nas f).
Proof. intros Hf w. apply wp_set_nas. by apply step_nas. Qed.

#[export] Instance rel_set_wpa f : Rel R (set_wpa f).
Proof. apply rel_set_nas. auto. Qed.

Lemma rel_set_flags f : (forall x, f_wds (f x) = f_wds x /\ f_supplicant (f x) = f_supplicant x /\
  f_authenticator (f x) = f_authenticator x) -> Rel R (set_flags f).
Proof. intros Hf. apply rel_set_nas. intros n. destruct (Hf (na_flags n)) as (?&?&?). by repeat split. Qed.

Lemma rel_walk stop p : Rel R (walk stop p).
Proof. unfold walk. rel_auto. Qed.

Lemma rel_lift_ie {A} (r : ie_res A) : Rel R (lift_ie r).
Proof. destruct r; cbn [lift_ie]; apply _. Qed.
End Step.

#[export] Hint Extern 2 (Rel _ (emit _)) => apply rel_emit; [exact _|done] : typeclass_instances.
#[export] Hint Extern 2 (Rel _ (call _)) => apply rel_call; [exact _|done] : typeclass_instances.
#[export] Hint Extern 2 (Rel _ (set_nas _)) => apply rel_set_nas; [exact _|by auto] : typeclass_instances.
#[export] Hint Extern 2 (Rel _ (set_flags _)) => apply rel_set_flags; [exact _|done] : typeclass_instances.
#[export] Hint Extern 2 (Rel _ (walk _ _)) => apply rel_walk; exact _ : typeclass_instances.
#[export] Hint Extern 2 (Rel _ (lift_ie _)) => apply rel_lift_ie; exact _ : typeclass_instances.

(** ** Calls that leave the table alone *)

Section Calls.
Context `{E : Env} (R : relation world) `{HR : !StepRel R}.

Local Tactic Notation "go" reference(f) := intros; unfold f; rel_auto.

#[export] Instance rel_time : Rel R time_.
Proof. go time_. Qed.
#[export] Instance rel_rand128 : Rel R nas_rand128.
Proof. go nas_rand128. Qed.
#[export] Instance rel_sleep ms : Rel R (nas_sleep_ms ms).
Proof. go nas_sleep_ms. Qed.

#[export] Instance rel_set_group_key key len index tx hi lo force : Rel R (nas_set_key None key len index tx hi lo force).
Proof. unfold nas_set_key. apply rel_call; [exact _|by left]. Qed.

#[export] Instance rel_clear_key ea index tx hi lo force : Rel R (nas_set_key (Some ea) [] 0 index tx hi lo force).
Proof. unfold nas_set_key. apply rel_call; [exact _|]. right. cbn. lia. Qed.

#[export] Instance rel_deauthorize ea : Rel R (nas_deauthorize ea).
Proof. go nas_deauthorize. Qed.
#[export] Instance rel_deauthenticate ea reason : Rel R (nas_deauthenticate ea reason).
Proof. go nas_deauthenticate. Qed.
#[export] Instance rel_group_rsc index : Rel R (nas_get_group_rsc index).
Proof. go nas_get_group_rsc. Qed.
#[export] Instance rel_tkip_cm b : Rel R (nas_wl_tkip_countermeasures b).
Proof. go nas_wl_tkip_countermeasures. Qed.
#[export] Instance rel_disassoc : Rel R nas_disassoc.
Proof. go nas_disassoc. Qed.
#[export] Instance rel_set_ssid s : Rel R (nas_set_ssid s).
Proof. go nas_set_ssid. Qed.
#[export] Instance rel_wpacap : Rel R nas_get_wpacap.
Proof. go nas_get_wpacap. Qed.
#[export] Instance rel_stainfo ea : Rel R (nas_get_stainfo ea).
Proof. go nas_get_stainfo. Qed.
#[export] Instance rel_brcm_event ea reason : Rel R (nas_send_brcm_event ea reason).
Proof. go nas_send_brcm_event. Qed.
#[export] Instance rel_send_preauth pkt : Rel R (nas_preauth_send_packet pkt).
Proof. go nas_preauth_send_packet. Qed.
#[export] Instance rel_set_itimer h secs msecs : Rel R (wpa_set_itimer h secs msecs).
Proof. go wpa_set_itimer. Qed.
#[export] Instance rel_set_timeout td secs msecs : Rel R (wpa_set_timeout td secs msecs).
Proof. go wpa_set_timeout. Qed.
#[export] Instance rel_timer_delete td : Rel R (TIMER_DELETE td).
Proof. go TIMER_DELETE. Qed.

#[export] Instance rel_iovar name : Rel R (iovar_getbuf name).
Proof. go iovar_getbuf. Qed.
#[export] Instance rel_rsn_cap : Rel R wpa_get_rsn_cap.
Proof. go wpa_get_rsn_cap. Qed.
#[export] Instance rel_get_ie len mode : Rel R (nas_get_wpa_ie len mode).
Proof. go nas_get_wpa_ie. Qed.
#[export] Instance rel_build_ie wsec algo mode len : Rel R (wpa_build_ie wsec algo mode len).
Proof. go wpa_build_ie. Qed.

#[export] Instance rel_fPRF key prefix data len : Rel R (fPRF_out key prefix data len).
Proof. go fPRF_out. Qed.
#[export] Instance rel_init_gkc : Rel R initialize_global_key_counter.
Proof. go initialize_global_key_counter. Qed.
#[export] Instance rel_init_gmk : Rel R initialize_gmk.
Proof. go initialize_gmk. Qed.
#[export] Instance rel_incr_gkc : Rel R wpa_incr_gkc.
Proof. go wpa_incr_gkc. Qed.
#[export] Instance rel_gen_gtk : Rel R wpa_gen_gtk.
Proof. go wpa_gen_gtk. Qed.
#[export] Instance rel_plumb_gtk b : Rel R (wpa_plumb_gtk b).
Proof. go wpa_plumb_gtk. Qed.
#[export] Instance rel_gtk_timer : Rel R wpa_set_gtk_timer.
Proof. go wpa_set_gtk_timer. Qed.
#[export] Instance rel_init_gtk : Rel R wpa_init_gtk.
Proof. go wpa_init_gtk. Qed.
#[export] Instance rel_refresh_rsc : Rel R refresh_gtk_rsc.
Proof. go refresh_gtk_rsc. Qed.
#[export] Instance rel_data_within p : Rel R (data_within p).
Proof. go data_within. Qed.
#[export] Instance rel_check_mic i p : Rel R (wpa_check_mic i p).
Proof. go wpa_check_mic. Qed.
#[export] Instance rel_decr_key_data desc key p : Rel R (wpa_decr_key_data desc key p).
Proof. go wpa_decr_key_data. Qed.
#[export] Instance rel_encr_gtk desc key : Rel R (wpa_encr_gtk desc key).
Proof. go wpa_encr_gtk. Qed.
#[export] Instance rel_decr_gtk desc key p : Rel R (wpa_decr_gtk desc key p).
Proof. go wpa_decr_gtk. Qed.
#[export] Instance rel_insert_gtk data : Rel R (wpa_insert_gtk data).
Proof. go wpa_insert_gtk. Qed.
#[export] Instance rel_insert_pmkid i data : Rel R (wpa_insert_pmkid i data).
Proof. go wpa_insert_pmkid. Qed.
#[export] Instance rel_extract_gtk p : Rel R (wpa_extract_gtk p).
Proof. go wpa_extract_gtk. Qed.

#[export] Instance rel_actframe bssid da dwell data : Rel R (wl_actframe bssid da dwell data).
Proof. go wl_actframe. Qed.
#[export] Instance rel_wnm_url url : Rel R (wl_wnm_url url).
Proof. go wl_wnm_url. Qed.
#[export] Instance rel_bsstrans a b c d : Rel R (wl_wnm_bsstrans_req a b c d).
Proof. go wl_wnm_bsstrans_req. Qed.
#[export] Instance rel_wnm_notifications ea : Rel R (nas_send_wnm_notifications ea).
Proof.
  unfold nas_send_wnm_notifications, nas_send_wnm_deauthentication_imminent, nas_send_wnm_subscription_remediation,
    nas_send_bss_transition_mgmt_req. rel_auto.
Qed.
End Calls.

(** ** Calls that write a station *)

Section Station.
Context `{E : Env} (R : relation world) `{HR : !UpdRel R}.

Local Tactic Notation "go" reference(f) := intros; unfold f; rel_auto.

#[export] Instance rel_send pkt : Rel R (nas_eapol_send_packet pkt).
Proof. intros w. apply wp_emit, upd_send. Qed.

Lemma rel_set_sta i f : (forall s, links (f s) = links s) -> Rel R (set_sta i f).
Proof. intros Hf w. apply wp_set_sta. by apply upd_links. Qed.

#[export] Instance rel_set_suppl i f : Rel R (set_suppl i f).
Proof. by apply rel_set_sta. Qed.

End Station.

#[export] Hint Extern 2 (Rel _ (set_sta _ _)) => apply rel_set_sta; [exact _|done] : typeclass_instances.

Section Station2.
Context `{E : Env} (R : relation world) `{HR : !UpdRel R}.

Local Tactic Notation "go" reference(f) := intros; unfold f; rel_auto.

#[export] Instance rel_stop_retx i : Rel R (wpa_stop_retx i).
Proof. go wpa_stop_retx. Qed.
#[export] Instance rel_retx_timer i : Rel R (set_retx_timer i).
Proof. go set_retx_timer. Qed.
#[export] Instance rel_calc_pmkid i : Rel R (nas_wpa_calc_pmkid i).
Proof. go nas_wpa_calc_pmkid. Qed.
#[export] Instance rel_calc_ptk i : Rel R (wpa_calc_ptk i).
Proof. go wpa_calc_ptk. Qed.
#[export] Instance rel_wpa_set_suppl i mode wsec algo : Rel R (wpa_set_suppl i mode wsec algo).
Proof. go wpa_set_suppl. Qed.
End Station2.

Section Table.
Context `{E : Env} (R : relation world) `{HR : !StaRel R}.

#[export] Instance rel_cleanup i reason ds : Rel R (cleanup_sta i reason ds).
Proof. apply sta_cleanup. Qed.

#[export] Instance rel_lookup ea mode : Rel R (lookup_sta ea mode).
Proof. apply sta_lookup. Qed.
End Table.

(** ** The relations *)

(** The station table stays well formed. *)
Definition keeps_table (w w' : world) : Prop := table_ok (w_nas w) -> table_ok (w_nas w').

(** The calls made are tame but for authorizing stations in [C] and installing keys in
    [D]. *)
Definition allowed (C : list Z -> Prop) (D : wl_wsec_key_t -> Prop) (e : event) : Prop :=
  match e with
  | EvAuthorize ea => C ea
  | EvSetKey k => wk_ea k = None \/ wk_len k <= 0 \/ D k
  | _ => True
  end.

Definition calls (C : list Z -> Prop) (D : wl_wsec_key_t -> Prop) (w w' : world) : Prop :=
  exists evs, w_log w' = evs ++ w_log w /\ Forall (allowed C D) evs.

(** The server but for the group key state. *)
Definition keeps_frame (w w' : world) : Prop := same_frame (w_nas w) (w_nas w').

Lemma tame_allowed C D e : tame e -> allowed C D e.
Proof. destruct e; cbn; tauto. Qed.

Lemma same_frame_refl n : same_frame n n.
Proof. by repeat split. Qed.

Lemma same_frame_trans n1 n2 n3 : same_frame n1 n2 -> same_frame n2 n3 -> same_frame n1 n3.
Proof.
  intros (?&?&?&?&?&?&?) (?&?&?&?&?&?&?). unfold same_frame. split_and!; congruence.
Qed.

#[export] Instance keeps_frame_step : StepRel keeps_frame.
Proof.
  split; [split|..].
  - intros w. apply (same_frame_refl (w_nas w)).
  - intros w1 w2 w3. apply (same_frame_trans (w_nas w1) (w_nas w2) (w_nas w3)).
  - intros e w _. apply (same_frame_refl (w_nas w)).
  - intros f w H. exact H.
Qed.

Lemma same_frame_table n n' : same_frame n n' -> same_table n n'.
Proof. intros (Ha & Hb & _). split_and!; [by rewrite Ha|done|]. intros i. unfold sta_at. by rewrite Ha. Qed.

Section Relations.
Context `{E : Env}.

Lemma keeps_table_pre : PreOrder keeps_table.
Proof. split; unfold keeps_table; [by intros w|]. intros w1 w2 w3. tauto. Qed.

#[export] Instance keeps_table_step : StepRel keeps_table.
Proof.
  split; [apply keeps_table_pre|..].
  - intros e w _ Hw. exact Hw.
  - intros f w H Hw. by rewrite (same_frame_table _ _ H) in Hw.
Qed.

#[export] Instance keeps_table_auth : AuthRel keeps_table.
Proof. intros ea w Hw. exact Hw. Qed.
#[export] Instance keeps_table_key : KeyRel keeps_table.
Proof. intros ea w Hw. exact Hw. Qed.

(** Total correctness with a precondition gives the relation. *)
Lemma rel_of_twp {A} (m : N A) : (forall w, table_ok (w_nas w) -> wp m (fun _ w' => table_ok (w_nas w')) w) -> Rel keeps_table m.
Proof.
  intros H w. unfold keeps_table. specialize (H w). revert H. unfold wpx. destruct (m w); auto.
Qed.

#[export] Instance keeps_table_sta : StaRel keeps_table.
Proof.
  split; [split; [apply _|by intros pkt w Hw|]|..].
  - intros i f w Hf Hw. by rewrite (same_table_upd _ i f Hf) in Hw.
  - intros i reason ds. apply rel_of_twp. intros w Hw. destruct (decide (i < MAX_SUPPLICANTS)%nat).
    + apply twp_wp. eapply wp_mono; [by apply cleanup_sta_spec|]. by intros ? w' [H _].
    + eapply wp_mono; [apply cleanup_sta_out; [done|lia]|]. intros ? w' H. by rewrite H.
  - intros ea mode. apply rel_of_twp. intros w Hw. apply twp_wp.
    eapply wp_mono; [by apply lookup_sta_ok|]. by intros ? w' [H _].
Qed.

#[export] Instance calls_step C D : StepRel (calls C D).
Proof.
  split; [split|..].
  - intros w. by exists [].
  - intros w1 w2 w3 (e1 & H1 & F1) (e2 & H2 & F2). exists (e2 ++ e1). split; [by rewrite H2, H1, app_assoc|].
    by apply Forall_app_2.
  - intros e w He. exists [e]. split; [done|]. constructor; [by apply tame_allowed|constructor].
  - intros f w _. by exists [].
Qed.

#[export] Instance calls_sta C D : StaRel (calls C D).
Proof.
  assert (Hs : forall i f, Rel (calls C D) (set_sta i f)) by (intros i f w; apply wp_set_sta; by exists []).
  assert (Hn : forall f, Rel (calls C D) (set_nas f)) by (intros f w; apply wp_set_nas; by exists []).
  assert (Hr : forall i, Rel (calls C D) (wpa_stop_retx i)) by (intros i; unfold wpa_stop_retx; rel_auto).
  assert (Ht : forall i reason ds, Rel (calls C D) (toss_sta i reason ds)) by (intros; unfold toss_sta, set_hashed; rel_auto).
  split; [split; [apply _|intros pkt w; exists [EvSend pkt]; by repeat constructor|]|..].
  - intros i f w _. by exists [].
  - intros i reason ds. unfold cleanup_sta, set_suppl. rel_auto.
  - intros ea mode. unfold lookup_sta, init_sta, set_hashed. rel_auto.
Qed.
End Relations.

(** The links of every station. *)
Definition keeps_links (w w' : world) : Prop := same_table (w_nas w) (w_nas w').

#[export] Instance keeps_links_upd : UpdRel keeps_links.
Proof.
  split; [split; [split|..]|..]; unfold keeps_links.
  - by intros w.
  - intros w1 w2 w3 H1 H2. by transitivity (w_nas w2).
  - by intros e w _.
  - intros f w H. by apply same_frame_table.
  - by intros pkt w.
  - intros i f w Hf. by apply same_table_upd.
Qed.

Lemma keeps_links_ea w w' i : keeps_links w w' -> st_ea (sta_at (w_nas w') i) = st_ea (sta_at (w_nas w) i).
Proof. intros (_ & _ & H). specialize (H i). unfold links in H. congruence. Qed.

(** From a state already reached. *)
Lemma rel_from {A} (R : relation world) `{!Transitive R} (m : N A) w0 w : Rel R m -> R w0 w -> wp m (fun _ w' => R w0 w') w.
Proof. intros Hm Hw. eapply wp_mono; [apply Hm|]. intros a w' H. by transitivity w. Qed.

(** Checking a MIC changes nothing. *)
Lemma wpa_check_mic_wp `{E : Env} P i p w : (data_len_ok p = false -> P) ->
  wpx P (wpa_check_mic i p) (fun r w' => w' = w /\ r = mic_ok (eapol_mic_key (st_suppl (sta_at (w_nas w) i))) p) w.
Proof. intros HP. unfold wpa_check_mic, data_within. do 2 nas_step; [|by apply HP]. by nas_steps. Qed.

(** ** What a handler leaves alone of one station *)

Definition keeps_at {A} (i : nat) (proj : nas_sta_t -> A) (w w' : world) : Prop :=
  proj (sta_at (w_nas w') i) = proj (sta_at (w_nas w) i).

Section At.
Context {A : Type} (i : nat) (proj : nas_sta_t -> A).

#[export] Instance keeps_at_step : StepRel (keeps_at i proj).
Proof.
  split; [split|..]; unfold keeps_at.
  - by intros w.
  - intros w1 w2 w3. congruence.
  - by intros e w _.
  - intros f w (Hs & _). unfold sta_at. cbn [w_nas]. by rewrite Hs.
Qed.

Lemma sta_at_upd_proj n j f : (forall s, proj (f s) = proj s) -> proj (sta_at (upd_sta n j f) i) = proj (sta_at n i).
Proof.
  intros Hf. destruct (decide (j = i)) as [->|Hn]; [|by rewrite sta_at_upd_other].
  destruct (decide (i < length (na_sta n))%nat); [by rewrite sta_at_upd_same|].
  by rewrite upd_sta_ge by lia.
Qed.

Lemma keeps_at_set j f : (forall s, proj (f s) = proj s) -> Rel (keeps_at i proj) (set_sta j f).
Proof. intros Hf w. apply wp_set_sta. by apply sta_at_upd_proj. Qed.

Lemma keeps_at_suppl j f : (forall s, proj (s <| st_suppl ::= f |>) = proj s) -> Rel (keeps_at i proj) (set_suppl j f).
Proof. intros Hf. by apply keeps_at_set. Qed.

#[export] Instance keeps_at_send pkt : Rel (keeps_at i proj) (nas_eapol_send_packet pkt).
Proof. intros w. by apply wp_emit. Qed.
#[export] Instance keeps_at_auth : AuthRel (keeps_at i proj).
Proof. by intros ea w. Qed.
#[export] Instance keeps_at_key : KeyRel (keeps_at i proj).
Proof. by intros k w. Qed.

Lemma keeps_at_eq w w' : keeps_at i proj w w' -> proj (sta_at (w_nas w') i) = proj (sta_at (w_nas w) i).
Proof. done. Qed.
End At.

#[export] Hint Extern 3 (Rel (keeps_at _ _) (set_sta _ _)) => apply keeps_at_set; intros; reflexivity : typeclass_instances.
#[export] Hint Extern 3 (Rel (keeps_at _ _) (set_suppl _ _)) => apply keeps_at_suppl; intros; reflexivity : typeclass_instances.
