(* ===== verification/WpaMsg.v ===== *)
(** The EAPOL-Key messages nas sends (wpa_send_eapol and wpa_send_mic_failure of
    src/userspace/nas/src/wpa.c): the contents of each message by the state of the
    exchange, its integrity code, and that every message sent with one is a frame that
    verifies under the same key. *)
From stdpp Require Import base option list numbers strings.
From Stdlib Require Import ZArith Lia.
From S2P Require Import Prelude Monad NasState NasSta WpaIe WpaKey NasRel.
Local Open Scope Z_scope.

(** The 1024 byte buffer after the two headers. *)
Definition EAPOL_BUFFER_DATA : Z := 1024 - 113.

(** sizeof(body->data) and what wpa_send_eapol takes for the room of message 3: the
    buffer less the key header, as if the Ethernet and EAPOL headers were not in it. *)
Definition EAPOL_WPA_KEY_DATA_LEN : Z := 40.
Definition M3_DATA_LEN : Z := 1024 - 95.

Section Msg.
Context `{E : Env}.

Definition KEY_TYPE (mode : Z) : Z := if CHECK_WPA2 mode then EAPOL_WPA2_KEY else EAPOL_WPA_KEY.

(** The headers of a message from [own] to the station, the rest zero. *)
Definition blank_frame (own : list Z) (s : nas_sta_t) : eapol_key_t :=
  EapolKey (st_ea s) own ETHER_TYPE_802_1X (st_eapol_version s) EAPOL_KEY EAPOL_WPA_KEY_LEN (KEY_TYPE (st_mode s)) 0 0
    (sp_replay (st_suppl s)) (replicate NONCE_LEN 0) (replicate 16 0) (replicate 8 0) (replicate 8 0) (replicate 16 0) 0 [].

(** The key data and the lengths that count it. *)
Definition put_data (data : list Z) (p : eapol_key_t) : N eapol_key_t :=
  let len := Z.of_nat (length data) in
  within (len <=? EAPOL_BUFFER_DATA) ;;
  mret (p <| ek_data := data |> <| ek_data_len := wrap16 len |> <| ek_length := wrap16 (EAPOL_WPA_KEY_LEN + len) |>).

Definition or_all (l : list Z) : Z := fold_left Z.lor l 0.

(** The encryption of the key data, which must not fail. *)
Definition encr_data (i : nat) (data : list Z) : N (list Z) :=
  w ← wpa (fun w => w);
  s ← suppl i (fun s => s);
  match wpa_encr_key_data (sp_desc s) (key_iv w) (eapol_encr_key s) data with
  | Some data => mret data
  | None => nas_handle_error
  end.

(** Message 1 of the 4-way handshake. *)
Definition msg_ptkstart (i : nat) (p : eapol_key_t) : N eapol_key_t :=
  s ← suppl i (fun s => s);
  mode ← sta i st_mode;
  let p := p <| ek_key_len := wrap16 (sp_tk_len s) |>
             <| ek_key_info := wrap16 (or_all [sp_desc s; WPA_KEY_ACK; WPA_KEY_PAIRWISE]) |>
             <| ek_nonce := sp_anonce s |> in
  if CHECK_WPA2 mode then data ← wpa_insert_pmkid i []; put_data data p else mret p.

(** Message 3. *)
Definition msg_ptkinitnegotiating (i : nat) (p : eapol_key_t) : N (option eapol_key_t) :=
  s ← suppl i (fun s => s);
  mode ← sta i st_mode;
  wds ← nas (fun n => f_wds (na_flags n));
  let rsn := CHECK_WPA2 mode in
  let p := p <| ek_key_len := wrap16 (sp_tk_len s) |>
             <| ek_key_info := wrap16 (or_all ([sp_desc s; WPA_KEY_ACK; WPA_KEY_PAIRWISE; WPA_KEY_INSTALL; WPA_KEY_MIC] ++
                  (if rsn then [WPA_KEY_SECURE; WPA_KEY_ENCRYPTED_DATA] else []) ++
                  (if (wds : bool) then [WPA_KEY_SECURE] else []))) |>
             <| ek_nonce := sp_anonce s |> in
  wsec ← nas na_wsec;
  gtk_len ← wpa wp_gtk_len;
  ie ← wpa_build_ie wsec (WEP_KEY2ALGO gtk_len) mode M3_DATA_LEN;
  match ie with
  | None => mret None
  | Some ie =>
      p ← (if rsn then
             d ← wpa_insert_gtk ie;
             w ← wpa (fun w => w);
             data ← encr_data i (fst d);
             put_data data (p <| ek_rsc := snd d |> <| ek_iv := key_iv w |>)
           else put_data ie p);
      mret (Some p)
  end.

(** The group key message. *)
Definition msg_rekeynegotiating (i : nat) (p : eapol_key_t) : N eapol_key_t :=
  s ← suppl i (fun s => s);
  mode ← sta i st_mode;
  let info := [sp_desc s; WPA_KEY_SECURE; WPA_KEY_ACK; WPA_KEY_MIC] in
  if CHECK_WPA2 mode then
    d ← wpa_insert_gtk [];
    w ← wpa (fun w => w);
    data ← encr_data i (fst d);
    put_data data (p <| ek_key_info := wrap16 (or_all (info ++ [WPA_KEY_ENCRYPTED_DATA])) |>
                     <| ek_rsc := snd d |> <| ek_iv := key_iv w |>)
  else
    w ← wpa (fun w => w);
    let key_index := Z.land (Z.shiftl (wp_gtk_index w) WPA_KEY_INDEX_SHIFT) WPA_KEY_INDEX_MASK in
    r ← wpa_encr_gtk (sp_desc s) (eapol_encr_key s);
    match r with
    | Some (data, _) =>
        put_data data (p <| ek_key_len := wrap16 (wp_gtk_len w) |>
                         <| ek_key_info := wrap16 (or_all (info ++ [key_index])) |>
                         <| ek_nonce := wp_gnonce w |> <| ek_iv := key_iv w |> <| ek_rsc := wp_gtk_rsc w |>)
    | None => nas_handle_error
    end.

(** The supplicant's request for a handshake. *)
Definition msg_sup_initialize (i : nat) (p : eapol_key_t) : N eapol_key_t :=
  s ← suppl i (fun s => s);
  mret (p <| ek_key_len := wrap16 (sp_tk_len s) |>
          <| ek_key_info := wrap16 (or_all [sp_desc s; WPA_KEY_REQ; WPA_KEY_PAIRWISE]) |>
          <| ek_nonce := sp_snonce s |>).

Definition known_desc (desc : Z) : bool := (desc =? WPA_KEY_DESC_V1) || (desc =? WPA_KEY_DESC_V2).

(** Messages 2 and 4 and the reply to the group key message. *)
Definition msg_sup_stakeystart (i : nat) (pairwise : bool) (p : eapol_key_t) : N (option eapol_key_t) :=
  s ← suppl i (fun s => s);
  st ← sta i (fun s => s);
  n ← nas (fun n => n);
  let p := p <| ek_key_len := wrap16 (sp_tk_len s) |> <| ek_nonce := sp_snonce s |> in
  let info := [sp_desc s; WPA_KEY_MIC] in
  let flags (l : list Z) := p <| ek_key_info := wrap16 (or_all (info ++ l)) |> in
  r ← (if pairwise then
         match sp_pk_state s with
         | EAPOL_SUP_PK_MSG1 =>
             ie ← wpa_build_ie (na_wsec n) (st_algo st) (st_mode st) EAPOL_WPA_KEY_DATA_LEN;
             match ie with
             | None => mret None
             | Some ie =>
                 p ← put_data ie (flags [WPA_KEY_PAIRWISE]);
                 set_suppl i (fun s => s <| sp_pk_state := EAPOL_SUP_PK_MSG3 |>) ;;
                 mret (Some p)
             end
         | EAPOL_SUP_PK_MSG3 =>
             mret (Some (flags ([WPA_KEY_PAIRWISE] ++
               (if f_wds (na_flags n) || CHECK_WPA2 (st_mode st) then [WPA_KEY_SECURE] else []))))
         | _ => mret (Some (flags [WPA_KEY_PAIRWISE]))
         end
       else mret (Some (flags [WPA_KEY_SECURE])));
  match r with
  | None => mret None
  | Some p =>
      if known_desc (sp_desc s) then mret (Some p)
      else
        when (negb (f_wds (na_flags n)))
          (nas_disassoc ;; nas_sleep_ms 500 ;; nas_set_ssid (na_ssid n) ;; mret tt) ;;
        mret None
  end.

(** The message of the current state, and whether it carries an integrity code. *)
Definition eapol_msg (i : nat) (p : eapol_key_t) : N (option (eapol_key_t * bool)) :=
  state ← suppl i sp_state;
  match state with
  | WPA_PTKSTART => p ← msg_ptkstart i p; mret (Some (p, false))
  | WPA_PTKINITNEGOTIATING => r ← msg_ptkinitnegotiating i p; mret (option_map (fun p => (p, true)) r)
  | WPA_REKEYNEGOTIATING => p ← msg_rekeynegotiating i p; mret (Some (p, true))
  | WPA_SUP_INITIALIZE => p ← msg_sup_initialize i p; mret (Some (p, false))
  | WPA_SUP_STAKEYSTARTG => r ← msg_sup_stakeystart i false p; mret (option_map (fun p => (p, true)) r)
  | WPA_SUP_STAKEYSTARTP => r ← msg_sup_stakeystart i true p; mret (option_map (fun p => (p, true)) r)
  | _ => mret None
  end.

(** The integrity code over the frame; an unknown descriptor version leaves it zero. *)
Definition sign (desc : Z) (key : list Z) (p : eapol_key_t) : eapol_key_t :=
  match wpa_do_mic desc key (mic_input p) with
  | Some digest => p <| ek_mic := digest |>
  | None => p
  end.

(** Whether a message was sent. *)
Definition wpa_send_eapol (i : nat) : N bool :=
  s ← sta i (fun s => s);
  own ← nas na_ea;
  r ← eapol_msg i (blank_frame own s);
  match (r : option (eapol_key_t * bool)) with
  | None => mret false
  | Some (p, mic) =>
      s ← suppl i (fun s => s);
      nas_eapol_send_packet (frame_bytes (if mic then sign (sp_desc s) (eapol_mic_key s) p else p)) ;;
      mret true
  end.

(** The supplicant's report of a failed TKIP integrity check. *)
Definition wpa_send_mic_failure (i : nat) : N unit :=
  set_suppl i (fun s => s <| sp_replay ::= wpa_incr_array |>) ;;
  s ← sta i (fun s => s);
  own ← nas na_ea;
  let p := (blank_frame own s)
             <| ek_key_info := wrap16 (or_all [sp_desc (st_suppl s); WPA_KEY_ERROR; WPA_KEY_REQ; WPA_KEY_MIC]) |> in
  nas_eapol_send_packet (frame_bytes (sign (sp_desc (st_suppl s)) (eapol_mic_key (st_suppl s)) p)).

End Msg.

#[export] Typeclasses Opaque put_data encr_data msg_ptkstart msg_ptkinitnegotiating msg_rekeynegotiating msg_sup_initialize
  msg_sup_stakeystart eapol_msg wpa_send_eapol wpa_send_mic_failure.

(** ** What sending a message does to the server *)

Section Rels.
Context `{E : Env}.

Local Tactic Notation "go" reference(f) := intros; unfold f; rel_auto.

Section Any.
Context (R : relation world) `{HR : !StepRel R}.

#[export] Instance rel_put_data data p : Rel R (put_data data p).
Proof. go put_data. Qed.
#[export] Instance rel_encr_data i data : Rel R (encr_data i data).
Proof. go encr_data. Qed.
#[export] Instance rel_msg_ptkstart i p : Rel R (msg_ptkstart i p).
Proof. go msg_ptkstart. Qed.
#[export] Instance rel_msg_ptkinitnegotiating i p : Rel R (msg_ptkinitnegotiating i p).
Proof. go msg_ptkinitnegotiating. Qed.
#[export] Instance rel_msg_rekeynegotiating i p : Rel R (msg_rekeynegotiating i p).
Proof. go msg_rekeynegotiating. Qed.
#[export] Instance rel_msg_sup_initialize i p : Rel R (msg_sup_initialize i p).
Proof. go msg_sup_initialize. Qed.
End Any.

Context (R : relation world) `{HR : !UpdRel R}.

#[export] Instance rel_msg_sup_stakeystart i b p : Rel R (msg_sup_stakeystart i b p).
Proof. go msg_sup_stakeystart. Qed.
#[export] Instance rel_eapol_msg i p : Rel R (eapol_msg i p).
Proof. go eapol_msg. Qed.
#[export] Instance rel_send_eapol i : Rel R (wpa_send_eapol i).
Proof. go wpa_send_eapol. Qed.
#[export] Instance rel_send_mic_failure i : Rel R (wpa_send_mic_failure i).
Proof. go wpa_send_mic_failure. Qed.
End Rels.

(** ** Sent messages verify *)

(** Only calls that are not of the three kinds [tame] excludes. *)
Definition silent (w w' : world) : Prop := exists evs, w_log w' = evs ++ w_log w /\ Forall tame evs.

#[export] Instance silent_step : StepRel silent.
Proof.
  split; [split|..].
  - intros w. by exists [].
  - intros w1 w2 w3 (e1 & H1 & F1) (e2 & H2 & F2). exists (e2 ++ e1). split; [by rewrite H2, H1, app_assoc|].
    by apply Forall_app_2.
  - intros e w He. exists [e]. by repeat constructor.
  - intros f w _. by exists [].
Qed.

Lemma land_lor3 a b m : Z.land (Z.lor a b) m = Z.lor (Z.land a m) (Z.land b m).
Proof. apply Z.land_lor_distr_l. Qed.

Lemma wrap16_land x m : 0 <= m < 2 ^ 16 -> Z.land (wrap16 x) m = Z.land x m.
Proof.
  intros Hm. unfold wrap16. rewrite <- Z.land_ones, <- Z.land_assoc by lia. f_equal.
  rewrite Z.land_comm, Z.land_ones by lia. by apply Z.mod_small.
Qed.

(** The flags of a message: some of [l] on top of the descriptor version. *)
Definition info_of (desc : Z) (l : list Z) : Z := wrap16 (or_all (desc :: l)).

Lemma or_all_land l x m : Z.land (fold_left Z.lor l x) m = fold_left Z.lor (map (fun y => Z.land y m) l) (Z.land x m).
Proof. revert x. induction l as [|y l IH]; intros x; [done|]. cbn [fold_left map]. by rewrite IH, land_lor3. Qed.

Lemma info_land desc l m : 0 <= m < 2 ^ 16 ->
  Z.land (info_of desc l) m = fold_left Z.lor (map (fun y => Z.land y m) l) (Z.land desc m).
Proof.
  intros Hm. unfold info_of, or_all. rewrite wrap16_land by done. cbn [fold_left]. rewrite or_all_land.
  done.
Qed.

(** What every message has: its addresses, the station's replay counter, lengths that
    count the key data, and the descriptor version in the flags. *)
Definition well_made (own : list Z) (s : nas_sta_t) (mic : bool) (p : eapol_key_t) : Prop :=
  ek_dhost p = st_ea s /\ ek_shost p = own /\ ek_ether_type p = ETHER_TYPE_802_1X /\ ek_ptype p = EAPOL_KEY /\
  ek_replay p = sp_replay (st_suppl s) /\ ek_data_len p = Z.of_nat (length (ek_data p)) /\
  ek_length p = 95 + ek_data_len p /\ Z.land (ek_key_info p) 3 = sp_desc (st_suppl s) /\
  has (ek_key_info p) WPA_KEY_MIC = mic.

(** Messages 1 and the supplicant's request carry no MIC. *)
Definition signed_state (st : wpa_suppl_state_t) : bool :=
  match st with WPA_PTKSTART | WPA_SUP_INITIALIZE => false | _ => true end.

Section Signed.
Context `{E : Env}.

Lemma put_data_wp data p w : wp (put_data data p) (fun p' w' => w' = w /\
  p' = p <| ek_data := data |> <| ek_data_len := Z.of_nat (length data) |>
         <| ek_length := 95 + Z.of_nat (length data) |>) w.
Proof.
  unfold put_data. do 2 nas_step. nas_step. split; [done|]. apply Z.leb_le in H. unfold EAPOL_BUFFER_DATA in H.
  unfold wrap16, EAPOL_WPA_KEY_LEN. by rewrite !Z.mod_small by lia.
Qed.

(** A message under construction: everything but the flags. *)
Definition addressed (own : list Z) (s : nas_sta_t) (p : eapol_key_t) : Prop :=
  ek_dhost p = st_ea s /\ ek_shost p = own /\ ek_ether_type p = ETHER_TYPE_802_1X /\ ek_ptype p = EAPOL_KEY /\
  ek_replay p = sp_replay (st_suppl s) /\ ek_data_len p = Z.of_nat (length (ek_data p)) /\ ek_length p = 95 + ek_data_len p.

Definition flagged (desc : Z) (mic : bool) (l : list Z) : Prop :=
  Z.land (info_of desc l) 3 = desc /\ has (info_of desc l) WPA_KEY_MIC = mic.

Lemma flagged_index desc l y : known_desc desc = true -> flagged desc true l ->
  flagged desc true (l ++ [Z.land y WPA_KEY_INDEX_MASK]).
Proof.
  intros Hd. unfold flagged, has. rewrite !info_land by (unfold WPA_KEY_MIC; lia). rewrite !map_app, !fold_left_app.
  cbn [map fold_left]. rewrite <- !Z.land_assoc. change (Z.land WPA_KEY_INDEX_MASK 3) with 0.
  change (Z.land WPA_KEY_INDEX_MASK WPA_KEY_MIC) with 0. by rewrite !Z.land_0_r, !Z.lor_0_r.
Qed.

Lemma known_desc_cases desc : known_desc desc = true -> desc = 1 \/ desc = 2.
Proof. unfold known_desc, WPA_KEY_DESC_V1, WPA_KEY_DESC_V2. intros [H%Z.eqb_eq | H%Z.eqb_eq]%orb_prop; auto. Qed.

(** The steps of a message that do not matter to its headers. *)
Ltac skip := eapply wp_mono; [apply (rel (R := silent))|]; intros ? ? _.
Ltac put := eapply wp_mono; [apply put_data_wp|]; intros ? ? [-> ->].
Ltac msg := repeat first [lazymatch goal with |- wpx True nas_handle_error _ _ => exact I end | progress nas_steps | put | skip].
Ltac made Hw Hd :=
  cbn [option_map app signed_state]; try exact I; (split; [reflexivity|]);
  repeat match goal with |- context [if ?b then _ else _] => destruct b end;
  (eapply Hw; [unfold addressed; split_and!; reflexivity|reflexivity|]);
  lazymatch goal with
  | |- context [Z.land _ WPA_KEY_INDEX_MASK] => idtac
  | |- _ => destruct (known_desc_cases _ Hd) as [-> | ->]; vm_compute; split; reflexivity
  end.

Lemma eapol_msg_wp i own w : let s := sta_at (w_nas w) i in known_desc (sp_desc (st_suppl s)) = true ->
  wp (eapol_msg i (blank_frame own s)) (fun r _ => match r with
    | Some (p, mic) => mic = signed_state (sp_state (st_suppl s)) /\ well_made own s mic p
    | None => True
    end) w.
Proof.
  intros s Hd. 
  assert (Hw : forall p mic l, addressed own s p -> ek_key_info p = info_of (sp_desc (st_suppl s)) l ->
            flagged (sp_desc (st_suppl s)) mic l -> well_made own s mic p).
  { intros p mic l (?&?&?&?&?&?&?) Hi [? ?]. unfold well_made. rewrite Hi. by split_and!. }
  unfold eapol_msg. do 2 nas_step. fold s. destruct (sp_state (st_suppl s)); try by nas_step.
  - unfold msg_ptkstart. msg; made Hw Hd.
  - unfold msg_ptkinitnegotiating. msg; made Hw Hd.
  - unfold msg_rekeynegotiating. msg; made Hw Hd.
    apply (flagged_index _ [WPA_KEY_SECURE; WPA_KEY_ACK; WPA_KEY_MIC] _ Hd).
    destruct (known_desc_cases _ Hd) as [-> | ->]; by vm_compute.
  - unfold msg_sup_initialize. msg; made Hw Hd.
  - unfold msg_sup_stakeystart. msg; made Hw Hd.
  - unfold msg_sup_stakeystart. msg; made Hw Hd.
Qed.

Lemma sign_ok desc key p : known_desc desc = true -> Z.land (ek_key_info p) 3 = desc -> mic_ok key (sign desc key p) = true.
Proof.
  intros Hd Hp. unfold sign, mic_ok.
  assert (Hm : exists d, wpa_do_mic desc key (mic_input p) = Some d)
    by (destruct (known_desc_cases _ Hd) as [-> | ->]; eexists; reflexivity).
  destruct Hm as [d Hm]. rewrite Hm. change (ek_key_info (p <| ek_mic := d |>)) with (ek_key_info p).
  change (mic_input (p <| ek_mic := d |>)) with (mic_input p). rewrite Hp, Hm. by apply bool_decide_eq_true_2.
Qed.

Lemma sign_well_made own s mic desc key p : well_made own s mic p -> well_made own s mic (sign desc key p).
Proof. unfold sign. by destruct (wpa_do_mic _ _ _). Qed.

(** A station but for the state of the supplicant's exchange. *)
Definition same_keys (i : nat) (w w' : world) : Prop :=
  exists st, st_suppl (sta_at (w_nas w') i) = (st_suppl (sta_at (w_nas w) i)) <| sp_pk_state := st |>.

#[export] Instance same_keys_step i : StepRel (same_keys i).
Proof.
  split; [split|..].
  - intros w. unfold same_keys. destruct (st_suppl _) eqn:Hs. by eexists.
  - intros w1 w2 w3 [s1 H1] [s2 H2]. exists s2. by rewrite H2, H1.
  - intros e w _. unfold same_keys. cbn [w_nas]. destruct (st_suppl _) eqn:Hs. by eexists.
  - intros f w (Hs & _). unfold same_keys, sta_at. cbn [w_nas]. rewrite Hs. destruct (st_suppl _) eqn:Hs'. by eexists.
Qed.

Lemma same_keys_set i v : Rel (same_keys i) (set_suppl i (fun s => s <| sp_pk_state := v |>)).
Proof.
  intros w. apply wp_set_suppl. unfold same_keys. cbn [w_nas].
  destruct (decide (i < length (na_sta (w_nas w)))%nat).
  - rewrite sta_at_upd_same by done. by exists v.
  - assert (Hn : sta_at (upd_sta (w_nas w) i (fun s => s <| st_suppl ::= fun s => s <| sp_pk_state := v |> |>)) i = sta_zero).
    { unfold sta_at. change (na_sta (upd_sta _ _ _)) with (alter (fun s => s <| st_suppl ::= fun s => s <| sp_pk_state := v |> |>) i (na_sta (w_nas w))).
      rewrite nth_lookup, list_lookup_alter_eq, lookup_ge_None_2 by lia. done. }
    rewrite Hn. unfold sta_at. rewrite nth_lookup, lookup_ge_None_2 by lia. by exists EAPOL_SUP_PK_ERROR.
Qed.

Lemma silent_set i f : Rel silent (set_suppl i f).
Proof. intros w. apply wp_set_suppl. by exists []. Qed.

Lemma eapol_msg_keys i p : Rel (same_keys i) (eapol_msg i p).
Proof. pose proof (same_keys_set i). unfold eapol_msg, msg_sup_stakeystart. rel_auto. Qed.

Lemma eapol_msg_silent i p : Rel silent (eapol_msg i p).
Proof. pose proof (silent_set i). unfold eapol_msg, msg_sup_stakeystart. rel_auto. Qed.

(** C24: wpa_send_eapol sends at most one frame, and sends one whenever it returns TRUE.
    The frame is addressed to the station, carries its replay counter, its lengths
    count its key data; in every state but those of message 1 and of the supplicant's
    request its MIC flag is set and wpa_check_mic under the station's
    key accepts it. *)
Theorem wpa_send_eapol_signed i w : let s := sta_at (w_nas w) i in known_desc (sp_desc (st_suppl s)) = true ->
  wp (wpa_send_eapol i) (fun sent w' => exists evs, Forall tame evs /\
    if sent then exists p, let mic := signed_state (sp_state (st_suppl s)) in
                   w_log w' = EvSend (frame_bytes p) :: evs ++ w_log w /\
                   well_made (na_ea (w_nas w)) s mic p /\ (mic = true -> mic_ok (eapol_mic_key (st_suppl s)) p = true)
    else w_log w' = evs ++ w_log w) w.
Proof.
  intros s Hd. unfold wpa_send_eapol. do 4 nas_step. fold s. nas_step.
  eapply wp_mono.
  { apply wp_conj; [apply (eapol_msg_wp i (na_ea (w_nas w)) w Hd)|].
    apply wp_conj; [apply eapol_msg_keys|apply eapol_msg_silent]. }
  intros r w' (Hm & [st Hk] & evs & Hlog & Hevs). fold s in Hk, Hm. destruct r as [[p mic]|].
  - do 2 nas_step. rewrite Hk. nas_step. unfold nas_eapol_send_packet. do 2 nas_step. exists evs. split; [done|].
    destruct Hm as [-> Hm]. set (mic := signed_state _) in *. set (q := if mic then _ else p). exists q. split; [cbn [w_log]; by rewrite Hlog|]. subst q. destruct mic.
    + split; [by apply sign_well_made|]. intros ?. apply sign_ok; [done|]. apply Hm.
    + done.
  - nas_step. by exists evs.
Qed.
End Signed.

(** A station in the group key exchange. *)
Definition msg_demo : world :=
  World (upd_sta (nas_demo WPA_PSK TKIP_ENABLED true) 0 (fun s => s <| st_used := true |> <| st_ea := cl_ea |> <| st_mode := WPA_PSK |>
    <| st_suppl ::= fun s => s <| sp_state := WPA_REKEYNEGOTIATING |> <| sp_desc := 1 |> |>)) [].

Lemma wpa_send_eapol_signed_witness :
  match wpa_send_eapol (E := env_yes) 0 msg_demo with
  | Ret true w' => exists p evs, w_log w' = EvSend (frame_bytes p) :: evs /\ mic_ok (replicate 16 0) p = true
  | _ => False
  end.
Proof.
  pose proof (wpa_send_eapol_signed (E := env_yes) 0 msg_demo ltac:(vm_compute; reflexivity)) as H. unfold wpx in H.
  destruct (wpa_send_eapol 0 msg_demo) as [[|] w'| |] eqn:Hr; [|vm_compute in Hr; discriminate Hr..].
  destruct H as (evs & _ & p & Hl & _ & Hm). exists p, (evs ++ []). split; [exact Hl|]. apply Hm. reflexivity.
Defined.
