(* ===== verification/NasPae.v ===== *)
(** The port access entity of src/userspace/nas/src/nas.c: the 802.1X state machine of a
    station, the canned EAP frames, the dispatch of EAPOL frames, and the forwarding of
    EAP frames to the RADIUS server (src/userspace/nas/src/nas_radius.c). *)
From stdpp Require Import base option list numbers strings.
From Stdlib Require Import ZArith Lia.
From S2P Require Import Prelude Monad NasState NasSta WpaIe WpaKey NasRel Md5.
Local Open Scope Z_scope.

Definition EAP_PACKET : Z := 0.
Definition EAPOL_START : Z := 1.
Definition EAPOL_LOGOFF : Z := 2.
Definition ETHER_TYPE_802_1X_PREAUTH : Z := 0x88c7.
Definition EAP_HEADER_LEN : Z := 4.
Definition EAP_REQUEST : Z := 1.
Definition EAP_RESPONSE : Z := 2.
Definition EAP_SUCCESS : Z := 3.
Definition EAP_FAILURE : Z := 4.
Definition EAP_IDENTITY : Z := 1.

Definition RADIUS_HEADER_LEN : Z := 20.
Definition RADIUS_MAX_LEN : Z := 4096.
Definition RADIUS_ACCESS_REQUEST : Z := 1.
Definition RD_TP_USER_NAME : Z := 1.
Definition RD_TP_NAS_IP_ADDRESS : Z := 4.
Definition RD_TP_NAS_PORT : Z := 5.
Definition RD_TP_FRAMED_MTU : Z := 12.
Definition RD_TP_STATE : Z := 24.
Definition RD_TP_CALLED_STATION_ID : Z := 30.
Definition RD_TP_CALLING_STATION_ID : Z := 31.
Definition RD_TP_NAS_IDENTIFIER : Z := 32.
Definition RD_TP_NAS_PORT_TYPE : Z := 61.
Definition RD_TP_EAP_MESSAGE : Z := 79.
Definition RD_TP_MESSAGE_AUTHENTICATOR : Z := 80.
Definition RD_TP_NAS_IPV6_ADDRESS : Z := 95.

(** "%02x" of each byte. *)
Definition hex_digit (x : Z) : Z := if x <? 10 then 48 + x else 87 + x.
Definition hex_bytes (l : list Z) : list Z := concat (map (fun b => [hex_digit (b / 16); hex_digit (b mod 16)]) l).

Definition be32 (x : Z) : list Z := [wrap8 (Z.shiftr x 24); wrap8 (Z.shiftr x 16); wrap8 (Z.shiftr x 8); wrap8 x].

Section Pae.
Context `{E : Env}.

Definition set_pae (i : nat) (f : pae_t -> pae_t) : N unit := set_sta i (fun s => s <| st_pae ::= f |>).

(** Over the preauthentication socket for a station that sent its frame there. *)
Definition send_to (i : nat) (pkt : list Z) : N unit :=
  flags ← sta i st_flags;
  if has flags STA_FLAG_PRE_AUTH then nas_preauth_send_packet pkt else nas_eapol_send_packet pkt.

Definition eapol_header (own : list Z) (s : nas_sta_t) (type len : Z) : list Z :=
  st_ea s ++ own ++ be16 (if has (st_flags s) STA_FLAG_PRE_AUTH then ETHER_TYPE_802_1X_PREAUTH else ETHER_TYPE_802_1X) ++
  [st_eapol_version s; type] ++ be16 len.

Definition eapol_canned (i : nat) (code type : Z) : N unit :=
  own ← nas na_ea;
  s ← sta i (fun s => s);
  let len := if type =? 0 then EAP_HEADER_LEN else EAP_HEADER_LEN + 1 in
  send_to i (eapol_header own s EAP_PACKET len ++ [code; wrap8 (pae_id (st_pae s))] ++ be16 len ++
             (if type =? 0 then [] else [type])).

(** ** pae_state *)

Definition pae_connecting (i : nat) : N unit :=
  set_pae i (fun p => p <| pae_flags := 0 |> <| pae_ssnto := 0 |>) ;;
  eapol_canned i EAP_REQUEST EAP_IDENTITY ;;
  set_sta i (fun s => s <| st_rxauths ::= fun x => wrap16 (x + 1) |> <| st_tx_when := STA_TXPERIOD_MAX |>).

Definition pae_state (i : nat) (state : pae_state_t) : N unit :=
  set_pae i (fun p => p <| pae_state_ := state |>) ;;
  match state with
  | AUTHENTICATED =>
      eapol_canned i EAP_SUCCESS 0 ;;
      set_pae i (fun p => p <| pae_id ::= Z.add 1 |>) ;;
      set_sta i (fun s => s <| st_rxauths := 0 |>)
  | HELD =>
      eapol_canned i EAP_FAILURE 0 ;;
      set_pae i (fun p => p <| pae_id ::= Z.add 1 |>) ;;
      set_sta i (fun s => s <| st_quiet_while := STA_QUIETWHILE_MAX |>)
  | ABORTING =>
      set_pae i (fun p => p <| pae_username := None |> <| pae_radius_state := None |> <| pae_request := None |>
                            <| pae_id ::= Z.add 1 |>)
  | DISCONNECTED =>
      eapol_canned i EAP_FAILURE 0 ;;
      set_pae i (fun p => p <| pae_id ::= Z.add 1 |> <| pae_state_ := CONNECTING |>) ;;
      set_sta i (fun s => s <| st_rxauths := 0 |>) ;;
      pae_connecting i
  | CONNECTING => pae_connecting i
  | AUTHENTICATING => set_sta i (fun s => s <| st_auth_while := STA_AUTHWHILE_MAX |>)
  | INITIALIZE => mret tt
  end.

(** ** Forwarding to the RADIUS server *)

(** The request is the header and its attributes, in an allocation of RADIUS_MAX_LEN
    bytes; the length passed is a byte. *)
Definition radius_add (attrs : list Z) (type : Z) (buf : list Z) : N (list Z) :=
  let length_ := wrap8 (Z.of_nat (length buf)) in
  let used := RADIUS_HEADER_LEN + Z.of_nat (length attrs) in
  if used + length_ <=? RADIUS_MAX_LEN then
    within (used + 2 + length_ <=? RADIUS_MAX_LEN) ;;
    mret (attrs ++ [type; wrap8 (2 + length_)] ++ take (Z.to_nat length_) buf)
  else mret attrs.

Fixpoint radius_add_all (attrs : list Z) (l : list (Z * list Z)) : N (list Z) :=
  match l with
  | [] => mret attrs
  | (type, buf) :: l => attrs ← radius_add attrs type buf; radius_add_all attrs l
  end.

(** The pieces of at most 253 bytes of an EAP message. *)
Fixpoint eap_pieces (fuel : nat) (eap : list Z) : list (list Z) :=
  match fuel, eap with
  | S fuel, _ :: _ => take 253 eap :: eap_pieces fuel (drop 253 eap)
  | _, _ => []
  end.

Definition radius_packet (code id : Z) (vector attrs : list Z) : list Z :=
  [code; id] ++ be16 (RADIUS_HEADER_LEN + Z.of_nat (length attrs)) ++ vector ++ attrs.

Definition nonempty (o : option (list Z)) : list (list Z) :=
  match o with Some (x :: l) => [x :: l] | _ => [] end.

(** The attributes before the EAP message. *)
Definition radius_attributes (n : nas_t) (s : nas_sta_t) : list (Z * list Z) :=
  let own := hex_bytes (na_ea n) in
  map (pair RD_TP_USER_NAME) (nonempty (pae_username (st_pae s))) ++
  [(if (length (na_client n) =? 16)%nat then RD_TP_NAS_IPV6_ADDRESS else RD_TP_NAS_IP_ADDRESS, na_client n);
   (RD_TP_CALLED_STATION_ID, own);
   (RD_TP_CALLING_STATION_ID, hex_bytes (st_ea s));
   (RD_TP_NAS_IDENTIFIER, match na_nas_id n with [] => own | id => id end);
   (RD_TP_NAS_PORT, be32 (Z.of_nat (pae_hash (st_ea s))));
   (RD_TP_FRAMED_MTU, be32 1400)] ++
  map (pair RD_TP_STATE) (nonempty (pae_radius_state (st_pae s))) ++
  [(RD_TP_NAS_PORT_TYPE, be32 (na_type n))].

(** [eap] is the EAP frame, as long as its header says.  The last 16 bytes of the
    request are taken for the message authenticator. *)
Definition radius_forward (i : nat) (eap : list Z) : N unit :=
  vector ← nas_rand128;
  n ← nas (fun n => n);
  s ← sta i (fun s => s);
  attrs ← radius_add_all [] (radius_attributes n s);
  when (match nonempty (pae_radius_state (st_pae s)) with [] => false | _ => true end)
    (set_pae i (fun p => p <| pae_radius_state := None |>)) ;;
  attrs ← radius_add_all attrs (map (pair RD_TP_EAP_MESSAGE) (eap_pieces (length eap) eap));
  attrs ← radius_add attrs RD_TP_MESSAGE_AUTHENTICATOR (replicate 16 0);
  let request := radius_packet RADIUS_ACCESS_REQUEST (Z.of_nat i) vector attrs in
  let mac := hmac_md5 request (na_secret n) in
  let request := take (length request - 16) request ++ mac in
  r ← call (EvRadiusSend request);
  set_pae i (fun p => p <| pae_request := if r <? 0 then None else Some request |>).

(** ** Dispatch of EAPOL frames *)

Definition CHECK_EAPOL_KEY (key : Z) : bool := (key =? EAPOL_WPA_KEY) || (key =? EAPOL_WPA2_KEY).

(** An EAP packet.  The check of its length against that of the frame is made for
    identity responses only. *)
Definition eap_packet (i : nat) (buf : list Z) (bytes : Z) : N unit :=
  let len := get16 buf 16 in
  when (EAP_HEADER_LEN + 1 <=? len)
    (within (23 <=? length buf)%nat ;;
     s ← sta i (fun s => s);
     let code := nth 18 buf 0 in
     let id := nth 19 buf 0 in
     let eap_len := get16 buf 20 in
     let forward :=
       within (18 + eap_len <=? Z.of_nat (length buf)) ;;
       radius_forward i (field buf 18 (Z.to_nat eap_len)) in
     if nth 22 buf 0 =? EAP_IDENTITY then
       if negb (id =? pae_id (st_pae s)) || negb (code =? EAP_RESPONSE) then mret tt
       else if bool_decide (pae_state_ (st_pae s) = AUTHENTICATING) then mret tt
       else if bytes - EAPOL_HEADER_LEN <? eap_len then mret tt
       else
         when (EAP_HEADER_LEN + 1 <? eap_len)
           (within (18 + eap_len <=? Z.of_nat (length buf)) ;;
            set_pae i (fun p => p <| pae_username := Some (field buf 23 (Z.to_nat (eap_len - 5))) |>)) ;;
         pae_state i AUTHENTICATING ;;
         forward
     else forward).

Definition eapol_start (i : nat) : N unit :=
  set_pae i (fun p => p <| pae_id := 0 |>) ;;
  s ← sta i (fun s => s);
  when (bool_decide (pae_state_ (st_pae s) = AUTHENTICATING)) (pae_state i ABORTING) ;;
  pae_state i CONNECTING ;;
  set_suppl i (fun s => s <| sp_state := WPA_PTKSTART |> <| sp_retry_state := WPA_PTKSTART |>).

Definition eapol_logoff (i : nat) : N unit :=
  s ← sta i (fun s => s);
  (match pae_state_ (st_pae s) with
   | CONNECTING | AUTHENTICATED => mret tt
   | _ => pae_state i ABORTING
   end) ;;
  pae_state i DISCONNECTED ;;
  nas_deauthorize (st_ea s) ;; mret tt.

(** [buf] is the receive buffer, of which the frame has [bytes]; [process] handles
    EAPOL-Key frames and tells whether the station must go. *)
Definition eapol_dispatch_ex (process : eapol_key_t -> nat -> N Z) (buf : list Z) (preauth : bool) (bytes : Z) : N unit :=
  within (18 <=? length buf)%nat ;;
  sta_ ← lookup_sta (field buf 6 6) SEARCH_ENTER;
  match sta_ with
  | None => mret tt
  | Some i =>
      s ← sta i (fun s => s);
      let type := nth 15 buf 0 in
      let state := pae_state_ (st_pae s) in
      if bool_decide (state = HELD) then mret tt
      else
        let event :=
          if type =? EAP_PACKET then eap_packet i buf bytes
          else if type =? EAPOL_START then eapol_start i
          else if type =? EAPOL_LOGOFF then eapol_logoff i
          else mret tt in
        if (preauth : bool) then
          set_sta i (fun s => s <| st_flags ::= Z.lor STA_FLAG_PRE_AUTH |> <| st_mode := WPA2 |>
                                <| st_eapol_version := WPA2_EAPOL_VERSION |>) ;;
          event
        else if (type =? EAPOL_KEY) && CHECK_EAPOL_KEY (nth 18 buf 0) && CHECK_NAS (st_mode s) &&
                bool_decide (state = AUTHENTICATED \/ state = INITIALIZE) then
          within (113 <=? length buf)%nat ;;
          r ← process (eapol_parse buf) i;
          when (negb (r =? 0)) (cleanup_sta i DOT11_RC_8021X_AUTH_FAIL false)
        else if CHECK_PSK (st_mode s) then mret tt
        else
          set_sta i (fun s => s <| st_flags := Z.ldiff (st_flags s) STA_FLAG_PRE_AUTH |>) ;;
          event
  end.

(** A start frame made up in the station's name; it is not an EAPOL-Key frame. *)
Definition send_identity_req (i : nat) : N unit :=
  own ← nas na_ea;
  s ← sta i (fun s => s);
  eapol_dispatch_ex (fun _ _ => mret 0)
    (own ++ st_ea s ++ be16 ETHER_TYPE_802_1X ++ [st_eapol_version s; EAPOL_START] ++ be16 0) false EAPOL_HEADER_LEN.

End Pae.

#[export] Typeclasses Opaque set_pae send_to eapol_canned pae_connecting pae_state radius_add radius_add_all radius_forward
  eap_packet eapol_start eapol_logoff eapol_dispatch_ex send_identity_req.

(** ** What the state machine does to the server *)

Section Rels.
Context `{E : Env} (R : relation world) `{HR : !StaRel R}.

Local Tactic Notation "go" reference(f) := intros; unfold f; rel_auto.

#[export] Instance rel_set_pae i f : Rel R (set_pae i f).
Proof. go set_pae. Qed.
#[export] Instance rel_send_to i pkt : Rel R (send_to i pkt).
Proof. go send_to. Qed.
#[export] Instance rel_canned i code type : Rel R (eapol_canned i code type).
Proof. go eapol_canned. Qed.
#[export] Instance rel_connecting i : Rel R (pae_connecting i).
Proof. go pae_connecting. Qed.
#[export] Instance rel_pae_state i state : Rel R (pae_state i state).
Proof. go pae_state. Qed.
#[export] Instance rel_radius_add attrs type buf : Rel R (radius_add attrs type buf).
Proof. go radius_add. Qed.
#[export] Instance rel_radius_add_all attrs l : Rel R (radius_add_all attrs l).
Proof. revert attrs. induction l as [|[ty b] l IH]; intros attrs; cbn [radius_add_all]; rel_auto. Qed.
#[export] Instance rel_radius_forward i eap : Rel R (radius_forward i eap).
Proof. go radius_forward. Qed.
#[export] Instance rel_eap_packet i buf bytes : Rel R (eap_packet i buf bytes).
Proof. go eap_packet. Qed.
#[export] Instance rel_eapol_start i : Rel R (eapol_start i).
Proof. go eapol_start. Qed.
#[export] Instance rel_eapol_logoff i : Rel R (eapol_logoff i).
Proof. go eapol_logoff. Qed.

#[export] Instance rel_dispatch_ex process buf preauth bytes : (forall p i, Rel R (process p i)) ->
  Rel R (eapol_dispatch_ex process buf preauth bytes).
Proof. intros. unfold eapol_dispatch_ex. rel_auto. Qed.

#[export] Instance rel_identity_req i : Rel R (send_identity_req i).
Proof. unfold send_identity_req. rel_auto. Qed.
End Rels.
