(* ===== verification/WpaAuth.v ===== *)
(** The WPA authenticator of src/userspace/nas/src/wpa.c: the handlers of association
    messages, of the EAPOL-Key frames of the 4-way and group key handshakes, of TKIP
    MIC failures and of the timers. *)
From stdpp Require Import base option list numbers strings.
From Stdlib Require Import ZArith Lia.
From S2P Require Import Prelude Monad NasState NasSta WpaIe WpaKey NasWnm NasRel WpaMsg NasPae.
Local Open Scope Z_scope.

Definition GTK_INDEX_1 : Z := 1.
Definition GTK_INDEX_2 : Z := 2.
Definition GTK_NEXT_INDEX (ix : Z) : Z := if ix =? GTK_INDEX_1 then GTK_INDEX_2 else GTK_INDEX_1.

Definition WPA_TKIP_CM_DETECT : Z := 60.
Definition WPA_TKIP_CM_BLOCK : Z := 60.
Definition STA_DEAUTH_DELAY_MS : Z := 50.
Definition RETRY_SECS : Z := 1.
Definition RETRY_MSECS : Z := 0.
Definition WPA2_DEFAULT_RETRY_SECS : Z := 0.

Definition all_flags (x mask : Z) : bool := Z.land x mask =? mask.
Definition any_mode (mode : Z) (l : list Z) : bool := has mode (or_all l).

Section Auth.
Context `{E : Env}.

(** ** Small steps shared by the handlers *)

Definition set_state (i : nat) (st : wpa_suppl_state_t) : N unit := set_suppl i (fun s => s <| sp_state := st |>).
Definition set_retry_state (i : nat) (st : wpa_suppl_state_t) : N unit := set_suppl i (fun s => s <| sp_retry_state := st |>).

(** retry_state takes the current state, which becomes [st]. *)
Definition next_state (i : nat) (st : wpa_suppl_state_t) : N unit :=
  set_suppl i (fun s => s <| sp_retry_state := sp_state s |> <| sp_state := st |>).

Definition set_retries (i : nat) (n : Z) : N unit := set_sta i (fun s => s <| st_retries := n |>).
Definition incr_replay (i : nat) : N unit := set_suppl i (fun s => s <| sp_replay ::= wpa_incr_array |>).

Definition delete_wds_timer (i : nat) : N unit :=
  td ← sta i st_wds_td;
  when (negb (td =? 0)) (TIMER_DELETE td ;; set_sta i (fun s => s <| st_wds_td := 0 |>)).

Definition delete_gtk_timer : N unit :=
  td ← wpa wp_gtk_rekey_timer;
  when (negb (td =? 0)) (TIMER_DELETE td ;; set_wpa (fun w => w <| wp_gtk_rekey_timer := 0 |>)).

(** The repeating timer of wpa_start and wpa_request. *)
Definition set_wds_timer (i : nat) (h : timer_handler_t) : N unit :=
  to ← wpa wp_wds_to;
  r ← wpa_set_itimer h (if to =? 0 then 60 else to) 0;
  match snd r with
  | Some id => set_sta i (fun s => s <| st_wds_td := id |>)
  | None => mret tt
  end.

(** The nonce of the global key counter, which is then incremented. *)
Definition take_anonce (i : nat) : N unit :=
  gkc ← wpa wp_global_key_counter;
  set_suppl i (fun s => s <| sp_anonce := gkc |>) ;;
  wpa_incr_gkc.

(** The message of the current state, then the state to wait in and its timer: false
    when the message could not be sent. *)
Definition send_and_wait (i : nat) (st : wpa_suppl_state_t) : N bool :=
  set_retries i 0 ;;
  ok ← wpa_send_eapol i;
  if (ok : bool) then next_state i st ;; set_retx_timer i ;; mret true else mret false.

(** ** Group key updates *)

Definition wpa_send_rekey_frame (i : nat) : N unit :=
  set_suppl i (fun s => s <| sp_state := WPA_REKEYNEGOTIATING |> <| sp_retry_state := WPA_REKEYNEGOTIATING |>) ;;
  set_retries i 0 ;;
  wpa_stop_retx i ;;
  incr_replay i ;;
  ok ← wpa_send_eapol i;
  if negb ok then cleanup_sta i DOT11_RC_UNSPECIFIED false
  else
    st ← suppl i sp_state;
    when (bool_decide (st = WPA_REKEYNEGOTIATING)) (set_retx_timer i).

(** The key is made for the first station that has one. *)
Fixpoint rekey_all (l : list nat) (did_one : bool) : N bool :=
  match l with
  | [] => mret did_one
  | i :: l =>
      s ← sta i (fun s => s);
      if negb (st_used s) || negb (bool_decide (sp_state (st_suppl s) = WPA_SETKEYSDONE)) then rekey_all l did_one
      else
        when (negb did_one)
          (wpa_gen_gtk ;;
           set_wpa (fun w => w <| wp_gtk_index ::= GTK_NEXT_INDEX |>) ;;
           wpa_plumb_gtk false ;; mret tt) ;;
        wpa_send_rekey_frame i ;;
        rekey_all l true
  end.

Definition wpa_new_gtk_callback : N unit :=
  did_one ← rekey_all (seq 0 MAX_SUPPLICANTS) false;
  when did_one (wpa_plumb_gtk true ;; mret tt).

Definition wpa_new_gtk : N unit :=
  delete_gtk_timer ;;
  wpa_new_gtk_callback ;;
  wpa_set_gtk_timer.

(** ** TKIP countermeasures *)

Definition wpa_countermeasures_cb : N unit :=
  set_nas (fun n => n <| na_MIC_countermeasures := false |>) ;;
  nas_wl_tkip_countermeasures false ;;
  td ← wpa wp_countermeasures_timer;
  TIMER_DELETE td ;;
  set_wpa (fun w => w <| wp_countermeasures_timer := 0 |>).

(** The reports that are not acted on. *)
Definition mic_error_prohibit (n : nas_t) (sta_wsec : Z) (pairwise : bool) : bool :=
  let aes w := has w AES_ENABLED in
  let tkip w := has w TKIP_ENABLED in
  let nas_aes_only := aes (na_wsec n) && negb (tkip (na_wsec n)) in
  let nas_mixed := aes (na_wsec n) && tkip (na_wsec n) in
  let sta_aes_only := aes sta_wsec && negb (tkip sta_wsec) in
  (f_authenticator (na_flags n) && nas_aes_only) ||
  (f_authenticator (na_flags n) && nas_mixed && sta_aes_only && pairwise) ||
  (f_supplicant (na_flags n) && nas_aes_only && pairwise).

(** Every station in use is tossed.  The loop ends one entry late: it reads the used
    field of what follows the array, the first hash chain head. *)
Definition everybody_out : N unit :=
  for_each (seq 0 MAX_SUPPLICANTS) (fun i =>
    used ← sta i st_used;
    when used (cleanup_sta i DOT11_RC_MIC_FAILURE false)) ;;
  head ← nas (fun n => hashed n 0);
  within (bool_decide (head = None)).

Definition wpa_mic_error (i : nat) (from_driver pairwise : bool) : N unit :=
  n ← nas (fun n => n);
  wsec ← sta i st_wsec;
  if mic_error_prohibit n wsec pairwise then mret tt
  else
    now ← time_;
    set_nas (fun n => n <| na_MIC_failures ::= fun x => wrap32 (x + 1) |> <| na_prev_MIC_error := now |>) ;;
    if f_supplicant (na_flags n) then
      if negb from_driver then mret tt
      else
        prev ← sta i st_prev_MIC_error;
        set_sta i (fun s => s <| st_MIC_failures ::= fun x => wrap32 (x + 1) |> <| st_prev_MIC_error := now |>) ;;
        wpa_send_mic_failure i ;;
        failures ← sta i st_MIC_failures;
        when (negb (failures =? 0) && (now - prev <? WPA_TKIP_CM_DETECT))
          (nas_sleep_ms STA_DEAUTH_DELAY_MS ;; cleanup_sta i DOT11_RC_MIC_FAILURE false)
    else
      when (negb (wrap32 (na_MIC_failures n + 1) =? 0) && negb (na_MIC_countermeasures n) &&
            (now - na_prev_MIC_error n <? WPA_TKIP_CM_DETECT))
        (set_nas (fun n => n <| na_MIC_countermeasures := true |>) ;;
         nas_wl_tkip_countermeasures true ;;
         r ← wpa_set_itimer wpa_countermeasures_cb_h WPA_TKIP_CM_BLOCK 0;
         match snd r with
         | Some id => set_wpa (fun w => w <| wp_countermeasures_timer := id |>)
         | None => mret tt
         end ;;
         everybody_out ;;
         delete_gtk_timer ;;
         ix ← wpa wp_gtk_index;
         nas_set_key None [] 0 ix false 0 0 false ;;
         nas_set_key None [] 0 (GTK_NEXT_INDEX ix) false 0 0 false ;;
         set_flags (fun f => f <| f_gtk_plumbed := false |>)).

(** ** The end of the 4-way handshake and the group key handshake *)

(** The pairwise key goes to the driver; then the station is authorized, or, in WPA
    mode, the group key handshake begins. *)
Definition wpa_ptkinitdone2 (i : nat) : N Z :=
  wpa_stop_retx i ;;
  s ← sta i (fun s => s);
  let p := st_suppl s in
  r ← nas_set_key (Some (st_ea s)) (drop 32 (sp_ptk p)) (sp_tk_len p) 0 true 0 0 true;
  if r <? 0 then cleanup_sta i DOT11_RC_BUSY false ;; mret 0
  else
    flags ← nas na_flags;
    mode ← sta i st_mode;
    if f_wds flags || CHECK_WPA2 mode then
      delete_wds_timer i ;;
      when (f_wds flags) (nas_sleep_ms 500) ;;
      nas_authorize (st_ea s) ;;
      set_suppl i (fun s => s <| sp_state := WPA_SETKEYSDONE |> <| sp_retry_state := WPA_SETKEYSDONE |>) ;;
      mret 0
    else
      incr_replay i ;;
      set_state i WPA_REKEYNEGOTIATING ;;
      (if f_gtk_plumbed flags then refresh_gtk_rsc else wpa_init_gtk) ;;
      set_retries i 0 ;;
      ok ← wpa_send_eapol i;
      if negb ok then mret 1
      else
        set_retry_state i WPA_REKEYNEGOTIATING ;;
        set_retx_timer i ;;
        mret 0.

(** The handler kept for when message 3 or 4 is lost. *)
Definition wpa_goto_rekeyneg (i : nat) : N unit := wpa_ptkinitdone2 i ;; mret tt.

(** The xmit label: the message of the retry state under a new replay counter, after
    which a WPA2 station gets the longer timeout of its listen interval. *)
Definition retx_xmit (i : nat) : N unit :=
  incr_replay i ;;
  save_state ← suppl i sp_state;
  set_suppl i (fun s => s <| sp_state := sp_retry_state s |>) ;;
  ok ← wpa_send_eapol i;
  when (negb ok) (wpa_stop_retx i) ;;
  s ← sta i (fun s => s);
  when (CHECK_WPA2 (st_mode s) && negb (st_td s =? 0))
    (let retry_timer := if st_retries s =? 1 then st_listen_interval_ms s / 2 else st_listen_interval_ms s in
     when (WPA2_DEFAULT_RETRY_MSECS <? retry_timer) (wpa_set_timeout (st_td s) 0 retry_timer)) ;;
  set_state i save_state.

(** The retransmission timer. *)
Definition wpa_retransmission (i : nat) : N unit :=
  n ← nas (fun n => n);
  s ← sta i (fun s => s);
  let state := sp_state (st_suppl s) in
  if na_MIC_countermeasures n then mret tt
  else if bool_decide (state = WPA_SETKEYSDONE) || (f_wds (na_flags n) && bool_decide (state = WPA_PTKINITDONE)) then
    wpa_stop_retx i
  else
    set_sta i (fun s => s <| st_retries ::= fun x => wrap16 (x + 1) |>) ;;
    retries ← sta i st_retries;
    if WPA_RETRY <? retries then
      if negb (st_wds_td s =? 0) then
        if retries =? WPA_RETRY + 1 then nas_deauthenticate (st_ea s) DOT11_RC_4WH_TIMEOUT ;; retx_xmit i
        else if retries =? (WPA_RETRY + 1) * 2 then wpa_stop_retx i
        else retx_xmit i
      else if st_retx_exceed_hndlr s then wpa_goto_rekeyneg i ;; wpa_stop_retx i
      else
        set_pae i (fun p => p <| pae_ssnto := 0 |>) ;;
        cleanup_sta i (if bool_decide (sp_retry_state (st_suppl s) = WPA_REKEYNEGOTIATING)
                       then DOT11_RC_GTK_UPDATE_TIMEOUT else DOT11_RC_4WH_TIMEOUT) false
    else retx_xmit i.

(** ** Association *)

(** bcm_find_wpaie: the first vendor element that is a WPA one. *)
Fixpoint bcm_find_wpaie (fuel : nat) (buf : list Z) (o len : Z) : ie_res (option Z) :=
  let* ie := bcm_parse_tlvs (length buf) buf o len DOT11_MNG_VS_ID in
  match ie with
  | None => IeOk None
  | Some e =>
      let* l := rd_byte buf (e + 1) in
      let* hit :=
        (if 4 <=? l then
           let* u := rd_bytes buf (e + 2) 4 in IeOk (bool_decide (u = WPA_OUI ++ [1]))
         else IeOk false) in
      if (hit : bool) then IeOk (Some e)
      else match fuel with
           | O => IeOob
           | S fuel => bcm_find_wpaie fuel buf (e + (l + 2)) (len - (e + (l + 2) - o))
           end
  end.

(** The element of an association message and its length, headers included: the WPA
    one, else the RSN one. *)
Definition find_assoc_ie (data : list Z) (len : Z) : ie_res (option (Z * Z)) :=
  let* w := bcm_find_wpaie (length data) data 0 len in
  let* e := (match w with
             | Some e => IeOk (Some e)
             | None => bcm_parse_tlvs (length data) data 0 len DOT11_MNG_RSN_ID
             end) in
  match e with
  | None => IeOk None
  | Some e => let* l := rd_byte data (e + 1) in IeOk (Some (e, l + 2))
  end.

(** The handshake begins: message 1 and the wait for message 2. *)
Definition start_4way (i : nat) : N Z :=
  set_retries i 0 ;;
  ok ← wpa_send_eapol i;
  if negb ok then mret 1
  else
    set_wpa (fun w => w <| wp_ptk_rekey_secs := 0 |> <| wp_ptk_rekey_timer := 0 |>) ;;
    next_state i WPA_PTKINITNEGOTIATING ;;
    set_retx_timer i ;;
    mret 0.

(** The rest of the association once the element agrees with the configuration. *)
Definition assoc_accepted (i : nat) (ie : list Z) (ie_len wsec pmkc : Z) : N Z :=
  set_sta i (fun s => s <| st_wpa_msg_timeout_s := RETRY_SECS |> <| st_wpa_msg_timeout_ms := RETRY_MSECS |>) ;;
  s ← sta i (fun s => s);
  when (CHECK_WPA2 (st_mode s))
    (info ← nas_get_stainfo (st_ea s);
     set_sta i (fun s => s <| st_wpa_msg_timeout_s := WPA2_DEFAULT_RETRY_SECS |>
       <| st_wpa_msg_timeout_ms := WPA2_DEFAULT_RETRY_MSECS |>
       <| st_listen_interval_ms := sta_info_listen_interval_inms info |>)) ;;
  within (ie_len <=? Z.of_nat MAX_WPA_IE) ;;
  set_suppl i (fun s => s <| sp_assoc_wpaie := overwrite (sp_assoc_wpaie s) ie (Z.to_nat ie_len) |>
                          <| sp_assoc_wpaie_len := ie_len |>) ;;
  w ← wpa (fun w => w);
  when (CHECK_PSK (st_mode s))
    (within (wp_pmk_len w <=? Z.of_nat PMK_LEN) ;;
     set_suppl i (fun s => s <| sp_pmk_len := wp_pmk_len w |>
                             <| sp_pmk := overwrite (sp_pmk s) (wp_pmk w) (Z.to_nat (wp_pmk_len w)) |>)) ;;
  n ← nas (fun n => n);
  if f_supplicant (na_flags n) then
    set_suppl i (fun s => s <| sp_snonce := wp_global_key_counter w |>) ;;
    wpa_incr_gkc ;;
    mret 0
  else if na_MIC_countermeasures n && has wsec TKIP_ENABLED then
    cleanup_sta i DOT11_RC_MIC_FAILURE false ;; mret 0
  else
    take_anonce i ;;
    nas_set_key (Some (st_ea s)) [] 0 0 false 0 0 false ;;
    next_state i WPA_PTKSTART ;;
    s ← sta i (fun s => s);
    if has (st_mode s) WPA then send_identity_req i ;; mret 0
    else if has (st_mode s) WPA2 then
      if (pmkc =? 1) && negb (pae_ssnto (st_pae s) =? 0) then start_4way i
      else send_identity_req i ;; mret 0
    else
      when (has (st_mode s) WPA2_PSK) (nas_wpa_calc_pmkid i) ;;
      start_4way i.

(** What the element says of the cipher and the mode: as the station wants them for an
    authenticator, as configured for a supplicant. *)
Definition assoc_check (i : nat) (ie : list Z) (ie_len : Z) : N (option (Z * Z * Z)) :=
  n ← nas (fun n => n);
  s ← suppl i (fun s => s);
  if f_authenticator (na_flags n) then
    r ← lift_ie (wpa_parse_ie ie ie_len (Some (sp_pmkid s)));
    match r with
    | None => mret None
    | Some p =>
        set_sta i (fun s => s <| st_cap := pi_cap p |>
          <| st_key_auth_type ::= fun k => default k (pi_key_auth_type p) |>) ;;
        mret (Some (pi_wsec p, pi_mode p, pi_pmkc p))
    end
  else
    r ← lift_ie (wpa_check_ie ie ie_len (na_wsec n) (na_mode n));
    match r with
    | None => mret None
    | Some (rest, cap) =>
        match cap with
        | Some c => set_sta i (fun s => s <| st_cap := c |>)
        | None => mret tt
        end ;;
        mret (if rest =? 0 then Some (na_wsec n, na_mode n, 0) else None)
    end.

(** Other than 0 the station is to be cleaned up. *)
Definition wpa_driver_assoc_msg (sta_ : option nat) (data : list Z) (len : Z) : N Z :=
  match sta_ with
  | None => mret 1
  | Some i =>
      n ← nas (fun n => n);
      set_suppl i (fun s => s <| sp_assoc_wpaie_len := 0 |>) ;;
      e ← lift_ie (find_assoc_ie data (wrap16 len));
      let e := mjoin e in
      s ← sta i (fun s => s);
      w ← wpa (fun w => w);
      if bool_decide (e = None) && has (na_wsec n) WEP_ENABLED then
        if negb (has (na_mode n) RADIUS) then
          nas_set_key (Some (st_ea s)) (wp_gtk w) (wp_gtk_len w) (wp_gtk_index w) false 0 0 false ;;
          nas_authorize (st_ea s) ;;
          mret 0
        else
          set_sta i (fun s => s <| st_mode := RADIUS |> <| st_wsec := WEP_ENABLED |> <| st_algo := CRYPTO_ALGO_WEP128 |>) ;;
          mret 0
      else
        cap_ok ← (if f_supplicant (na_flags n) then
                    c ← nas_get_wpacap;
                    match c with
                    | Some c => set_wpa (fun w => w <| wp_cap := c |>) ;; mret true
                    | None => mret false
                    end
                  else mret true);
        if negb cap_ok then mret 1
        else
          wpa_stop_retx i ;;
          set_retries i 0 ;;
          let '(o, ie_len) := default (0, 0) e in
          let ie := drop (Z.to_nat o) data in
          c ← assoc_check i ie ie_len;
          match (c : option (Z * Z * Z)) with
          | None => mret 1
          | Some (wsec, mode, pmkc) =>
              algo ← lift_ie (wpa_find_mckey_algo ie ie_len);
              ok ← wpa_set_suppl i mode wsec (default (-1) algo);
              if negb ok then mret 1 else assoc_accepted i ie ie_len wsec pmkc
          end
  end.

(** The association branch of driver_message_dispatch. *)
Definition driver_assoc (ea data : list Z) (len : Z) : N unit :=
  sta_ ← lookup_sta ea SEARCH_ENTER;
  mode ← nas na_mode;
  if negb (CHECK_NAS mode) then mret tt
  else
    r ← wpa_driver_assoc_msg sta_ data len;
    if r =? 0 then mret tt
    else match sta_ with
         | Some i => cleanup_sta i 0 true
         | None => mret tt
         end.

(** An association message made up for the peer: 130 bytes follow its header, but the
    whole message counts as room for the element. *)
Definition start_pkinit (i : nat) : N unit :=
  s ← sta i (fun s => s);
  ie ← wpa_build_ie (st_wsec s) (st_algo s) (st_mode s) (72 + 128 + 2);
  match ie with
  | None => mret tt
  | Some ie =>
      within (length ie <=? 130)%nat ;;
      if (128 <? length ie)%nat then mret tt
      else driver_assoc (st_ea s) (ie ++ [0; 0]) (Z.of_nat (length ie))
  end.

Definition wpa_start (i : nat) : N unit :=
  delete_wds_timer i ;;
  start_pkinit i ;;
  set_wds_timer i (start_pkinit_h i).

(** The pairwise rekeying timer restarts the handshake with the first station slot. *)
Definition wpa_new_ptk_callback : N Z :=
  wpa_stop_retx 0 ;;
  set_retries 0 0 ;;
  flags ← nas na_flags;
  if f_supplicant flags then mret 0
  else
    take_anonce 0 ;;
    next_state 0 WPA_PTKSTART ;;
    ok ← send_and_wait 0 WPA_PTKINITNEGOTIATING;
    mret (if (ok : bool) then 0 else 1).

(** ** EAPOL-Key frames *)

Definition replay_matches (p : eapol_key_t) (s : wpa_suppl_t) : bool := bool_decide (ek_replay p = sp_replay s).

(** The flags a response must have and must not have. *)
Definition flags_ok (required prohibited : list Z) (p : eapol_key_t) : bool :=
  all_flags (ek_key_info p) (or_all required) && negb (has (ek_key_info p) (or_all prohibited)).

(** The first frame of a station asks for the handshake and shows its element. *)
Definition wpa_verifystart (i : nat) (p : eapol_key_t) : N Z :=
  if negb (has (ek_key_info p) WPA_KEY_REQ) then mret 1
  else
    wpa_stop_retx i ;;
    data_within p ;;
    r ← lift_ie (wpa_parse_ie (ek_data p) (ek_data_len p) None);
    mode ← nas na_mode;
    match (r : option parsed_ie) with
    | None => mret 1
    | Some ie =>
        if negb (Z.land (pi_mode ie) mode =? pi_mode ie) then mret 1
        else
          within (ek_data_len p <=? Z.of_nat MAX_WPA_IE) ;;
          set_suppl i (fun s => s
            <| sp_assoc_wpaie := overwrite (sp_assoc_wpaie s) (ek_data p) (Z.to_nat (ek_data_len p)) |>
            <| sp_assoc_wpaie_len := ek_data_len p |>) ;;
          take_anonce i ;;
          next_state i WPA_PTKSTART ;;
          set_retries i 0 ;;
          mret 0
    end.

Definition wpa_ptkstart (i : nat) (p : eapol_key_t) : N Z :=
  if negb (has (ek_key_info p) WPA_KEY_REQ) then mret 0
  else if has (ek_key_info p) WPA_KEY_ERROR then mret 1
  else
    wpa_stop_retx i ;;
    ok ← send_and_wait i WPA_PTKINITNEGOTIATING;
    mret (if (ok : bool) then 0 else 1).

(** The element in a handshake message must be that of the association. *)
Definition wpaie_matches (s : wpa_suppl_t) (p : eapol_key_t) : N bool :=
  let len := Z.to_nat (ek_data_len p) in
  if (ek_data_len p =? 0) || negb (ek_data_len p =? sp_assoc_wpaie_len s) then mret false
  else data_within p ;; mret (bool_decide (take len (ek_data p) = take len (sp_assoc_wpaie s))).

(** Message 2. *)
Definition wpa_ptkinitnegotiating (i : nat) (p : eapol_key_t) : N Z :=
  s ← suppl i (fun s => s);
  if negb (flags_ok [WPA_KEY_PAIRWISE; WPA_KEY_MIC] [WPA_KEY_ACK; WPA_KEY_INDEX_MASK] p) then mret 0
  else if negb (replay_matches p s) then mret 0
  else
    wpa_stop_retx i ;;
    ie_ok ← wpaie_matches s p;
    if negb ie_ok then mret 1
    else
      set_suppl i (fun s => s <| sp_snonce := ek_nonce p |>) ;;
      wpa_calc_ptk i ;;
      mic ← wpa_check_mic i p;
      if negb mic then
        ea ← sta i st_ea;
        nas_send_brcm_event ea DOT11_RC_MIC_FAILURE ;;
        set_retx_timer i ;;
        mret 0
      else
        incr_replay i ;;
        set_retries i 0 ;;
        ok ← wpa_send_eapol i;
        if negb ok then mret 1
        else
          mode ← sta i st_mode;
          when (any_mode mode [WPA; WPA_PSK]) (set_sta i (fun s => s <| st_retx_exceed_hndlr := true |>)) ;;
          set_retx_timer i ;;
          next_state i WPA_PTKINITDONE ;;
          mret 0.

(** What message 4 must be, the integrity code apart. *)
Definition m4_ok (n : nas_t) (s : nas_sta_t) (p : eapol_key_t) : bool :=
  flags_ok ([WPA_KEY_PAIRWISE; WPA_KEY_MIC] ++ (if CHECK_WPA2 (st_mode s) || f_wds (na_flags n) then [WPA_KEY_SECURE] else []))
    [WPA_KEY_ACK; WPA_KEY_INDEX_MASK] p &&
  (ek_data_len p =? 0) && replay_matches p (st_suppl s).

Definition wpa_ptkinitdone (i : nat) (p : eapol_key_t) : N Z :=
  n ← nas (fun n => n);
  s ← sta i (fun s => s);
  if negb (m4_ok n s p) then mret 0
  else
    mic ← wpa_check_mic i p;
    if negb mic then mret 0 else wpa_ptkinitdone2 i.

(** A station that has its keys asks for new ones or reports a MIC failure. *)
Definition wpa_setkeysdone (i : nat) (p : eapol_key_t) : N unit :=
  if negb (flags_ok [WPA_KEY_REQ] [WPA_KEY_ACK] p) then mret tt
  else
    mic ← (if has (ek_key_info p) WPA_KEY_MIC then wpa_check_mic i p else mret false);
    if negb mic then mret tt
    else if all_flags (ek_key_info p) (or_all [WPA_KEY_ERROR; WPA_KEY_REQ; WPA_KEY_MIC]) then
      wpa_mic_error i false (has (ek_key_info p) WPA_KEY_PAIRWISE)
    else if has (ek_key_info p) WPA_KEY_PAIRWISE then set_state i WPA_PTKSTART
    else wpa_new_gtk.

(** What the reply to the group key message must be, the integrity code apart. *)
Definition rekey_reply_ok (s : nas_sta_t) (p : eapol_key_t) : bool :=
  flags_ok [WPA_KEY_SECURE; WPA_KEY_MIC] [WPA_KEY_ACK; WPA_KEY_PAIRWISE; WPA_KEY_ERROR] p && replay_matches p (st_suppl s).

Definition wpa_rekeyneg (i : nat) (p : eapol_key_t) : N unit :=
  s ← sta i (fun s => s);
  if negb (flags_ok [WPA_KEY_SECURE; WPA_KEY_MIC] [WPA_KEY_ACK; WPA_KEY_PAIRWISE; WPA_KEY_ERROR] p) then
    when (has (ek_key_info p) WPA_KEY_ERROR) (wpa_setkeysdone i p)
  else if negb (replay_matches p (st_suppl s)) then mret tt
  else
    mic ← wpa_check_mic i p;
    if negb mic then mret tt
    else
      wpa_stop_retx i ;;
      nas_authorize (st_ea s) ;;
      set_suppl i (fun s => s <| sp_state := WPA_SETKEYSDONE |> <| sp_retry_state := WPA_SETKEYSDONE |>) ;;
      secs ← wpa wp_ptk_rekey_secs;
      when (negb (secs =? 0))
        (r ← wpa_set_itimer wpa_new_ptk_callback_h secs 0;
         match snd r with
         | Some id => set_wpa (fun w => w <| wp_ptk_rekey_timer := id |>)
         | None => mret tt
         end).

(** The steps from AUTHENTICATION2 on, each falling through to the next. *)
Definition process_start (i : nat) (p : eapol_key_t) : N Z :=
  r ← wpa_verifystart i p;
  if negb (r =? 0) then mret 1
  else
    s ← sta i (fun s => s);
    if has (st_mode s) WPA && negb (bool_decide (sp_retry_state (st_suppl s) = WPA_PTKSTART)) then mret 0
    else wpa_ptkstart i p.

(** The states in which a WDS peer may ask for a handshake. *)
Definition wds_startable (st : wpa_suppl_state_t) : bool :=
  match st with
  | WPA_AUTHENTICATION2 | WPA_PTKINITNEGOTIATING | WPA_SETKEYSDONE | WPA_DISCONNECT => true
  | _ => false
  end.

(** A frame from station [i]; other than 0 the station is to be cleaned up. *)
Definition process_wpa (p : eapol_key_t) (i : nat) : N Z :=
  n ← nas (fun n => n);
  s ← sta i (fun s => s);
  let info := ek_key_info p in
  if f_wds (na_flags n) && has info WPA_KEY_REQ && has info WPA_KEY_PAIRWISE then
    when (wds_startable (sp_state (st_suppl s)) && (st_wds_td s =? 0)) (wpa_start i) ;;
    mret 0
  else if na_MIC_countermeasures n && has (st_wsec s) TKIP_ENABLED then
    cleanup_sta i DOT11_RC_MIC_FAILURE false ;; mret 0
  else
    match sp_state (st_suppl s) with
    | WPA_SETKEYSDONE =>
        wpa_setkeysdone i p ;;
        st ← suppl i sp_state;
        if bool_decide (st = WPA_PTKSTART) then process_start i p else mret 0
    | WPA_AUTHENTICATION2 => process_start i p
    | WPA_PTKSTART => wpa_ptkstart i p
    | WPA_PTKINITNEGOTIATING => wpa_ptkinitnegotiating i p
    | WPA_PTKINITDONE =>
        r ← wpa_ptkinitdone i p;
        ea ← sta i st_ea;
        nas_send_wnm_notifications ea ;;
        mret r
    | WPA_REKEYNEGOTIATING => wpa_rekeyneg i p ;; mret 0
    | _ => mret 0
    end.

End Auth.

#[export] Typeclasses Opaque set_state set_retry_state next_state set_retries incr_replay delete_wds_timer delete_gtk_timer
  set_wds_timer take_anonce send_and_wait wpa_send_rekey_frame rekey_all wpa_new_gtk_callback wpa_new_gtk wpa_countermeasures_cb
  everybody_out wpa_mic_error wpa_ptkinitdone2 wpa_goto_rekeyneg retx_xmit wpa_retransmission start_4way assoc_accepted assoc_check
  wpa_driver_assoc_msg driver_assoc start_pkinit wpa_start wpa_new_ptk_callback wpa_verifystart wpa_ptkstart
  wpa_ptkinitnegotiating wpa_ptkinitdone wpa_setkeysdone wpa_rekeyneg process_start process_wpa wpaie_matches.

(** ** What the handlers do to the server *)

Section Rels.
Context `{E : Env} (R : relation world) `{HR : !StaRel R}.

Local Tactic Notation "go" reference(f) := intros; unfold f; rel_auto.

#[export] Instance rel_set_state i st : Rel R (set_state i st).
Proof. go set_state. Qed.
#[export] Instance rel_set_retry_state i st : Rel R (set_retry_state i st).
Proof. go set_retry_state. Qed.
#[export] Instance rel_next_state i st : Rel R (next_state i st).
Proof. go next_state. Qed.
#[export] Instance rel_set_retries i n : Rel R (set_retries i n).
Proof. go set_retries. Qed.
#[export] Instance rel_incr_replay i : Rel R (incr_replay i).
Proof. go incr_replay. Qed.
#[export] Instance rel_delete_wds i : Rel R (delete_wds_timer i).
Proof. go delete_wds_timer. Qed.
#[export] Instance rel_delete_gtk : Rel R delete_gtk_timer.
Proof. go delete_gtk_timer. Qed.
#[export] Instance rel_set_wds i h : Rel R (set_wds_timer i h).
Proof. go set_wds_timer. Qed.
#[export] Instance rel_take_anonce i : Rel R (take_anonce i).
Proof. go take_anonce. Qed.
#[export] Instance rel_send_and_wait i st : Rel R (send_and_wait i st).
Proof. go send_and_wait. Qed.
#[export] Instance rel_rekey_frame i : Rel R (wpa_send_rekey_frame i).
Proof. go wpa_send_rekey_frame. Qed.
#[export] Instance rel_rekey_all l b : Rel R (rekey_all l b).
Proof. revert b. induction l as [|i l IH]; intros b; cbn [rekey_all]; rel_auto. Qed.
#[export] Instance rel_new_gtk_cb : Rel R wpa_new_gtk_callback.
Proof. go wpa_new_gtk_callback. Qed.
#[export] Instance rel_new_gtk : Rel R wpa_new_gtk.
Proof. go wpa_new_gtk. Qed.
#[export] Instance rel_countermeasures_cb : Rel R wpa_countermeasures_cb.
Proof. go wpa_countermeasures_cb. Qed.
#[export] Instance rel_everybody_out : Rel R everybody_out.
Proof. go everybody_out. Qed.
#[export] Instance rel_mic_error i a b : Rel R (wpa_mic_error i a b).
Proof. go wpa_mic_error. Qed.
#[export] Instance rel_xmit i : Rel R (retx_xmit i).
Proof. go retx_xmit. Qed.
#[export] Instance rel_start_4way i : Rel R (start_4way i).
Proof. go start_4way. Qed.
#[export] Instance rel_assoc_accepted i ie len wsec pmkc : Rel R (assoc_accepted i ie len wsec pmkc).
Proof. go assoc_accepted. Qed.
#[export] Instance rel_assoc_check i ie len : Rel R (assoc_check i ie len).
Proof. go assoc_check. Qed.
#[export] Instance rel_new_ptk_cb : Rel R wpa_new_ptk_callback.
Proof. go wpa_new_ptk_callback. Qed.
#[export] Instance rel_verifystart i p : Rel R (wpa_verifystart i p).
Proof. go wpa_verifystart. Qed.
#[export] Instance rel_ptkstart i p : Rel R (wpa_ptkstart i p).
Proof. go wpa_ptkstart. Qed.
#[export] Instance rel_wpaie_matches s p : Rel R (wpaie_matches s p).
Proof. go wpaie_matches. Qed.
#[export] Instance rel_ptkinitnegotiating i p : Rel R (wpa_ptkinitnegotiating i p).
Proof. go wpa_ptkinitnegotiating. Qed.
#[export] Instance rel_setkeysdone i p : Rel R (wpa_setkeysdone i p).
Proof. go wpa_setkeysdone. Qed.
#[export] Instance rel_process_start i p : Rel R (process_start i p).
Proof. go process_start. Qed.
End Rels.

(** The handlers that authorize stations and install pairwise keys. *)
Section Keys.
Context `{E : Env} (R : relation world) `{HR : !StaRel R} `{HA : !AuthRel R} `{HK : !KeyRel R}.

Local Tactic Notation "go" reference(f) := intros; unfold f; rel_auto.

#[export] Instance rel_authorize ea : Rel R (nas_authorize ea).
Proof. intros w. apply wp_call, auth_emit. Qed.
#[export] Instance rel_set_key ea key len index tx hi lo force : Rel R (nas_set_key ea key len index tx hi lo force) | 20.
Proof. intros w. apply wp_call, key_emit. Qed.
#[export] Instance rel_ptkinitdone2 i : Rel R (wpa_ptkinitdone2 i).
Proof. go wpa_ptkinitdone2. Qed.
#[export] Instance rel_goto_rekeyneg i : Rel R (wpa_goto_rekeyneg i).
Proof. go wpa_goto_rekeyneg. Qed.
#[export] Instance rel_retransmission i : Rel R (wpa_retransmission i).
Proof. go wpa_retransmission. Qed.
#[export] Instance rel_assoc_msg sta_ data len : Rel R (wpa_driver_assoc_msg sta_ data len).
Proof. go wpa_driver_assoc_msg. Qed.
#[export] Instance rel_driver_assoc ea data len : Rel R (driver_assoc ea data len).
Proof. go driver_assoc. Qed.
#[export] Instance rel_start_pkinit i : Rel R (start_pkinit i).
Proof. go start_pkinit. Qed.
#[export] Instance rel_wpa_start i : Rel R (wpa_start i).
Proof. go wpa_start. Qed.
#[export] Instance rel_ptkinitdone i p : Rel R (wpa_ptkinitdone i p).
Proof. go wpa_ptkinitdone. Qed.
#[export] Instance rel_rekeyneg i p : Rel R (wpa_rekeyneg i p).
Proof. go wpa_rekeyneg. Qed.
#[export] Instance rel_process_wpa p i : Rel R (process_wpa p i).
Proof. go process_wpa. Qed.
End Keys.
