(* ===== verification/WpaSafety.v ===== *)
(** What the WPA authenticator guarantees: a station is authorized, and its pairwise key
    given to the driver, only upon a frame of the right kind whose replay counter and
    integrity code check out; a frame that does not is without effect; retransmissions
    end; TKIP countermeasures empty the station table. *)
From stdpp Require Import base option list numbers strings sets relations.
From Stdlib Require Import ZArith Lia.
From S2P Require Import Prelude Monad NasState NasSta WpaIe WpaKey NasWnm NasRel WpaMsg NasPae WpaAuth.
Local Open Scope Z_scope.

Section Safety.
Context `{E : Env}.

Local Instance calls_trans C D : Transitive (calls C D).
Proof. apply (calls_step C D). Qed.

(** ** Only verified frames authorize *)

(** Plumbing the pairwise key concerns this station only. *)
Lemma ptkinitdone2_calls i w C D : C (st_ea (sta_at (w_nas w) i)) ->
  (forall k, wk_ea k = Some (st_ea (sta_at (w_nas w) i)) -> D k) ->
  wp (wpa_ptkinitdone2 i) (fun _ w' => calls C D w w') w.
Proof.
  intros HC HD. unfold wpa_ptkinitdone2. nas_step.
  eapply wp_mono; [apply wp_conj; [apply (rel (R := calls C D))|apply (rel (R := keeps_links))]|].
  intros ? w1 [Hc Hl]. do 2 nas_step. rewrite (keeps_links_ea _ _ _ Hl). set (ea := st_ea (sta_at (w_nas w) i)) in *.
  assert (HA : Rel (calls C D) (nas_authorize ea)).
  { intros w2. apply wp_call. exists [EvAuthorize ea]. split; [done|]. by constructor. }
  assert (HK : forall key len ix tx hi lo force, Rel (calls C D) (nas_set_key (Some ea) key len ix tx hi lo force)).
  { intros. intros w2. apply wp_call. eexists [_]. split; [done|]. constructor; [|constructor]. right. right. by apply HD. }
  apply (rel_from (calls _ _)); [rel_auto|done].
Qed.

(** The frame in hand verifies under the station's key. *)
Definition verified (s : nas_sta_t) (p : eapol_key_t) : Prop := mic_ok (eapol_mic_key (st_suppl s)) p = true.

Definition may_authorize (n : nas_t) (s : nas_sta_t) (p : eapol_key_t) (ea : list Z) : Prop :=
  ea = st_ea s /\ verified s p /\
  (sp_state (st_suppl s) = WPA_PTKINITDONE /\ m4_ok n s p = true \/
   sp_state (st_suppl s) = WPA_REKEYNEGOTIATING /\ rekey_reply_ok s p = true).

Definition may_install (n : nas_t) (s : nas_sta_t) (p : eapol_key_t) (k : wl_wsec_key_t) : Prop :=
  wk_ea k = Some (st_ea s) /\ verified s p /\ sp_state (st_suppl s) = WPA_PTKINITDONE /\ m4_ok n s p = true.

Lemma ptkinitdone_calls i p w : let n := w_nas w in let s := sta_at n i in sp_state (st_suppl s) = WPA_PTKINITDONE ->
  wp (wpa_ptkinitdone i p) (fun _ w' => calls (may_authorize n s p) (may_install n s p) w w') w.
Proof.
  intros n s Hst. unfold wpa_ptkinitdone. do 4 nas_step. fold n s. nas_step; [nas_step; by exists []|].
  apply negb_false_iff in H. nas_step. eapply wp_mono; [by apply wpa_check_mic_wp|]. intros mic w1 [-> ->].
  fold n s. nas_step; [nas_step; by exists []|]. apply negb_false_iff in H0.
  apply ptkinitdone2_calls; fold n s; [by split_and!; auto|]. intros k Hk. by split_and!.
Qed.

Lemma rekeyneg_calls i p w : let n := w_nas w in let s := sta_at n i in sp_state (st_suppl s) = WPA_REKEYNEGOTIATING ->
  wp (wpa_rekeyneg i p) (fun _ w' => calls (may_authorize n s p) (may_install n s p) w w') w.
Proof.
  intros n s Hst. unfold wpa_rekeyneg. do 2 nas_step. fold n s. nas_step; [apply (rel_from (calls _ _)); [rel_auto|by exists []]|].
  nas_step; [nas_step; by exists []|]. nas_step. eapply wp_mono; [by apply wpa_check_mic_wp|]. intros mic w1 [-> ->].
  fold n s. nas_step; [nas_step; by exists []|]. apply negb_false_iff in H, H0, H1.
  assert (HA : Rel (calls (may_authorize n s p) (may_install n s p)) (nas_authorize (st_ea s))).
  { intros w2. apply wp_call. exists [EvAuthorize (st_ea s)]. split; [done|]. constructor; [|constructor].
    split_and!; [done|done|]. right. split; [done|]. unfold rekey_reply_ok. by rewrite H, H0. }
  apply (rel_from (calls _ _)); [rel_auto|by exists []].
Qed.



(** ** Retransmissions end *)

Definition retx_view (s : nas_sta_t) := (st_retries s, st_wds_td s).

Lemma xmit_retx i : Rel (keeps_at i retx_view) (retx_xmit i).
Proof.
  unfold retx_xmit, wpa_send_eapol, eapol_msg, msg_sup_stakeystart, incr_replay, set_state, wpa_stop_retx. rel_auto.
Qed.

(** A station without a retransmission timer stays so. *)
Definition td_zero (i : nat) (w : world) : Prop := st_td (sta_at (w_nas w) i) = 0.
Definition keeps_td_zero (i : nat) (w w' : world) : Prop := td_zero i w -> td_zero i w'.

Local Instance keeps_td_zero_step i : StepRel (keeps_td_zero i).
Proof.
  split; [split|..]; unfold keeps_td_zero, td_zero.
  - by intros w.
  - intros w1 w2 w3. auto.
  - by intros e w _.
  - intros f w (Hs & _). unfold sta_at. cbn [w_nas]. by rewrite Hs.
Qed.

Lemma td_zero_out i n : (length (na_sta n) <= i)%nat -> st_td (sta_at n i) = 0.
Proof. intros H. unfold sta_at. by rewrite nth_lookup, lookup_ge_None_2. Qed.

Lemma keeps_td_zero_set i j f : (forall s, st_td s = 0 -> st_td (f s) = 0) -> Rel (keeps_td_zero i) (set_sta j f).
Proof.
  intros Hf w. apply wp_set_sta. unfold keeps_td_zero, td_zero. cbn [w_nas]. destruct (decide (j = i)) as [->|Hn].
  - destruct (decide (i < length (na_sta (w_nas w)))%nat); [rewrite sta_at_upd_same by done; auto|by rewrite upd_sta_ge by lia].
  - by rewrite sta_at_upd_other.
Qed.

Lemma keeps_td_zero_suppl i j f : Rel (keeps_td_zero i) (set_suppl j f).
Proof. by apply keeps_td_zero_set. Qed.

Lemma keeps_td_zero_toss i j reason ds : Rel (keeps_td_zero i) (toss_sta j reason ds).
Proof.
  pose proof (keeps_td_zero_suppl i). unfold toss_sta, wpa_stop_retx, set_hashed. rel_auto; try by apply keeps_td_zero_set.
  all: intros w; apply wp_set_nas; intros Hz; exact Hz.
Qed.

Lemma stop_retx_td i w : wp (wpa_stop_retx i) (fun _ => td_zero i) w.
Proof.
  unfold wpa_stop_retx. do 4 nas_step; unfold TIMER_DELETE; nas_steps; unfold td_zero; cbn [w_nas];
    (destruct (decide (i < length (na_sta (w_nas w)))%nat) as [Hi|Hi];
     [rewrite !sta_at_upd_same by (rewrite ?upd_sta_length; done)|apply td_zero_out; rewrite ?upd_sta_length; lia]).
  - done.
  - by apply negb_false_iff, Z.eqb_eq in H.
Qed.

(** The tail of a handler once the timer is gone. *)
Lemma td_gone {A} i (m : N A) w : Rel (keeps_td_zero i) m -> td_zero i w -> wp m (fun _ => td_zero i) w.
Proof. intros Hm Hw. eapply wp_mono; [apply Hm|]. intros a w' H. by apply H. Qed.

Lemma wp_any {A} (m : N A) w : wp m (fun _ _ => True) w.
Proof. unfold wpx. by destruct (m w). Qed.

Lemma cleanup_td i reason ds w : wp (cleanup_sta i reason ds) (fun _ => td_zero i) w.
Proof.
  pose proof (keeps_td_zero_suppl i). pose proof (keeps_td_zero_toss i).
  unfold cleanup_sta. do 3 nas_step. eapply wp_mono; [apply wp_any|]. intros ? w1 _.
  do 3 nas_step. eapply wp_mono; [apply wp_any|]. intros ? w2 _.
  nas_step. eapply wp_mono; [apply stop_retx_td|]. intros ? w3 Hw3. apply td_gone; [rel_auto|done].
Qed.

(** The firings after which the timer is given up. *)
Definition retx_bound (s : nas_sta_t) : Z := if st_wds_td s =? 0 then WPA_RETRY + 1 else (WPA_RETRY + 1) * 2.

Lemma retransmission_step i w : let s := sta_at (w_nas w) i in (i < length (na_sta (w_nas w)))%nat ->
  na_MIC_countermeasures (w_nas w) = false -> 0 <= st_retries s < (WPA_RETRY + 1) * 2 ->
  wp (wpa_retransmission i) (fun _ w' => let s' := sta_at (w_nas w') i in td_zero i w' \/
    st_retries s' = st_retries s + 1 /\ st_wds_td s' = st_wds_td s /\ st_retries s' < retx_bound s) w.
Proof.
  intros s Hi Hcm Hr.
  unfold wpa_retransmission. do 4 nas_step. fold s. rewrite Hcm. nas_step.
  { eapply wp_mono; [apply stop_retx_td|]. by left. }
  clear H. do 4 nas_step. cbn [w_nas]. set (n1 := upd_sta _ _ _).
  assert (Hn1 : sta_at n1 i = s <| st_retries := st_retries s + 1 |>).
  { subst n1. rewrite sta_at_upd_same by done. unfold WPA_RETRY, wrap16 in *. fold s. unfold upd. by rewrite Z.mod_small by lia. }
  assert (Hx : forall w1, retx_view (sta_at (w_nas w1) i) = (st_retries s + 1, st_wds_td s) -> st_retries s + 1 < retx_bound s ->
    wp (retx_xmit i) (fun _ w' => let s' := sta_at (w_nas w') i in td_zero i w' \/
      st_retries s' = st_retries s + 1 /\ st_wds_td s' = st_wds_td s /\ st_retries s' < retx_bound s) w1).
  { intros w1 H1 Hb. eapply wp_mono; [apply xmit_retx|]. intros ? w' H2. unfold keeps_at in H2. rewrite H1 in H2.
    injection H2 as H2 H3. right. cbv zeta. by rewrite H2, H3. }
  rewrite !Hn1. change (st_retries (s <| st_retries := _ |>)) with (st_retries s + 1). unfold retx_bound in *. nas_step.
  - nas_step.
    + apply negb_true_iff in H0. rewrite H0 in *. nas_step.
      * nas_step. eapply wp_mono; [apply (rel (R := keeps_at i retx_view))|]. intros ? w1 H2. apply Hx; [|unfold WPA_RETRY in *; lia].
        etrans; [exact H2|]. exact (f_equal retx_view Hn1).
      * nas_step; [eapply wp_mono; [apply stop_retx_td|by left]|]. apply Hx; [exact (f_equal retx_view Hn1)|]. unfold WPA_RETRY in *. lia.
    + nas_step.
      * nas_step. eapply wp_mono; [apply wp_any|]. intros ? w1 _. eapply wp_mono; [apply stop_retx_td|by left].
      * nas_step. eapply wp_mono; [apply wp_any|]. intros ? w1 _. eapply wp_mono; [apply cleanup_td|by left].
  - apply Hx; [exact (f_equal retx_view Hn1)|]. unfold WPA_RETRY in *. destruct (_ =? 0); lia.
Qed.

(** A firing of the retransmission timer. *)
Definition fires (i : nat) (w w' : world) : Prop :=
  na_MIC_countermeasures (w_nas w) = false /\ st_td (sta_at (w_nas w) i) <> 0 /\ wpa_retransmission i w = Ret tt w'.


(** ** Frames that do not check out *)

(** Frames from a station in an exchange that cannot be the awaited answer: the wrong
    flags or key data, a stale replay counter, or (once the key is known) a wrong
    integrity code. *)
Definition rejected (n : nas_t) (s : nas_sta_t) (p : eapol_key_t) : bool :=
  match sp_state (st_suppl s) with
  | WPA_PTKINITNEGOTIATING =>
      negb (flags_ok [WPA_KEY_PAIRWISE; WPA_KEY_MIC] [WPA_KEY_ACK; WPA_KEY_INDEX_MASK] p) ||
      negb (replay_matches p (st_suppl s))
  | WPA_PTKINITDONE => negb (m4_ok n s p) || negb (mic_ok (eapol_mic_key (st_suppl s)) p)
  | WPA_REKEYNEGOTIATING =>
      negb (has (ek_key_info p) WPA_KEY_ERROR) &&
      (negb (rekey_reply_ok s p) || negb (mic_ok (eapol_mic_key (st_suppl s)) p))
  | _ => false
  end.

Lemma bind_nas {A B} (f : nas_t -> A) (k : A -> N B) w : (nas f ≫= k) w = k (f (w_nas w)) w.
Proof. done. Qed.
Lemma bind_sta {A B} i (f : nas_sta_t -> A) (k : A -> N B) w : (sta i f ≫= k) w = k (f (sta_at (w_nas w) i)) w.
Proof. done. Qed.
Lemma bind_suppl {A B} i (f : wpa_suppl_t -> A) (k : A -> N B) w :
  (suppl i f ≫= k) w = k (f (st_suppl (sta_at (w_nas w) i))) w.
Proof. done. Qed.
Lemma bind_Ret {A B} (m : N A) (k : A -> N B) a w w' : m w = Ret a w' -> (m ≫= k) w = k a w'.
Proof. unfold mbind, M_bind. by intros ->. Qed.

Lemma wpa_check_mic_eq i p w : data_len_ok p = true ->
  wpa_check_mic i p w = Ret (mic_ok (eapol_mic_key (st_suppl (sta_at (w_nas w) i))) p) w.
Proof. intros H. unfold wpa_check_mic, data_within. by rewrite H. Qed.


(** ** TKIP countermeasures *)

(** A station whose PMK is cached, or any on a WDS link, survives its clean-up. *)
Definition survives (n : nas_t) (s : nas_sta_t) : Prop :=
  f_wds (na_flags n) && f_authenticator (na_flags n) = true \/
  (has (st_mode s) WPA2 = true /\ pae_state_ (st_pae s) = AUTHENTICATED /\ pae_ssnto (st_pae s) <> 0).

(** The loop after [k] stations of [n0]. *)
Definition tossed_upto (n0 : nas_t) (k : nat) (n : nas_t) : Prop :=
  table_ok n /\ rest_same n0 n /\ (forall j, (j < k)%nat -> st_used (sta_at n j) = false) /\
  (forall j, (k <= j)%nat -> sta_at n j = (sta_at n0 j) <| st_next := st_next (sta_at n j) |>).

Lemma rest_same_refl n : rest_same n n.
Proof. by destruct n. Qed.

Lemma tossed_upto_step n0 k n n' : (forall i, in_use n0 i -> ~ survives n0 (sta_at n0 i)) ->
  tossed_upto n0 k n -> (k < MAX_SUPPLICANTS)%nat -> st_used (sta_at n k) = true -> cleaned k n n' -> tossed_upto n0 (S k) n'.
Proof.
  intros Hs (Ht & Hr & Hlo & Hhi) Hk Hu (Ht' & Hr' & Ho & Hself).
  assert (Hsk : st_used (sta_at n' k) = false).
  { destruct (st_used (sta_at n' k)) eqn:Hu'; [|done]. destruct (Hs k).
    - split; [done|]. by rewrite (Hhi k (le_n k)) in Hu.
    - specialize (Hself eq_refl).
      assert (Hf : na_flags n = na_flags n0) by by rewrite Hr.
      rewrite Hf, (Hhi k (le_n k)) in Hself. exact Hself. }
  split_and!; [done|by eapply rest_same_trans|..]; intros j Hj.
  - destruct (decide (j = k)) as [->|]; [done|]. rewrite Ho by done. apply Hlo. lia.
  - rewrite (Ho j) by lia. rewrite (Hhi j) at 1 by lia. done.
Qed.

Lemma tossed_upto_skip n0 k n : tossed_upto n0 k n -> st_used (sta_at n k) = false -> tossed_upto n0 (S k) n.
Proof.
  intros (Ht & Hr & Hlo & Hhi) Hu. split_and!; [done|done|..].
  - intros j Hj. destruct (decide (j = k)) as [->|]; [done|]. apply Hlo. lia.
  - intros j Hj. apply Hhi. lia.
Qed.

Lemma everybody_out_wp w : table_ok (w_nas w) ->
  (forall i, in_use (w_nas w) i -> ~ survives (w_nas w) (sta_at (w_nas w) i)) ->
  twp everybody_out (fun _ w' => table_ok (w_nas w') /\ rest_same (w_nas w) (w_nas w') /\ forall i, ~ in_use (w_nas w') i) w.
Proof.
  intros Hn Hs. unfold everybody_out. set (n0 := w_nas w) in *.
  assert (Hl : forall l k w1, (k + l = MAX_SUPPLICANTS)%nat -> tossed_upto n0 k (w_nas w1) ->
    twp (for_each (seq k l) (fun i => used ← sta i st_used; when used (cleanup_sta i DOT11_RC_MIC_FAILURE false)))
      (fun _ w' => tossed_upto n0 MAX_SUPPLICANTS (w_nas w')) w1).
  { induction l as [|l IH]; intros k w1 Hk H1; cbn [seq for_each]; [by replace MAX_SUPPLICANTS with k by lia|].
    do 3 nas_step. nas_step.
    - eapply wp_mono; [apply cleanup_sta_spec; [apply H1|lia]|]. intros ? w2 H2. apply IH; [lia|].
      eapply tossed_upto_step; [done|exact H1|lia|done|done].
    - apply IH; [lia|]. by apply tossed_upto_skip. }
  nas_step. eapply wp_mono; [apply (Hl MAX_SUPPLICANTS 0%nat w); [done|]|].
  { split_and!; [done|apply rest_same_refl|lia|]. intros j _. by destruct (sta_at _ j). }
  intros ? w1 (Ht & Hr & Hlo & _). do 2 nas_step.
  destruct (table_chain (w_nas w1) 0 Ht ltac:(unfold MAX_SUPPLICANTS; lia)) as (c & Hc & _ & Hin).
  assert (Hno : forall i, ~ in_use (w_nas w1) i) by (intros i [Hi Hu]; rewrite (Hlo i Hi) in Hu; done).
  destruct c as [|i c]; [|destruct (Hno i); apply Hin, list_elem_of_here]. inversion Hc as [Hh|]; subst.
  rewrite bool_decide_true by done. done.
Qed.

(** What clears a group key slot. *)
Definition clears (ix : Z) (e : event) : Prop :=
  match e with EvSetKey k => wk_ea k = None /\ wk_len k = 0 /\ wk_index k = wrap32 ix | _ => False end.

Lemma table_ok_same n n' : na_sta n' = na_sta n -> na_sta_hashed n' = na_sta_hashed n -> table_ok n -> table_ok n'.
Proof.
  intros H1 H2 Ht. assert (Hs : same_table n n') by (split_and!; [by rewrite H1|done|intros j; unfold sta_at; by rewrite H1]).
  by rewrite Hs in Ht.
Qed.

Lemma set_itimer_nas P h secs msecs w : wpx P (wpa_set_itimer h secs msecs) (fun _ w' => w_nas w' = w_nas w) w.
Proof. unfold wpa_set_itimer. by nas_steps. Qed.


End Safety.

(** ** Concrete runs *)

(** The run returns, passes the test [chk] and satisfies [Q]. *)
Definition runs {A} (chk : A -> world -> bool) (Q : A -> world -> Prop) (r : res world A) : Prop :=
  match r with Ret a w => chk a w = true /\ Q a w | _ => False end.

Lemma runs_intro {A} (m : N A) chk Q w :
  match m w with Ret a w' => chk a w' | _ => false end = true -> wp m Q w -> runs chk Q (m w).
Proof. unfold runs, wpx. by destruct (m w). Qed.

(** One WPA2 station, in slot 0, that owes message 4. *)
Definition m4_demo : world :=
  let n := nas_demo WPA2_PSK AES_ENABLED true in
  World ((upd_sta n 0 (fun s => s <| st_used := true |> <| st_ea := cl_ea |> <| st_mode := WPA2_PSK |> <| st_td := 1 |>
    <| st_retries := 6 |>
    <| st_suppl ::= fun s => s <| sp_state := WPA_PTKINITDONE |> <| sp_desc := 2 |> <| sp_ptk := zrange 64 |>
                               <| sp_tk_len := 16 |> |>))
    <| na_sta_hashed ::= <[pae_hash cl_ea := Some 0%nat]> |>) [].

(** Its message 4. *)
Definition m4_frame : eapol_key_t :=
  sign 2 (take 16 (zrange 64)) ((blank_frame cl_ea (sta_at (w_nas m4_demo) 0))
    <| ek_key_info := or_all [2; WPA_KEY_PAIRWISE; WPA_KEY_MIC; WPA_KEY_SECURE] |>).

Definition authorized (ea : list Z) (evs : list event) : bool :=
  existsb (fun e => match e with EvAuthorize a => bool_decide (a = ea) | _ => false end) evs.


(** The station's first firing of a retransmission timer with one retry left. *)
Definition can_fire (i : nat) (w : world) : bool :=
  negb (na_MIC_countermeasures (w_nas w)) && negb (st_td (sta_at (w_nas w) i) =? 0) &&
  match wpa_retransmission (E := env_yes) i w with Ret _ _ => true | _ => false end.

Lemma can_fire_fires i w : can_fire i w = true -> exists w', fires (E := env_yes) i w w'.
Proof.
  unfold can_fire, fires. intros [[H1 H2]%andb_prop H3]%andb_prop. destruct (wpa_retransmission i w) as [[] w'| |]; [|done..].
  exists w'. split_and!; [by apply negb_true_iff|by apply negb_true_iff, Z.eqb_neq in H2|done].
Qed.



(** A TKIP access point with an empty table, whose last failure was 10 seconds ago. *)
Definition mic_demo : world :=
  World ((nas_demo WPA_PSK TKIP_ENABLED true) <| na_prev_MIC_error := 990 |>) [].

