(* ===== verification/WpaSup.v ===== *)
(** The WPA supplicant of src/userspace/nas/src/wpa.c (BCMSUPPL): the handler of the
    authenticator's EAPOL-Key frames, and the handshake requests of a WDS peer. *)
From stdpp Require Import base option list numbers strings.
From Stdlib Require Import ZArith Lia.
From S2P Require Import Prelude Monad NasState NasSta WpaIe WpaKey NasWnm NasRel WpaMsg NasPae WpaAuth WpaSafety.
Local Open Scope Z_scope.

(** The local array t_gtk has 32 bytes. *)
Definition T_GTK_LEN : Z := 32.

Section Sup.
Context `{E : Env}.

(** t_gtk: the group key before a frame is handled. *)
Definition save_gtk : N (list Z) :=
  w ← wpa (fun w => w);
  within (wp_gtk_len w <=? T_GTK_LEN) ;;
  mret (overwrite (replicate (Z.to_nat T_GTK_LEN) 0) (wp_gtk w) (Z.to_nat (wp_gtk_len w))).

(** Whether the group key, of its new length, differs from [t_gtk] or is not plumbed. *)
Definition gtk_is_new (t_gtk : list Z) : N bool :=
  w ← wpa (fun w => w);
  n ← nas (fun n => n);
  within (wp_gtk_len w <=? T_GTK_LEN) ;;
  let len := Z.to_nat (wp_gtk_len w) in
  mret (negb (bool_decide (take len t_gtk = take len (wp_gtk w)) && f_gtk_plumbed (na_flags n))).

(** The group key of a WPA2 frame: [None] when it has none. *)
Definition sup_extract_gtk (p : eapol_key_t) : N (option bool) :=
  t_gtk ← save_gtk;
  ok ← wpa_extract_gtk p;
  if negb ok then mret None else u ← gtk_is_new t_gtk; mret (Some u).

(** Results of a step: an early return of the function or the value it goes on with. *)
Definition sup_res (A : Type) : Type := (eapol_sup_pk_state_t + A)%type.

(** Message 3 must have the ANonce of message 1, and the group key (WPA2) or the
    element of the association (WPA): is there a group key to install? *)
Definition sup_check_install (i : nat) (p : eapol_key_t) : N (sup_res bool) :=
  s ← sta i (fun s => s);
  if negb (bool_decide (ek_nonce p = sp_anonce (st_suppl s))) then mret (inl EAPOL_SUP_PK_ERROR)
  else if CHECK_WPA2 (st_mode s) then
    lift_ie (bcm_parse_tlvs (length (ek_data p)) (ek_data p) 0 (ek_data_len p) DOT11_MNG_RSN_ID) ;;
    r ← sup_extract_gtk p;
    mret (match (r : option bool) with None => inl EAPOL_SUP_PK_UNKNOWN | Some u => inr u end)
  else
    ok ← wpaie_matches (st_suppl s) p;
    mret (if (ok : bool) then inr false else inl EAPOL_SUP_PK_ERROR).

(** Is the pairwise key to be installed?  Not upon a retransmitted message 3, nor when it
    is the one in use. *)
Definition sup_update_ptk (i : nat) (install : bool) : N (sup_res bool) :=
  s ← suppl i (fun s => s);
  if negb install then mret (inr false)
  else match sp_pk_state s with
       | EAPOL_SUP_PK_DONE => set_suppl i (fun s => s <| sp_pk_state := EAPOL_SUP_PK_MSG3 |>) ;; mret (inr false)
       | EAPOL_SUP_PK_MSG3 =>
           let len := Z.to_nat (sp_tk_len s) in
           within (sp_tk_len s <=? T_GTK_LEN) ;;
           mret (inr (negb (bool_decide (take len (sp_eapol_temp_ptk s) = temp_encr_key s len))))
       | _ => mret (inl EAPOL_SUP_PK_ERROR)
       end.

(** The pairwise branch: [mic] is the verdict on the MIC; the keys to install. *)
Definition sup_pairwise (i : nat) (p : eapol_key_t) (mic : eapol_sup_pk_state_t) : N (sup_res (bool * bool)) :=
  let info := ek_key_info p in
  set_suppl i (fun s => s <| sp_state := WPA_SUP_STAKEYSTARTP |>) ;;
  when (negb (has info WPA_KEY_MIC)) (set_suppl i (fun s => s <| sp_pk_state := EAPOL_SUP_PK_MSG1 |>)) ;;
  pk ← suppl i sp_pk_state;
  if has info WPA_KEY_MIC && negb (bool_decide (pk = EAPOL_SUP_PK_MSG3 \/ pk = EAPOL_SUP_PK_DONE)) then mret (inl mic)
  else
    gtk ← (if negb (bool_decide (mic = EAPOL_SUP_PK_MICFAILED)) then
             r ← (if has info WPA_KEY_INSTALL then sup_check_install i p else mret (inr false));
             match r with
             | inl _ => mret tt
             | inr _ =>
                 s ← suppl i (fun s => s);
                 when (negb (has info WPA_KEY_MIC) && negb (bool_decide (ek_nonce p = sp_anonce s)))
                   (set_suppl i (fun s => s <| sp_anonce := ek_nonce p |>) ;; wpa_calc_ptk i)
             end ;;
             mret r
           else mret (inr false));
    match (gtk : sup_res bool) with
    | inl e => mret (inl e)
    | inr update_gtk =>
        ptk ← (if bool_decide (mic = EAPOL_SUP_PK_MICOK) then sup_update_ptk i (has info WPA_KEY_INSTALL) else mret (inr false));
        mret (match (ptk : sup_res bool) with inl e => inl e | inr update_ptk => inr (update_ptk, update_gtk) end)
    end.

(** The group branch: the verdict on the frame, and whether to install its key. *)
Definition sup_group (i : nat) (p : eapol_key_t) (mic : eapol_sup_pk_state_t) : N (sup_res (eapol_sup_pk_state_t * bool)) :=
  set_suppl i (fun s => s <| sp_state := WPA_SUP_STAKEYSTARTG |>) ;;
  if negb (bool_decide (mic = EAPOL_SUP_PK_MICOK)) then mret (inr (EAPOL_SUP_PK_MICFAILED, false))
  else
    s ← sta i (fun s => s);
    if CHECK_WPA2 (st_mode s) then
      r ← sup_extract_gtk p;
      mret (match (r : option bool) with None => inl EAPOL_SUP_PK_UNKNOWN | Some u => inr (mic, u) end)
    else
      t_gtk ← save_gtk;
      ok ← wpa_decr_gtk (sp_desc (st_suppl s)) (eapol_encr_key (st_suppl s)) p;
      if negb ok then mret (inr (EAPOL_SUP_PK_MICFAILED, false))
      else
        new ← gtk_is_new t_gtk;
        when new (wpa_plumb_gtk (has (ek_key_info p) WPA_KEY_INSTALL) ;; mret tt) ;;
        mret (inr (mic, false)).

(** The pairwise key goes to the driver. *)
Definition sup_install_ptk (i : nat) : N unit :=
  nas_sleep_ms 100 ;;
  s ← sta i (fun s => s);
  let p := st_suppl s in
  r ← nas_set_key (Some (st_ea s)) (drop 32 (sp_ptk p)) (sp_tk_len p) 0 true 0 0 false;
  if r <? 0 then nas_deauthenticate (st_ea s) DOT11_RC_BUSY ;; mret tt
  else
    set_suppl i (fun s => s
      <| sp_eapol_temp_ptk := overwrite (replicate (Z.to_nat T_GTK_LEN) 0) (drop 32 (sp_ptk s)) (Z.to_nat (sp_tk_len s)) |>
      <| sp_pk_state := EAPOL_SUP_PK_DONE |>).

(** The answer, the keys, the new state of the exchange and the authorization. *)
Definition sup_finish (i : nat) (p : eapol_key_t) (state : eapol_sup_pk_state_t) (update_ptk update_gtk : bool) :
  N eapol_sup_pk_state_t :=
  let info := ek_key_info p in
  sent ← (if has info WPA_KEY_ACK && negb (bool_decide (state = EAPOL_SUP_PK_MICFAILED)) then wpa_send_eapol i else mret true);
  if negb sent then mret EAPOL_SUP_PK_ERROR
  else
    when update_ptk (sup_install_ptk i) ;;
    r ← (if (update_gtk : bool) then wpa_plumb_gtk (has info WPA_KEY_INSTALL) else mret 0);
    if (update_gtk : bool) && (r =? - ENODEV) then mret EAPOL_SUP_PK_ERROR
    else
      when (has info WPA_KEY_PAIRWISE && has info WPA_KEY_INSTALL && negb update_ptk)
        (set_suppl i (fun s => s <| sp_pk_state := EAPOL_SUP_PK_DONE |>)) ;;
      when (bool_decide (state = EAPOL_SUP_PK_MICOK) && has info WPA_KEY_SECURE)
        (ea ← sta i st_ea;
         nas_authorize ea ;;
         wpa_stop_retx i ;;
         delete_wds_timer i) ;;
      mret state.

(** The verdict on the MIC of a frame that has one. *)
Definition sup_check_mic (i : nat) (p : eapol_key_t) : N eapol_sup_pk_state_t :=
  if has (ek_key_info p) WPA_KEY_MIC then
    ok ← wpa_check_mic i p;
    mret (if (ok : bool) then EAPOL_SUP_PK_MICOK else EAPOL_SUP_PK_MICFAILED)
  else mret EAPOL_SUP_PK_UNKNOWN.

Definition eapol_sup_process_key (p : eapol_key_t) (i : nat) : N eapol_sup_pk_state_t :=
  let info := ek_key_info p in
  set_suppl i (fun s => s <| sp_replay := ek_replay p |>) ;;
  mic ← sup_check_mic i p;
  s ← sta i (fun s => s);
  r ← (if CHECK_WPA2 (st_mode s) && has info WPA_KEY_ENCRYPTED_DATA
       then wpa_decr_key_data (sp_desc (st_suppl s)) (eapol_encr_key (st_suppl s)) p
       else mret (Some p));
  match (r : option eapol_key_t) with
  | None => mret EAPOL_SUP_PK_UNKNOWN
  | Some p =>
      if has info WPA_KEY_PAIRWISE then
        r ← sup_pairwise i p mic;
        match (r : sup_res (bool * bool)) with
        | inl e => mret e
        | inr (update_ptk, update_gtk) => sup_finish i p mic update_ptk update_gtk
        end
      else
        r ← sup_group i p mic;
        match (r : sup_res (eapol_sup_pk_state_t * bool)) with
        | inl e => mret e
        | inr (state, update_gtk) => sup_finish i p state false update_gtk
        end
  end.

(** Other than 0 the station is to be cleaned up. *)
Definition process_sup_wpa (p : eapol_key_t) (i : nat) : N Z :=
  set_suppl i (fun s =>
    s <| sp_state := if bool_decide (sp_state s = WPA_SUP_AUTHENTICATION) then WPA_SUP_STAKEYSTARTP else sp_state s |>
      <| sp_retry_state :=
           if bool_decide (sp_retry_state s = WPA_SUP_AUTHENTICATION) then WPA_SUP_STAKEYSTARTP else sp_retry_state s |>) ;;
  st ← suppl i sp_state;
  match st with
  | WPA_SUP_DISCONNECTED | WPA_SUP_INITIALIZE | WPA_SUP_AUTHENTICATION | WPA_SUP_KEYUPDATE => mret 0
  | WPA_SUP_STAKEYSTARTP | WPA_SUP_STAKEYSTARTG =>
      wpa_stop_retx i ;;
      r ← eapol_sup_process_key p i;
      mret (if bool_decide (r = EAPOL_SUP_PK_ERROR) then 1 else 0)
  | _ => mret 1
  end.

(** ** Requests for a handshake *)

(** The element expected in message 3 is the server's own; the array always has room
    for it. *)
Definition request_pkinit (i : nat) : N unit :=
  wpa_stop_retx i ;;
  n ← nas (fun n => n);
  ie ← wpa_build_ie (na_wsec n) CRYPTO_ALGO_OFF (na_mode n) (Z.of_nat MAX_WPA_IE);
  let ie := default [] ie in
  set_suppl i (fun s => s <| sp_assoc_wpaie := overwrite (sp_assoc_wpaie s) ie (length ie) |>
                          <| sp_assoc_wpaie_len := Z.of_nat (length ie) |>) ;;
  next_state i WPA_SUP_INITIALIZE ;;
  if has (na_mode n) WPA then mret tt
  else send_and_wait i WPA_SUP_AUTHENTICATION ;; mret tt.

Definition wpa_request (i : nat) : N unit :=
  delete_wds_timer i ;;
  set_sta i (fun s => s <| st_wpa_msg_timeout_s := RETRY_SECS |> <| st_wpa_msg_timeout_ms := RETRY_MSECS |>) ;;
  pk ← suppl i sp_pk_state;
  (match pk with
   | EAPOL_SUP_PK_UNKNOWN | EAPOL_SUP_PK_DONE => request_pkinit i
   | _ => wpa_stop_retx i
   end) ;;
  set_wds_timer i (request_pkinit_h i).

End Sup.

#[export] Typeclasses Opaque save_gtk gtk_is_new sup_extract_gtk sup_check_install sup_update_ptk sup_pairwise sup_group
  sup_install_ptk sup_finish sup_check_mic eapol_sup_process_key process_sup_wpa request_pkinit wpa_request.

(** ** What the handlers do to the server *)

Section StepRels.
Context `{E : Env} (R : relation world) `{HR : !StepRel R}.

Local Tactic Notation "go" reference(f) := intros; unfold f; rel_auto.

#[export] Instance rel_save_gtk : Rel R save_gtk.
Proof. go save_gtk. Qed.
#[export] Instance rel_gtk_is_new t : Rel R (gtk_is_new t).
Proof. go gtk_is_new. Qed.
#[export] Instance rel_sup_extract_gtk p : Rel R (sup_extract_gtk p).
Proof. go sup_extract_gtk. Qed.
#[export] Instance rel_matches s p : Rel R (wpaie_matches s p).
Proof. go wpaie_matches. Qed.
#[export] Instance rel_check_install i p : Rel R (sup_check_install i p).
Proof. go sup_check_install. Qed.
#[export] Instance rel_sup_check_mic i p : Rel R (sup_check_mic i p).
Proof. go sup_check_mic. Qed.
End StepRels.

Section Rels.
Context `{E : Env} (R : relation world) `{HR : !UpdRel R}.

Local Tactic Notation "go" reference(f) := intros; unfold f; rel_auto.

#[export] Instance rel_update_ptk i b : Rel R (sup_update_ptk i b).
Proof. go sup_update_ptk. Qed.
#[export] Instance rel_sup_pairwise i p mic : Rel R (sup_pairwise i p mic).
Proof. go sup_pairwise. Qed.
#[export] Instance rel_sup_group i p mic : Rel R (sup_group i p mic).
Proof. go sup_group. Qed.
End Rels.

Section TableRels.
Context `{E : Env} (R : relation world) `{HR : !StaRel R}.

Local Tactic Notation "go" reference(f) := intros; unfold f; rel_auto.

#[export] Instance rel_request_pkinit i : Rel R (request_pkinit i).
Proof. go request_pkinit. Qed.
#[export] Instance rel_wpa_request i : Rel R (wpa_request i).
Proof. go wpa_request. Qed.
End TableRels.

Section Keys.
Context `{E : Env} (R : relation world) `{HR : !UpdRel R} `{HA : !AuthRel R} `{HK : !KeyRel R}.

Local Tactic Notation "go" reference(f) := intros; unfold f; rel_auto.

#[export] Instance rel_install_ptk i : Rel R (sup_install_ptk i).
Proof. go sup_install_ptk. Qed.
#[export] Instance rel_sup_finish i p st a b : Rel R (sup_finish i p st a b).
Proof. intros. unfold sup_finish, delete_wds_timer. rel_auto. Qed.
#[export] Instance rel_sup_process_key p i : Rel R (eapol_sup_process_key p i).
Proof. go eapol_sup_process_key. Qed.
#[export] Instance rel_process_sup_wpa p i : Rel R (process_sup_wpa p i).
Proof. go process_sup_wpa. Qed.
End Keys.
