(* ===== verification/SupSafety.v ===== *)
(** What the WPA supplicant guarantees: keys are installed, and the link is authorized,
    only upon verified frames, and no pairwise key is installed twice in a row, however
    the access point's messages are repeated. *)
From stdpp Require Import base option list numbers strings.
From Stdlib Require Import ZArith Lia.
From S2P Require Import Prelude Monad NasState NasSta WpaIe WpaKey NasWnm NasRel WpaMsg NasPae WpaAuth WpaSafety WpaSup.
Local Open Scope Z_scope.

(** ** Installed keys *)

Definition pairwise_key (k : wl_wsec_key_t) : bool :=
  match wk_ea k with Some _ => 0 <? wk_len k | None => false end.

(** The pairwise keys the driver took, the newest first. *)
Fixpoint installs `{E : Env} (log : list event) : list (list Z) :=
  match log with
  | [] => []
  | e :: l =>
      match e with
      | EvSetKey k => if pairwise_key k && (0 <=? env_ret (e :: l)) then wk_data k :: installs l else installs l
      | _ => installs l
      end
  end.

(** What nas_set_key passes of a key. *)
Definition driver_key (len : Z) (key : list Z) : list Z :=
  take (Z.to_nat (Z.min len DOT11_MAX_KEY_SIZE)) key ++ replicate (32 - Z.to_nat (Z.min len DOT11_MAX_KEY_SIZE)) 0.

Section Safety.
Context `{E : Env}.

Lemma installs_calls C w w' : calls C (fun _ => False) w w' -> installs (w_log w') = installs (w_log w).
Proof.
  intros (evs & -> & H). induction H as [|e evs He _ IH]; [done|]. cbn [app installs]. rewrite IH. destruct e; try done.
  assert (Hk : pairwise_key k = false); [|by rewrite Hk]. unfold pairwise_key. cbn in He.
  destruct (wk_ea k); [|done]. apply Z.ltb_ge. destruct He as [?|[?|[]]]; [done|lia].
Qed.

(** ** Steps that install nothing *)

Definition sup_view (s : nas_sta_t) := (sp_tk_len (st_suppl s), sp_eapol_temp_ptk (st_suppl s), st_ea s).

#[local] Instance keeps_links_auth : AuthRel keeps_links.
Proof. by intros ea w. Qed.
#[local] Instance keeps_links_key : KeyRel keeps_links.
Proof. by intros k w. Qed.

Definition quiet (C : list Z -> Prop) (i : nat) (w w' : world) : Prop :=
  calls C (fun _ => False) w w' /\ keeps_at i sup_view w w'.

#[local] Instance quiet_step C i : StepRel (quiet C i).
Proof.
  split; [split|..].
  - intros w. split; reflexivity.
  - intros w1 w2 w3 [H1 H1'] [H2 H2']. split; [by transitivity w2|by transitivity w2].
  - intros e w He. split; by apply step_emit.
  - intros f w Hf. split; by apply step_nas.
Qed.

Lemma quiet_suppl C i j f : (forall s, sup_view (s <| st_suppl ::= f |>) = sup_view s) -> Rel (quiet C i) (set_suppl j f).
Proof. intros Hf w. apply wp_set_suppl. split; [by exists []|]. by apply sta_at_upd_proj. Qed.

Lemma quiet_set C i j f : (forall s, sup_view (f s) = sup_view s) -> Rel (quiet C i) (set_sta j f).
Proof. intros Hf w. apply wp_set_sta. split; [by exists []|]. by apply sta_at_upd_proj. Qed.

Lemma quiet_send C i pkt : Rel (quiet C i) (nas_eapol_send_packet pkt).
Proof. intros w. apply wp_emit. split; [exists [EvSend pkt]; by repeat constructor|done]. Qed.

Lemma quiet_authorize (C : list Z -> Prop) i ea : C ea -> Rel (quiet C i) (nas_authorize ea).
Proof. intros HC w. apply wp_call. split; [|done]. exists [EvAuthorize ea]. split; [done|]. by constructor. Qed.

#[local] Hint Extern 2 (Rel (quiet _ _) (set_suppl _ _)) => apply quiet_suppl; intros; reflexivity : typeclass_instances.
#[local] Hint Extern 2 (Rel (quiet _ _) (set_sta _ _)) => apply quiet_set; intros; reflexivity : typeclass_instances.
#[local] Hint Extern 2 (Rel (quiet _ _) (nas_eapol_send_packet _)) => apply quiet_send : typeclass_instances.

Local Tactic Notation "go" reference(f) := intros; unfold f; rel_auto.

#[local] Instance quiet_send_eapol C i : Rel (quiet C i) (wpa_send_eapol i).
Proof. unfold wpa_send_eapol, eapol_msg, msg_sup_stakeystart. rel_auto. Qed.
#[local] Instance quiet_calc_ptk C i : Rel (quiet C i) (wpa_calc_ptk i).
Proof. go wpa_calc_ptk. Qed.
#[local] Instance quiet_stop C i : Rel (quiet C i) (wpa_stop_retx i).
Proof. go wpa_stop_retx. Qed.
#[local] Instance quiet_wds C i : Rel (quiet C i) (delete_wds_timer i).
Proof. go delete_wds_timer. Qed.
#[local] Instance quiet_update_ptk C i b : Rel (quiet C i) (sup_update_ptk i b).
Proof. go sup_update_ptk. Qed.
#[local] Instance quiet_pairwise C i p mic : Rel (quiet C i) (sup_pairwise i p mic).
Proof. go sup_pairwise. Qed.
#[local] Instance quiet_group C i p mic : Rel (quiet C i) (sup_group i p mic).
Proof. go sup_group. Qed.

(** ** The install *)

(** At most the key [k0] is installed, for this station, and then recorded as the one in
    use. *)
Definition sup_post (C : list Z -> Prop) (k0 : option (list Z)) (i : nat) (w w' : world) : Prop :=
  let s := sta_at (w_nas w) i in let s' := sta_at (w_nas w') i in
  calls C (fun k => wk_ea k = Some (st_ea s) /\ k0 = Some (wk_data k)) w w' /\
  st_ea s' = st_ea s /\ sp_tk_len (st_suppl s') = sp_tk_len (st_suppl s) /\
  (sp_eapol_temp_ptk (st_suppl s') = sp_eapol_temp_ptk (st_suppl s) /\ installs (w_log w') = installs (w_log w) \/
   k0 = Some (sp_eapol_temp_ptk (st_suppl s')) /\
   installs (w_log w') = sp_eapol_temp_ptk (st_suppl s') :: installs (w_log w)).

Lemma calls_mono C D D' w w' : (forall k, D k -> D' k) -> calls C D w w' -> calls C D' w w'.
Proof.
  intros HD (evs & Hl & H). exists evs. split; [done|]. eapply Forall_impl; [exact H|].
  intros e. destruct e; try done. cbn. intros [?|[?|?]]; auto.
Qed.

Lemma sup_post_quiet C k0 i w w' : quiet C i w w' -> sup_post C k0 i w w'.
Proof.
  intros [Hc Hv]. unfold sup_post. cbv zeta. apply (keeps_at_eq i sup_view) in Hv. injection Hv as Ht Hp He.
  rewrite (installs_calls _ _ _ Hc). split_and!; auto. eapply calls_mono; [|exact Hc]. done.
Qed.

Lemma sup_post_trans C k0 i w1 w2 w3 : quiet C i w1 w2 -> sup_post C k0 i w2 w3 -> sup_post C k0 i w1 w3.
Proof.
  intros [Hc Hv] (Hc' & H1 & H2 & H3). unfold sup_post in *. cbv zeta in *. apply (keeps_at_eq i sup_view) in Hv. injection Hv as Ht Hp He.
  rewrite (installs_calls _ _ _ Hc), H1, H2, Ht, Hp, He in *. split_and!; auto.
  transitivity w2; [|done]. eapply calls_mono; [|exact Hc]. done.
Qed.

Lemma sup_post_then C k0 i w1 w2 w3 : sup_post C k0 i w1 w2 -> quiet C i w2 w3 -> sup_post C k0 i w1 w3.
Proof.
  intros (Hc' & H1 & H2 & H3) [Hc Hv]. unfold sup_post in *. cbv zeta in *. apply (keeps_at_eq i sup_view) in Hv. injection Hv as Ht Hp He.
  rewrite (installs_calls _ _ _ Hc), Ht, Hp, He in *. split_and!; auto.
  transitivity w2; [done|]. eapply calls_mono; [|exact Hc]. done.
Qed.

Lemma driver_key_overwrite len key : len <= 32 ->
  overwrite (replicate (Z.to_nat T_GTK_LEN) 0) key (Z.to_nat len) = driver_key len key.
Proof.
  intros H. unfold overwrite, driver_key, DOT11_MAX_KEY_SIZE, T_GTK_LEN. rewrite Z.min_l by lia. by rewrite drop_replicate.
Qed.

(** A tail that installs nothing. *)
Lemma post_rel {A} C k0 i (m : N A) w0 w : Rel (quiet C i) m -> sup_post C k0 i w0 w ->
  wp m (fun _ w' => sup_post C k0 i w0 w') w.
Proof. intros Hm Hw. eapply wp_mono; [apply Hm|]. intros a w' H. by eapply sup_post_then. Qed.

Lemma sup_install_wp C i w : let s := sta_at (w_nas w) i in (i < length (na_sta (w_nas w)))%nat ->
  0 < sp_tk_len (st_suppl s) <= 32 ->
  wp (sup_install_ptk i)
     (fun _ w' => sup_post C (Some (driver_key (sp_tk_len (st_suppl s)) (drop 32 (sp_ptk (st_suppl s))))) i w w') w.
Proof.
  intros s Hi Hl. unfold sup_install_ptk, nas_sleep_ms, nas_set_key. do 5 (nas_step; cbn [w_nas w_log]). fold s.
  set (k := {| wk_index := _ |}).
  assert (Hk : pairwise_key k = true) by (unfold pairwise_key, k, DOT11_MAX_KEY_SIZE; cbn; lia).
  assert (Hd : wk_data k = driver_key (sp_tk_len (st_suppl s)) (drop 32 (sp_ptk (st_suppl s)))) by done.
  assert (Hea : wk_ea k = Some (st_ea s)) by done. clearbody k. do 2 nas_step.
  - apply post_rel; [rel_auto|]. split_and!; [|done..|left; split; [done|]]; cbn [w_nas w_log].
    + exists [EvSetKey k; EvSleep 100]. split; [reflexivity|]. constructor; [|by repeat constructor].
      right. right. split; [exact Hea|by rewrite Hd].
    + cbn [installs]. rewrite Hk, (proj2 (Z.leb_gt _ _)) by (by apply Z.ltb_lt). done.
  - nas_steps. unfold sup_post. cbv zeta. cbn [w_nas w_log]. rewrite sta_at_upd_same by done. fold s.
    split_and!; [|done|done|right].
    + exists [EvSetKey k; EvSleep 100]. split; [reflexivity|]. constructor; [|by repeat constructor]. right. right. split; [exact Hea|by rewrite Hd].
    + pose proof (driver_key_overwrite (sp_tk_len (st_suppl s)) (drop 32 (sp_ptk (st_suppl s))) ltac:(lia)) as Ht.
      split; [exact (f_equal Some (eq_sym Ht))|]. cbn [installs]. cbn [w_log] in H. apply Z.ltb_ge in H. apply Z.leb_le in H.
      rewrite Hk, H. cbn [andb]. rewrite Hd, <- Ht. reflexivity.
Qed.

(** ** One frame *)

(** The frame carries a MIC that verifies. *)
Definition signed (s : nas_sta_t) (p : eapol_key_t) : Prop := has (ek_key_info p) WPA_KEY_MIC = true /\ verified s p.

(** Message 3 of the exchange the supplicant is in, whose key is not the one in use. *)
Definition fresh_m3 (s : nas_sta_t) (p : eapol_key_t) : Prop :=
  let q := st_suppl s in let len := Z.to_nat (sp_tk_len q) in
  signed s p /\ has (ek_key_info p) WPA_KEY_PAIRWISE = true /\ has (ek_key_info p) WPA_KEY_INSTALL = true /\
  ek_nonce p = sp_anonce q /\ sp_pk_state q = EAPOL_SUP_PK_MSG3 /\
  sp_tk_len q <= 32 /\ take len (sp_eapol_temp_ptk q) <> temp_encr_key q len.

Definition sup_may_authorize (s : nas_sta_t) (p : eapol_key_t) (ea : list Z) : Prop :=
  ea = st_ea s /\ signed s p /\ has (ek_key_info p) WPA_KEY_SECURE = true.

(** The key of the exchange, when [p] lets it be installed. *)
Definition sup_key (s : nas_sta_t) : list Z := driver_key (sp_tk_len (st_suppl s)) (drop 32 (sp_ptk (st_suppl s))).

(** What one frame does, from the station [s]. *)
Definition sup_step (p : eapol_key_t) (i : nat) (w w' : world) : Prop :=
  let s := sta_at (w_nas w) i in
  sup_post (sup_may_authorize s p) None i w w' \/
  fresh_m3 s p /\ sup_post (sup_may_authorize s p) (Some (sup_key s)) i w w'.

(** The fields that decide. *)
Definition m3_view (s : nas_sta_t) :=
  (sp_ptk (st_suppl s), sp_tk_len (st_suppl s), sp_eapol_temp_ptk (st_suppl s), sp_anonce (st_suppl s), sp_pk_state (st_suppl s)).

Lemma sup_update_wp i b w : let s := st_suppl (sta_at (w_nas w) i) in let len := Z.to_nat (sp_tk_len s) in
  wp (sup_update_ptk i b) (fun r w' => r = inr true ->
    w' = w /\ b = true /\ sp_pk_state s = EAPOL_SUP_PK_MSG3 /\ sp_tk_len s <= 32 /\
    take len (sp_eapol_temp_ptk s) <> temp_encr_key s len) w.
Proof.
  intros s len. unfold sup_update_ptk. nas_step. nas_step. fold s. destruct b; cbn [negb]; [|by nas_step].
  destruct (sp_pk_state s) eqn:Hp; nas_steps; try done. intros [= Hb]. apply negb_true_iff, bool_decide_eq_false in Hb.
  split_and!; [done|done|done| |done]. unfold T_GTK_LEN in *. lia.
Qed.

Lemma check_install_wp i p w : wp (sup_check_install i p) (fun r _ => forall b, r = inr b ->
  ek_nonce p = sp_anonce (st_suppl (sta_at (w_nas w) i))) w.
Proof.
  unfold sup_check_install. do 3 nas_step; [by nas_step|]. apply negb_false_iff, bool_decide_eq_true in H.
  eapply wp_mono; [apply wp_any|]. by intros.
Qed.

Lemma sup_pairwise_wp i p mic w : (mic = EAPOL_SUP_PK_MICOK -> has (ek_key_info p) WPA_KEY_MIC = true) ->
  wp (sup_pairwise i p mic) (fun r w' => forall g, r = inr (true, g) ->
    let s := st_suppl (sta_at (w_nas w) i) in let s' := st_suppl (sta_at (w_nas w') i) in let len := Z.to_nat (sp_tk_len s) in
    mic = EAPOL_SUP_PK_MICOK /\ has (ek_key_info p) WPA_KEY_INSTALL = true /\ ek_nonce p = sp_anonce s /\
    sp_pk_state s = EAPOL_SUP_PK_MSG3 /\ sp_tk_len s <= 32 /\ take len (sp_eapol_temp_ptk s) <> temp_encr_key s len /\
    sp_ptk s' = sp_ptk s) w.
Proof.
  intros Hmic. destruct (bool_decide_reflect (mic = EAPOL_SUP_PK_MICOK)) as [Hm|Hm].
  2: { unfold sup_pairwise. rewrite !(bool_decide_false (mic = EAPOL_SUP_PK_MICOK)) by done.
       nas_step. eapply wp_mono; [apply wp_any|]. intros ? w1 _. nas_step. eapply wp_mono; [apply wp_any|]. intros ? w2 _.
       do 2 nas_step. nas_step; [nas_step; by intros|]. nas_step. eapply wp_mono; [apply wp_any|]. intros [e|b] w3 _; [nas_step; by intros|].
       do 3 nas_step. by intros g [=]. }
  specialize (Hmic Hm). subst mic. unfold sup_pairwise. rewrite Hmic. cbn [negb andb when].
  assert (HR : forall f, (forall s, m3_view (s <| st_suppl ::= f |>) = m3_view s) -> Rel (keeps_at i m3_view) (set_suppl i f))
    by (intros; by apply keeps_at_suppl).
  nas_step. eapply wp_mono; [by apply HR|]. intros ? w1 H1. do 4 nas_step. nas_step; [nas_step; by intros|].
  rewrite (bool_decide_false (EAPOL_SUP_PK_MICOK = EAPOL_SUP_PK_MICFAILED)), (bool_decide_true (EAPOL_SUP_PK_MICOK = EAPOL_SUP_PK_MICOK)) by done.
  cbn [negb]. nas_step.
  eapply (wp_mono _ (fun r w2 => keeps_at i m3_view w1 w2 /\ forall b, r = inr b -> has (ek_key_info p) WPA_KEY_INSTALL = true ->
    ek_nonce p = sp_anonce (st_suppl (sta_at (w_nas w1) i)))).
  { assert (HI : Rel (keeps_at i m3_view) (if has (ek_key_info p) WPA_KEY_INSTALL then sup_check_install i p else mret (inr false)))
      by rel_auto.
    nas_step. eapply wp_mono.
    { apply (wp_conj _ (fun r _ => forall b, r = inr b -> has (ek_key_info p) WPA_KEY_INSTALL = true ->
        ek_nonce p = sp_anonce (st_suppl (sta_at (w_nas w1) i)))); [|apply (rel (R := keeps_at i m3_view))].
      destruct (has (ek_key_info p) WPA_KEY_INSTALL); [|nas_step; by intros].
      eapply wp_mono; [apply check_install_wp|]. intros r w2 Hr b Hb _. by eapply Hr. }
    intros [e|b] w2 [Hb Hk]; nas_steps; (split; [done|]); [by intros|].
    by intros; eapply Hb. }
  intros [e|g] w2 [H2 Hn]; [nas_step; by intros|]. nas_step. eapply wp_mono; [apply sup_update_wp|].
  intros r w3 H3. nas_step. intros g' Hr. destruct r as [|b]; [done|]. injection Hr as -> _.
  destruct (H3 eq_refl) as (-> & Hi & Hp & Hl & Hne). specialize (Hn g eq_refl Hi).
  apply (keeps_at_eq i m3_view) in H1, H2. rewrite H1 in H2.
  injection H1 as _ _ _ Ha _. injection H2 as Hv1 Hv2 Hv3 _ Hv5. unfold temp_encr_key in *.
  cbv zeta. rewrite Hv1, Hv2, Hv3, Hv5, Ha in *. by split_and!.
Qed.

(** A frame that leaves the rest of the exchange to [C] and [k0]. *)
Lemma sup_finish_wp (C : list Z -> Prop) i p st up ug w : let s := sta_at (w_nas w) i in (i < length (na_sta (w_nas w)))%nat ->
  (up = true -> 0 < sp_tk_len (st_suppl s) <= 32) ->
  (st = EAPOL_SUP_PK_MICOK -> has (ek_key_info p) WPA_KEY_SECURE = true -> C (st_ea s)) ->
  wp (sup_finish i p st up ug) (fun _ w' => sup_post C (if up then Some (sup_key s) else None) i w w') w.
Proof.
  intros s Hi Hup HC. set (k0 := if up then _ else _). unfold sup_finish.
  set (key_view s := (sup_key s, sp_tk_len (st_suppl s))).
  set (send := if has (ek_key_info p) WPA_KEY_ACK && _ then _ else _).
  assert (H1 : wp send (fun _ w1 => quiet C i w w1 /\ keeps_at i key_view w w1 /\ keeps_links w w1) w).
  { assert (HQ : Rel (quiet C i) send) by (unfold send; rel_auto).
    assert (HL : Rel keeps_links send) by (unfold send; rel_auto).
    assert (HK : Rel (keeps_at i key_view) send)
      by (unfold send, wpa_send_eapol, eapol_msg, msg_sup_stakeystart; rel_auto).
    apply wp_conj; [apply HQ|]. apply wp_conj; [apply HK|apply HL]. }
  clearbody send. nas_step. eapply wp_mono; [exact H1|]. clear H1. intros sent w1 (Hq & Hv & Hl). apply wp_if; intros Hsent; [nas_step; by apply sup_post_quiet|].
  nas_step. eapply (wp_mono _ (fun _ w2 => sup_post C k0 i w w2)).
  { nas_step; [|by apply sup_post_quiet]. apply (keeps_at_eq i key_view) in Hv. injection Hv as Hk Ht. fold s in Hk, Ht.
    eapply wp_mono; [apply (sup_install_wp C i w1)|].
    - destruct Hl as [Hl _]. lia.
    - rewrite Ht. by apply Hup.
    - intros ? w2 H2. fold (sup_key (sta_at (w_nas w1) i)) in H2. rewrite Hk in H2. subst k0. rewrite H.
      by eapply sup_post_trans. }
  clear dependent w1. intros ? w1 H1. nas_step.
  eapply wp_mono; [apply (post_rel C k0 i); [rel_auto|exact H1]|]. clear dependent w1. intros r w1 H1. nas_step; [by nas_step|].
  nas_step. eapply wp_mono; [apply (post_rel C k0 i); [rel_auto|exact H1]|]. clear dependent w1. intros ? w1 H1.
  nas_step. eapply wp_mono; [|intros ? w2 H2; nas_step; exact H2]. nas_step; [|done].
  apply andb_prop in H0 as [Hm%bool_decide_eq_true Hs]. assert (He : st_ea (sta_at (w_nas w1) i) = st_ea s) by apply H1.
  do 2 nas_step. rewrite He. pose proof (quiet_authorize C i (st_ea s) (HC Hm Hs)). apply post_rel; [rel_auto|done].
Qed.

Lemma wpa_decr_key_data_wp desc key p w : wp (wpa_decr_key_data desc key p) (fun r w' => w' = w /\
  match r with Some p' => p' = p <| ek_data := ek_data p' |> | None => True end) w.
Proof.
  unfold wpa_decr_key_data, data_within. do 2 nas_step. nas_step; [by nas_step|]. nas_step; [|by nas_step].
  nas_step; by nas_step.
Qed.

Lemma sup_check_mic_wp i p w : wp (sup_check_mic i p) (fun r w' => w' = w /\
  (r = EAPOL_SUP_PK_MICOK -> signed (sta_at (w_nas w) i) p)) w.
Proof.
  unfold sup_check_mic. nas_step; [|by nas_step]. nas_step. eapply wp_mono; [by apply wpa_check_mic_wp|].
  intros r w1 [-> ->]. nas_step. split; [done|]. destruct (mic_ok _ p) eqn:Hm; [|done]. intros _. by split.
Qed.

(** The fields the checks of a frame read. *)
Definition check_view (s : nas_sta_t) := (m3_view s, st_ea s).

Lemma check_view_eq s s' p : check_view s' = check_view s ->
  (signed s' p <-> signed s p) /\ sup_key s' = sup_key s /\ (fresh_m3 s' p <-> fresh_m3 s p) /\
  (forall ea, sup_may_authorize s' p ea <-> sup_may_authorize s p ea).
Proof.
  unfold check_view, m3_view. intros [= H1 H2 H3 H4 H5 H6].
  assert (Hs : signed s' p <-> signed s p) by (unfold signed, verified, eapol_mic_key; by rewrite H1).
  split; [done|]. split; [unfold sup_key; by rewrite H1, H2|]. split.
  - unfold fresh_m3, temp_encr_key. cbv zeta. by rewrite Hs, H1, H2, H3, H4, H5.
  - intros ea. unfold sup_may_authorize. by rewrite Hs, H6.
Qed.

Lemma sup_group_wp i p mic w : wp (sup_group i p mic) (fun r _ => forall st g, r = inr (st, g) ->
  st = EAPOL_SUP_PK_MICOK -> mic = EAPOL_SUP_PK_MICOK) w.
Proof.
  unfold sup_group. do 2 nas_step. nas_step; [nas_step; by intros st g [= <- _]|].
  apply negb_false_iff, bool_decide_eq_true in H. eapply wp_mono; [apply wp_any|]. by intros.
Qed.

(** The two branches and the end, from a state [w]; [q] is [p] with its key data decrypted. *)
Lemma sup_branches_wp i p q mic w : ek_key_info q = ek_key_info p -> ek_nonce q = ek_nonce p ->
  let s := sta_at (w_nas w) i in (i < length (na_sta (w_nas w)))%nat ->
  (mic = EAPOL_SUP_PK_MICOK -> signed s p) ->
  wp (if has (ek_key_info p) WPA_KEY_PAIRWISE then
        r ← sup_pairwise i q mic;
        match (r : sup_res (bool * bool)) with
        | inl e => mret e
        | inr (update_ptk, update_gtk) => sup_finish i q mic update_ptk update_gtk
        end
      else
        r ← sup_group i q mic;
        match (r : sup_res (eapol_sup_pk_state_t * bool)) with
        | inl e => mret e
        | inr (state, update_gtk) => sup_finish i q state false update_gtk
        end) (fun _ w' => sup_step p i w w') w.
Proof.
  intros Hinfo Hnonce s Hi Hmic. set (C := sup_may_authorize s p).
  assert (HC : forall w1 st, quiet C i w w1 -> (st = EAPOL_SUP_PK_MICOK -> signed s p) -> st = EAPOL_SUP_PK_MICOK ->
    has (ek_key_info p) WPA_KEY_SECURE = true -> C (st_ea (sta_at (w_nas w1) i))).
  { intros w1 st [_ Hv] Hs Hst Hsec. apply (keeps_at_eq i sup_view) in Hv. injection Hv as _ _ ->. split; [done|].
    split; [auto|done]. }
  nas_step.
  - nas_step. eapply wp_mono.
    { apply wp_conj; [apply (quiet_pairwise C i q mic)|]. apply wp_conj; [|apply (rel (R := keeps_links))].
      apply sup_pairwise_wp. rewrite Hinfo. intros Hm. by apply Hmic. }
    intros r w1 (Hq & Hp & Hl). assert (Hi1 : (i < length (na_sta (w_nas w1)))%nat) by (destruct Hl as [? _]; lia).
    destruct r as [e|[up ug]]; [nas_step; left; by apply sup_post_quiet|].
    assert (Hv : sup_view (sta_at (w_nas w1) i) = sup_view s) by apply Hq. injection Hv as Ht _ _.
    eapply wp_mono; [apply (sup_finish_wp C); [done| |rewrite Hinfo; by apply HC]|].
    + intros ->. destruct (Hp ug eq_refl) as (_ & _ & _ & _ & Hle & Hne & _). fold s in Hle, Hne. rewrite Ht. split; [|done].
      destruct (Z.leb_spec (sp_tk_len (st_suppl s)) 0) as [Hz|]; [|done]. destruct Hne. unfold temp_encr_key.
      replace (Z.to_nat (sp_tk_len (st_suppl s))) with 0%nat by lia. done.
    + intros e w2 H2. destruct up; [right|left].
      * destruct (Hp ug eq_refl) as (Hm & Hin & Hn & Hst & Hle & Hne & Hk). rewrite Hinfo in Hin. rewrite Hnonce in Hn. fold s in Hn, Hst, Hle, Hne, Hk.
        split; [split_and!; [by apply Hmic|done..]|]. eapply sup_post_trans; [exact Hq|].
        unfold sup_key in H2. rewrite Hk, Ht in H2. exact H2.
      * by eapply sup_post_trans.
  - nas_step. eapply wp_mono.
    { apply wp_conj; [apply (quiet_group C i q mic)|]. apply wp_conj; [apply (sup_group_wp i q mic)|apply (rel (R := keeps_links))]. }
    intros r w1 (Hq & Hg & Hl). assert (Hi1 : (i < length (na_sta (w_nas w1)))%nat) by (destruct Hl as [? _]; lia).
    destruct r as [e|[st ug]]; [nas_step; left; by apply sup_post_quiet|].
    eapply wp_mono; [apply (sup_finish_wp C); [done|done|rewrite Hinfo; apply HC; [done|]]|].
    + intros Hst. by apply Hmic, (Hg st ug).
    + intros e w2 H2. left. by eapply sup_post_trans.
Qed.

(** Steps before the frame is looked at. *)
Definition no_auth (ea : list Z) : Prop := False.
Definition untouched (i : nat) (w w1 : world) : Prop := quiet no_auth i w w1 /\ keeps_at i check_view w w1 /\ keeps_links w w1.

Lemma sup_step_after p i w w1 w2 : untouched i w w1 -> sup_step p i w1 w2 -> sup_step p i w w2.
Proof.
  intros ([(evs & Hl & Hevs) Hv'] & Hv & _) H. destruct (check_view_eq _ _ p Hv) as (E1 & E2 & E3 & E4).
  assert (Hup : forall k0, sup_post (sup_may_authorize (sta_at (w_nas w1) i) p) k0 i w1 w2 ->
    sup_post (sup_may_authorize (sta_at (w_nas w) i) p) k0 i w w2).
  { intros k0 [(evs' & Hl' & Hevs') H2]. eapply sup_post_trans.
    - split; [exists evs; split; [done|]|exact Hv']. eapply Forall_impl; [exact Hevs|]. by intros [].
    - split; [|exact H2]. exists evs'. split; [done|]. eapply Forall_impl; [exact Hevs'|]. intros e. destruct e; try done. cbn. by rewrite E4. }
  destruct H as [H|[Hf H]]; [left; by apply Hup|right]. rewrite E2 in H. split; [by apply E3|by apply Hup].
Qed.

Lemma untouched_suppl i f w : (forall s, check_view (s <| st_suppl ::= f |>) = check_view s) ->
  untouched i w (World (upd_sta (w_nas w) i (fun s => s <| st_suppl ::= f |>)) (w_log w)).
Proof.
  intros Hf. assert (Hc : keeps_at i check_view w (World (upd_sta (w_nas w) i (fun s => s <| st_suppl ::= f |>)) (w_log w)))
    by by apply sta_at_upd_proj. split; [|split; [exact Hc|by apply (upd_links (R := keeps_links))]].
  split; [by exists []|].
  unfold keeps_at, check_view, m3_view, sup_view in *. cbn [w_nas] in *. injection Hc as H1 H2 H3 H4 H5 H6. by rewrite H2, H3, H6.
Qed.

Lemma sup_process_key_wp p i w : (i < length (na_sta (w_nas w)))%nat ->
  wp (eapol_sup_process_key p i) (fun _ w' => sup_step p i w w') w.
Proof.
  intros Hi. unfold eapol_sup_process_key. do 2 nas_step. set (w1 := World _ _).
  assert (Hq : untouched i w w1) by by apply untouched_suppl. clearbody w1.
  assert (Hi1 : (i < length (na_sta (w_nas w1)))%nat) by (destruct Hq as (_ & _ & Hl & _); lia).
  nas_step. eapply wp_mono; [apply sup_check_mic_wp|]. intros mic w2 [-> Hmic]. do 3 nas_step.
  eapply (wp_mono _ (fun r w2 => w2 = w1 /\ match r with Some p' => p' = p <| ek_data := ek_data p' |> | None => True end)).
  { nas_step; [apply wpa_decr_key_data_wp|]. nas_step. split; [done|]. by destruct p. }
  intros r w2 [-> Hr].
  destruct r as [p'|]; [|nas_step; apply (sup_step_after p i w w1); [done|left; apply sup_post_quiet; reflexivity]].
  assert (Hp : ek_key_info p' = ek_key_info p) by by rewrite Hr.
  assert (Hn : ek_nonce p' = ek_nonce p) by by rewrite Hr.
  eapply wp_mono; [exact (sup_branches_wp i p p' mic w1 Hp Hn Hi1 Hmic)|].
  intros r w2. by apply sup_step_after.
Qed.

Lemma sup_step_refl p i w : sup_step p i w w.
Proof. left. apply sup_post_quiet. reflexivity. Qed.

Lemma process_sup_wpa_wp p i w : (i < length (na_sta (w_nas w)))%nat ->
  wp (process_sup_wpa p i) (fun _ w' => sup_step p i w w' /\ keeps_links w w') w.
Proof.
  intros Hi. apply wp_conj; [|apply (rel (R := keeps_links))]. unfold process_sup_wpa. do 2 nas_step. set (w1 := World _ _).
  assert (Hq : untouched i w w1) by by apply untouched_suppl. clearbody w1.
  do 2 nas_step. destruct (sp_state _); try (nas_step; apply (sup_step_after p i w w1); [done|apply sup_step_refl]).
  all: assert (HS : Rel (keeps_at i check_view) (wpa_stop_retx i)) by (unfold wpa_stop_retx; rel_auto).
  all: nas_step; eapply wp_mono;
    [apply wp_conj; [apply (quiet_stop no_auth i)|apply wp_conj; [apply HS|apply (rel (R := keeps_links))]]|].
  all: intros ? w2 Hq2; nas_step; eapply wp_mono; [apply sup_process_key_wp|].
  all: try (destruct Hq as (_ & _ & Hl & _), Hq2 as (_ & _ & Hl2 & _); lia).
  all: intros r w3 H3; nas_step; apply (sup_step_after p i w w1); [done|]; by apply (sup_step_after p i w1 w2).
Qed.

(** C9: processing a frame, the supplicant installs a pairwise key only for its station
    and only upon message 3 of the current exchange (pairwise and install flags, a MIC
    that verifies under the station's key, the ANonce of message 1, the state MSG3),
    when its key differs from the one in use; it authorizes only its station, upon a
    frame with the secure flag whose MIC verifies. *)
Theorem process_sup_wpa_installs p i w : let s := sta_at (w_nas w) i in (i < length (na_sta (w_nas w)))%nat ->
  wp (process_sup_wpa p i) (fun _ w' => exists evs, w_log w' = evs ++ w_log w /\ Forall (fun e =>
    match e with
    | EvAuthorize ea => sup_may_authorize s p ea
    | EvSetKey k => wk_ea k = None \/ wk_len k <= 0 \/ fresh_m3 s p /\ wk_ea k = Some (st_ea s) /\ wk_data k = sup_key s
    | _ => True
    end) evs) w.
Proof.
  intros s Hi. eapply wp_mono; [by apply process_sup_wpa_wp|]. fold s.
  intros r w' [[[(evs & Hl & H) _]|[Hf [(evs & Hl & H) _]]] _]; exists evs; (split; [done|]).
  - eapply Forall_impl; [exact H|]. intros [] He; try done. cbn in He. destruct He as [?|[?|[_ ?]]]; auto. done.
  - eapply Forall_impl; [exact H|]. intros [] He; try done. cbn in He. destruct He as [?|[?|[? [= Hd]]]]; auto.
Qed.

(** ** No reinstallation *)

Definition no_repeat (l : list (list Z)) : Prop :=
  forall l1 k2 k1 l2, l = l1 ++ k2 :: k1 :: l2 -> length k2 = 32%nat -> k2 <> k1.

(** The key in use is recorded, and no key followed itself. *)
Definition sup_inv (i : nat) (w : world) : Prop :=
  (i < length (na_sta (w_nas w)))%nat /\ no_repeat (installs (w_log w)) /\
  match installs (w_log w) with [] => True | k :: _ => sp_eapol_temp_ptk (st_suppl (sta_at (w_nas w) i)) = k end.

Lemma driver_key_prefix n key : 0 <= n <= 32 -> length (driver_key n key) = 32%nat ->
  take (Z.to_nat n) (driver_key n key) = take (Z.to_nat n) key.
Proof.
  unfold driver_key, DOT11_MAX_KEY_SIZE. intros Hn. rewrite Z.min_l, length_app, length_replicate, length_take by lia. intros Hl.
  rewrite take_app_le by (rewrite length_take; lia). by rewrite take_take, Nat.min_id.
Qed.

Lemma sup_step_inv p i w w' : sup_step p i w w' -> keeps_links w w' -> sup_inv i w -> sup_inv i w'.
Proof.
  intros H (Hlen & _) (Hi & Hn & Hk). split; [lia|]. set (s := sta_at (w_nas w) i) in *.
  assert (Hcase : sp_eapol_temp_ptk (st_suppl (sta_at (w_nas w') i)) = sp_eapol_temp_ptk (st_suppl s) /\
      installs (w_log w') = installs (w_log w) \/
    fresh_m3 s p /\ sp_eapol_temp_ptk (st_suppl (sta_at (w_nas w') i)) = sup_key s /\
      installs (w_log w') = sup_key s :: installs (w_log w)).
  { destruct H as [(_ & _ & _ & [H|[[=] _]])|[Hf (_ & _ & _ & [H|[[= H1] H2]])]]; [by left|by left|right].
    rewrite <- H1 in H2. split; [exact Hf|]. split; [exact (eq_sym H1)|exact H2]. }
  clear H. destruct Hcase as [[-> ->]|(Hf & -> & ->)]; [done|]. split; [|done].
  destruct Hf as (_ & _ & _ & _ & _ & Hle & Hne). intros [|x l1] k2 k1 l2 Hl Hlen2.
  - injection Hl as <- Hl. rewrite Hl in Hk. intros <-. apply Hne. fold s in Hk. rewrite Hk.
    destruct (Z.leb_spec (sp_tk_len (st_suppl s)) 0) as [Hz|]; [by replace (Z.to_nat (sp_tk_len (st_suppl s))) with 0%nat by lia|].
    apply driver_key_prefix; [lia|done].
  - injection Hl as _ Hl. by eapply Hn.
Qed.

(** C2: no key is reinstalled: whatever EAPOL-Key frames arrive (replayed, forged, out of
    order), no two pairwise keys that the driver takes one after the other are the
    same (32 bytes is the size of the driver's key array). *)
Theorem sup_no_reinstall ps i w : (i < length (na_sta (w_nas w)))%nat -> installs (w_log w) = [] ->
  wp (for_each ps (fun p => process_sup_wpa p i ;; mret tt)) (fun _ w' => no_repeat (installs (w_log w'))) w.
Proof.
  intros Hi Hw. apply (wp_mono _ (fun _ => sup_inv i)); [|by intros ? w' (_ & ? & _)].
  apply wp_for_each.
  - unfold sup_inv. rewrite Hw. split_and!; [done| |done]. intros [|? [|? l]] k2 k1 l2 Hl; discriminate Hl.
  - intros p w1 _ H1. nas_step. eapply wp_mono; [apply process_sup_wpa_wp, H1|].
    intros r w2 [H2 Hl2]. nas_step. by eapply sup_step_inv.
Qed.

End Safety.

(** ** A concrete exchange *)

(** A WPA station that has answered message 1. *)
Definition sup_demo : world :=
  World (upd_sta (nas_demo WPA_PSK TKIP_ENABLED false) 0 (fun s => s <| st_used := true |> <| st_ea := ap_ea |>
    <| st_mode := WPA_PSK |>
    <| st_suppl ::= fun s => s <| sp_state := WPA_SUP_STAKEYSTARTP |> <| sp_pk_state := EAPOL_SUP_PK_MSG3 |> <| sp_desc := 1 |>
         <| sp_ptk := zrange 64 |> <| sp_tk_len := 32 |> <| sp_assoc_wpaie ::= fun b => overwrite b [221; 1; 0] 3 |>
         <| sp_assoc_wpaie_len := 3 |> |>)) [].

(** Message 3. *)
Definition m3_frame : eapol_key_t :=
  sign 1 (take 16 (zrange 64)) ((blank_frame ap_ea (sta_at (w_nas sup_demo) 0))
    <| ek_key_info := or_all [1; WPA_KEY_PAIRWISE; WPA_KEY_INSTALL; WPA_KEY_ACK; WPA_KEY_MIC] |>
    <| ek_data := [221; 1; 0] |> <| ek_data_len := 3 |>).

Lemma process_sup_wpa_installs_witness :
  runs (fun r w' => (r =? 0) && (length (installs (E := env_yes) (w_log w')) =? 1)%nat)
    (fun _ w' => exists evs, w_log w' = evs ++ w_log sup_demo /\ Forall (fun e =>
      match e with
      | EvAuthorize ea => sup_may_authorize (sta_at (w_nas sup_demo) 0) m3_frame ea
      | EvSetKey k => wk_ea k = None \/ wk_len k <= 0 \/ fresh_m3 (sta_at (w_nas sup_demo) 0) m3_frame /\
          wk_ea k = Some (st_ea (sta_at (w_nas sup_demo) 0)) /\ wk_data k = sup_key (sta_at (w_nas sup_demo) 0)
      | _ => True
      end) evs) (process_sup_wpa (E := env_yes) m3_frame 0 sup_demo).
Proof.
  apply runs_intro; [vm_compute; reflexivity|].
  exact (process_sup_wpa_installs (E := env_yes) m3_frame 0 sup_demo ltac:(vm_compute; lia)).
Defined.

(** Message 3 and its replay: one key is installed. *)
Lemma sup_no_reinstall_witness :
  runs (fun _ w' => (length (installs (E := env_yes) (w_log w')) =? 1)%nat)
    (fun _ w' => no_repeat (installs (E := env_yes) (w_log w')))
    (for_each [m3_frame; m3_frame] (fun p => process_sup_wpa (E := env_yes) p 0 ;; mret tt) sup_demo).
Proof.
  apply runs_intro; [vm_compute; reflexivity|].
  exact (sup_no_reinstall (E := env_yes) [m3_frame; m3_frame] 0 sup_demo ltac:(vm_compute; lia) eq_refl).
Defined.
