(* ===== verification/NasDispatch.v ===== *)
(** The entry points of src/userspace/nas/src/nas.c: messages of the driver, EAPOL
    frames, the watchdog timer, start-up and forced rekeying. *)
From stdpp Require Import base option list numbers strings.
From Stdlib Require Import ZArith Lia.
From S2P Require Import Prelude Monad NasState NasSta WpaIe WpaKey NasWnm NasRel WpaMsg NasPae WpaAuth WpaSafety WpaSup.
Local Open Scope Z_scope.

Definition WLC_E_DEAUTH_IND : Z := 6.
Definition WLC_E_ASSOC_IND : Z := 8.
Definition WLC_E_REASSOC_IND : Z := 10.
Definition WLC_E_DISASSOC_IND : Z := 12.
Definition WLC_E_LINK : Z := 16.
Definition WLC_E_MIC_ERROR : Z := 17.
Definition WLC_EVENT_MSG_LINK : Z := 0x01.
Definition WLC_EVENT_MSG_GROUP : Z := 0x04.

(** bcm_event_t, its numbers in host order: the Ethernet source, then the event's type,
    flags and address, and the data that follow. *)
Record bcm_event_t := BcmEvent {
  ev_shost : list Z; ev_type : Z; ev_flags : Z; ev_addr : list Z; ev_datalen : Z; ev_data : list Z
}.

Section Dispatch.
Context `{E : Env}.

(** ** Frames *)

Definition eapol_dispatch (buf : list Z) (bytes : Z) : N unit := eapol_dispatch_ex process_wpa buf false bytes.

Definition preauth_dispatch (buf : list Z) (bytes : Z) : N unit :=
  disabled ← nas na_disable_preauth;
  when (negb disabled) (eapol_dispatch_ex process_wpa buf true bytes).

Definition eapol_sup_dispatch (buf : list Z) : N unit :=
  within (18 <=? length buf)%nat ;;
  sta_ ← lookup_sta (field buf 6 6) SEARCH_ENTER;
  match sta_ with
  | None => mret tt
  | Some i =>
      s ← sta i (fun s => s);
      let state := pae_state_ (st_pae s) in
      if (nth 15 buf 0 =? EAPOL_KEY) && CHECK_EAPOL_KEY (nth 18 buf 0) && CHECK_NAS (st_mode s) &&
         bool_decide (state = AUTHENTICATED \/ state = INITIALIZE) then
        within (113 <=? length buf)%nat ;;
        r ← process_sup_wpa (eapol_parse buf) i;
        when (negb (r =? 0)) (cleanup_sta i DOT11_RC_8021X_AUTH_FAIL false)
      else mret tt
  end.

(** ** Messages of the driver *)

(** The handshake of a WDS link begins when its station is found or made and is idle. *)
Definition disassoc_wds (dpkt : bcm_event_t) (sta_ : option nat) : N Z :=
  sta_ ← (match sta_ with Some i => mret (Some i) | None => lookup_sta (ev_shost dpkt) SEARCH_ENTER end);
  match (sta_ : option nat) with
  | None => mret 1
  | Some i =>
      td ← sta i st_td;
      if negb (td =? 0) then mret 0
      else
        flags ← nas na_flags;
        when (f_supplicant flags) (wpa_request i) ;;
        flags ← nas na_flags;
        when (f_authenticator flags) (wpa_start i) ;;
        mret 0
  end.

(** Other than 0 the station is to be cleaned up. *)
Definition wpa_driver_disassoc_msg (dpkt : bcm_event_t) (sta_ : option nat) : N Z :=
  flags ← nas na_flags;
  if negb (f_wds flags) then mret 1
  else if negb (wrap16 (ev_datalen dpkt) =? 2) then mret 1
  else
    within (2 <=? length (ev_data dpkt))%nat ;;
    if negb (get16 (ev_data dpkt) 0 =? DOT11_RC_AUTH_INVAL) then mret 1 else disassoc_wds dpkt sta_.

(** The LINK event of an access point: the capabilities are read again, and when the
    link is down a group key other than WEP is forgotten. *)
Definition ap_link (up : bool) : N unit :=
  c ← nas_get_wpacap;
  match c with
  | Some c => set_wpa (fun w => w <| wp_cap := c |>)
  | None => mret tt
  end ;;
  wsec ← nas na_wsec;
  when (negb (has wsec WEP_ENABLED) && negb up) (set_flags (fun f => f <| f_gtk_plumbed := false |>)).

Definition driver_message_dispatch (dpkt : bcm_event_t) : N unit :=
  flags ← nas na_flags;
  let type := ev_type dpkt in
  let up := has (ev_flags dpkt) WLC_EVENT_MSG_LINK in
  let group := has (ev_flags dpkt) WLC_EVENT_MSG_GROUP in
  let assoc := driver_assoc (ev_addr dpkt) (ev_data dpkt) (ev_datalen dpkt) in
  if type =? WLC_E_LINK then
    if f_wds flags then mret tt
    else if f_authenticator flags then ap_link up
    else if negb up then mret tt
    else assoc
  else if (type =? WLC_E_ASSOC_IND) || (type =? WLC_E_REASSOC_IND) then assoc
  else if (type =? WLC_E_DISASSOC_IND) || (type =? WLC_E_DEAUTH_IND) then
    sta_ ← lookup_sta (ev_addr dpkt) SEARCH_ONLY;
    r ← wpa_driver_disassoc_msg dpkt sta_;
    match sta_ with
    | Some i => when (negb (r =? 0)) (cleanup_sta i 0 true)
    | None => mret tt
    end
  else if type =? WLC_E_MIC_ERROR then
    sta_ ← lookup_sta (ev_addr dpkt) SEARCH_ONLY;
    if group && f_authenticator flags then
      (* assert: the flags are mutually exclusive *)
      if f_supplicant flags then halt else mret tt
    else match sta_ with
         | Some i => wpa_mic_error i true false
         | None => mret tt
         end
  else mret tt.

(** ** The watchdog *)

(** A second of one station. *)
Definition watch_sta (i : nat) : N unit :=
  s ← sta i (fun s => s);
  match pae_state_ (st_pae s) with
  | AUTHENTICATED =>
      when (negb (pae_ssnto (st_pae s) =? 0))
        (set_pae i (fun p => p <| pae_ssnto := pae_ssnto p - 1 |>) ;;
         when (pae_ssnto (st_pae s) =? 1) (send_identity_req i))
  | HELD =>
      when (negb (st_quiet_while s =? 0))
        (set_sta i (fun s => s <| st_quiet_while := st_quiet_while s - 1 |>) ;;
         when (st_quiet_while s =? 1) (pae_state i CONNECTING))
  | CONNECTING =>
      when (negb (st_tx_when s =? 0))
        (set_sta i (fun s => s <| st_tx_when := st_tx_when s - 1 |>) ;;
         when (st_tx_when s =? 1)
           (if STA_REAUTH_MAX <? st_rxauths s then pae_state i DISCONNECTED else pae_state i CONNECTING))
  | AUTHENTICATING =>
      when (negb (st_auth_while s =? 0))
        (set_sta i (fun s => s <| st_auth_while := st_auth_while s - 1 |>) ;;
         when (st_auth_while s =? 1) (pae_state i ABORTING ;; pae_state i CONNECTING))
  | _ => mret tt
  end.

(** The stations of a chain; one longer than the table has a cycle. *)
Fixpoint watch_chain (fuel : nat) (p : option nat) : N unit :=
  match p with
  | None => mret tt
  | Some i =>
      match fuel with
      | O => halt
      | S fuel => watch_sta i ;; next ← sta i st_next; watch_chain fuel next
      end
  end.

Definition nas_watchdog : N unit :=
  for_each (seq 0 MAX_SUPPLICANTS) (fun h => head ← nas (fun n => hashed n h); watch_chain MAX_SUPPLICANTS head).

Definition nas_start_watchdog : N unit :=
  td ← nas na_watchdog_td;
  when (negb (td =? 0)) (TIMER_DELETE td ;; set_nas (fun n => n <| na_watchdog_td := 0 |>)) ;;
  r ← wpa_set_itimer nas_watchdog_h 1 0;
  match snd r with
  | Some id => set_nas (fun n => n <| na_watchdog_td := id |>)
  | None => mret tt
  end.

(** ** Start-up *)

Definition nas_start : N unit :=
  set_nas (fun n => (table_reset n) <| na_MIC_failures := 0 |> <| na_MIC_countermeasures := false |>
                                    <| na_prev_MIC_error := 0 |>) ;;
  n ← nas (fun n => n);
  when (CHECK_RADIUS (na_mode n)) nas_start_watchdog ;;
  if negb (f_wds (na_flags n)) then mret tt
  else
    sta_ ← lookup_sta (na_remote n) SEARCH_ENTER;
    match sta_ with
    | None => mret tt
    | Some i =>
        w ← wpa (fun w => w);
        when (CHECK_PSK (na_mode n))
          (within (wp_pmk_len w <=? Z.of_nat PMK_LEN) ;;
           set_suppl i (fun s => s <| sp_pmk_len := wp_pmk_len w |>
                                   <| sp_pmk := overwrite (sp_pmk s) (wp_pmk w) (Z.to_nat (wp_pmk_len w)) |>)) ;;
        wpa_set_suppl i (na_mode n) (na_wsec n) CRYPTO_ALGO_OFF ;;
        flags ← nas na_flags;
        when (f_supplicant flags) (wpa_request i) ;;
        flags ← nas na_flags;
        when (f_authenticator flags) (wpa_start i)
    end.

Definition nas_force_rekey : N unit :=
  flags ← nas na_flags;
  when (f_authenticator flags) wpa_new_gtk.

(** ** Timers *)

Definition run_timer (h : timer_handler_t) : N unit :=
  match h with
  | wpa_retransmission_h i => wpa_retransmission i
  | wpa_new_gtk_callback_h => wpa_new_gtk_callback
  | wpa_new_ptk_callback_h => wpa_new_ptk_callback ;; mret tt
  | wpa_countermeasures_cb_h => wpa_countermeasures_cb
  | start_pkinit_h i => start_pkinit i
  | request_pkinit_h i => request_pkinit i
  | nas_watchdog_h => nas_watchdog
  end.

End Dispatch.

#[export] Typeclasses Opaque eapol_dispatch preauth_dispatch eapol_sup_dispatch disassoc_wds wpa_driver_disassoc_msg ap_link
  driver_message_dispatch watch_sta watch_chain nas_watchdog nas_start_watchdog nas_start nas_force_rekey run_timer.

Section Rels.
Context `{E : Env} (R : relation world) `{HR : !StaRel R} `{HA : !AuthRel R} `{HK : !KeyRel R}.

Local Tactic Notation "go" reference(f) := intros; unfold f; rel_auto.

#[export] Instance rel_eapol_dispatch buf bytes : Rel R (eapol_dispatch buf bytes).
Proof. go eapol_dispatch. Qed.
#[export] Instance rel_preauth_dispatch buf bytes : Rel R (preauth_dispatch buf bytes).
Proof. go preauth_dispatch. Qed.
#[export] Instance rel_sup_dispatch buf : Rel R (eapol_sup_dispatch buf).
Proof. go eapol_sup_dispatch. Qed.
#[export] Instance rel_disassoc_wds d s : Rel R (disassoc_wds d s).
Proof. go disassoc_wds. Qed.
#[export] Instance rel_disassoc_msg d s : Rel R (wpa_driver_disassoc_msg d s).
Proof. go wpa_driver_disassoc_msg. Qed.
#[export] Instance rel_ap_link up : Rel R (ap_link up).
Proof. go ap_link. Qed.
#[export] Instance rel_driver_dispatch d : Rel R (driver_message_dispatch d).
Proof. go driver_message_dispatch. Qed.
#[export] Instance rel_watch_sta i : Rel R (watch_sta i).
Proof. go watch_sta. Qed.
#[export] Instance rel_watch_chain fuel p : Rel R (watch_chain fuel p).
Proof. revert p. induction fuel as [|fuel IH]; intros [i|]; cbn [watch_chain]; rel_auto. Qed.
#[export] Instance rel_watchdog : Rel R nas_watchdog.
Proof. go nas_watchdog. Qed.
#[export] Instance rel_start_watchdog : Rel R nas_start_watchdog.
Proof. go nas_start_watchdog. Qed.
#[export] Instance rel_force_rekey : Rel R nas_force_rekey.
Proof. go nas_force_rekey. Qed.
#[export] Instance rel_run_timer h : Rel R (run_timer h).
Proof. go run_timer. Qed.
End Rels.
