(* ===== verification/Mppe.v ===== *)
(** Microsoft's MPPE key encryption of src/userspace/nas/src/mppe.c: RADIUS carries the
    session keys under an MD5 key stream chained over 16-byte blocks. *)
From stdpp Require Import base numbers list.
From Stdlib Require Import ZArith Lia.
From S2P Require Import Prelude HashRef Md5.

(** The key stream of one block: the secret, the last cipher block, and the salt for the
    first. *)
Definition mppe_pad (salt key c : list Z) (first : bool) : list Z :=
  let md5 := MD5Update (MD5Update (MD5Init md5_auto) key) c in
  MD5Final (if first then MD5Update md5 salt else md5).

(** The loop; what is left after the last whole block stays. *)
Fixpoint mppe_loop (fuel : nat) (salt key c : list Z) (first encrypt : bool) (text : list Z) : list Z :=
  match fuel with
  | O => text
  | S fuel =>
      if length text <? 16 then text
      else
        let p := take 16 text in
        let out := xor_bytes p (mppe_pad salt key c first) in
        out ++ mppe_loop fuel salt key (if encrypt then out else p) false encrypt (drop 16 text)
  end.

(** There are as many rounds as whole blocks. *)
Definition mppe_crypt (salt text key vector : list Z) (encrypt : bool) : list Z :=
  mppe_loop (length text / 16) salt key vector true encrypt text.

#[local] Arguments Nat.div : simpl never.

Lemma mppe_pad_length salt key c first : length (mppe_pad salt key c first) = 16.
Proof. done. Qed.

Lemma xor_bytes_invol a b : length a <= length b -> xor_bytes (xor_bytes a b) b = a.
Proof.
  revert b. induction a as [|x a IH]; intros [|y b] H; cbn in *; try done; try lia.
  unfold xor_bytes in IH. rewrite IH by lia. by rewrite Z.lxor_assoc, Z.lxor_nilpotent, Z.lxor_0_r.
Qed.

#[local] Opaque mppe_pad.

Lemma mppe_loop_length fuel salt key c first enc text : length (mppe_loop fuel salt key c first enc text) = length text.
Proof.
  revert c first text. induction fuel as [|fuel IH]; intros c first text; [done|]. cbn [mppe_loop].
  destruct (Nat.ltb_spec (length text) 16); [done|].
  rewrite length_app, IH, xor_bytes_length, mppe_pad_length, length_take, length_drop. lia.
Qed.

Lemma mppe_loop_inv fuel salt key c first text :
  mppe_loop fuel salt key c first false (mppe_loop fuel salt key c first true text) = text.
Proof.
  revert c first text. induction fuel as [|fuel IH]; intros c first text; [done|]. cbn [mppe_loop].
  destruct (Nat.ltb_spec (length text) 16) as [Hs|Hs]; [by rewrite (proj2 (Nat.ltb_lt _ _) Hs)|].
  set (out := xor_bytes (take 16 text) (mppe_pad salt key c first)).
  assert (Ho : length out = 16) by (unfold out; rewrite xor_bytes_length, mppe_pad_length, length_take; lia).
  rewrite length_app, Ho, (proj2 (Nat.ltb_ge _ _)) by lia.
  rewrite take_app_length', drop_app_length' by done. rewrite IH. unfold out at 1.
  rewrite xor_bytes_invol by (rewrite mppe_pad_length, length_take; lia). apply take_drop.
Qed.

(** MPPE decryption inverts encryption, whatever the text, the secret, the salt and
    the authenticator; the loop leaves the length, and a rest shorter than a block,
    as they are. *)
Theorem mppe_roundtrip salt text key vector :
  mppe_crypt salt (mppe_crypt salt text key vector true) key vector false = text /\
  forall enc, length (mppe_crypt salt text key vector enc) = length text.
Proof.
  unfold mppe_crypt. split; [|intros; apply mppe_loop_length]. rewrite mppe_loop_length. apply mppe_loop_inv.
Qed.
