(* ===== verification/NasRadius.v ===== *)
(** The RADIUS client of src/userspace/nas/src/nas_radius.c (radius_dispatch) with the
    parts of nas.c it drives: the pairwise master key from the server (fix_wpa) and the
    802.1X key frames (eapol_key).  A response is a byte buffer that the check of its
    message authenticator writes to; addresses in it are offsets. *)
From stdpp Require Import base option list numbers strings.
From Stdlib Require Import ZArith Lia.
From S2P Require Import Prelude Mem Md5 Rc4 Monad NasState NasSta WpaIe WpaKey NasWnm NasRel WpaMsg NasPae WpaAuth Mppe.
Local Open Scope Z_scope.

Definition RADIUS_ACCESS_ACCEPT : Z := 2.
Definition RADIUS_ACCESS_REJECT : Z := 3.
Definition RADIUS_ACCESS_CHALLENGE : Z := 11.
Definition RADIUS_MAX_ATTRIBUTES : nat := 16.
Definition RD_TP_VENDOR_SPECIFIC : Z := 26.
Definition RD_TP_SESSION_TIMEOUT : Z := 27.
Definition RD_VENDOR_MICROSOFT : Z := 311.
Definition RD_VENDOR_WFA : Z := 40808.
Definition RD_VENDOR_WFA_SR_VALUE : Z := 1.
Definition RD_VENDOR_WFA_DAR_VALUE : Z := 4.
Definition RD_VENDOR_WFA_SIU_VALUE : Z := 5.
Definition RD_MS_MPPE_SEND : Z := 16.
Definition RD_MS_MPPE_RECV : Z := 17.
Definition PAE_FLAG_EAP_SUCCESS : Z := 1.
Definition DOT11_BSSTRANS_REQMODE_DISASSOC_IMMINENT : Z := 0x04.
Definition DOT11_BSSTRANS_REQMODE_ESS_DISASSOC_IMNT : Z := 0x10.
Definition WEP128_KEY_SIZE : Z := 13.
Definition DOT11_MAX_DEFAULT_KEYS : Z := 4.
Definition EAPOL_KEY_HEADER_LEN : Z := 44.
Definition EAPOL_RC4_KEY : Z := 1.
Definition EAPOL_KEY_UNICAST : Z := 0x80.
Definition JAN_1970 : Z := 0x83aa7e80.
Definition NTPFRAC (x : Z) : Z := 4294 * x + Z.shiftr (1981 * x) 11.
Definition CHECK_WPA (mode : Z) : bool := has mode (Z.lor WPA WPA2).

#[export] Instance eta_deauth_params_t : Settable deauth_params_t := fun r =>
  DeauthParams (dp_reason_code r) (dp_reauth_delay r) (dp_reason_url r).
#[export] Instance eta_subrem_params_t : Settable subrem_params_t := fun r => SubremParams (sr_subrem_url r) (sr_serverMethod r).
#[export] Instance eta_bsstran_params_t : Settable bsstran_params_t := fun r =>
  BsstranParams (bt_reqmode r) (bt_swt r) (bt_dur r) (bt_url r).

(** The variables of the loop.  [rd_frags] are the pieces of the EAP message, as offsets
    and lengths; [rd_eap] is the offset of the first. *)
Record rd_t := Rd {
  rd_buf : list Z; rd_cur : Z; rd_left : Z; rd_auth : bool; rd_frags : list (Z * Z); rd_eap : option Z; rd_eap_len : Z;
  rd_send : option (list Z); rd_recv : option (list Z)
}.

#[export] Instance eta_rd_t : Settable rd_t := fun r =>
  Rd (rd_buf r) (rd_cur r) (rd_left r) (rd_auth r) (rd_frags r) (rd_eap r) (rd_eap_len r) (rd_send r) (rd_recv r).

Section Radius.
Context `{E : Env}.

(** ** Reading a response *)

Definition peek (buf : list Z) (o : Z) : N Z :=
  within ((0 <=? o) && (o <? Z.of_nat (length buf))) ;; mret (nth (Z.to_nat o) buf 0).

Definition peeks (buf : list Z) (o n : Z) : N (list Z) :=
  within ((0 <=? o) && (0 <=? n) && (o + n <=? Z.of_nat (length buf))) ;; mret (rd buf (Z.to_nat o) (Z.to_nat n)).

Definition get_be (l : list Z) : Z := fold_left (fun acc b => Z.lor (Z.shiftl acc 8) b) l 0.

(** An attribute handled: the length still to skip, or attribute_error. *)
Definition attr_res : Type := (rd_t * option Z)%type.
Definition attr_error (st : rd_t) : N attr_res := mret (st, None).
Definition attr_ok (st : rd_t) (length_ : Z) : N attr_res := mret (st, Some length_).

Definition resp_len (buf : list Z) : Z := get16 buf 2.

(** The checksum with the request's vector and a null signature, left in its place. *)
Definition attr_authenticator (request : list Z) (st : rd_t) (length_ : Z) : N attr_res :=
  if length_ <? 16 then attr_error st
  else
    sent ← peeks (rd_buf st) (rd_cur st) 16;
    secret ← nas na_secret;
    let cur := Z.to_nat (rd_cur st) in
    let buf := wr (wr (rd_buf st) cur (replicate 16 0)) 4 (field request 4 16) in
    msg ← peeks buf 0 (resp_len buf);
    let digest := hmac_md5 msg secret in
    let ok := bool_decide (sent = digest) in
    let st := st <| rd_buf := wr buf cur digest |> <| rd_auth := ok |> in
    if (ok : bool) then attr_ok st length_ else attr_error st.

(** malloc of a negative size fails. *)
Definition attr_state (i : nat) (st : rd_t) (length_ : Z) : N attr_res :=
  if length_ <? 0 then set_pae i (fun p => p <| pae_radius_state := None |>) ;; attr_error st
  else
    data ← peeks (rd_buf st) (rd_cur st) length_;
    set_pae i (fun p => p <| pae_radius_state := Some data |>) ;;
    attr_ok st length_.

Definition attr_eap (i : nat) (st : rd_t) (length_ : Z) : N attr_res :=
  st ← (match rd_frags st with
        | [] =>
            code ← peek (rd_buf st) (rd_cur st);
            when (code =? EAP_SUCCESS) (set_pae i (fun p => p <| pae_flags ::= Z.lor PAE_FLAG_EAP_SUCCESS |>)) ;;
            mret (st <| rd_eap := Some (rd_cur st) |> <| rd_eap_len := 0 |>)
        | _ => mret st
        end);
  (* the header is the first of the frags *)
  attr_ok (if (S (length (rd_frags st)) <? RADIUS_MAX_ATTRIBUTES)%nat
           then st <| rd_eap_len := wrap16 (rd_eap_len st + length_) |> <| rd_frags ::= fun l => l ++ [(rd_cur st, length_)] |>
           else st) length_.

Definition attr_mppe (code type : Z) (request : list Z) (st : rd_t) (length_ : Z) : N attr_res :=
  if negb (code =? RADIUS_ACCESS_ACCEPT) then attr_ok st length_
  else if negb (Z.rem (length_ - 2) 16 =? 0) || (length_ - 2 <=? 32) then attr_error st
  else
    text ← peeks (rd_buf st) (rd_cur st + 2) (length_ - 2);
    salt ← peeks (rd_buf st) (rd_cur st) 2;
    secret ← nas na_secret;
    let key := mppe_crypt salt text secret (field request 4 16) false in
    attr_ok (if type =? RD_MS_MPPE_SEND then st <| rd_send := Some key |> else st <| rd_recv := Some key |>) length_.

(** The URL that follows [n] bytes of parameters. *)
Definition wfa_url (st : rd_t) (n length_ : Z) : N (rd_t * Z * option (option (list Z))) :=
  let length_ := length_ - n in
  let st := st <| rd_cur := rd_cur st + n |> <| rd_left := rd_left st - n |> in
  if rd_left st <? length_ then mret (st, length_, None)
  else if 0 <? length_ then
    url ← peeks (rd_buf st) (rd_cur st) length_;
    mret (st, length_, Some (Some (c_string url)))
  else mret (st, length_, Some None).

Definition attr_wfa (code type : Z) (st : rd_t) (length_ : Z) : N attr_res :=
  if negb (code =? RADIUS_ACCESS_ACCEPT) then attr_ok st length_
  else if type =? RD_VENDOR_WFA_SR_VALUE then
    m ← peek (rd_buf st) (rd_cur st);
    set_nas (fun n => n <| na_m_subrem_params ::= fmap (fun p => p <| sr_serverMethod := m |>) |>) ;;
    r ← wfa_url st 1 length_;
    let '(st, length_, url) := r in
    match (url : option (option (list Z))) with
    | None => attr_error st
    | Some url => set_nas (fun n => n <| na_m_subrem_params := Some (SubremParams url m) |>) ;; attr_ok st length_
    end
  else if type =? RD_VENDOR_WFA_DAR_VALUE then
    reason ← peek (rd_buf st) (rd_cur st);
    lo ← peek (rd_buf st) (rd_cur st + 1);
    hi ← peek (rd_buf st) (rd_cur st + 2);
    let delay := Z.lor lo (Z.shiftl hi 8) in
    set_nas (fun n => n <| na_m_deauth_params ::= fmap (fun p => p <| dp_reason_code := reason |> <| dp_reauth_delay := delay |>) |>) ;;
    r ← wfa_url st 3 length_;
    let '(st, length_, url) := r in
    match (url : option (option (list Z))) with
    | None => attr_error st
    | Some url => set_nas (fun n => n <| na_m_deauth_params := Some (DeauthParams reason delay url) |>) ;; attr_ok st length_
    end
  else if type =? RD_VENDOR_WFA_SIU_VALUE then
    swt ← peek (rd_buf st) (rd_cur st);
    set_nas (fun n => n <| na_m_bsstran_params ::= fmap (fun p => p <| bt_swt := swt |>) |>) ;;
    r ← wfa_url st 1 length_;
    let '(st, length_, url) := r in
    match (url : option (option (list Z))) with
    | None => attr_error st
    | Some url =>
        set_nas (fun n => n <| na_m_bsstran_params := Some (BsstranParams
          (Z.lor DOT11_BSSTRANS_REQMODE_DISASSOC_IMMINENT DOT11_BSSTRANS_REQMODE_ESS_DISASSOC_IMNT) swt 0 url) |>) ;;
        attr_ok st length_
    end
  else attr_ok st length_.

Definition attr_vendor (code : Z) (request : list Z) (st : rd_t) (length_ : Z) : N attr_res :=
  if length_ <? 6 then attr_error st
  else
    v ← peeks (rd_buf st) (rd_cur st) 4;
    type ← peek (rd_buf st) (rd_cur st + 4);
    l ← peek (rd_buf st) (rd_cur st + 5);
    let vendor := get_be v in
    let length_ := l - 2 in
    let st := st <| rd_cur := rd_cur st + 6 |> <| rd_left := rd_left st - 6 |> in
    if rd_left st <? length_ then attr_error st
    else if vendor =? RD_VENDOR_MICROSOFT then
      if (type =? RD_MS_MPPE_SEND) || (type =? RD_MS_MPPE_RECV) then attr_mppe code type request st length_ else attr_ok st length_
    else if vendor =? RD_VENDOR_WFA then attr_wfa code type st length_
    else attr_ok st length_.

Definition attr_timeout (i : nat) (code : Z) (st : rd_t) (length_ : Z) : N attr_res :=
  if negb (code =? RADIUS_ACCESS_ACCEPT) then attr_ok st length_
  else if length_ <? 4 then attr_error st
  else
    v ← peeks (rd_buf st) (rd_cur st) 4;
    set_pae i (fun p => p <| pae_ssnto := get_be v |>) ;;
    attr_ok st length_.

(** How a round of the loop ends: another round, the checks after the loop, or done. *)
Inductive rd_next := RdGo (st : rd_t) | RdChecks (st : rd_t) | RdDone (st : rd_t).

Definition attr_step (i : nat) (code : Z) (request : list Z) (st : rd_t) : N rd_next :=
  type ← peek (rd_buf st) (rd_cur st);
  l ← peek (rd_buf st) (rd_cur st + 1);
  let length_ := l - 2 in
  let st := st <| rd_cur := rd_cur st + 2 |> <| rd_left := rd_left st - 2 |> in
  if rd_left st <? length_ then mret (RdChecks st)
  else
    r ← (if type =? RD_TP_MESSAGE_AUTHENTICATOR then attr_authenticator request st length_
         else if type =? RD_TP_STATE then attr_state i st length_
         else if type =? RD_TP_EAP_MESSAGE then attr_eap i st length_
         else if type =? RD_TP_VENDOR_SPECIFIC then attr_vendor code request st length_
         else if type =? RD_TP_SESSION_TIMEOUT then attr_timeout i code st length_
         else attr_ok st length_);
    let '(st, r) := r in
    mret (match (r : option Z) with
          | None => RdDone st
          | Some length_ => RdGo (st <| rd_left := rd_left st - length_ |> <| rd_cur := rd_cur st + length_ |>)
          end).

(** The loop over the attributes.  It does not end when a length of 0 takes it back to
    the start of the attribute. *)
Fixpoint attr_loop (fuel : nat) (i : nat) (code : Z) (request : list Z) (st : rd_t) : N rd_next :=
  if rd_left st <? 2 then mret (RdChecks st)
  else match fuel with
       | O => halt
       | S fuel =>
           r ← attr_step i code request st;
           match (r : rd_next) with RdGo st => attr_loop fuel i code request st | r => mret r end
       end.

(** ** What an accepted station gets *)

(** The key frame made up to begin the handshake. *)
Definition request_frame (own : list Z) (s : nas_sta_t) : eapol_key_t :=
  EapolKey own (st_ea s) ETHER_TYPE_802_1X (st_eapol_version s) EAPOL_KEY EAPOL_WPA_KEY_LEN
    (if CHECK_WPA2 (st_mode s) then EAPOL_WPA2_KEY else EAPOL_WPA_KEY)
    (Z.lor WPA_KEY_PAIRWISE WPA_KEY_REQ) 0 (replicate 8 0) (replicate 32 0) (replicate 16 0) (replicate 8 0)
    (replicate 8 0) (replicate 16 0) 0 [].

Definition fix_wpa (i : nat) (key : list Z) (len : Z) : N unit :=
  let len := Z.min len (Z.of_nat PMK_LEN) in
  within (len <=? Z.of_nat (length key)) ;;
  set_suppl i (fun s => s <| sp_pmk := overwrite (sp_pmk s) key (Z.to_nat len) |> <| sp_pmk_len := len |>) ;;
  s ← sta i (fun s => s);
  when (has (st_mode s) WPA2) (nas_wpa_calc_pmkid i) ;;
  if has (st_mode s) WPA2 && has (st_flags s) STA_FLAG_PRE_AUTH then
    set_sta i (fun s => s <| st_flags := Z.ldiff (st_flags s) STA_FLAG_PRE_AUTH |>)
  else
    own ← nas na_ea;
    r ← process_wpa (request_frame own s) i;
    when (negb (r =? 0)) (cleanup_sta i DOT11_RC_8021X_AUTH_FAIL false).

(** The timestamp, made different from the last one. *)
Definition key_timestamp (i : nat) : N (Z * Z) :=
  emit EvGettimeofday ;;
  tv ← reply env_timeofday;
  let '(sec, usec) := tv in
  s ← sta i (fun s => s);
  if (wrap32 usec =? st_rc4keyusec s) && (wrap32 sec =? st_rc4keysec s) then
    set_sta i (fun s => s <| st_rc4keycntr ::= fun x => wrap32 (x + 1) |>) ;;
    mret (sec, usec + st_rc4keycntr s)
  else
    set_sta i (fun s => s <| st_rc4keysec := wrap32 sec |> <| st_rc4keyusec := wrap32 usec |> <| st_rc4keycntr := 1 |>) ;;
    mret (sec, usec).

(** An EAPOL-Key frame of 802.1X.  A key pointer comes with its length; the seed has 48
    bytes.  Without [send_key] the signature is what malloc left there. *)
Definition eapol_key (i : nat) (send_key recv_key : option (list Z * Z)) (key : option (list Z)) (key_len index : Z)
  (unicast : bool) : N unit :=
  own ← nas na_ea;
  s ← sta i (fun s => s);
  tv ← key_timestamp i;
  let '(sec, usec) := tv in
  iv ← nas_rand128;
  data ← (match key with
          | None => mret []
          | Some key =>
              let '(recv, len) := default ([], 0) recv_key in
              within ((16 + len <=? 48) && (len <=? Z.of_nat (length recv)) && (key_len <=? Z.of_nat (length key))) ;;
              mret (fst (rc4 (take (Z.to_nat key_len) key) (prepare_key (iv ++ take (Z.to_nat len) recv))))
          end);
  let body := [EAPOL_RC4_KEY] ++ be16 (wrap16 key_len) ++ be32 (wrap32 (sec + JAN_1970)) ++ be32 (wrap32 (NTPFRAC usec)) ++
              iv ++ [if unicast then Z.lor index EAPOL_KEY_UNICAST else index] in
  let header := eapol_header own s EAPOL_KEY (EAPOL_KEY_HEADER_LEN + Z.of_nat (length data)) in
  signature ← (match send_key with
               | Some (send, len) =>
                   within (len <=? Z.of_nat (length send)) ;;
                   mret (hmac_md5 (drop 14 header ++ body ++ replicate 16 0 ++ data) (take (Z.to_nat len) send))
               | None => b ← reply env_buf; mret (take 16 b)
               end);
  send_to i (header ++ body ++ signature ++ data).

(** A key of the server: its first byte is its length. *)
Definition mppe_key (k : list Z) : list Z * Z := (drop 1 k, nth 0 k 0).

(** Dynamic WEP: a group key if there is none, both keys to the driver and the peer. *)
Definition accept_wep (i : nat) (send : option (list Z)) (recv : list Z) : N unit :=
  plumbed ← nas (fun n => f_gtk_plumbed (na_flags n));
  when (negb plumbed)
    (set_wpa (fun w => w <| wp_gtk_index := GTK_INDEX_1 |>
                         <| wp_gtk_len := if wp_gtk_len w =? 0 then WEP128_KEY_SIZE else wp_gtk_len w |>) ;;
     r ← nas_rand128;
     set_wpa (fun w => w <| wp_gtk := overwrite (wp_gtk w) r 16 |>) ;;
     w ← wpa (fun w => w);
     ret ← nas_set_key None (wp_gtk w) (wp_gtk_len w) (wp_gtk_index w) true 0 0 false;
     when (ret <? 0) nas_handle_error ;;
     set_flags (fun f => f <| f_gtk_plumbed := true |>)) ;;
  set_sta i (fun s => s <| st_rc4keysec := wrap32 (-1) |> <| st_rc4keyusec := wrap32 (-1) |>) ;;
  w ← wpa (fun w => w);
  let send_key := mppe_key <$> send in
  eapol_key i send_key (Some (mppe_key recv)) (Some (wp_gtk w)) (wp_gtk_len w) (wp_gtk_index w) false ;;
  ea ← sta i st_ea;
  ret ← nas_set_key (Some ea) (drop 1 recv) WEP128_KEY_SIZE (DOT11_MAX_DEFAULT_KEYS - 1) true 0 0 false;
  when (ret <? 0) (cleanup_sta i DOT11_RC_BUSY false) ;;
  eapol_key i send_key None None WEP128_KEY_SIZE (DOT11_MAX_DEFAULT_KEYS - 1) true ;;
  ea ← sta i st_ea;
  nas_authorize ea ;;
  mret tt.

Definition radius_accept (i : nat) (send recv : option (list Z)) : N unit :=
  s ← sta i (fun s => s);
  if negb (has (pae_flags (st_pae s)) PAE_FLAG_EAP_SUCCESS) then
    pae_state i HELD ;; nas_deauthorize (st_ea s) ;; mret tt
  else
    pae_state i AUTHENTICATED ;;
    n ← nas (fun n => n);
    set_pae i (fun p => p <| pae_ssnto := if (pae_ssnto p =? 0) || (na_ssn_to n <? pae_ssnto p) then na_ssn_to n else pae_ssnto p |>) ;;
    match recv with
    | None => mret tt
    | Some recv => if CHECK_WPA (st_mode s) then fix_wpa i (drop 1 recv) (nth 0 recv 0) else accept_wep i send recv
    end.

Definition radius_reject (i : nat) : N unit :=
  pae_state i HELD ;;
  ea ← sta i st_ea;
  nas_deauthorize ea ;;
  set_pae i (fun p => p <| pae_ssnto := 0 |>).

(** The EAP message goes to the station unless it is the verdict the code repeats. *)
Definition proxy_eap (i : nat) (code : Z) (st : rd_t) : N unit :=
  match rd_eap st with
  | None => mret tt
  | Some eap =>
      id ← peek (rd_buf st) (eap + 1);
      set_pae i (fun p => p <| pae_id := id |>) ;;
      c ← peek (rd_buf st) eap;
      when (negb ((c =? EAP_SUCCESS) && (code =? RADIUS_ACCESS_ACCEPT)) &&
            negb ((c =? EAP_FAILURE) && (code =? RADIUS_ACCESS_REJECT)))
        (own ← nas na_ea;
         s ← sta i (fun s => s);
         within (forallb (fun '(o, l) => (0 <=? o) && (0 <=? l) && (o + l <=? Z.of_nat (length (rd_buf st)))) (rd_frags st)) ;;
         send_to i (eapol_header own s EAP_PACKET (rd_eap_len st) ++
                    concat (map (fun '(o, l) => rd (rd_buf st) (Z.to_nat o) (Z.to_nat l)) (rd_frags st))))
  end.

(** After the loop; a reject needs no signature. *)
Definition radius_verdict (i : nat) (code : Z) (st : rd_t) : N unit :=
  if negb (rd_auth st) && negb (code =? RADIUS_ACCESS_REJECT) then mret tt
  else
    proxy_eap i code st ;;
    if code =? RADIUS_ACCESS_ACCEPT then radius_accept i (rd_send st) (rd_recv st)
    else if code =? RADIUS_ACCESS_REJECT then radius_reject i
    else mret tt.

(** [response] is the receive buffer, at least a header long.  Each round of the loop but
    one that repeats consumes a byte. *)
Definition radius_dispatch (response : list Z) : N unit :=
  within (20 <=? length response)%nat ;;
  let i := Z.to_nat (nth 1 response 0 mod Z.of_nat MAX_SUPPLICANTS) in
  set_nas (fun n => n <| na_m_deauth_params := None |> <| na_m_subrem_params := None |> <| na_m_bsstran_params := None |>) ;;
  s ← sta i (fun s => s);
  if negb (st_used s) then mret tt
  else match pae_request (st_pae s) with
       | None => mret tt
       | Some request =>
           if negb (nth 1 request 0 =? nth 1 response 0) then mret tt
           else
             let code := nth 0 response 0 in
             let left_ := resp_len response - RADIUS_HEADER_LEN in
             r ← attr_loop (Z.to_nat left_) i code request (Rd response 20 left_ false [] None 0 None None);
             match (r : rd_next) with
             | RdGo st | RdDone st => mret tt
             | RdChecks st => radius_verdict i code st
             end ;;
             set_pae i (fun p => p <| pae_request := None |>)
       end.

End Radius.

#[export] Typeclasses Opaque peek peeks attr_error attr_ok attr_authenticator attr_state attr_eap attr_mppe wfa_url attr_wfa
  attr_vendor attr_timeout attr_step attr_loop fix_wpa key_timestamp eapol_key accept_wep radius_accept radius_reject proxy_eap
  radius_verdict radius_dispatch.

Section StepRels.
Context `{E : Env} (R : relation world) `{HR : !StepRel R}.

Local Tactic Notation "go" reference(f) := intros; unfold f; rel_auto.

#[export] Instance rel_peek buf o : Rel R (peek buf o).
Proof. go peek. Qed.
#[export] Instance rel_peeks buf o n : Rel R (peeks buf o n).
Proof. go peeks. Qed.
#[export] Instance rel_attr_error st : Rel R (attr_error st).
Proof. go attr_error. Qed.
#[export] Instance rel_attr_ok st l : Rel R (attr_ok st l).
Proof. go attr_ok. Qed.
#[export] Instance rel_attr_authenticator req st l : Rel R (attr_authenticator req st l).
Proof. go attr_authenticator. Qed.
#[export] Instance rel_attr_mppe c t req st l : Rel R (attr_mppe c t req st l).
Proof. go attr_mppe. Qed.
#[export] Instance rel_wfa_url st n l : Rel R (wfa_url st n l).
Proof. go wfa_url. Qed.
#[export] Instance rel_attr_wfa c t st l : Rel R (attr_wfa c t st l).
Proof. go attr_wfa. Qed.
#[export] Instance rel_attr_vendor c req st l : Rel R (attr_vendor c req st l).
Proof. go attr_vendor. Qed.
End StepRels.

Section Rels.
Context `{E : Env} (R : relation world) `{HR : !StaRel R}.

Local Tactic Notation "go" reference(f) := intros; unfold f; rel_auto.

#[export] Instance rel_attr_state i st l : Rel R (attr_state i st l).
Proof. go attr_state. Qed.
#[export] Instance rel_attr_eap i st l : Rel R (attr_eap i st l).
Proof. go attr_eap. Qed.
#[export] Instance rel_attr_timeout i c st l : Rel R (attr_timeout i c st l).
Proof. go attr_timeout. Qed.
#[export] Instance rel_attr_step i c req st : Rel R (attr_step i c req st).
Proof. go attr_step. Qed.
#[export] Instance rel_attr_loop fuel i c req st : Rel R (attr_loop fuel i c req st).
Proof. revert st. induction fuel as [|fuel IH]; intros st; cbn [attr_loop]; rel_auto. Qed.
#[export] Instance rel_key_timestamp i : Rel R (key_timestamp i).
Proof. go key_timestamp. Qed.
#[export] Instance rel_eapol_key i s r k l ix u : Rel R (eapol_key i s r k l ix u).
Proof. go eapol_key. Qed.
#[export] Instance rel_radius_reject i : Rel R (radius_reject i).
Proof. go radius_reject. Qed.
#[export] Instance rel_proxy_eap i c st : Rel R (proxy_eap i c st).
Proof. go proxy_eap. Qed.
End Rels.

Section Keys.
Context `{E : Env} (R : relation world) `{HR : !StaRel R} `{HA : !AuthRel R} `{HK : !KeyRel R}.

Local Tactic Notation "go" reference(f) := intros; unfold f; rel_auto.

#[export] Instance rel_fix_wpa i key len : Rel R (fix_wpa i key len).
Proof. go fix_wpa. Qed.
#[export] Instance rel_accept_wep i s r : Rel R (accept_wep i s r).
Proof. go accept_wep. Qed.
#[export] Instance rel_radius_accept i s r : Rel R (radius_accept i s r).
Proof. go radius_accept. Qed.
#[export] Instance rel_radius_verdict i c st : Rel R (radius_verdict i c st).
Proof. go radius_verdict. Qed.
#[export] Instance rel_radius_dispatch resp : Rel R (radius_dispatch resp).
Proof. go radius_dispatch. Qed.
End Keys.
