(* ===== verification/RadiusSafety.v ===== *)
(** What the RADIUS client guarantees: an answer other than a reject counts only when its
    message authenticator verifies under the shared secret; a reject always counts; and
    an attribute of length 0 stops the server for good. *)
From stdpp Require Import base option list numbers strings.
From Stdlib Require Import ZArith Lia.
From S2P Require Import Prelude Mem Md5 Monad NasState NasSta WpaIe WpaKey NasWnm NasRel WpaMsg NasPae WpaAuth WpaSafety.
From S2P Require Import Mppe NasRadius.
Local Open Scope Z_scope.

(** ** Authentic answers *)

(** The checksum of the answer with the request's vector in its header and zeros for the
    signature at [cur] is that signature. *)
Definition authentic_at (secret request response : list Z) (cur : nat) : bool :=
  let buf := wr (wr response cur (replicate 16 0)) 4 (field request 4 16) in
  bool_decide (rd response cur 16 = hmac_md5 (rd buf 0 (Z.to_nat (resp_len buf))) secret).

Definition authentic (secret request response : list Z) : Prop :=
  exists cur, (cur + 16 <= length response)%nat /\ authentic_at secret request response cur = true.

Section Safety.
Context `{E : Env}.

(** The fields of the station the verdict decides on. *)
Definition port_view (s : nas_sta_t) := (st_suppl s, pae_state_ (st_pae s), st_ea s, st_used s).

(** Nothing is sent, and of the station only the bookkeeping changes. *)
Definition hushed (i : nat) (w w' : world) : Prop :=
  w_log w' = w_log w /\ keeps_at i port_view w w' /\ na_secret (w_nas w') = na_secret (w_nas w).

#[local] Instance hushed_pre i : PreOrder (hushed i).
Proof.
  split; [by intros w|]. intros w1 w2 w3 (A1 & A2 & A3) (B1 & B2 & B3). split; [congruence|]. split; [|congruence].
  by transitivity w2.
Qed.

#[local] Instance hushed_nas {A} i (f : nas_t -> A) : Rel (hushed i) (nas f).
Proof. intros w. by apply wp_nas. Qed.
#[local] Instance hushed_peek i buf o : Rel (hushed i) (peek buf o).
Proof. unfold peek. rel_auto. Qed.
#[local] Instance hushed_peeks i buf o n : Rel (hushed i) (peeks buf o n).
Proof. unfold peeks. rel_auto. Qed.

Lemma hushed_set_nas i f : (forall n, na_sta (f n) = na_sta n /\ na_secret (f n) = na_secret n) -> Rel (hushed i) (set_nas f).
Proof.
  intros Hf w. apply wp_set_nas. destruct (Hf (w_nas w)) as [H1 H2]. split_and!; [done| |done].
  unfold keeps_at, sta_at. cbn [w_nas]. by rewrite H1.
Qed.

Lemma hushed_set_pae i f : (forall s, pae_state_ (f (st_pae s)) = pae_state_ (st_pae s)) -> Rel (hushed i) (set_pae i f).
Proof.
  intros Hf w. apply wp_set_sta. split_and!; [done| |done]. apply sta_at_upd_proj. intros s. unfold port_view.
  change (pae_state_ (st_pae (s <| st_pae ::= f |>))) with (pae_state_ (f (st_pae s))). by rewrite Hf.
Qed.

#[local] Hint Extern 2 (Rel (hushed _) (set_nas _)) => apply hushed_set_nas; intros; split; reflexivity : typeclass_instances.
#[local] Hint Extern 2 (Rel (hushed _) (set_pae _ _)) => apply hushed_set_pae; intros; reflexivity : typeclass_instances.

Lemma hushed_step i code request st : Rel (hushed i) (attr_step i code request st).
Proof.
  unfold attr_step, attr_authenticator, attr_state, attr_eap, attr_vendor, attr_mppe, attr_wfa, wfa_url, attr_timeout, attr_error,
    attr_ok. rel_auto.
Qed.

(** ** The authenticator is the only way to be authentic *)

Definition same_buf (st : rd_t) (r : attr_res) : Prop := rd_buf (fst r) = rd_buf st /\ rd_auth (fst r) = rd_auth st.

Ltac bufs := repeat first [progress nas_step | eapply wp_mono; [apply wp_any|]; intros ? ? _]; try done.

Ltac any := nas_step; eapply wp_mono; [apply wp_any|]; intros ? ? _.

Lemma attr_state_buf i st l w : wp (attr_state i st l) (fun r _ => same_buf st r) w.
Proof. unfold attr_state, attr_error, attr_ok, set_pae. bufs. Qed.
Lemma attr_eap_buf i st l w : wp (attr_eap i st l) (fun r _ => same_buf st r) w.
Proof.
  unfold attr_eap, attr_ok. nas_step. eapply (wp_mono _ (fun st' _ => rd_buf st' = rd_buf st /\ rd_auth st' = rd_auth st)).
  - unfold set_pae. bufs.
  - intros st' ? [H1 H2]. nas_step. unfold same_buf. by destruct (_ <? _)%nat.
Qed.
Lemma attr_timeout_buf i c st l w : wp (attr_timeout i c st l) (fun r _ => same_buf st r) w.
Proof. unfold attr_timeout, attr_error, attr_ok, set_pae. bufs. Qed.
Lemma attr_mppe_buf c t req st l w : wp (attr_mppe c t req st l) (fun r _ => same_buf st r) w.
Proof. unfold attr_mppe, attr_error, attr_ok. bufs. unfold same_buf. by destruct (t =? RD_MS_MPPE_SEND). Qed.
Lemma wfa_url_buf st n l w : wp (wfa_url st n l) (fun r _ => rd_buf r.1.1 = rd_buf st /\ rd_auth r.1.1 = rd_auth st) w.
Proof. unfold wfa_url. bufs. Qed.

Lemma attr_wfa_buf c t st l w : wp (attr_wfa c t st l) (fun r _ => same_buf st r) w.
Proof.
  assert (Hu : forall n (k : rd_t * Z * option (option (list Z)) -> N attr_res) w,
    (forall st' l' u, rd_buf st' = rd_buf st /\ rd_auth st' = rd_auth st -> forall w, wp (k (st', l', u)) (fun r _ => same_buf st r) w) ->
    wp (r ← wfa_url st n l; k r) (fun r _ => same_buf st r) w).
  { intros n k w1 Hk. nas_step. eapply wp_mono; [apply wfa_url_buf|]. intros [[st' l'] u] w2 H. by apply Hk. }
  unfold attr_wfa, attr_ok, attr_error. nas_step; [by nas_step|]. nas_step; [|nas_step; [|nas_step; [|by nas_step]]].
  - do 2 any. apply Hu. intros st' l' [u|] Hst' w1; bufs.
  - do 4 any. apply Hu. intros st' l' [u|] Hst' w1; bufs.
  - do 2 any. apply Hu. intros st' l' [u|] Hst' w1; bufs.
Qed.

Lemma attr_vendor_buf c req st l w : wp (attr_vendor c req st l) (fun r _ => same_buf st r) w.
Proof.
  unfold attr_vendor, attr_error, attr_ok. nas_step; [by nas_step|]. do 3 any. cbv zeta. set (st' := st <| rd_cur := _ |> <| rd_left := _ |>).
  assert (Hs : forall r, same_buf st' r -> same_buf st r) by done. clearbody st'.
  nas_step; [nas_step; by apply Hs|]. nas_step.
  - nas_step; [|nas_step; by apply Hs]. eapply wp_mono; [apply attr_mppe_buf|]. auto.
  - nas_step; [|nas_step; by apply Hs]. eapply wp_mono; [apply attr_wfa_buf|]. auto.
Qed.

(** While no authenticator was found the buffer is as it came. *)
Definition rd_inv (secret request response : list Z) (st : rd_t) : Prop :=
  (rd_auth st = false -> rd_buf st = response) /\ (rd_auth st = true -> authentic secret request response).

Lemma attr_authenticator_wp req st l resp w : let secret := na_secret (w_nas w) in
  rd_inv secret req resp st -> wp (attr_authenticator req st l)
    (fun r _ => match snd r with Some _ => rd_inv secret req resp (fst r) | None => True end) w.
Proof.
  intros secret [Hf Ht]. unfold attr_authenticator, attr_error, attr_ok. nas_step; [by nas_step|].
  unfold peeks. repeat (cbv zeta; nas_step); [|done].
  cbn [fst snd]. split; intros Ha; [exfalso; exact (eq_true_false_abs _ H2 Ha)|]. clear Ha. apply bool_decide_eq_true in H2.
  destruct (rd_auth st); [by apply Ht|]. rewrite Hf in H0, H2 by done. exists (Z.to_nat (rd_cur st)). split; [lia|].
  unfold authentic_at. by apply bool_decide_eq_true_2.
Qed.

Lemma rd_inv_same secret req resp st r : rd_inv secret req resp st -> same_buf st r -> rd_inv secret req resp (fst r).
Proof. intros [H1 H2] [Hb Ha]. unfold rd_inv. by rewrite Ha, Hb. Qed.

Lemma attr_step_wp i code req st resp w : let secret := na_secret (w_nas w) in rd_inv secret req resp st ->
  wp (attr_step i code req st)
    (fun r _ => match r with RdGo st' | RdChecks st' => rd_inv secret req resp st' | RdDone _ => True end) w.
Proof.
  intros secret Hst. unfold attr_step. nas_step. eapply wp_mono; [apply (hushed_peek i)|]. intros type w1 (_ & _ & H1).
  nas_step. eapply wp_mono; [apply (hushed_peek i)|]. intros l w2 (_ & _ & H2). fold secret in H1. rewrite H1 in H2. clear H1.
  cbv zeta. set (st' := st <| rd_cur := _ |> <| rd_left := _ |>). assert (Hst' : rd_inv secret req resp st') by done. clearbody st'.
  nas_step; [by nas_step|]. nas_step.
  eapply (wp_mono _ (fun r _ => match snd r with Some _ => rd_inv secret req resp (fst r) | None => True end)).
  - assert (Hsame : forall m : N attr_res, (forall w, wp m (fun r _ => same_buf st' r) w) ->
      wp m (fun r _ => match snd r with Some _ => rd_inv secret req resp (fst r) | None => True end) w2).
    { intros m Hm. eapply wp_mono; [apply Hm|]. intros r ? Hr. destruct (snd r); [|done]. by eapply rd_inv_same. }
    nas_step; [rewrite <- H2 in Hst' |- *; by apply attr_authenticator_wp|].
    nas_step; [apply Hsame; intros; apply attr_state_buf|]. nas_step; [apply Hsame; intros; apply attr_eap_buf|].
    nas_step; [apply Hsame; intros; apply attr_vendor_buf|]. nas_step; [apply Hsame; intros; apply attr_timeout_buf|].
    apply Hsame. intros w3. unfold attr_ok. by nas_step.
  - intros [st2 [l'|]] w3 Hr; cbn [fst snd] in Hr; repeat nas_step; done.
Qed.

Lemma attr_loop_wp fuel i code req st resp w : let secret := na_secret (w_nas w) in rd_inv secret req resp st ->
  wp (attr_loop fuel i code req st) (fun r w' => hushed i w w' /\
    match r with RdGo st' | RdChecks st' => rd_inv secret req resp st' | RdDone _ => True end) w.
Proof.
  cbv zeta. revert st w. induction fuel as [|fuel IH]; intros st w Hst; cbn [attr_loop].
  - nas_step; [nas_step; split; [reflexivity|done]|exact I].
  - nas_step; [nas_step; split; [reflexivity|done]|]. nas_step.
    eapply wp_mono; [apply wp_conj; [apply (hushed_step i)|by apply (attr_step_wp i code req st resp)]|].
    intros r w1 [H1 Hr]. destruct r as [st1|st1|st1]; [|by nas_step..].
    assert (Hs : na_secret (w_nas w1) = na_secret (w_nas w)) by apply H1. rewrite <- Hs in Hr |- *.
    eapply wp_mono; [by apply IH|]. intros r w2 [H2 Hr2]. split; [by transitivity w1|done].
Qed.

(** C4: an answer of the RADIUS server other than a reject, in which no message
    authenticator verifies under the shared secret and the stored request, does
    nothing: no frame or driver call is made, and the station's 802.1X port, its
    pairwise master key and WPA state stay as they are. *)
Theorem radius_unsigned_dropped response w :
  let i := Z.to_nat (nth 1 response 0 mod Z.of_nat MAX_SUPPLICANTS) in
  nth 0 response 0 <> RADIUS_ACCESS_REJECT ->
  (forall request, pae_request (st_pae (sta_at (w_nas w) i)) = Some request ->
     ~ authentic (na_secret (w_nas w)) request response) ->
  wp (radius_dispatch response) (fun _ w' => w_log w' = w_log w /\
    port_view (sta_at (w_nas w') i) = port_view (sta_at (w_nas w) i)) w.
Proof.
  intros i Hcode Hna. unfold radius_dispatch. do 4 nas_step. set (w1 := World _ _).
  assert (H1 : hushed i w w1) by done. assert (Hat : sta_at (w_nas w1) i = sta_at (w_nas w) i) by done. clearbody w1. fold i.
  eapply (wp_mono _ (fun _ w' => hushed i w w')); [|by intros ? w' (? & ? & ?)].
  do 2 nas_step. rewrite Hat. nas_step; [by nas_step|]. destruct (pae_request _) as [req|] eqn:Hreq; [|by nas_step].
  nas_step; [by nas_step|]. assert (Hs : na_secret (w_nas w1) = na_secret (w_nas w)) by apply H1.
  nas_step. eapply wp_mono; [apply (attr_loop_wp _ i _ _ _ response)|].
  { by split. }
  intros r w2 [Hh2 Hr]. rewrite Hs in Hr. assert (Hh3 : hushed i w w2) by by transitivity w1.
  nas_step. eapply (wp_mono _ (fun _ w' => w' = w2)).
  - destruct r as [st|st|st]; [by nas_step| |by nas_step]. unfold radius_verdict.
    destruct (rd_auth st) eqn:Ha; [exfalso; apply (Hna req); [first [exact Hreq|reflexivity]|]; by apply (proj2 Hr)|]. cbn [negb andb].
    rewrite (proj2 (Z.eqb_neq _ _) Hcode). by nas_step.
  - intros ? w3 ->. eapply wp_mono; [apply (hushed_set_pae i); by intros|]. intros ? w4 H4. by transitivity w2.
Qed.

(** ** Attributes of length 0 *)

(** An attribute of no interest, with the length byte 0. *)
Definition stuck_at (code : Z) (buf : list Z) (cur : Z) : bool :=
  let type := nth (Z.to_nat cur) buf 0 in
  (0 <=? cur) && (cur + 1 <? Z.of_nat (length buf)) && (nth (Z.to_nat (cur + 1)) buf 0 =? 0) &&
  negb (existsb (Z.eqb type) [RD_TP_MESSAGE_AUTHENTICATOR; RD_TP_STATE; RD_TP_EAP_MESSAGE; RD_TP_VENDOR_SPECIFIC]) &&
  negb ((type =? RD_TP_SESSION_TIMEOUT) && (code =? RADIUS_ACCESS_ACCEPT)).

Lemma peek_eq buf o w : (0 <=? o) && (o <? Z.of_nat (length buf)) = true -> peek buf o w = Ret (nth (Z.to_nat o) buf 0) w.
Proof. intros H. unfold peek. by rewrite H. Qed.

Lemma stuck_step i code req st w : stuck_at code (rd_buf st) (rd_cur st) = true -> 2 <= rd_left st ->
  attr_step i code req st w = Ret (RdGo st) w.
Proof.
  unfold stuck_at. intros [[[[H0 H1]%andb_prop Hl]%andb_prop Ht]%andb_prop Hto]%andb_prop Hleft. unfold attr_step.
  apply Z.leb_le in H0. apply Z.ltb_lt in H1. apply Z.eqb_eq in Hl.
  rewrite (bind_Ret _ _ _ _ _ (peek_eq (rd_buf st) (rd_cur st) w ltac:(lia))).
  rewrite (bind_Ret _ _ _ _ _ (peek_eq (rd_buf st) (rd_cur st + 1) w ltac:(lia))). rewrite Hl. cbv zeta.
  set (type := nth (Z.to_nat (rd_cur st)) (rd_buf st) 0) in *.
  change (rd_left (st <| rd_cur := _ |> <| rd_left := _ |>)) with (rd_left st - 2). rewrite (proj2 (Z.ltb_ge _ _)) by lia.
  cbn [existsb] in Ht. rewrite !negb_orb in Ht. apply andb_prop in Ht as [T1 [T2 [T3 [T4 _]%andb_prop]%andb_prop]%andb_prop].
  apply negb_true_iff in T1, T2, T3, T4. rewrite T1, T2, T3, T4.
  assert (Hr : forall r : N attr_res, r w = Ret (st <| rd_cur := rd_cur st + 2 |> <| rd_left := rd_left st - 2 |>, Some (0 - 2)) w ->
    (r ≫= fun r => let '(st, r) := r in mret (match (r : option Z) with
          | None => RdDone st
          | Some length_ => RdGo (st <| rd_left := rd_left st - length_ |> <| rd_cur := rd_cur st + length_ |>)
          end)) w = Ret (RdGo st) w).
  { intros r Hr. rewrite (bind_Ret _ _ _ _ _ Hr). destruct st as [b c l a f e el s r']. cbn [mret M_ret].
    unfold mret, M_ret. do 2 f_equal. unfold upd. cbn. f_equal; lia. }
  destruct (type =? RD_TP_SESSION_TIMEOUT); [|by apply Hr]. cbn [andb] in Hto. unfold attr_timeout. rewrite Hto. by apply Hr.
Qed.


End Safety.

(** ** Concrete answers *)

(** A station in slot 5 whose request 5 is outstanding. *)
Definition radius_demo : world :=
  World (upd_sta (nas_demo WPA2 AES_ENABLED true) 5 (fun s => s <| st_used := true |> <| st_ea := cl_ea |> <| st_mode := WPA2 |>
    <| st_pae ::= fun p => p <| pae_state_ := AUTHENTICATING |> <| pae_request := Some ([1; 5; 0; 20] ++ replicate 16 7) |> |>)) [].

(** An accept without attributes. *)
Lemma radius_unsigned_dropped_witness :
  let response := [2; 5; 0; 20] ++ replicate 16 0 in
  runs (fun _ w' => bool_decide (pae_state_ (st_pae (sta_at (w_nas w') 5)) = AUTHENTICATING))
    (fun _ w' => w_log w' = w_log radius_demo /\
      port_view (sta_at (w_nas w') 5) = port_view (sta_at (w_nas radius_demo) 5))
    (radius_dispatch (E := env_yes) response radius_demo).
Proof.
  apply runs_intro; [vm_compute; reflexivity|].
  apply (radius_unsigned_dropped (E := env_yes) ([2; 5; 0; 20] ++ replicate 16 0) radius_demo); [vm_compute; discriminate|].
  intros request Hr (cur & Hl & Hc). injection Hr as <-. revert Hc. apply not_true_iff_false.
  change (length _) with 20%nat in Hl. do 5 (destruct cur as [|cur]; [vm_compute; reflexivity|]). lia.
Defined.

