(* ===== verification/NasSystem.v ===== *)
(** The server as a whole: the states it can reach from nas_start by driver messages,
    frames, answers of the RADIUS server, timers and forced rekeying, in any order, and
    what holds in all of them. *)
From stdpp Require Import base option list numbers strings.
From Stdlib Require Import ZArith Lia.
From S2P Require Import Prelude Monad NasState NasSta WpaIe WpaKey NasWnm NasRel WpaMsg NasPae WpaAuth WpaSafety WpaSup.
From S2P Require Import NasDispatch NasRadius.
Local Open Scope Z_scope.

Inductive nas_input :=
  | InDriver (dpkt : bcm_event_t)
  | InEapol (buf : list Z) (bytes : Z)
  | InPreauth (buf : list Z) (bytes : Z)
  | InSupEapol (buf : list Z)
  | InRadius (response : list Z)
  | InTimer (h : timer_handler_t)
  | InForceRekey.

Section System.
Context `{E : Env}.

Definition handle (e : nas_input) : N unit :=
  match e with
  | InDriver dpkt => driver_message_dispatch dpkt
  | InEapol buf bytes => eapol_dispatch buf bytes
  | InPreauth buf bytes => preauth_dispatch buf bytes
  | InSupEapol buf => eapol_sup_dispatch buf
  | InRadius response => radius_dispatch response
  | InTimer h => run_timer h
  | InForceRekey => nas_force_rekey
  end.

#[export] Instance rel_handle (R : relation world) `{!StaRel R, !AuthRel R, !KeyRel R} e : Rel R (handle e).
Proof. unfold handle. rel_auto. Qed.

(** The states after start-up and any inputs. *)
Inductive reachable : world -> Prop :=
  | reach_start w w' : nas_start w = Ret tt w' -> reachable w'
  | reach_input w e w' : reachable w -> handle e w = Ret tt w' -> reachable w'.

Lemma nas_start_table w : wp nas_start (fun _ w' => table_ok (w_nas w')) w.
Proof.
  unfold nas_start. do 2 nas_step. set (w1 := World _ _).
  assert (H1 : table_ok (w_nas w1)) by (apply (table_ok_same (table_reset (w_nas w))); [done|done|apply table_reset_ok]).
  clearbody w1. eapply wp_mono; [apply (rel_from keeps_table _ w1 w1)|]; [rel_auto|by intros ?|].
  intros ? w' Hw. by apply Hw.
Qed.

(** C5: in every reachable state the station table is well formed: each hash chain is a
    finite list that holds the stations in use whose address has its hash value, each
    exactly once, and no two stations in use have the same address. *)
Theorem reachable_table_ok w : reachable w -> table_ok (w_nas w).
Proof.
  induction 1 as [w w' H|w e w' _ IH H].
  - exact (wp_ret_inv _ _ _ _ _ (nas_start_table w) H).
  - exact (wp_ret_inv _ _ _ _ _ (rel (R := keeps_table) w) H IH).
Qed.

(** ** The watchdog *)

Fixpoint ticks (n : nat) (i : nat) : N unit :=
  match n with O => mret tt | S n => watch_sta i ;; ticks n i end.

Lemma send_to_nas i pkt w : twp (send_to i pkt) (fun _ w' => w_nas w' = w_nas w) w.
Proof. unfold send_to, nas_preauth_send_packet, nas_eapol_send_packet. by nas_steps. Qed.

Lemma pae_connecting_wp i w : (i < length (na_sta (w_nas w)))%nat -> pae_state_ (st_pae (sta_at (w_nas w) i)) = CONNECTING ->
  twp (pae_connecting i) (fun _ w' => pae_state_ (st_pae (sta_at (w_nas w') i)) = CONNECTING /\
    st_tx_when (sta_at (w_nas w') i) = STA_TXPERIOD_MAX) w.
Proof.
  intros Hi Hs. unfold pae_connecting, set_pae, eapol_canned. do 7 nas_step. cbn [w_nas].
  eapply wp_mono; [apply send_to_nas|]. intros ? w1 Hw1. cbn [w_nas] in Hw1. nas_step. cbn [w_nas].
  rewrite Hw1, sta_at_upd_same, sta_at_upd_same by (rewrite ?upd_sta_length; done). split; [exact Hs|done].
Qed.


End System.

(** ** A concrete server *)

(** The access point, started. *)
Lemma ap_starts : exists w, nas_start (E := env_yes) (World (nas_demo WPA2_PSK AES_ENABLED true) []) = Ret tt w /\
  na_mode (w_nas w) = WPA2_PSK.
Proof.
  assert (H : match nas_start (E := env_yes) (World (nas_demo WPA2_PSK AES_ENABLED true) []) with
    | Ret _ w => na_mode (w_nas w) = WPA2_PSK | _ => False end) by (vm_compute; reflexivity).
  destruct (nas_start _) as [[] w| |]; [by exists w|done..].
Qed.

Lemma reachable_table_ok_witness :
  exists w, reachable (E := env_yes) w /\ na_mode (w_nas w) = WPA2_PSK /\ table_ok (w_nas w).
Proof.
  destruct ap_starts as (w & Hw & Hm). pose proof (reach_start _ w Hw) as Hr. exists w. split; [exact Hr|]. split; [exact Hm|].
  exact (reachable_table_ok w Hr).
Defined.

(** A station held with two seconds to go. *)
Definition held_demo : world :=
  World (upd_sta (nas_demo WPA2 AES_ENABLED true) 3 (fun s => s <| st_used := true |> <| st_ea := cl_ea |>
    <| st_quiet_while := 2 |> <| st_pae ::= fun p => p <| pae_state_ := HELD |> |>)) [].

