(* ===== verification/Chanspec.v ===== *)
(** Channel specifications of src/userspace/wlconf/src/bcmwifi_channels.c: a 16-bit word
    with the band, the bandwidth, the control sideband and the centre channel, its text
    form, and the conversions between channels, frequencies and specifications.  The
    D11AC_IOTYPES half of the file is the one that is built. *)
From stdpp Require Import base option list numbers strings.
From Stdlib Require Import ZArith Lia Ascii.
From S2P Require Import Prelude.
Local Open Scope Z_scope.

(** A C string as the list of its characters, without the terminator. *)
Fixpoint str (s : string) : list Z :=
  match s with
  | EmptyString => []
  | String c s => Z.of_nat (nat_of_ascii c) :: str s
  end.

(** ** The layout of the word *)

Definition CH_80MHZ_APART : Z := 16.
Definition CH_20MHZ_APART : Z := 4.
Definition CH_10MHZ_APART : Z := 2.
Definition CH_MAX_2G_CHANNEL : Z := 14.
Definition MAXCHANNEL : Z := 224.

Definition WL_CHANSPEC_CHAN_MASK : Z := 0x00ff.
Definition WL_CHANSPEC_CHAN_SHIFT : Z := 0.
Definition WL_CHANSPEC_CHAN1_MASK : Z := 0x000f.
Definition WL_CHANSPEC_CHAN1_SHIFT : Z := 0.
Definition WL_CHANSPEC_CHAN2_MASK : Z := 0x00f0.
Definition WL_CHANSPEC_CHAN2_SHIFT : Z := 4.
Definition WL_CHANSPEC_CTL_SB_MASK : Z := 0x0700.
Definition WL_CHANSPEC_CTL_SB_SHIFT : Z := 8.
Definition WL_CHANSPEC_CTL_SB_LLL : Z := 0x0000.
Definition WL_CHANSPEC_CTL_SB_LLU : Z := 0x0100.
Definition WL_CHANSPEC_CTL_SB_LUL : Z := 0x0200.
Definition WL_CHANSPEC_CTL_SB_LUU : Z := 0x0300.
Definition WL_CHANSPEC_CTL_SB_UL : Z := WL_CHANSPEC_CTL_SB_LUL.
Definition WL_CHANSPEC_CTL_SB_UU : Z := WL_CHANSPEC_CTL_SB_LUU.
Definition WL_CHANSPEC_CTL_SB_L : Z := WL_CHANSPEC_CTL_SB_LLL.
Definition WL_CHANSPEC_CTL_SB_U : Z := WL_CHANSPEC_CTL_SB_LLU.
Definition WL_CHANSPEC_CTL_SB_UPPER : Z := WL_CHANSPEC_CTL_SB_LLU.
Definition WL_CHANSPEC_BW_MASK : Z := 0x3800.
Definition WL_CHANSPEC_BW_SHIFT : Z := 11.
Definition WL_CHANSPEC_BW_20 : Z := 0x1000.
Definition WL_CHANSPEC_BW_40 : Z := 0x1800.
Definition WL_CHANSPEC_BW_80 : Z := 0x2000.
Definition WL_CHANSPEC_BW_160 : Z := 0x2800.
Definition WL_CHANSPEC_BW_8080 : Z := 0x3000.
Definition WL_CHANSPEC_BAND_MASK : Z := 0xc000.
Definition WL_CHANSPEC_BAND_2G : Z := 0x0000.
Definition WL_CHANSPEC_BAND_5G : Z := 0xc000.
Definition CHANSPEC_STR_LEN : nat := 20.
Definition WF_CHAN_FACTOR_2_4_G : Z := 4814.
Definition WF_CHAN_FACTOR_5_G : Z := 10000.

Definition CHSPEC_CHANNEL (c : Z) : Z := wrap8 (Z.land c WL_CHANSPEC_CHAN_MASK).
Definition CHSPEC_CHAN1 (c : Z) : Z := Z.land c WL_CHANSPEC_CHAN1_MASK.
Definition CHSPEC_CHAN2 (c : Z) : Z := Z.land c WL_CHANSPEC_CHAN2_MASK.
Definition CHSPEC_BAND (c : Z) : Z := Z.land c WL_CHANSPEC_BAND_MASK.
Definition CHSPEC_CTL_SB (c : Z) : Z := Z.land c WL_CHANSPEC_CTL_SB_MASK.
Definition CHSPEC_BW (c : Z) : Z := Z.land c WL_CHANSPEC_BW_MASK.
Definition CHSPEC_IS20 (c : Z) : bool := CHSPEC_BW c =? WL_CHANSPEC_BW_20.
Definition CHSPEC_IS40 (c : Z) : bool := CHSPEC_BW c =? WL_CHANSPEC_BW_40.
Definition CHSPEC_IS80 (c : Z) : bool := CHSPEC_BW c =? WL_CHANSPEC_BW_80.
Definition CHSPEC_IS8080 (c : Z) : bool := CHSPEC_BW c =? WL_CHANSPEC_BW_8080.
Definition CHSPEC_IS5G (c : Z) : bool := CHSPEC_BAND c =? WL_CHANSPEC_BAND_5G.
Definition CHSPEC_IS2G (c : Z) : bool := CHSPEC_BAND c =? WL_CHANSPEC_BAND_2G.
Definition CHSPEC_SB_UPPER (c : Z) : bool := (CHSPEC_CTL_SB c =? WL_CHANSPEC_CTL_SB_UPPER) && CHSPEC_IS40 c.

Definition LOWER_20_SB (channel : Z) : Z := if CH_10MHZ_APART <? channel then channel - CH_10MHZ_APART else 0.
Definition UPPER_20_SB (channel : Z) : Z :=
  if channel <? MAXCHANNEL - CH_10MHZ_APART then channel + CH_10MHZ_APART else 0.

(** ** The channels of 5 GHz *)

Definition wf_chspec_bw_str : list (list Z) :=
  map str ["5"; "10"; "20"; "40"; "80"; "160"; "80+80"; "na"]%string.
Definition wf_chspec_bw_mhz : list Z := [5; 10; 20; 40; 80; 160; 160].
Definition WF_NUM_BW : Z := Z.of_nat (length wf_chspec_bw_mhz).
Definition wf_5g_40m_chans : list Z := [38; 46; 54; 62; 102; 110; 118; 126; 134; 142; 151; 159].
Definition wf_5g_80m_chans : list Z := [42; 58; 106; 122; 138; 155].
Definition wf_5g_160m_chans : list Z := [50; 114].
Definition WF_NUM_5G_80M_CHANS : Z := Z.of_nat (length wf_5g_80m_chans).

Definition bw_chspec_to_mhz (c : Z) : Z :=
  let bw := Z.shiftr (Z.land c WL_CHANSPEC_BW_MASK) WL_CHANSPEC_BW_SHIFT in
  if WF_NUM_BW <=? bw then 0 else idx wf_chspec_bw_mhz bw.

Definition center_chan_to_edge (bw : Z) : Z := wrap8 (wrap32 (bw - 20) / 2 / 5).

Definition channel_low_edge (center_ch bw : Z) : Z := wrap8 (center_ch - center_chan_to_edge bw).

(** -1 when [ctl_ch] is not one of the 20 MHz channels. *)
Definition channel_to_sb (center_ch ctl_ch bw : Z) : Z :=
  let off := wrap32 (ctl_ch - channel_low_edge center_ch bw) in
  if negb (off mod 4 =? 0) then -1
  else if bw / 20 <=? off / 4 then -1 else off / 4.

Definition channel_to_ctl_chan (center_ch bw sb : Z) : Z := wrap8 (channel_low_edge center_ch bw + sb * 4).

Fixpoint find_index (ch : Z) (l : list Z) (i : Z) : Z :=
  match l with
  | [] => -1
  | c :: l => if ch =? c then i else find_index ch l (i + 1)
  end.
Definition channel_80mhz_to_id (ch : Z) : Z := find_index ch wf_5g_80m_chans 0.

(** ** Well-formed and valid specifications *)

(** The bits that mark an 80+80 specification's second channel are compared unshifted. *)
Definition wf_chspec_malformed (c : Z) : bool :=
  let bw := CHSPEC_BW c in
  let bad_band_bw :=
    if CHSPEC_IS2G c then negb (bw =? WL_CHANSPEC_BW_20) && negb (bw =? WL_CHANSPEC_BW_40)
    else if CHSPEC_IS5G c then
      if bw =? WL_CHANSPEC_BW_8080 then
        let ch1_id := CHSPEC_CHAN1 c in
        let ch2_id := CHSPEC_CHAN2 c in
        (WF_NUM_5G_80M_CHANS <=? ch1_id) || (WF_NUM_5G_80M_CHANS <=? ch2_id) || (ch2_id <=? ch1_id)
      else if (bw =? WL_CHANSPEC_BW_20) || (bw =? WL_CHANSPEC_BW_40) || (bw =? WL_CHANSPEC_BW_80) || (bw =? WL_CHANSPEC_BW_160)
      then MAXCHANNEL <? CHSPEC_CHANNEL c
      else true
    else true in
  if bad_band_bw then true
  else if bw =? WL_CHANSPEC_BW_20 then negb (CHSPEC_CTL_SB c =? WL_CHANSPEC_CTL_SB_LLL)
  else if bw =? WL_CHANSPEC_BW_40 then WL_CHANSPEC_CTL_SB_LLU <? CHSPEC_CTL_SB c
  else if bw =? WL_CHANSPEC_BW_80 then WL_CHANSPEC_CTL_SB_LUU <? CHSPEC_CTL_SB c
  else false.

(** A 20 MHz channel of 5 GHz is a side of a 40 MHz one, or one of the old Japanese ones. *)
Definition valid_20m_5g (ch : Z) : bool :=
  existsb (fun c => (ch =? LOWER_20_SB c) || (ch =? UPPER_20_SB c)) wf_5g_40m_chans ||
  (ch =? 34) || (ch =? 38) || (ch =? 42) || (ch =? 46).

Definition wf_chspec_valid (c : Z) : bool :=
  let bw := CHSPEC_BW c in
  let ch := CHSPEC_CHANNEL c in
  let is_center l := existsb (Z.eqb ch) l in
  if wf_chspec_malformed c then false
  else if CHSPEC_IS2G c then
    if bw =? WL_CHANSPEC_BW_20 then (1 <=? ch) && (ch <=? 14)
    else if bw =? WL_CHANSPEC_BW_40 then (3 <=? ch) && (ch <=? 11)
    else false
  else if CHSPEC_IS5G c then
    if bw =? WL_CHANSPEC_BW_8080 then
      idx wf_5g_80m_chans (CHSPEC_CHAN1 c) + CH_80MHZ_APART <? idx wf_5g_80m_chans (CHSPEC_CHAN2 c)
    else if bw =? WL_CHANSPEC_BW_20 then valid_20m_5g ch
    else if bw =? WL_CHANSPEC_BW_40 then is_center wf_5g_40m_chans
    else if bw =? WL_CHANSPEC_BW_80 then is_center wf_5g_80m_chans
    else if bw =? WL_CHANSPEC_BW_160 then is_center wf_5g_160m_chans
    else false
  else false.

(** ** The control channel *)

(** [None]: the index of an 80+80 channel is outside the table. *)
Definition wf_chspec_ctlchan (c : Z) : option Z :=
  if CHSPEC_IS20 c then Some (CHSPEC_CHANNEL c)
  else
    let sb := Z.shiftr (CHSPEC_CTL_SB c) WL_CHANSPEC_CTL_SB_SHIFT in
    if CHSPEC_IS8080 c then
      let '(id, sb) := if sb <? 4 then (CHSPEC_CHAN1 c, sb) else (CHSPEC_CHAN2 c, sb - 4) in
      (fun center => channel_to_ctl_chan center 80 sb) <$> wf_5g_80m_chans !! Z.to_nat id
    else Some (channel_to_ctl_chan (Z.shiftr (CHSPEC_CHANNEL c) WL_CHANSPEC_CHAN_SHIFT) (bw_chspec_to_mhz c) sb).

Definition wf_chspec_ctlchspec (c : Z) : option Z :=
  if CHSPEC_IS20 c then Some c
  else (fun ctl => Z.lor (Z.lor ctl WL_CHANSPEC_BW_20) (CHSPEC_BAND c)) <$> wf_chspec_ctlchan c.

Definition wf_chspec_primary40_chspec (c : Z) : Z :=
  if CHSPEC_IS80 c then
    let center_chan := CHSPEC_CHANNEL c in
    let sb := CHSPEC_CTL_SB c in
    let '(sb, center_chan) :=
      if sb =? WL_CHANSPEC_CTL_SB_UL then (WL_CHANSPEC_CTL_SB_L, center_chan + CH_20MHZ_APART)
      else if sb =? WL_CHANSPEC_CTL_SB_UU then (WL_CHANSPEC_CTL_SB_U, center_chan + CH_20MHZ_APART)
      else (sb, wrap32 (center_chan - CH_20MHZ_APART)) in
    wrap16 (Z.lor (Z.lor (Z.lor WL_CHANSPEC_BAND_5G WL_CHANSPEC_BW_40) sb) center_chan)
  else c.

(** The first centre channel that has [ctl_ch] among its 20 MHz channels. *)
Fixpoint find_center (centers : list Z) (ctl_ch bw : Z) : option (Z * Z) :=
  match centers with
  | [] => None
  | c :: centers =>
      let sb := channel_to_sb c ctl_ch bw in
      if 0 <=? sb then Some (c, Z.shiftl sb WL_CHANSPEC_CTL_SB_SHIFT) else find_center centers ctl_ch bw
  end.

Definition centers_of (bw : Z) : option (list Z * Z) :=
  if bw =? WL_CHANSPEC_BW_40 then Some (wf_5g_40m_chans, 40)
  else if bw =? WL_CHANSPEC_BW_80 then Some (wf_5g_80m_chans, 80)
  else if bw =? WL_CHANSPEC_BW_160 then Some (wf_5g_160m_chans, 160)
  else None.

Definition wf_channel2chspec (ctl_ch bw : Z) : Z :=
  let chspec := Z.lor (if ctl_ch <=? CH_MAX_2G_CHANNEL then WL_CHANSPEC_BAND_2G else WL_CHANSPEC_BAND_5G) bw in
  match centers_of bw with
  | Some (centers, mhz) =>
      match find_center centers ctl_ch mhz with
      | Some (center, sb) => wrap16 (Z.lor (Z.lor chspec center) sb)
      | None => 0
      end
  | None => if bw =? WL_CHANSPEC_BW_20 then wrap16 (Z.lor chspec ctl_ch) else 0
  end.

(** ** The text form *)

(** printf's "%d" of a number that is not negative. *)
Fixpoint dec_digits (fuel : nat) (n : Z) (acc : list Z) : list Z :=
  match fuel with
  | O => acc
  | S fuel => let acc := (48 + n mod 10) :: acc in if n <? 10 then acc else dec_digits fuel (n / 10) acc
  end.
Definition dec (n : Z) : list Z := dec_digits 11 n [].

(** snprintf cuts the text to leave room for the terminator. *)
Definition snprintf (size : nat) (text : list Z) : list Z := take (size - 1) text.

(** [None] is NULL.  An index that is too large gives channel 0. *)
Definition wf_chspec_ntoa (c : Z) : option (list Z) :=
  if wf_chspec_malformed c then None
  else
    let ch := CHSPEC_CHANNEL c in
    let band :=
      if (CHSPEC_IS2G c && (CH_MAX_2G_CHANNEL <? ch)) || (CHSPEC_IS5G c && (ch <=? CH_MAX_2G_CHANNEL))
      then str (if CHSPEC_IS2G c then "2g" else "5g")%string else [] in
    ctl_chan ← wf_chspec_ctlchan c;
    let print text := Some (snprintf CHANSPEC_STR_LEN text) in
    if CHSPEC_IS20 c then print (band ++ dec ctl_chan)
    else if negb (CHSPEC_IS8080 c) then
      let bw := nth (Z.to_nat (Z.shiftr (Z.land c WL_CHANSPEC_BW_MASK) WL_CHANSPEC_BW_SHIFT)) wf_chspec_bw_str [] in
      if CHSPEC_IS40 c then print (band ++ dec ctl_chan ++ str (if CHSPEC_SB_UPPER c then "u" else "l")%string)
      else print (band ++ dec ctl_chan ++ str "/" ++ bw)
    else
      let chan1 := Z.shiftr (Z.land c WL_CHANSPEC_CHAN1_MASK) WL_CHANSPEC_CHAN1_SHIFT in
      let chan2 := Z.shiftr (Z.land c WL_CHANSPEC_CHAN2_MASK) WL_CHANSPEC_CHAN2_SHIFT in
      let num id := if id <? WF_NUM_5G_80M_CHANS then idx wf_5g_80m_chans id else 0 in
      print (dec ctl_chan ++ str "/80+80/" ++ dec (num chan1) ++ str "-" ++ dec (num chan2)).

(** strtoul in base 10: blanks, a sign, digits; the value is that of a 32-bit unsigned
    long, the largest one on overflow.  [None]: no digits, so the end pointer is the
    start. *)
Definition is_space (b : Z) : bool := (b =? 32) || ((9 <=? b) && (b <=? 13)).
Definition is_digit (b : Z) : bool := (48 <=? b) && (b <=? 57).

Fixpoint skip_while (p : Z -> bool) (l : list Z) : list Z :=
  match l with
  | b :: l' => if p b then skip_while p l' else l
  | [] => []
  end.

Fixpoint read_digits (l : list Z) (v : Z) : Z * list Z :=
  match l with
  | b :: l' => if is_digit b then read_digits l' (v * 10 + (b - 48)) else (v, l)
  | [] => (v, [])
  end.

Definition strtoul (l : list Z) : option (Z * list Z) :=
  let l := skip_while is_space l in
  let '(neg, l) :=
    match l with
    | b :: l' => if b =? 45 then (true, l') else if b =? 43 then (false, l') else (false, l)
    | [] => (false, l)
    end in
  match l with
  | b :: _ =>
      if is_digit b then
        let '(v, rest) := read_digits l 0 in
        Some (if 2 ^ 32 <=? v then 2 ^ 32 - 1 else if (neg : bool) then wrap32 (- v) else v, rest)
      else None
  | [] => None
  end.

Definition read_uint (p : list Z) : option (Z * list Z) :=
  '(val, p) ← strtoul p; Some (wrap32 val, p).

Definition tolower (b : Z) : Z := if (65 <=? b) && (b <=? 90) then b + 32 else b.

(** a[0], which is 0 at the end of the string. *)
Definition cur (a : list Z) : Z := match a with b :: _ => b | [] => 0 end.
Definition cur_lower (a : list Z) : Z := tolower (cur a).

Definition ch_g : Z := 103.
Definition ch_u : Z := 117.
Definition ch_l : Z := 108.
Definition ch_slash : Z := 47.
Definition ch_plus : Z := 43.
Definition ch_minus : Z := 45.

(** The parts of the text. *)
Record chspec_text := ChspecText {
  tx_band : Z; tx_ctl_ch : Z; tx_bw : Z; tx_chspec_bw : Z; tx_sb_ul : Z; tx_ch1 : Z; tx_ch2 : Z; tx_rest : list Z
}.

(** [<band> 'g'] <channel> *)
Definition read_band_channel (a : list Z) : option (Z * Z * list Z) :=
  '(num, a) ← read_uint a;
  if cur_lower a =? ch_g then
    '(ctl_ch, a') ← read_uint (tail a);
    if num =? 2 then Some (WL_CHANSPEC_BAND_2G, ctl_ch, a')
    else if num =? 5 then Some (WL_CHANSPEC_BAND_5G, ctl_ch, a')
    else None
  else Some (if num <=? CH_MAX_2G_CHANNEL then WL_CHANSPEC_BAND_2G else WL_CHANSPEC_BAND_5G, num, a).

Definition bw_of_mhz (bw : Z) : option Z :=
  if bw =? 20 then Some WL_CHANSPEC_BW_20
  else if bw =? 40 then Some WL_CHANSPEC_BW_40
  else if bw =? 80 then Some WL_CHANSPEC_BW_80
  else if bw =? 160 then Some WL_CHANSPEC_BW_160
  else None.

(** What follows the plus of 80+80. *)
Definition read_8080 (a : list Z) : option (Z * Z * list Z) :=
  if bool_decide (take 3 a = str "80/") then
    '(ch1, a) ← read_uint (drop 3 a);
    if cur a =? ch_minus then
      '(ch2, a) ← read_uint (tail a); Some (ch1, ch2, a)
    else None
  else None.

(** The text up to done_read. *)
Definition read_chspec (a : list Z) : option chspec_text :=
  '(band, ctl_ch, a) ← read_band_channel a;
  let c := cur_lower a in
  if c =? 0 then Some (ChspecText band ctl_ch 20 WL_CHANSPEC_BW_20 0 0 0 a)
  else
    let a := tail a in
    if (c =? ch_u) || (c =? ch_l) then Some (ChspecText band ctl_ch 20 WL_CHANSPEC_BW_40 c 0 0 a)
    else if negb (c =? ch_slash) then None
    else
      '(bw, a) ← read_uint a;
      chspec_bw ← bw_of_mhz bw;
      let c := cur_lower a in
      if (band =? WL_CHANSPEC_BAND_2G) && (bw =? 40) && ((c =? ch_u) || (c =? ch_l)) then
        Some (ChspecText band ctl_ch bw chspec_bw c 0 0 (tail a))
      else if c =? ch_plus then
        '(ch1, ch2, a) ← read_8080 (tail a);
        Some (ChspecText band ctl_ch bw WL_CHANSPEC_BW_8080 0 ch1 ch2 a)
      else Some (ChspecText band ctl_ch bw chspec_bw 0 0 0 a).

(** The channel pair and the sideband of an 80+80 specification. *)
Definition center_8080 (t : chspec_text) : option (Z * Z) :=
  let ch1_id := channel_80mhz_to_id (tx_ch1 t) in
  let ch2_id := channel_80mhz_to_id (tx_ch2 t) in
  if (tx_ch2 t <=? tx_ch1 t) || (ch1_id <? 0) || (ch2_id <? 0) then None
  else
    let ch := Z.lor (Z.shiftl ch1_id WL_CHANSPEC_CHAN1_SHIFT) (Z.shiftl ch2_id WL_CHANSPEC_CHAN2_SHIFT) in
    let sb1 := channel_to_sb (tx_ch1 t) (tx_ctl_ch t) (tx_bw t) in
    if 0 <=? sb1 then Some (ch, Z.shiftl sb1 WL_CHANSPEC_CTL_SB_SHIFT)
    else
      let sb2 := channel_to_sb (tx_ch2 t) (tx_ctl_ch t) (tx_bw t) in
      if sb2 <? 0 then None else Some (ch, Z.shiftl (sb2 + 4) WL_CHANSPEC_CTL_SB_SHIFT).

(** The channel and sideband fields. *)
Definition chspec_center (t : chspec_text) : option (Z * Z) :=
  if negb (tx_sb_ul t =? 0) then
    if tx_sb_ul t =? ch_l then Some (UPPER_20_SB (tx_ctl_ch t), WL_CHANSPEC_CTL_SB_LLL)
    else Some (LOWER_20_SB (tx_ctl_ch t), WL_CHANSPEC_CTL_SB_LLU)
  else if tx_chspec_bw t =? WL_CHANSPEC_BW_20 then Some (tx_ctl_ch t, 0)
  else if negb (tx_chspec_bw t =? WL_CHANSPEC_BW_8080) then
    '(centers, _) ← centers_of (tx_chspec_bw t);
    find_center centers (tx_ctl_ch t) (tx_bw t)
  else center_8080 t.

(** 0 on error. *)
Definition wf_chspec_aton (a : list Z) : Z :=
  match read_chspec a with
  | None => 0
  | Some t =>
      match skip_while (Z.eqb 32) (tx_rest t) with
      | _ :: _ => 0
      | [] =>
          match chspec_center t with
          | None => 0
          | Some (ch, sb) =>
              let chspec := wrap16 (Z.lor (Z.lor (Z.lor ch (tx_band t)) (tx_chspec_bw t)) sb) in
              if wf_chspec_malformed chspec then 0 else chspec
          end
      end
  end.

(** ** Frequencies *)

Definition int32 (x : Z) : Z := let y := wrap32 x in if 2 ^ 31 <=? y then y - 2 ^ 32 else y.

Definition wf_mhz2channel (freq start_factor : Z) : Z :=
  let start_factor :=
    if start_factor =? 0 then
      if (2400 <=? freq) && (freq <=? 2500) then WF_CHAN_FACTOR_2_4_G
      else if (5000 <=? freq) && (freq <=? 6000) then WF_CHAN_FACTOR_5_G
      else start_factor
    else start_factor in
  if (freq =? 2484) && (start_factor =? WF_CHAN_FACTOR_2_4_G) then 14
  else
    let base := start_factor / 2 in
    if (freq <? base) || (wrap32 (base + 1000) <? freq) then -1
    else
      let offset := int32 (freq - base) in
      let ch := Z.quot offset 5 in
      if negb (offset =? ch * 5) then -1
      else if (start_factor =? WF_CHAN_FACTOR_2_4_G) && ((ch <? 1) || (13 <? ch)) then -1
      else ch.

Definition wf_channel2mhz (ch start_factor : Z) : Z :=
  if ((start_factor =? WF_CHAN_FACTOR_2_4_G) && ((ch <? 1) || (14 <? ch))) || (200 <? ch) then -1
  else if (start_factor =? WF_CHAN_FACTOR_2_4_G) && (ch =? 14) then 2484
  else int32 (ch * 5 + start_factor / 2).

(** ** What holds of every specification *)

(** A check of all 16-bit words, by bytes. *)
Definition forall_u16 (P : Z -> bool) : bool := forall_byte (fun hi => forall_byte (fun lo => P (256 * hi + lo))).

Lemma forall_u16_spec P : forall_u16 P = true -> forall c, u16 c -> P c = true.
Proof.
  intros H c [H0 H1]. rewrite (Z.div_mod c 256) by done.
  apply (forall_byte_spec _ (forall_byte_spec _ H (c / 256) ltac:(split; [apply Z.div_pos|apply Z.div_lt_upper_bound]; lia))).
  apply Z.mod_pos_bound. lia.
Qed.

Lemma wrap16_u16 x : u16 (wrap16 x).
Proof. apply Z.mod_pos_bound. lia. Qed.

(** [check_u16] reduces a claim about all words to a computation. *)
Ltac check_u16 P H :=
  assert (H : forall_u16 P = true) by (vm_compute; reflexivity); let H' := fresh in rename H into H'; pose proof (forall_u16_spec P H') as H; clear H'.

Definition print_parse (c : Z) : bool :=
  match wf_chspec_ntoa c with
  | Some s => (length s <? CHANSPEC_STR_LEN)%nat && (wf_chspec_aton s =? c)
  | None => false
  end.

(** C30: Every valid channel specification is printed into the buffer of CHANSPEC_STR_LEN
    characters, uncut, and its text is read back as the same specification. *)
Theorem wf_chspec_roundtrip c : u16 c -> wf_chspec_valid c = true ->
  exists s, wf_chspec_ntoa c = Some s /\ (length s < CHANSPEC_STR_LEN)%nat /\ wf_chspec_aton s = c.
Proof.
  intros Hc Hv. check_u16 (fun c => if wf_chspec_valid c then print_parse c else true) H.
  specialize (H c Hc). cbn beta in H. rewrite Hv in H. unfold print_parse in H. 
  destruct (wf_chspec_ntoa c) as [s|]; [|done]. apply andb_true_iff in H as [Hl%Nat.ltb_lt He%Z.eqb_eq]. eauto.
Qed.

(** Wf_chspec_malformed compares the second channel of an 80+80 specification
    without shifting it down, so every such specification is malformed: none is
    printed, and wf_chspec_aton, whose result is always 0 or well formed, accepts none,
    not even the example of its own documentation. *)
Theorem wf_chspec_no_8080 :
  (forall c, u16 c -> CHSPEC_IS8080 c = true -> wf_chspec_malformed c = true /\ wf_chspec_ntoa c = None) /\
  (forall a, wf_chspec_aton a = 0 \/ wf_chspec_malformed (wf_chspec_aton a) = false /\ CHSPEC_IS8080 (wf_chspec_aton a) = false) /\
  wf_chspec_aton (str "36/80+80/42-106") = 0.
Proof.
  check_u16 (fun c => if CHSPEC_IS8080 c then wf_chspec_malformed c else true) H.
  assert (Hm : forall c, u16 c -> CHSPEC_IS8080 c = true -> wf_chspec_malformed c = true).
  { intros c Hc H8. specialize (H c Hc). cbn beta in H. by rewrite H8 in H. }
  split; [|split]; [intros c Hc H8|intros a|done].
  - rewrite (Hm c Hc H8). split; [done|]. unfold wf_chspec_ntoa. by rewrite (Hm c Hc H8).
  - unfold wf_chspec_aton. destruct (read_chspec a) as [t|]; [|by left].
    destruct (skip_while _ _); [|by left]. destruct (chspec_center t) as [[ch sb]|]; [|by left].
    cbv zeta. match goal with |- context [wrap16 ?x] => generalize (wrap16_u16 x); generalize (wrap16 x) end.
    intros c Hc. destruct (wf_chspec_malformed c) eqn:Hf; [by left|right]. split; [done|].
    destruct (CHSPEC_IS8080 c) eqn:H8; [|done]. by rewrite Hm in Hf.
Qed.

(** ** Control channels *)

Definition opt_eqb (a b : option Z) : bool := bool_decide (a = b).

Definition sub_channels (c : Z) : bool :=
  match wf_chspec_ctlchspec c with
  | Some d => wf_chspec_valid d && CHSPEC_IS20 d && opt_eqb (wf_chspec_ctlchan d) (wf_chspec_ctlchan c)
  | None => false
  end &&
  (let d := wf_chspec_primary40_chspec c in
   if CHSPEC_IS80 c then wf_chspec_valid d && CHSPEC_IS40 d && opt_eqb (wf_chspec_ctlchan d) (wf_chspec_ctlchan c) else d =? c).

(** The control channel of a valid specification and the primary half of a valid
    80 MHz one are valid specifications of 20 and 40 MHz with the same control channel;
    every other specification is its own primary part. *)
Theorem wf_chspec_subchannels c : u16 c -> wf_chspec_valid c = true ->
  (exists d, wf_chspec_ctlchspec c = Some d /\ wf_chspec_valid d = true /\ CHSPEC_IS20 d = true /\
             wf_chspec_ctlchan d = wf_chspec_ctlchan c) /\
  (let d := wf_chspec_primary40_chspec c in
   if CHSPEC_IS80 c then wf_chspec_valid d = true /\ CHSPEC_IS40 d = true /\ wf_chspec_ctlchan d = wf_chspec_ctlchan c else d = c).
Proof.
  intros Hc Hv. check_u16 (fun c => if wf_chspec_valid c then sub_channels c else true) H.
  specialize (H c Hc). cbn beta in H. rewrite Hv in H. unfold sub_channels in H. 
  apply andb_true_iff in H as [H1 H2]. split.
  - destruct (wf_chspec_ctlchspec c) as [d|]; [|done].
    apply andb_true_iff in H1 as [[Ha Hb]%andb_true_iff Hd%bool_decide_eq_true]. eauto.
  - cbv zeta in *. destruct (CHSPEC_IS80 c).
    + by apply andb_true_iff in H2 as [[Ha Hb]%andb_true_iff Hd%bool_decide_eq_true].
    + by apply Z.eqb_eq.
Qed.

(** *** From the control channel back to the specification *)

Definition wide (bw : Z) : bool := (bw =? WL_CHANSPEC_BW_40) || (bw =? WL_CHANSPEC_BW_80) || (bw =? WL_CHANSPEC_BW_160).

Definition same_spec (c : Z) : bool :=
  match wf_chspec_ctlchan c with
  | Some ctl => wf_channel2chspec ctl (CHSPEC_BW c) =? c
  | None => false
  end.

Lemma channel2chspec_complete c : u16 c -> wf_chspec_valid c = true -> CHSPEC_IS5G c = true -> wide (CHSPEC_BW c) = true ->
  exists ctl, wf_chspec_ctlchan c = Some ctl /\ wf_channel2chspec ctl (CHSPEC_BW c) = c.
Proof.
  intros Hc Hv H5 Hw. check_u16 (fun c => if wf_chspec_valid c then if CHSPEC_IS5G c && wide (CHSPEC_BW c) then same_spec c else true else true) H.
  specialize (H c Hc). cbn beta in H. rewrite Hv, H5, Hw in H. cbn [andb] in H. unfold same_spec in H.
  destruct (wf_chspec_ctlchan c) as [ctl|]; [|done]. apply Z.eqb_eq in H. eauto.
Qed.

Ltac wide_cases H :=
  unfold wide in H; rewrite !orb_true_iff, !Z.eqb_eq in H; destruct H as [[H|H]|H]; subst.

(** Far channels are out of every 5 GHz channel. *)
Lemma channel_to_sb_far c ctl bw : bw / 20 <= 8 -> 256 <= ctl < 2 ^ 32 -> channel_low_edge c bw <= 224 -> channel_to_sb c ctl bw = -1.
Proof.
  intros Hbw Hctl Hlow. unfold channel_to_sb.
  assert (0 <= channel_low_edge c bw) by (apply Z.mod_pos_bound; done).
  cbv zeta. rewrite wrap32_id by (unfold is_u; lia).
  destruct (negb _); [done|]. rewrite (proj2 (Z.leb_le _ _)); [done|].
  etrans; [done|]. apply Z.div_le_lower_bound; lia.
Qed.

Lemma find_center_far l ctl bw : bw / 20 <= 8 -> 256 <= ctl < 2 ^ 32 -> Forall (fun c => channel_low_edge c bw <= 224) l ->
  find_center l ctl bw = None.
Proof. intros Hbw Hctl. induction 1 as [|c l Hc _ IH]; [done|]. cbn [find_center]. by rewrite channel_to_sb_far. Qed.

Lemma wide_centers bw : wide bw = true -> exists l mhz, centers_of bw = Some (l, mhz) /\ mhz / 20 <= 8 /\
  Forall (fun c => channel_low_edge c mhz <= 224) l.
Proof.
  intros Hw. wide_cases Hw; do 2 eexists; (split; [vm_compute; reflexivity|]); (split; [by vm_compute|]);
    repeat constructor; by vm_compute.
Qed.

Lemma channel2chspec_far ctl bw : wide bw = true -> 256 <= ctl < 2 ^ 32 -> wf_channel2chspec ctl bw = 0.
Proof.
  intros Hw Hctl. destruct (wide_centers bw Hw) as (l & mhz & Hc & Hm & Hl). unfold wf_channel2chspec.
  by rewrite Hc, find_center_far.
Qed.

Definition sound_spec (bw ctl : Z) : bool :=
  let r := wf_channel2chspec ctl bw in
  (r =? 0) || (is_ub 16 r && wf_chspec_valid r && CHSPEC_IS5G r && (CHSPEC_BW r =? bw) && opt_eqb (wf_chspec_ctlchan r) (Some ctl)).

Lemma channel2chspec_sound ctl bw : wide bw = true -> u32 ctl -> sound_spec bw ctl = true.
Proof.
  intros Hw Hctl. destruct (decide (ctl < 256)).
  - assert (H : forall_byte (sound_spec bw) = true).
    { wide_cases Hw; vm_compute; reflexivity. }
    apply (forall_byte_spec _ H). destruct Hctl. by split.
  - unfold sound_spec. destruct Hctl. rewrite channel2chspec_far; [done|done|lia].
Qed.

(** For 40, 80 and 160 MHz wf_channel2chspec finds the one valid 5 GHz specification
    of that bandwidth whose control channel is the given one, and 0 exactly when there
    is none. *)
Theorem wf_channel2chspec_spec ctl_ch bw : u32 ctl_ch -> wide bw = true ->
  let r := wf_channel2chspec ctl_ch bw in
  let fits c := u16 c /\ wf_chspec_valid c = true /\ CHSPEC_IS5G c = true /\ CHSPEC_BW c = bw /\ wf_chspec_ctlchan c = Some ctl_ch in
  (r = 0 \/ fits r) /\ forall c, fits c -> c = r.
Proof.
  intros Hctl Hw r fits. split.
  - pose proof (channel2chspec_sound ctl_ch bw Hw Hctl) as H. unfold sound_spec in H. fold r in H. cbv zeta in H.
    apply orb_true_iff in H as [H%Z.eqb_eq|H]; [by left|]; right. unfold fits.
    rewrite !andb_true_iff in H. destruct H as [[[[H1%is_ub_spec H2] H3] H4%Z.eqb_eq] H5%bool_decide_eq_true]. done.
  - intros c (Hc & Hv & H5 & Hb & Hcc).
    destruct (channel2chspec_complete c Hc Hv H5) as (ctl & He & H); [by rewrite Hb|].
    rewrite Hcc in He. injection He as <-. unfold r. by rewrite <- Hb.
Qed.

(** ** Channels and frequencies *)

Ltac pow_lia :=
  change (2 ^ 32) with 4294967296 in *; change (2 ^ 31) with 2147483648 in *; change (2 ^ 30) with 1073741824 in *;
  unfold WF_CHAN_FACTOR_2_4_G, WF_CHAN_FACTOR_5_G in *; Z.to_euclidean_division_equations; lia.

Lemma int32_id x : - 2 ^ 31 <= x < 2 ^ 31 -> int32 x = x.
Proof. intros H. unfold int32, wrap32. cbv zeta. destruct (Z.leb_spec (2 ^ 31) (x mod 2 ^ 32)); pow_lia. Qed.

(** The channel of a frequency counted from the base. *)
Lemma mhz2channel_at ch sf : 0 <= ch <= 200 -> 0 <= sf < 2 ^ 31 -> (sf = WF_CHAN_FACTOR_2_4_G -> 1 <= ch <= 13) ->
  wf_mhz2channel (ch * 5 + sf / 2) sf = ch.
Proof.
  intros Hch Hs Hg. unfold wf_mhz2channel.
  assert (Hf : (if sf =? 0
     then if (2400 <=? ch * 5 + sf / 2) && (ch * 5 + sf / 2 <=? 2500) then WF_CHAN_FACTOR_2_4_G
          else if (5000 <=? ch * 5 + sf / 2) && (ch * 5 + sf / 2 <=? 6000) then WF_CHAN_FACTOR_5_G else sf
     else sf) = sf).
  { destruct (Z.eqb_spec sf 0) as [->|]; [|done]. change (0 / 2) with 0.
    rewrite (proj2 (Z.leb_gt 2400 _)), (proj2 (Z.leb_gt 5000 _)) by lia. done. }
  rewrite Hf. clear Hf. cbv zeta. destruct ((_ =? 2484) && _) eqn:He.
  { apply andb_true_iff in He as [He%Z.eqb_eq Hs2%Z.eqb_eq]. pow_lia. }
  rewrite (wrap32_id (sf / 2 + 1000)) by (unfold is_u; pow_lia).
  rewrite (proj2 (Z.ltb_ge _ _)), (proj2 (Z.ltb_ge _ _)) by pow_lia. cbn [orb].
  rewrite (int32_id (ch * 5 + sf / 2 - sf / 2)) by pow_lia.
  replace (ch * 5 + sf / 2 - sf / 2) with (ch * 5) by lia. rewrite Z.quot_mul, Z.eqb_refl by done. cbn [negb].
  destruct (Z.eqb_spec sf WF_CHAN_FACTOR_2_4_G) as [E|]; [|done]. specialize (Hg E).
  by rewrite (proj2 (Z.ltb_ge _ _)), (proj2 (Z.ltb_ge _ _)) by lia.
Qed.

(** What a frequency with a channel looks like. *)
Lemma mhz2channel_inv freq sf : u32 freq -> 0 < sf < 2 ^ 31 -> wf_mhz2channel freq sf <> -1 ->
  (freq = 2484 /\ sf = WF_CHAN_FACTOR_2_4_G) \/
  exists ch, 0 <= ch <= 200 /\ freq = ch * 5 + sf / 2 /\ (sf = WF_CHAN_FACTOR_2_4_G -> 1 <= ch <= 13).
Proof.
  intros [Hf0 Hf] Hs. unfold wf_mhz2channel. rewrite (proj2 (Z.eqb_neq sf 0)) by lia. cbv zeta.
  destruct ((_ =? 2484) && _) eqn:He; [intros _; left; by apply andb_true_iff in He as [?%Z.eqb_eq ?%Z.eqb_eq]|].
  rewrite (wrap32_id (sf / 2 + 1000)) by (unfold is_u; pow_lia).
  destruct (_ || _) eqn:Hr; [done|]. apply orb_false_iff in Hr as [H1%Z.ltb_ge H2%Z.ltb_ge].
  rewrite (int32_id (freq - sf / 2)) by pow_lia.
  destruct (Z.eqb_spec (freq - sf / 2) (Z.quot (freq - sf / 2) 5 * 5)) as [E|]; [|done]. cbn [negb].
  intros H. right. exists (Z.quot (freq - sf / 2) 5). split; [pow_lia|]. split; [lia|].
  intros ->. rewrite Z.eqb_refl in H. cbn [andb] in H. destruct (_ || _) eqn:Hc in H; [done|].
  by apply orb_false_iff in Hc as [?%Z.ltb_ge ?%Z.ltb_ge].
Qed.

(** Wf_mhz2channel undoes wf_channel2mhz on every channel of the band, and
    wf_channel2mhz undoes wf_mhz2channel on every frequency that has a channel. *)
Theorem wf_channel_mhz_inverse x sf : u32 x -> 0 < sf < 2 ^ 31 ->
  (wf_channel2mhz x sf <> -1 -> wf_mhz2channel (wf_channel2mhz x sf) sf = x) /\
  (wf_mhz2channel x sf <> -1 -> wf_channel2mhz (wf_mhz2channel x sf) sf = x).
Proof.
  intros Hx Hs. pose proof Hx as [Hx0 _]. assert (Hb : 0 <= sf / 2 < 2 ^ 30) by pow_lia. split.
  - unfold wf_channel2mhz. destruct (_ || _) eqn:He; [done|]. intros Hn.
    apply orb_false_iff in He as [Hg Hr%Z.ltb_ge].
    destruct ((sf =? _) && (x =? 14)) eqn:H14.
    { by apply andb_true_iff in H14 as [->%Z.eqb_eq ->%Z.eqb_eq]. }
    rewrite int32_id by pow_lia. apply mhz2channel_at; [lia|lia|]. intros ->. rewrite Z.eqb_refl in Hg, H14.
    cbn [andb] in Hg, H14. apply orb_false_iff in Hg as [?%Z.ltb_ge ?%Z.ltb_ge]. apply Z.eqb_neq in H14. lia.
  - intros H. destruct (mhz2channel_inv x sf Hx Hs H) as [[-> ->]|(ch & Hch & -> & Hg)]; [done|].
    rewrite mhz2channel_at by (done || lia). unfold wf_channel2mhz. destruct (_ || _) eqn:He.
    + apply orb_true_iff in He as [[Hs2%Z.eqb_eq Hc]%andb_true_iff|Hc%Z.ltb_lt]; [|lia].
      apply orb_true_iff in Hc as [?%Z.ltb_lt|?%Z.ltb_lt]; specialize (Hg Hs2); lia.
    + destruct ((sf =? _) && (ch =? 14)) eqn:H14; [|apply int32_id; pow_lia].
      apply andb_true_iff in H14 as [Hs2%Z.eqb_eq ?%Z.eqb_eq]. specialize (Hg Hs2). lia.
Qed.

(** ** Witnesses *)

Lemma wf_chspec_roundtrip_witness : wf_chspec_valid 0xe03a = true /\
  exists s, wf_chspec_ntoa 0xe03a = Some s /\ (length s < CHANSPEC_STR_LEN)%nat /\ wf_chspec_aton s = 0xe03a.
Proof. split; [vm_compute; reflexivity|]. apply (wf_chspec_roundtrip 0xe03a); [split; lia|vm_compute; reflexivity]. Defined.

Lemma wf_chspec_no_8080_witness : wf_chspec_malformed 0xf020 = true /\ wf_chspec_ntoa 0xf020 = None.
Proof. apply (proj1 wf_chspec_no_8080); [split; lia|vm_compute; reflexivity]. Defined.

Lemma wf_chspec_subchannels_witness : let d := wf_chspec_primary40_chspec 0xe33a in
  wf_chspec_valid d = true /\ CHSPEC_IS40 d = true /\ wf_chspec_ctlchan d = wf_chspec_ctlchan 0xe33a.
Proof. apply (wf_chspec_subchannels 0xe33a); [split; lia|vm_compute; reflexivity]. Defined.

Lemma wf_channel2chspec_spec_witness : 0xe33a = wf_channel2chspec 64 WL_CHANSPEC_BW_80.
Proof.
  apply (wf_channel2chspec_spec 64 WL_CHANSPEC_BW_80); [split; lia|vm_compute; reflexivity|].
  split; [split; lia|]. repeat split; vm_compute; reflexivity.
Defined.

Lemma wf_channel_mhz_inverse_witness :
  wf_mhz2channel (wf_channel2mhz 36 WF_CHAN_FACTOR_5_G) WF_CHAN_FACTOR_5_G = 36 /\
  wf_channel2mhz (wf_mhz2channel 2484 WF_CHAN_FACTOR_2_4_G) WF_CHAN_FACTOR_2_4_G = 2484.
Proof.
  split; [apply (wf_channel_mhz_inverse 36)|apply (wf_channel_mhz_inverse 2484)]; try (split; vm_compute; done);
    vm_compute; discriminate.
Defined.
