(* ===== verification/NasWksp.v ===== *)
(** The process of the network access server (src/userspace/nas/src/nas_wksp.c,
    nas_wksp_radius.c, the signals of nas_linux.c): one server per wireless interface,
    made when the first message for the interface arrives; the keys and addresses of its
    configuration; the sockets to eapd and to the RADIUS servers; the main loop.  A
    handler of one server ([NasDispatch]) runs inside the process by [in_nas].  nas is
    started without arguments, as its Makefile says. *)
From stdpp Require Import base option list numbers strings relations.
From Stdlib Require Import ZArith Lia.
From S2P Require Import Prelude Prf Monad NasState NasSta WpaIe WpaKey NasPae WpaAuth WpaSup NasDispatch NasRadius Chanspec.
Local Open Scope Z_scope.

(** ** Constants *)

Definition NAS_WKSP_PSK_LEN : nat := 64.
Definition NAS_WKSP_PASSPHRASE_MIN : nat := 8.
Definition NAS_WKSP_PASSPHRASE_MAX : nat := 63.
Definition NAS_WKSP_MAX_USER_KEY_LEN : nat := 80.
Definition NAS_WKSP_MAX_NUM_INTERFACES : nat := 66.
Definition NAS_WKSP_UNK_FILE_DESC : Z := -1.
Definition NAS_WKSP_FLAG_SHUTDOWN : Z := 1.
Definition NAS_WKSP_FLAG_REKEY : Z := 2.
Definition NAS_WKSP_RADIUS_TRIES : nat := 5.
Definition NAS_WKSP_RADIUS_SLEEP : Z := 5.
Definition RADIUS_PORT : Z := 1812.
Definition NAS_PORT_TYPE_WIRELESS_IEEE80211 : Z := 19.
Definition WEP1_KEY_SIZE : Z := 5.
Definition WEP1_KEY_HEX_SIZE : Z := 10.
Definition WEP128_KEY_HEX_SIZE : Z := 26.
Definition DOT11_MAX_SSID_LEN : nat := 32.
Definition MAX_NAS_ID_LEN : nat := 32.
Definition IFNAMSIZ : nat := 16.
Definition SES_OW_ENABLED : Z := 0x0040.
Definition MFP_CAPABLE : Z := 0x0200.
Definition AF_INET : Z := 2.
Definition AF_INET6 : Z := 10.
Definition ETHER_TYPE_BRCM : Z := 0x886c.
Definition BCMILCP_SUBTYPE_VENDOR_LONG : Z := 32769.
Definition BCMILCP_BCM_SUBTYPE_EVENT : Z := 1.
Definition BCMILCP_BCM_SUBTYPEHDR_MINLENGTH : Z := 8.
Definition BCMILCP_BCM_SUBTYPEHDR_VERSION : Z := 0.
Definition WLC_E_EAPOL_MSG : Z := 25.
Definition sizeof_bcm_event_t : Z := 72.

Definition CHECK_AUTH (mode : Z) : bool := has mode (Z.lor (Z.lor RADIUS (Z.lor WPA WPA_PSK)) (Z.lor WPA2 WPA2_PSK)).

(** ** State *)

Record sockaddr_t := Sockaddr { sin_family : Z; sin_addr : list Z; sin_port : Z }.
#[export] Instance eta_sockaddr_t : Settable sockaddr_t := fun r => Sockaddr (sin_family r) (sin_addr r) (sin_port r).

(** The run time flags of an interface, a bit each. *)
Record cb_flags_t := CbFlags { cf_suppl : bool; cf_auth : bool; cf_wds : bool; cf_error : bool }.
#[export] Instance eta_cb_flags_t : Settable cb_flags_t := fun r => CbFlags (cf_suppl r) (cf_auth r) (cf_wds r) (cf_error r).

(** One server.  The fields of nas_t that only this file uses stand beside it; the
    arrays psk, secret and wep are the strings they hold. *)
Record nas_wpa_cb_t := Cb {
  cb_nas : nas_t;
  cb_interface : list Z;
  cb_mfp : Z;
  cb_wan : Z;
  cb_server : sockaddr_t;
  cb_key_length : Z;
  cb_psk : list Z;
  cb_secret : list Z;
  cb_wep : list Z;
  cb_index : Z;
  cb_flags : cb_flags_t;
  cb_unit : Z
}.
#[export] Instance eta_nas_wpa_cb_t : Settable nas_wpa_cb_t := fun r =>
  Cb (cb_nas r) (cb_interface r) (cb_mfp r) (cb_wan r) (cb_server r) (cb_key_length r) (cb_psk r) (cb_secret r)
    (cb_wep r) (cb_index r) (cb_flags r) (cb_unit r).

(** [nw_nwcb] is the first nwcbs pointers of the array. *)
Record nas_wksp_t := NWksp {
  nw_packet : list Z;
  nw_fdset : list Z;
  nw_fdmax : Z;
  nw_eapd : Z;
  nw_flags : Z;
  nw_nwcb : list nas_wpa_cb_t
}.
#[export] Instance eta_nas_wksp_t : Settable nas_wksp_t := fun r =>
  NWksp (nw_packet r) (nw_fdset r) (nw_fdmax r) (nw_eapd r) (nw_flags r) (nw_nwcb r).

(** What memset to 0 leaves. *)
Definition wpa_zero : wpa_t :=
  Wpa (replicate 32 0) (replicate 32 0) (replicate 32 0) 0 (replicate 32 0) (replicate 32 0) (replicate 8 0) 0 0 0 0
    (replicate 32 0) 0 0 0 [0; 0] 0.
Definition nas_zero : nas_t :=
  Nas [] 0 0 (replicate 6 0) wpa_zero (replicate MAX_SUPPLICANTS sta_zero) (replicate MAX_SUPPLICANTS None) 0 false 0
    (Flags false false false false false) (replicate 6 0) 0 false (replicate 4 0) 0 0 [] [] None None None.

(** What stands for a server outside the list. *)
Definition cb_none : nas_wpa_cb_t :=
  Cb nas_zero [] 0 (-1) (Sockaddr 0 [] 0) 0 [] [] [] 0 (CbFlags false false false false) 0.

Definition nas_wksp_alloc_workspace : nas_wksp_t := NWksp (replicate (Z.to_nat RADIUS_MAX_LEN) 0) [] 0 0 0 [].

(** ** Calls out of the process *)

(** The answer of get_wsec of libshared for an interface. *)
Record wsec_info_t := WsecInfo {
  wi_unit : Z; wi_osifname : list Z; wi_ea : list Z; wi_ssid : list Z; wi_akm : Z; wi_wsec : Z; wi_mfp : Z;
  wi_suppl : bool; wi_auth : bool; wi_wds : bool; wi_remote : list Z; wi_psk : list Z; wi_secret : option (list Z);
  wi_gtk_rekey_secs : Z; wi_wep_index : Z; wi_wep_key : option (list Z);
  wi_radius_addr : option (list Z); wi_radius_port : Z; wi_ssn_to : Z; wi_preauth : Z; wi_nas_id : option (list Z)
}.

Inductive wcall :=
| WSocket (family : Z) | WSetReuse (fd : Z) | WBind (fd : Z) | WConnect (fd : Z) (to : sockaddr_t) | WGetsockname (fd : Z)
| WClose (fd : Z) | WSleep (ms : Z) | WErrno | WGetWsec (mac : list Z) (osifname : option (list Z)) | WMalloc
| WGetaddrinfo (host : list Z) | WIovarGetint (ifname : list Z) (name : string)
| WTimerInit | WTimerCleanup | WTimerEnable (on : bool) | WDaemon | WSelect (fds : list Z) | WRecv (fd : Z).

(** [WNas i es]: server [i] handled something and made the calls [es], newest first. *)
Inductive wevent := WCall (c : wcall) | WNas (i : nat) (es : list event).

(** What the callees answer, given everything done so far: an integer result, bytes, the
    descriptors select leaves, the timers that run out during select, the settings of
    the interface asked for, an address list (families, and addresses or NULL), an
    integer variable of the driver, and the environment of one server's handler. *)
Class WEnv := {
  we_int : list wevent -> Z;
  we_data : list wevent -> option (list Z);
  we_ready : list wevent -> list Z;
  we_timers : list wevent -> list (nat * timer_handler_t);
  we_wsec : list wevent -> option wsec_info_t;
  we_addrs : list wevent -> list (Z * option (list Z));
  we_ivar : list wevent -> Z;
  we_nas : list wevent -> nat -> Env
}.

Record wworld := WWorld { ww : nas_wksp_t; ww_log : list wevent }.
#[export] Instance eta_wworld : Settable wworld := fun r => WWorld (ww r) (ww_log r).

Definition W (A : Type) : Type := M wworld A.

Definition wlog (c : wcall) : W unit := modify (fun w => w <| ww_log ::= cons (WCall c) |>).
Definition wk {A} (f : nas_wksp_t -> A) : W A := get (fun w => f (ww w)).
Definition set_wk (f : nas_wksp_t -> nas_wksp_t) : W unit := modify (fun w => w <| ww ::= f |>).
Definition cb_at (k : nas_wksp_t) (i : nat) : nas_wpa_cb_t := nth i (nw_nwcb k) cb_none.
Definition cb {A} (i : nat) (f : nas_wpa_cb_t -> A) : W A := wk (fun k => f (cb_at k i)).
Definition upd_cb (k : nas_wksp_t) (i : nat) (f : nas_wpa_cb_t -> nas_wpa_cb_t) : nas_wksp_t := k <| nw_nwcb ::= alter f i |>.
Definition set_cb (i : nat) (f : nas_wpa_cb_t -> nas_wpa_cb_t) : W unit := set_wk (fun k => upd_cb k i f).
Definition set_cb_nas (i : nat) (f : nas_t -> nas_t) : W unit := set_cb i (fun c => c <| cb_nas ::= f |>).
Definition set_cb_wpa (i : nat) (f : wpa_t -> wpa_t) : W unit := set_cb_nas i (fun n => n <| na_wpa ::= f |>).
Definition set_error (i : nat) : W unit := set_cb i (fun c => c <| cb_flags ::= fun f => f <| cf_error := true |> |>).

Definition htons (x : Z) : Z := Z.lor (Z.shiftl (Z.land x 0xff) 8) (Z.land (Z.shiftr x 8) 0xff).
Definition get32 (b : list Z) (o : nat) : Z := 2 ^ 16 * get16 b o + get16 b (o + 2).

(** isxdigit, and the value of a hexadecimal digit. *)
Definition xdigit (c : Z) : option Z :=
  if (48 <=? c) && (c <=? 57) then Some (c - 48)
  else if (65 <=? c) && (c <=? 70) then Some (c - 55)
  else if (97 <=? c) && (c <=? 102) then Some (c - 87) else None.
Definition isxdigit (c : Z) : bool := bool_decide (is_Some (xdigit c)).

Fixpoint hex_digits (l : list Z) (acc : Z) : Z :=
  match l with
  | [] => acc
  | c :: l => match xdigit c with Some d => hex_digits l (16 * acc + d) | None => acc end
  end.

(** strtoul with base 16 on one or two characters: spaces, a sign, digits.  (A leading
    "0x" fills them, and then 0 is read.) *)
Fixpoint strtoul16 (l : list Z) : Z :=
  match l with
  | [] => 0
  | c :: l' =>
      if (c =? 32) || ((9 <=? c) && (c <=? 13)) then strtoul16 l'
      else if c =? 45 then - hex_digits l' 0
      else if c =? 43 then hex_digits l' 0 else hex_digits l 0
  end.

Section Wksp.
Context `{E : WEnv}.

Definition wreply {A} (f : list wevent -> A) : W A := get (fun w => f (ww_log w)).
Definition wcall_int (c : wcall) : W Z := wlog c ;; wreply we_int.

(** A handler of server [i], with its own calls; when it gives up, so does the process. *)
Definition in_nas {A} (i : nat) (h : forall E : Env, N A) : W A := fun w =>
  let put (w' : world) := WWorld (upd_cb (ww w) i (fun c => c <| cb_nas := w_nas w' |>)) (WNas i (w_log w') :: ww_log w) in
  match h (we_nas (ww_log w) i) (World (cb_nas (cb_at (ww w) i)) []) with
  | Ret a w' => Ret a (put w')
  | Halt w' => Halt (put w')
  | Oob => Oob
  end.

(** ** nas_wksp_radius.c: the connection to a RADIUS server *)

(** The end of nas_radius_open when it fails. *)
Definition radius_failed (i : nat) : W Z :=
  set_cb i (fun c => c <| cb_wan := NAS_WKSP_UNK_FILE_DESC |>) ;; wcall_int WErrno.

(** connect and getsockname; [n] tries are left. *)
Fixpoint radius_connect (n i : nat) : W Z :=
  fd ← cb i cb_wan;
  match n with
  | O => wlog (WClose fd) ;; radius_failed i
  | S n =>
      srv ← cb i cb_server;
      r ← wcall_int (WConnect fd srv);
      if r <? 0 then wlog (WSleep (NAS_WKSP_RADIUS_SLEEP * 1000)) ;; radius_connect n i
      else
        r ← wcall_int (WGetsockname fd);
        if r <? 0 then wlog (WClose fd) ;; radius_failed i
        else
          addr ← wreply we_data;
          set_cb_nas i (fun n => n <| na_client := default (na_client n) addr |>) ;;
          mret 0
  end.

Definition nas_radius_open (i : nat) : W Z :=
  fd ← cb i cb_wan;
  when (negb (fd =? NAS_WKSP_UNK_FILE_DESC))
    (wlog (WClose fd) ;; set_cb i (fun c => c <| cb_wan := NAS_WKSP_UNK_FILE_DESC |>)) ;;
  srv ← cb i cb_server;
  fd ← wcall_int (WSocket (sin_family srv));
  set_cb i (fun c => c <| cb_wan := fd |>) ;;
  if fd <? 0 then radius_failed i else radius_connect NAS_WKSP_RADIUS_TRIES i.

Definition nas_radius_close (i : nat) : W unit :=
  fd ← cb i cb_wan;
  when (negb (fd =? NAS_WKSP_UNK_FILE_DESC))
    (wlog (WClose fd) ;; set_cb i (fun c => c <| cb_wan := NAS_WKSP_UNK_FILE_DESC |>)).

Definition interfaces : W (list nat) := wk (fun k => seq 0 (length (nw_nwcb k))).

(** A server that authenticates with RADIUS gets its connection. *)
Definition open_if_radius (i : nat) : W unit :=
  mode ← cb i (fun c => na_mode (cb_nas c));
  when (CHECK_RADIUS mode) (nas_radius_open i ;; mret tt).

Definition nas_wksp_open_radius : W unit := ids ← interfaces; for_each ids open_if_radius.

Definition nas_wksp_close_radius : W unit :=
  ids ← interfaces;
  for_each ids (fun i =>
    mode ← cb i (fun c => na_mode (cb_nas c));
    when (CHECK_RADIUS mode) (nas_radius_close i)).

(** ** The connection to eapd *)

Definition nas_wksp_open_eapd : W Z :=
  let failed := (set_wk (fun k => k <| nw_eapd := NAS_WKSP_UNK_FILE_DESC |>) ;; wcall_int WErrno) in
  fd ← wcall_int (WSocket AF_INET);
  set_wk (fun k => k <| nw_eapd := fd |>) ;;
  if fd <? 0 then failed
  else
    r ← wcall_int (WSetReuse fd);
    if r <? 0 then wlog (WClose fd) ;; failed
    else
      r ← wcall_int (WBind fd);
      if r <? 0 then wlog (WClose fd) ;; failed else mret 0.

Definition nas_wksp_close_eapd : W unit :=
  fd ← wk nw_eapd;
  when (negb (fd =? NAS_WKSP_UNK_FILE_DESC))
    (wlog (WClose fd) ;; set_wk (fun k => k <| nw_eapd := NAS_WKSP_UNK_FILE_DESC |>)).

(** ** One server's keys: nas_init_nas *)

(** Pairs of hexadecimal digits; [n] pairs are left.  The bytes written, and whether all
    of them were digits. *)
Fixpoint psk_hex (n : nat) (num : list Z) : list Z * bool :=
  match n, num with
  | S n, a :: b :: num =>
      match xdigit a, xdigit b with
      | Some x, Some y => let '(data, ok) := psk_hex n num in ((16 * x + y) :: data, ok)
      | _, _ => ([], false)
      end
  | _, _ => ([], true)
  end.

(** The digits of a key that is a number. *)
Definition psk_num (key : list Z) : option (list Z) :=
  if Nat.eqb (length key) NAS_WKSP_PSK_LEN then Some key
  else if Nat.eqb (length key) (NAS_WKSP_PSK_LEN + 2) &&
          (bool_decide (take 2 key = str "0x") || bool_decide (take 2 key = str "0X")) then Some (drop 2 key)
  else None.

(** False when nas_init_nas returns. *)
Definition init_psk (i : nat) : W bool :=
  c ← cb i (fun c => c);
  let key := cb_psk c in
  let set_pmk data len :=
    (set_cb_wpa i (fun w => w <| wp_pmk := overwrite (wp_pmk w) data (length data) |> <| wp_pmk_len := len |>) ;;
     set_cb i (fun c => c <| cb_key_length := len |>)) in
  match psk_num key with
  | Some num =>
      let '(data, ok) := psk_hex (NAS_WKSP_PSK_LEN / 2) num in
      when (negb ok) (set_error i) ;;
      set_pmk data (Z.of_nat (NAS_WKSP_PSK_LEN / 2)) ;; mret true
  | None =>
      if (length key <? NAS_WKSP_PASSPHRASE_MIN)%nat || (NAS_WKSP_PASSPHRASE_MAX <? length key)%nat then
        set_error i ;; mret false
      else
        match passhash key (length key) (na_ssid (cb_nas c)) with
        | None => set_error i ;; mret false
        | Some output => set_pmk (take PMK_LEN output) (Z.of_nat PMK_LEN) ;; mret true
        end
  end.

(** Pairs of characters read as hexadecimal, two at a time to the end. *)
Fixpoint wep_hex (fuel : nat) (key : list Z) : list Z :=
  match fuel, key with
  | S fuel, a :: b :: key => wrap8 (strtoul16 [a; b]) :: wep_hex fuel key
  | _, _ => []
  end.

Definition wep_bytes (key : list Z) : list Z :=
  let n := Z.of_nat (length key) in
  if (n =? WEP1_KEY_SIZE) || (n =? WEP128_KEY_SIZE) then key
  else if (n =? WEP1_KEY_HEX_SIZE) || (n =? WEP128_KEY_HEX_SIZE) then wep_hex (length key) key else [].

Definition init_gtk (i : nat) : W bool :=
  c ← cb i (fun c => c);
  if negb (wp_gtk_rekey_secs (na_wpa (cb_nas c)) =? 0) then mret true
  else if has (na_wsec (cb_nas c)) WEP_ENABLED && negb (cb_index c =? 0) && negb (Nat.eqb (length (cb_wep c)) 0) then
    let wep := wep_bytes (cb_wep c) in
    if negb (Nat.eqb (length wep) 0) then
      set_cb_wpa i (fun w => w <| wp_gtk := overwrite (wp_gtk w) wep (length wep) |>
                               <| wp_gtk_index := cb_index c - 1 |> <| wp_gtk_len := Z.of_nat (length wep) |>) ;;
      set_cb_nas i (fun n => n <| na_flags ::= fun f => f <| f_gtk_plumbed := true |> |>) ;;
      mret true
    else set_error i ;; mret false
  else
    when (negb (cb_index c =? 0)) (set_cb_wpa i (fun w => w <| wp_gtk_index := cb_index c - 1 |>)) ;;
    mret true.

(** The key index and the rotation of an access point. *)
Definition valid_index (x : Z) : bool := (x =? GTK_INDEX_1 + 1) || (x =? GTK_INDEX_2 + 1).
Definition init_index (i : nat) : W unit :=
  c ← cb i (fun c => c);
  when (cf_auth (cb_flags c))
    (if CHECK_NAS (na_mode (cb_nas c)) && has (na_wsec (cb_nas c)) WEP_ENABLED then
       set_cb_wpa i (fun w => w <| wp_gtk_rekey_secs := 0 |>) ;;
       when (negb (valid_index (cb_index c))) (set_cb i (fun c => c <| cb_index := GTK_INDEX_1 + 1 |>))
     else when (negb (cb_index c =? 0) && negb (valid_index (cb_index c))) (set_cb i (fun c => c <| cb_index := GTK_INDEX_1 + 1 |>))).

Definition init_mode_keys (i : nat) : W unit :=
  c ← cb i (fun c => c);
  let mode := na_mode (cb_nas c) in
  when (CHECK_RADIUS mode) (set_cb_nas i (fun n => n <| na_secret := take NAS_WKSP_MAX_USER_KEY_LEN (cb_secret c) |>)) ;;
  when (CHECK_NAS mode) (in_nas i (fun E => initialize_global_key_counter (E := E) ;; initialize_gmk (E := E))).

(** The last part: capabilities, and the start unless something went wrong before. *)
Definition init_start (i : nat) : W unit :=
  c ← cb i (fun c => c);
  when (cf_auth (cb_flags c))
    (in_nas i (fun E => cap ← nas_get_wpacap (E := E);
       match cap : option (list Z) with Some cap => set_wpa (fun w => w <| wp_cap := cap |>) | None => mret tt end)) ;;
  when (negb (cf_error (cb_flags c))) (in_nas i (fun E => nas_start (E := E))).

Definition nas_init_nas (i : nat) : W unit :=
  c ← cb i (fun c => c);
  let mode := na_mode (cb_nas c) in
  let wsec := na_wsec (cb_nas c) in
  if negb (CHECK_AUTH mode) then set_error i
  else if (wsec =? 0) || negb (Z.land wsec (Z.lor AES_ENABLED (Z.lor TKIP_ENABLED WEP_ENABLED)) =? wsec) then set_error i
  else
    init_index i ;;
    set_cb_nas i (fun n => n <| na_type := NAS_PORT_TYPE_WIRELESS_IEEE80211 |>) ;;
    set_cb_wpa i (fun w => w <| wp_gtk_index := GTK_INDEX_1 |>) ;;
    when (has mode RADIUS) (set_cb_wpa i (fun w => w <| wp_gtk_len := WEP128_KEY_SIZE |>)) ;;
    go ← (if CHECK_PSK mode then init_psk i else mret true);
    when go
      (init_mode_keys i ;;
       go ← init_gtk i;
       when go (init_start i)).

(** ** A server on demand *)

Definition first_addr (l : list (Z * option (list Z))) : option (Z * option (list Z)) :=
  snd <$> list_find (fun a => fst a = AF_INET6 \/ fst a = AF_INET) l.

(** The address of the RADIUS server; nas exits when its name has none. *)
Definition radius_server (info : wsec_info_t) (srv : sockaddr_t) : W sockaddr_t :=
  match wi_radius_addr info with
  | None => mret srv
  | Some host =>
      r ← wcall_int (WGetaddrinfo host);
      if negb (r =? 0) then halt
      else
        res ← wreply we_addrs;
        match (res : list (Z * option (list Z))) with
        | [] => oob
        | (_, None) :: _ => halt
        | res =>
            srv ← (match first_addr res with
                   | Some (family, Some addr) => mret (Sockaddr family addr (sin_port srv))
                   | Some (_, None) => oob
                   | None => mret srv
                   end);
            mret (srv <| sin_port := wi_radius_port info |>)
        end
  end.

(** The mode and the ciphers: those of the driver for a supplicant. *)
Definition akm_wsec (info : wsec_info_t) (ifname : list Z) : W (Z * Z) :=
  if negb (wi_suppl info) then mret (wi_akm info, wi_wsec info)
  else
    r ← wcall_int (WIovarGetint ifname "wpa_auth");
    akm ← (if r =? 0 then wreply we_ivar else mret (wi_akm info));
    r ← wcall_int (WIovarGetint ifname "wsec");
    wsec ← (if r =? 0 then wreply we_ivar else mret (wi_wsec info));
    mret (wrap32 akm, Z.ldiff (wrap32 wsec) (Z.lor SES_OW_ENABLED MFP_CAPABLE)).

(** The server made from the settings. *)
Definition new_cb (info : wsec_info_t) (akm wsec : Z) (srv : sockaddr_t) : nas_wpa_cb_t :=
  let flags := Flags (wi_suppl info) (wi_auth info) (wi_wds info) false false in
  let key := take NAS_WKSP_MAX_USER_KEY_LEN in
  let nas := nas_zero <| na_ea := wi_ea info |> <| na_ssid := take DOT11_MAX_SSID_LEN (wi_ssid info) |>
    <| na_mode := akm |> <| na_wsec := wsec |> <| na_flags := flags |> <| na_remote := wi_remote info |>
    <| na_wpa ::= fun w => w <| wp_gtk_rekey_secs := wi_gtk_rekey_secs info |> |>
    <| na_ssn_to := wi_ssn_to info |> <| na_disable_preauth := wi_preauth info =? 0 |>
    <| na_nas_id := take MAX_NAS_ID_LEN (default [] (wi_nas_id info)) |> in
  Cb nas (take IFNAMSIZ (wi_osifname info)) (wi_mfp info) NAS_WKSP_UNK_FILE_DESC srv 0 (key (wi_psk info))
    (key (default [] (wi_secret info))) (key (default [] (wi_wep_key info))) (wi_wep_index info)
    (CbFlags (wi_suppl info) (wi_auth info) (wi_wds info) false) (wi_unit info).

Definition nas_get_wsec (mac : list Z) (osifname : option (list Z)) : W (option nat) :=
  wlog (WGetWsec mac osifname) ;;
  info ← wreply we_wsec;
  match (info : option wsec_info_t) with
  | None => mret None
  | Some info =>
      p ← wcall_int WMalloc;
      if p =? 0 then mret None
      else if (wi_akm info =? 0) || (wi_wsec info =? 0) then mret None
      else
        m ← akm_wsec info (take IFNAMSIZ (wi_osifname info));
        srv ← radius_server info (Sockaddr 0 [] (htons RADIUS_PORT));
        i ← wk (fun k => length (nw_nwcb k));
        set_wk (fun k => k <| nw_nwcb ::= fun l => l ++ [new_cb info (fst m) (snd m) srv] |>) ;;
        mret (Some i)
  end.

Definition nas_wksp_add_nwcb (mac : list Z) (osifname : option (list Z)) : W (option nat) :=
  n ← wk (fun k => length (nw_nwcb k));
  if negb (n <? NAS_WKSP_MAX_NUM_INTERFACES)%nat then mret None
  else
    r ← nas_get_wsec mac osifname;
    match (r : option nat) with
    | None => mret None
    | Some i =>
        open_if_radius i ;;
        nas_init_nas i ;;
        mret (Some i)
    end.

Definition nwcb_matches (mac : list Z) (osifname : option (list Z)) (c : nas_wpa_cb_t) : bool :=
  bool_decide (mac = na_ea (cb_nas c)) &&
  match osifname with
  | None => true
  | Some name => bool_decide (take 16 (cb_interface c) = take 16 name)
  end.

Definition find_nwcb (mac : list Z) (osifname : option (list Z)) (l : list nas_wpa_cb_t) : option nat :=
  fst <$> list_find (fun c => nwcb_matches mac osifname c = true) l.

Inductive nwcb_lookup_mode_t := NAS_WKSP_NWCB_SEARCH_ONLY | NAS_WKSP_NWCB_SEARCH_ENTER.
Definition NAS_WKSP_NWCB_AUTO : nwcb_lookup_mode_t := NAS_WKSP_NWCB_SEARCH_ENTER.

(** A search that only looks hands back the last server it looked at. *)
Definition nas_wksp_find_nwcb (mac : list Z) (osifname : option (list Z)) (mode : nwcb_lookup_mode_t) : W (option nat) :=
  l ← wk nw_nwcb;
  match find_nwcb mac osifname l with
  | Some i => mret (Some i)
  | None =>
      match mode with
      | NAS_WKSP_NWCB_SEARCH_ENTER => nas_wksp_add_nwcb mac osifname
      | NAS_WKSP_NWCB_SEARCH_ONLY => mret (match l with [] => None | _ => Some (length l - 1)%nat end)
      end
  end.

(** ** Messages from eapd *)

(** The length is compared as an unsigned 64-bit number. *)
Definition nas_validate_wlpvt_message (bytes : Z) (dpkt : list Z) : Z :=
  if bytes mod 2 ^ 64 <? sizeof_bcm_event_t + 2 then -1
  else if negb (get16 dpkt 14 =? BCMILCP_SUBTYPE_VENDOR_LONG) then -1
  else if negb (nth 18 dpkt 0 =? BCMILCP_BCM_SUBTYPEHDR_VERSION) then -1
  else if get16 dpkt 16 <? BCMILCP_BCM_SUBTYPEHDR_MINLENGTH then -1
  else if negb (bool_decide (field dpkt 19 3 = BRCM_OUI)) then -1
  else if get16 dpkt 22 =? BCMILCP_BCM_SUBTYPE_EVENT then 0 else -1.

(** The event as the server reads it from the bytes. *)
Definition event_parse (dpkt : list Z) : bcm_event_t :=
  BcmEvent (field dpkt 6 6) (get32 dpkt 28) (get16 dpkt 26) (field dpkt 48 6) (get32 dpkt 44) (drop 72 dpkt).

Definition nas_handle_wlpvt_messages (i : nat) (pkt : list Z) : W Z :=
  if get16 pkt 22 =? BCMILCP_BCM_SUBTYPE_EVENT then
    when (negb (get32 pkt 28 =? WLC_E_EAPOL_MSG))
      (in_nas i (fun E => driver_message_dispatch (E := E) (event_parse pkt))) ;;
    mret 0
  else mret (-1).

Definition nas_eapol_message_dispatch (i : nat) (eapol : list Z) (bytes : Z) : W unit :=
  flags ← cb i cb_flags;
  in_nas i (fun E => if cf_auth flags then eapol_dispatch (E := E) eapol bytes else eapol_sup_dispatch (E := E) eapol).

(** One message, [pkt] being the buffer with it; false when the round ends there. *)
Definition eapd_message (pkt : list Z) (bytes : Z) : W bool :=
  let eapol := drop IFNAMSIZ pkt in
  let bytes := bytes - Z.of_nat IFNAMSIZ in
  let type := get16 eapol 12 in
  let dhost := field eapol 0 6 in
  if type =? ETHER_TYPE_802_1X then
    nwcb ← nas_wksp_find_nwcb dhost (Some (c_string pkt)) NAS_WKSP_NWCB_AUTO;
    match (nwcb : option nat) with
    | None => mret false
    | Some i => nas_eapol_message_dispatch i eapol bytes ;; mret true
    end
  else if type =? ETHER_TYPE_802_1X_PREAUTH then
    nwcb ← nas_wksp_find_nwcb dhost None NAS_WKSP_NWCB_AUTO;
    match (nwcb : option nat) with
    | None => mret false
    | Some i => in_nas i (fun E => preauth_dispatch (E := E) eapol bytes) ;; mret true
    end
  else if type =? ETHER_TYPE_BRCM then
    if negb (nas_validate_wlpvt_message bytes eapol =? 0) then mret false
    else
      nwcb ← nas_wksp_find_nwcb dhost (Some (c_string (drop 54 eapol))) NAS_WKSP_NWCB_AUTO;
      match (nwcb : option nat) with
      | None => mret false
      | Some i => nas_handle_wlpvt_messages i eapol ;; mret true
      end
  else mret true.

(** recv into the packet buffer. *)
Definition recv_packet (fd : Z) : W Z :=
  wlog (WRecv fd) ;;
  d ← wreply we_data;
  match (d : option (list Z)) with
  | None => mret (-1)
  | Some d =>
      let n := length (take (Z.to_nat RADIUS_MAX_LEN) d) in
      set_wk (fun k => k <| nw_packet ::= fun p => overwrite p d n |>) ;;
      mret (Z.of_nat n)
  end.

(** ** A round of the main loop *)

Definition FD_SETSIZE : Z := 1024.
Definition FD_SET (fd : Z) : W unit :=
  within ((0 <=? fd) && (fd <? FD_SETSIZE)) ;;
  set_wk (fun k => k <| nw_fdset ::= cons fd |> <| nw_fdmax ::= Z.max fd |>).

Definition fill_fdset : W unit :=
  set_wk (fun k => k <| nw_fdset := [] |> <| nw_fdmax := -1 |>) ;;
  fd ← wk nw_eapd;
  when (negb (fd =? NAS_WKSP_UNK_FILE_DESC)) (FD_SET fd) ;;
  ids ← interfaces;
  for_each ids (fun i =>
    c ← cb i (fun c => c);
    when (negb (cf_error (cb_flags c)) && negb (cb_wan c =? NAS_WKSP_UNK_FILE_DESC)) (FD_SET (cb_wan c))).

Definition dispatch_eapd (ready : list Z) : W bool :=
  fd ← wk nw_eapd;
  if negb (fd =? NAS_WKSP_UNK_FILE_DESC) && bool_decide (fd ∈ ready) then
    bytes ← recv_packet fd;
    if 0 <? bytes then pkt ← wk nw_packet; eapd_message pkt bytes else mret true
  else mret true.

Definition dispatch_radius (ready : list Z) (i : nat) : W unit :=
  wan ← cb i cb_wan;
  when (negb (wan =? NAS_WKSP_UNK_FILE_DESC) && bool_decide (wan ∈ ready))
    (bytes ← recv_packet wan;
     if bytes <=? 0 then nas_radius_open i ;; mret tt
     else pkt ← wk nw_packet; in_nas i (fun E => radius_dispatch (E := E) pkt)).

(** The timers that run out while select waits. *)
Definition run_timers (l : list (nat * timer_handler_t)) : W unit :=
  for_each l (fun t =>
    n ← wk (fun k => length (nw_nwcb k));
    when (fst t <? n)%nat (in_nas (fst t) (fun E => run_timer (E := E) (snd t)))).

Definition nas_wksp_dispatch_packet : W unit :=
  fill_fdset ;;
  fdmax ← wk nw_fdmax;
  if fdmax =? -1 then set_wk (fun k => k <| nw_flags := NAS_WKSP_FLAG_SHUTDOWN |>)
  else
    fds ← wk nw_fdset;
    wlog (WTimerEnable true) ;;
    status ← wcall_int (WSelect fds);
    ready ← wreply (fun l => List.filter (fun fd => bool_decide (fd ∈ fds)) (we_ready l));
    timers ← wreply we_timers;
    run_timers timers ;;
    wlog (WTimerEnable false) ;;
    when (0 <? status)
      (go ← dispatch_eapd ready;
       when go (ids ← interfaces; for_each ids (dispatch_radius ready))).

(** ** The process *)

Definition nas_wksp_init_nas : W unit := ids ← interfaces; for_each ids nas_init_nas.

Definition nas_wksp_init : W Z :=
  wcall_int WTimerInit ;;
  nas_wksp_open_eapd ;;
  nas_wksp_open_radius ;;
  nas_wksp_init_nas ;;
  mret 0.

Definition wpa_reset_countermeasures (i : nat) : W unit :=
  in_nas i (fun E => td ← wpa wp_countermeasures_timer; when (negb (td =? 0)) (wpa_countermeasures_cb (E := E))).

Definition nas_wksp_cleanup : W unit :=
  ids ← interfaces;
  for_each ids wpa_reset_countermeasures ;;
  nas_wksp_close_radius ;;
  wlog WTimerCleanup ;;
  nas_wksp_close_eapd.

(** nas_wksp_main_loop up to the loop; false when the program gives up. *)
Definition nas_process_start : W bool :=
  ret ← nas_wksp_init;
  if negb (ret =? 0) then mret false
  else
    r ← wcall_int WDaemon;
    if r =? -1 then nas_wksp_cleanup ;; mret false else mret true.

Definition wshutting (k : nas_wksp_t) : bool := has (nw_flags k) NAS_WKSP_FLAG_SHUTDOWN.

(** One pass through the loop when it is not shutting down. *)
Definition main_round : W unit :=
  flags ← wk nw_flags;
  when (has flags NAS_WKSP_FLAG_REKEY)
    (ids ← interfaces;
     for_each ids (fun i => in_nas i (fun E => nas_force_rekey (E := E))) ;;
     set_wk (fun k => k <| nw_flags := Z.ldiff (nw_flags k) NAS_WKSP_FLAG_REKEY |>)) ;;
  nas_wksp_dispatch_packet.

(** SIGTERM and SIGUSR1. *)
Inductive wsignal := SIGTERM | SIGUSR1.
Definition hup_hdlr (k : nas_wksp_t) : nas_wksp_t := k <| nw_flags := NAS_WKSP_FLAG_SHUTDOWN |>.
Definition rekey_hdlr (k : nas_wksp_t) : nas_wksp_t := k <| nw_flags := NAS_WKSP_FLAG_REKEY |>.
Definition handle_signal (s : wsignal) : nas_wksp_t -> nas_wksp_t :=
  match s with SIGTERM => hup_hdlr | SIGUSR1 => rekey_hdlr end.

(** A pass through the loop, or a signal between two passes. *)
Inductive nas_step : wworld -> wworld -> Prop :=
| nas_step_round w w' : wshutting (ww w) = false -> main_round w = Ret tt w' -> nas_step w w'
| nas_step_signal s w : nas_step w (WWorld (handle_signal s (ww w)) (ww_log w)).

(** The states of the main loop. *)
Definition nas_runs (w : wworld) : Prop :=
  exists w0, nas_process_start (WWorld nas_wksp_alloc_workspace []) = Ret true w0 /\ rtc nas_step w0 w.

End Wksp.
