(* ===== verification/NasProcess.v ===== *)
(** What the process of the network access server keeps and does: the invariant of its
    main loop, the keys it reads from its configuration, which server a message from eapd
    reaches. *)
From stdpp Require Import base option list numbers strings relations gmultiset.
From Stdlib Require Import ZArith Lia.
From S2P Require Import Prelude Prf Monad NasState NasSta WpaIe WpaKey NasRel NasPae WpaAuth WpaSafety WpaSup NasDispatch NasRadius NasSystem Chanspec NasWksp.
Local Open Scope Z_scope.

#[export] Typeclasses Opaque wlog wk set_wk cb set_cb set_cb_nas set_cb_wpa set_error wreply wcall_int in_nas radius_failed radius_connect
  nas_radius_open nas_radius_close open_if_radius interfaces nas_wksp_open_radius nas_wksp_close_radius nas_wksp_open_eapd nas_wksp_close_eapd
  init_psk init_gtk init_index init_mode_keys init_start nas_init_nas radius_server akm_wsec nas_get_wsec nas_wksp_add_nwcb
  nas_wksp_find_nwcb nas_handle_wlpvt_messages nas_eapol_message_dispatch eapd_message recv_packet FD_SET fill_fdset dispatch_eapd
  dispatch_radius run_timers nas_wksp_dispatch_packet nas_wksp_init_nas wpa_reset_countermeasures main_round.

(** ** What a handler of one server leaves alone *)

Definition keeps_id (w w' : world) : Prop := na_ea (w_nas w') = na_ea (w_nas w) /\ na_mode (w_nas w') = na_mode (w_nas w).

#[export] Instance keeps_id_pre : PreOrder keeps_id.
Proof. split; [by intros w|]. intros w1 w2 w3 [??] [??]. split; congruence. Qed.

#[export] Instance keeps_id_step : StepRel keeps_id.
Proof. split; [exact _|done|]. by intros f w (_ & _ & ? & ? & _). Qed.

#[export] Instance keeps_id_upd : UpdRel keeps_id.
Proof. split; [exact _|done..]. Qed.
#[export] Instance keeps_id_auth : AuthRel keeps_id.
Proof. done. Qed.
#[export] Instance keeps_id_key : KeyRel keeps_id.
Proof. done. Qed.

Section Ids.
Context `{E : Env}.

Lemma id_set_nas f : (forall n, na_ea (f n) = na_ea n /\ na_mode (f n) = na_mode n) -> Rel keeps_id (set_nas f).
Proof. intros Hf w. apply wp_set_nas. apply Hf. Qed.
Lemma id_set_sta i f : Rel keeps_id (set_sta i f).
Proof. by apply id_set_nas. Qed.
End Ids.
#[export] Hint Extern 3 (Rel keeps_id (set_nas _)) => apply id_set_nas; done : typeclass_instances.
#[export] Hint Extern 3 (Rel keeps_id (set_hashed _ _)) => apply id_set_nas; done : typeclass_instances.
#[export] Hint Extern 3 (Rel keeps_id (set_sta _ _)) => apply id_set_sta : typeclass_instances.

#[export] Instance keeps_id_sta `{E : Env} : StaRel keeps_id.
Proof.
  assert (Ht : forall i r d, Rel keeps_id (toss_sta i r d)) by (intros; unfold toss_sta; rel_auto).
  split; [exact _|intros; unfold cleanup_sta; rel_auto|intros; unfold lookup_sta, init_sta; rel_auto].
Qed.

(** Start-up makes a fresh table. *)
Lemma id_start `{E : Env} : Rel keeps_id nas_start.
Proof. unfold nas_start. rel_auto. Qed.

(** ** Relations between the states of the process *)

(** A server but for what handlers may change. *)
Definition same_server (c c' : nas_wpa_cb_t) : Prop :=
  cb_interface c' = cb_interface c /\ cb_wan c' = cb_wan c /\ na_ea (cb_nas c') = na_ea (cb_nas c) /\
  na_mode (cb_nas c') = na_mode (cb_nas c) /\ (table_ok (cb_nas c) -> table_ok (cb_nas c')).

#[export] Instance same_server_pre : PreOrder same_server.
Proof.
  split; [by intros c|]. intros c1 c2 c3 (?&?&?&?&?) (?&?&?&?&?). unfold same_server. split_and!; [congruence..|tauto].
Qed.

(** Calls that neither open nor close a descriptor. *)
Definition quiet (c : wcall) : Prop := match c with WSocket _ | WClose _ => False | _ => True end.

(** The workspace but for its buffers and flags, and one server changed as handlers do. *)
Definition same_wksp (k k' : nas_wksp_t) : Prop :=
  nw_eapd k' = nw_eapd k /\ nw_nwcb k' = nw_nwcb k /\
  (length (nw_packet k) = Z.to_nat RADIUS_MAX_LEN -> length (nw_packet k') = Z.to_nat RADIUS_MAX_LEN).

Class WRel (R : relation wworld) : Prop := {
  wr_pre :: PreOrder R;
  wr_log : forall e w, match e with WCall c => quiet c | WNas _ _ => True end -> R w (WWorld (ww w) (e :: ww_log w));
  wr_wk : forall k w, same_wksp (ww w) k -> R w (WWorld k (ww_log w));
  wr_cb : forall i f w, (forall c, (nw_nwcb (ww w)) !! i = Some c -> same_server c (f c)) -> R w (WWorld (upd_cb (ww w) i f) (ww_log w))
}.

#[export] Hint Extern 1 (same_wksp _ _) => split_and!; [done..|tauto] : core.
#[export] Hint Extern 1 (same_server _ _) => split_and!; [done..|tauto] : core.

Section WRels.
Context `{E : WEnv} (R : relation wworld) `{HR : !WRel R}.

#[export] Instance wr_get_wk {A} (f : nas_wksp_t -> A) : Rel R (wk f).
Proof. apply rel_get, _. Qed.
#[export] Instance wr_get_cb {A} i (f : nas_wpa_cb_t -> A) : Rel R (cb i f).
Proof. apply rel_get, _. Qed.
#[export] Instance wr_reply {A} (f : list wevent -> A) : Rel R (wreply f).
Proof. apply rel_get, _. Qed.
#[export] Instance wr_interfaces : Rel R interfaces.
Proof. apply rel_get, _. Qed.

Lemma wr_wlog c : quiet c -> Rel R (wlog c).
Proof. intros Hc w. apply wp_modify. by apply (wr_log (WCall c)). Qed.
Lemma wr_wcall c : quiet c -> Rel R (wcall_int c).
Proof. intros Hc. unfold wcall_int. apply rel_bind; [exact _|by apply wr_wlog|intros; exact _]. Qed.
Lemma wr_set_wk f : (forall k, same_wksp k (f k)) -> Rel R (set_wk f).
Proof. intros Hf w. apply wp_modify. by apply wr_wk. Qed.
Lemma wr_set_cb i f : (forall c, same_server c (f c)) -> Rel R (set_cb i f).
Proof. intros Hf w. apply wp_modify. apply wr_cb. auto. Qed.
Lemma wr_set_cb_nas i f : (forall n, na_ea (f n) = na_ea n /\ na_mode (f n) = na_mode n /\ (table_ok n -> table_ok (f n))) ->
  Rel R (set_cb_nas i f).
Proof. intros Hf. apply wr_set_cb. intros c. destruct (Hf (cb_nas c)) as (?&?&?). by split_and!. Qed.
Lemma wr_set_cb_frame i f : (forall n, same_frame n (f n)) -> Rel R (set_cb_nas i f).
Proof.
  intros Hf. apply wr_set_cb_nas. intros n. pose proof (Hf n) as (_&_&?&?&_). split_and!; [done..|].
  intros Ht. by rewrite (same_frame_table _ _ (Hf n)) in Ht.
Qed.
#[export] Instance wr_set_cb_wpa i f : Rel R (set_cb_wpa i f).
Proof. apply wr_set_cb_frame. auto. Qed.
#[export] Instance wr_set_error i : Rel R (set_error i).
Proof. by apply wr_set_cb. Qed.

(** A handler of one server. *)
Lemma wr_in_nas {A} i (h : forall E : Env, N A) : (forall E, Rel keeps_id (h E)) -> (forall E, Rel keeps_table (h E)) -> Rel R (in_nas i h).
Proof.
  intros H1 H2 w. unfold in_nas, wpx. set (E0 := we_nas _ _). set (w0 := World _ _). specialize (H1 E0 w0). specialize (H2 E0 w0).
  unfold wpx in H1, H2. destruct (h E0 w0) as [a w'| |]; [|done..]. destruct H1 as [Hea Hm].
  set (k := upd_cb _ _ _). transitivity (WWorld k (ww_log w)); [|by apply (wr_log (WNas i (w_log w')) (WWorld k (ww_log w)))].
  apply wr_cb. intros c Hc. assert (Hat : cb_at (ww w) i = c) by by apply nth_lookup_Some.
  subst w0. cbn [w_nas] in Hea, Hm, H2. rewrite Hat in Hea, Hm, H2. by split_and!.
Qed.

End WRels.

#[export] Hint Extern 2 (Rel _ (wlog _)) => apply wr_wlog; [exact _|exact I] : typeclass_instances.
#[export] Hint Extern 2 (Rel _ (wcall_int _)) => apply wr_wcall; [exact _|exact I] : typeclass_instances.
#[export] Hint Extern 2 (Rel _ (set_wk _)) => apply wr_set_wk; [exact _|by auto] : typeclass_instances.
#[export] Hint Extern 2 (Rel _ (set_cb_nas _ _)) => apply wr_set_cb_frame; [exact _|by auto] : typeclass_instances.
#[export] Hint Extern 2 (Rel _ (set_cb _ _)) => apply wr_set_cb; [exact _|by auto] : typeclass_instances.
#[export] Hint Extern 2 (Rel _ (in_nas _ _)) => apply wr_in_nas; [exact _|intros; rel_auto; fail|intros; rel_auto; fail] : typeclass_instances.

(** Relations that sockets to RADIUS servers and new servers keep as well. *)
Class ProcRel `{E : WEnv} (R : relation wworld) : Prop := {
  pr_wr :: WRel R;
  pr_open : forall i, Rel R (open_if_radius i);
  pr_radius : forall ready i, Rel R (dispatch_radius ready i);
  pr_find : forall mac osifname mode, Rel R (nas_wksp_find_nwcb mac osifname mode)
}.

Section Main.
Context `{E : WEnv} (R : relation wworld) `{HR : !WRel R}.

#[export] Instance wr_init_psk i : Rel R (init_psk i).
Proof. unfold init_psk. rel_auto. Qed.
#[export] Instance wr_init_gtk i : Rel R (init_gtk i).
Proof. unfold init_gtk. rel_auto. Qed.
#[export] Instance wr_init_index i : Rel R (init_index i).
Proof. unfold init_index. rel_auto. Qed.
#[export] Instance wr_init_mode_keys i : Rel R (init_mode_keys i).
Proof. unfold init_mode_keys. rel_auto. Qed.
#[export] Instance wr_init_start i : Rel R (init_start i).
Proof.
  unfold init_start. rel_auto. apply wr_in_nas; [exact _|intros; apply id_start|]. intros E0 w.
  eapply wp_mono; [apply nas_start_table|]. by intros ? w' Ht _.
Qed.
#[export] Instance wr_init_nas i : Rel R (nas_init_nas i).
Proof. unfold nas_init_nas. rel_auto. Qed.

#[export] Instance wr_handle_wlpvt i pkt : Rel R (nas_handle_wlpvt_messages i pkt).
Proof. unfold nas_handle_wlpvt_messages. rel_auto. Qed.
#[export] Instance wr_eapol_message i eapol bytes : Rel R (nas_eapol_message_dispatch i eapol bytes).
Proof. unfold nas_eapol_message_dispatch. rel_auto. Qed.
#[export] Instance wr_FD_SET fd : Rel R (FD_SET fd).
Proof. unfold FD_SET. rel_auto. Qed.
#[export] Instance wr_fill : Rel R fill_fdset.
Proof. unfold fill_fdset. rel_auto. Qed.
#[export] Instance wr_timers l : Rel R (run_timers l).
Proof. unfold run_timers. rel_auto. Qed.
#[export] Instance wr_reset i : Rel R (wpa_reset_countermeasures i).
Proof. unfold wpa_reset_countermeasures. rel_auto. Qed.
#[export] Instance wr_recv fd : Rel R (recv_packet fd).
Proof.
  unfold recv_packet. rel_auto. apply wr_set_wk; [exact _|]. intros k. split_and!; [done..|]. intros Hk.
  change (nw_packet (upd nw_packet ?f k)) with (f (nw_packet k)). unfold overwrite. rewrite length_app, length_take, length_drop, length_take, Hk. lia.
Qed.
#[export] Instance wr_init_all : Rel R nas_wksp_init_nas.
Proof. unfold nas_wksp_init_nas. rel_auto. Qed.
End Main.

Section Proc.
Context `{E : WEnv} (R : relation wworld) `{HR : !ProcRel R}.

#[export] Instance pr_message pkt bytes : Rel R (eapd_message pkt bytes).
Proof. pose proof pr_find. unfold eapd_message. rel_auto. Qed.
#[export] Instance pr_dispatch_eapd ready : Rel R (dispatch_eapd ready).
Proof. unfold dispatch_eapd. rel_auto. Qed.
#[export] Instance pr_dispatch : Rel R nas_wksp_dispatch_packet.
Proof. pose proof pr_radius. unfold nas_wksp_dispatch_packet. rel_auto. Qed.
#[export] Instance pr_round : Rel R main_round.
Proof. unfold main_round. rel_auto. Qed.
End Proc.

(** ** The invariant

    The descriptors the process opened and did not close, by its calls, are those its
    structures name. *)

Definition held_fd (fd : Z) : gmultiset Z := if fd =? NAS_WKSP_UNK_FILE_DESC then ∅ else {[+ fd +]}.
Fixpoint held_cbs (l : list nas_wpa_cb_t) : gmultiset Z :=
  match l with [] => ∅ | c :: l => held_fd (cb_wan c) ⊎ held_cbs l end.
Definition held (k : nas_wksp_t) : gmultiset Z := held_fd (nw_eapd k) ⊎ held_cbs (nw_nwcb k).

Section Inv.
Context `{E : WEnv}.

Fixpoint open_fds (log : list wevent) : gmultiset Z :=
  match log with
  | [] => ∅
  | ev :: l =>
      match ev with
      | WCall (WSocket _) => if we_int log <? 0 then open_fds l else {[+ we_int log +]} ⊎ open_fds l
      | WCall (WClose fd) => open_fds l ∖ {[+ fd +]}
      | _ => open_fds l
      end
  end.

(** Everything but the descriptors. *)
Record base_ok (k : nas_wksp_t) : Prop := BaseOk {
  bo_count : (length (nw_nwcb k) <= NAS_WKSP_MAX_NUM_INTERFACES)%nat;
  bo_packet : length (nw_packet k) = Z.to_nat RADIUS_MAX_LEN;
  bo_tables : Forall (fun c => table_ok (cb_nas c)) (nw_nwcb k);
  bo_wan : Forall (fun c => cb_wan c <> NAS_WKSP_UNK_FILE_DESC -> CHECK_RADIUS (na_mode (cb_nas c)) = true) (nw_nwcb k)
}.

Definition proc_ok (w : wworld) : Prop := base_ok (ww w) /\ open_fds (ww_log w) = held (ww w).

Definition stays (w w' : wworld) : Prop := proc_ok w -> proc_ok w'.

Lemma held_cbs_ext l l' : Forall2 (fun c c' => cb_wan c' = cb_wan c) l l' -> held_cbs l' = held_cbs l.
Proof. induction 1 as [|c c' l l' H _ IH]; [done|]. cbn. by rewrite H, IH. Qed.

Lemma open_fds_quiet e l : match e with WCall c => quiet c | WNas _ _ => True end -> open_fds (e :: l) = open_fds l.
Proof. destruct e as [[]|]; done. Qed.

Lemma base_same k k' : base_ok k -> same_wksp k k' -> base_ok k'.
Proof. intros [H1 H2 H3 H4] (_ & Hn & Hp). split; rewrite ?Hn; auto. Qed.

Lemma alter_Forall {A} (P : A -> Prop) (f : A -> A) i l : Forall P l -> (forall c, l !! i = Some c -> P c -> P (f c)) -> Forall P (alter f i l).
Proof. intros H Hf. apply Forall_alter; [done|]. intros c Hc Hp. auto. Qed.

Lemma base_cb k i f : base_ok k -> (forall c, nw_nwcb k !! i = Some c -> same_server c (f c)) -> base_ok (upd_cb k i f).
Proof.
  intros [H1 H2 H3 H4] Hf. change (nw_nwcb (upd_cb k i f)) with (alter f i (nw_nwcb k)). split; [|done|..].
  - change (length (alter f i (nw_nwcb k)) <= NAS_WKSP_MAX_NUM_INTERFACES)%nat. by rewrite length_alter.
  - apply alter_Forall; [done|]. intros c Hc. apply (Hf c Hc).
  - apply alter_Forall; [done|]. intros c Hc. destruct (Hf c Hc) as (_ & -> & _ & -> & _). done.
Qed.

Lemma held_upd_same k i f : (forall c, nw_nwcb k !! i = Some c -> same_server c (f c)) -> held (upd_cb k i f) = held k.
Proof.
  intros Hf. unfold held. change (nw_nwcb (upd_cb k i f)) with (alter f i (nw_nwcb k)). f_equal.
  apply held_cbs_ext. apply Forall2_same_length_lookup_2; [by rewrite length_alter|]. intros j c c' Hc Hc'.
  destruct (decide (i = j)) as [<-|Hne].
  - rewrite list_lookup_alter_eq, Hc in Hc'. injection Hc' as <-. by destruct (Hf c Hc) as (_ & -> & _).
  - rewrite list_lookup_alter_ne in Hc' by done. congruence.
Qed.

#[export] Instance stays_wr : WRel stays.
Proof.
  split.
  - split; unfold stays; [by intros w|]. intros w1 w2 w3. tauto.
  - intros e w He [H1 H2]. split; [done|]. cbn [ww ww_log]. by rewrite open_fds_quiet.
  - intros k w Hk [H1 H2]. split; [by eapply base_same|]. cbn [ww ww_log]. rewrite H2. destruct Hk as (He & Hn & _).
    unfold held. by rewrite He, Hn.
  - intros i f w Hf [H1 H2]. split; [by apply base_cb|]. cbn [ww ww_log]. by rewrite held_upd_same.
Qed.

(** Server [i] owns the descriptors [d], whatever it names. *)
Definition rest (k : nas_wksp_t) (i : nat) : gmultiset Z := held_fd (nw_eapd k) ⊎ held_cbs (delete i (nw_nwcb k)).
Definition owns (i : nat) (d : gmultiset Z) (w : wworld) : Prop :=
  (i < length (nw_nwcb (ww w)))%nat /\ CHECK_RADIUS (na_mode (cb_nas (cb_at (ww w) i))) = true /\
  base_ok (ww w) /\ open_fds (ww_log w) = rest (ww w) i ⊎ d.

Lemma held_rest k i : (i < length (nw_nwcb k))%nat -> held k = rest k i ⊎ held_fd (cb_wan (cb_at k i)).
Proof.
  intros Hi. unfold held, rest, cb_at. generalize (held_fd (nw_eapd k)). intros X. revert i Hi.
  induction (nw_nwcb k) as [|c l IH]; intros i Hi; [cbn in Hi; lia|]. destruct i as [|i]; cbn; [multiset_solver|].
  assert (Hl : X ⊎ held_cbs l = X ⊎ held_cbs (delete i l) ⊎ held_fd (cb_wan (nth i l cb_none))) by (apply IH; cbn in Hi; lia).
  change (X ⊎ (held_fd (cb_wan c) ⊎ held_cbs l) = X ⊎ (held_fd (cb_wan c) ⊎ held_cbs (delete i l)) ⊎ held_fd (cb_wan (nth i l cb_none))).
  rewrite (gmultiset_disj_union_comm (held_fd (cb_wan c))), gmultiset_disj_union_assoc, Hl. multiset_solver.
Qed.

Lemma proc_owns i w : proc_ok w -> (i < length (nw_nwcb (ww w)))%nat -> CHECK_RADIUS (na_mode (cb_nas (cb_at (ww w) i))) = true ->
  owns i (held_fd (cb_wan (cb_at (ww w) i))) w.
Proof. intros [H1 H2] Hi Hm. split_and!; [done..|]. by rewrite H2, <- held_rest. Qed.

Lemma owns_proc i w : owns i (held_fd (cb_wan (cb_at (ww w) i))) w -> proc_ok w.
Proof. intros (Hi & _ & H1 & H2). split; [done|]. by rewrite H2, <- held_rest. Qed.
End Inv.

Section Sockets.
Context `{E : WEnv}.

Lemma at_set i f k : (i < length (nw_nwcb k))%nat -> cb_at (upd_cb k i f) i = f (cb_at k i).
Proof.
  intros Hi. unfold cb_at. change (nw_nwcb (upd_cb k i f)) with (alter f i (nw_nwcb k)).
  destruct (lookup_lt_is_Some_2 _ _ Hi) as [c Hc]. by rewrite !nth_lookup, list_lookup_alter_eq, Hc.
Qed.

Lemma delete_alter_eq {A} (f : A -> A) (l : list A) i : delete i (alter f i l) = delete i l.
Proof. revert i. induction l as [|x l IH]; intros [|i]; cbn; [done..|by f_equal]. Qed.

(** What happens to the descriptors of server [i]. *)
Lemma owns_quiet i d c w : quiet c -> owns i d w -> owns i d (WWorld (ww w) (WCall c :: ww_log w)).
Proof. intros Hc (H1 & H2 & H3 & H4). split_and!; [done..|]. cbn [ww_log]. by rewrite (open_fds_quiet (WCall c)). Qed.

Lemma owns_close i fd w : owns i {[+ fd +]} w -> owns i ∅ (WWorld (ww w) (WCall (WClose fd) :: ww_log w)).
Proof. intros (H1 & H2 & H3 & H4). split_and!; [done..|]. cbn [ww_log open_fds ww]. rewrite H4. multiset_solver. Qed.

Lemma owns_set i d f w : (forall c, cb_interface (f c) = cb_interface c /\ na_mode (cb_nas (f c)) = na_mode (cb_nas c) /\
    (table_ok (cb_nas c) -> table_ok (cb_nas (f c)))) -> owns i d w -> owns i d (WWorld (upd_cb (ww w) i f) (ww_log w)).
Proof.
  intros Hf (H1 & H2 & [B1 B2 B3 B4] & H4). unfold owns. cbn [ww ww_log].
  pose proof (at_set i f (ww w) H1) as Hat.
  change (nw_nwcb (upd_cb (ww w) i f)) with (alter f i (nw_nwcb (ww w))). rewrite length_alter, Hat. destruct (Hf (cb_at (ww w) i)) as (_ & Hm & _).
  split_and!; [done|by rewrite Hm| |].
  - split; [|done|..]; change (nw_nwcb (upd_cb (ww w) i f)) with (alter f i (nw_nwcb (ww w))).
    + by rewrite length_alter.
    + apply alter_Forall; [done|]. intros c _. apply Hf.
    + apply alter_Forall; [done|]. intros c Hc _ _. destruct (Hf c) as (_ & -> & _).
      revert H2. unfold cb_at. by rewrite nth_lookup, Hc.
  - rewrite H4. f_equal. unfold rest. f_equal. change (nw_nwcb (upd_cb (ww w) i f)) with (alter f i (nw_nwcb (ww w))).
    by rewrite delete_alter_eq.
Qed.


Implicit Types w : wworld.
Lemma wp_wwk {A} P (f : nas_wksp_t -> A) Q w : Q (f (ww w)) w -> wpx P (wk f) Q w.
Proof. done. Qed.
Lemma wp_cb {A} P i (f : nas_wpa_cb_t -> A) Q w : Q (f (cb_at (ww w) i)) w -> wpx P (cb i f) Q w.
Proof. done. Qed.
Lemma wp_wreply {A} P (f : list wevent -> A) Q w : Q (f (ww_log w)) w -> wpx P (wreply f) Q w.
Proof. done. Qed.
Lemma wp_wlog P c Q w : Q tt (WWorld (ww w) (WCall c :: ww_log w)) -> wpx P (wlog c) Q w.
Proof. done. Qed.
Lemma wp_wcall P c Q w : (forall r, r = we_int (WCall c :: ww_log w) -> Q r (WWorld (ww w) (WCall c :: ww_log w))) -> wpx P (wcall_int c) Q w.
Proof. intros H. by apply (H _ eq_refl). Qed.
Lemma wp_set_wwk P f Q w : Q tt (WWorld (f (ww w)) (ww_log w)) -> wpx P (set_wk f) Q w.
Proof. done. Qed.
Lemma wp_set_cb P i f Q w : Q tt (WWorld (upd_cb (ww w) i f) (ww_log w)) -> wpx P (set_cb i f) Q w.
Proof. done. Qed.

Lemma rel_inv {A} (R : relation wworld) (m : W A) Q w : Rel R m -> (forall a w', R w w' -> Q a w') -> wp m Q w.
Proof. intros Hm HQ. eapply wp_mono; [apply Hm|]. auto. Qed.

Lemma radius_failed_ok i w : owns i ∅ w -> wp (radius_failed i) (fun _ w' => proc_ok w') w.
Proof.
  intros H. unfold radius_failed. apply wp_bind, wp_set_cb. set (f := fun c : nas_wpa_cb_t => _). set (w1 := WWorld _ _).
  assert (H1 : owns i ∅ w1) by (by apply (owns_set i ∅ f)).
  assert (Hw : cb_wan (cb_at (ww w1) i) = NAS_WKSP_UNK_FILE_DESC) by (subst w1; cbn [ww]; rewrite at_set by apply H; done).
  apply (rel_inv stays); [exact _|]. intros _ w' Hs. apply Hs, (owns_proc i). by rewrite Hw.
Qed.

Lemma radius_connect_ok n : forall i fd w, 0 <= fd -> owns i {[+ fd +]} w -> cb_wan (cb_at (ww w) i) = fd ->
  wp (radius_connect n i) (fun _ w' => proc_ok w') w.
Proof.
  induction n as [|n IH]; intros i fd w Hfd H Hw; cbn [radius_connect]; apply wp_bind, wp_cb; rewrite Hw.
  - apply wp_bind, wp_wlog. apply radius_failed_ok. by apply owns_close.
  - apply wp_bind, wp_cb, wp_bind, wp_wcall. intros r _. set (w1 := WWorld _ _).
    assert (H1 : owns i {[+ fd +]} w1) by by apply owns_quiet. apply wp_if; intros _.
    + apply wp_bind, wp_wlog. apply (IH i fd); [done|by apply owns_quiet|done].
    + apply wp_bind, wp_wcall. intros r2 _. set (w2 := WWorld _ _).
      assert (H2 : owns i {[+ fd +]} w2) by by apply owns_quiet. apply wp_if; intros _.
      * apply wp_bind, wp_wlog. apply radius_failed_ok. by apply owns_close.
      * apply wp_bind, wp_wreply, wp_bind. unfold set_cb_nas. apply wp_set_cb, wp_ret. set (f := fun c : nas_wpa_cb_t => _). set (w3 := WWorld _ _).
        assert (H3 : owns i {[+ fd +]} w3).
        { apply (owns_set i _ f); [|done]. intros c. split_and!; [done..|]. intros Ht.
          by rewrite (same_frame_table (cb_nas c) (cb_nas (f c)) ltac:(auto)) in Ht. }
        apply (owns_proc i). subst w3. cbn [ww]. rewrite at_set by apply H2.
        change (cb_wan (f (cb_at (ww w2) i))) with (cb_wan (cb_at (ww w) i)). rewrite Hw. unfold held_fd, NAS_WKSP_UNK_FILE_DESC.
        by destruct (Z.eqb_spec fd (-1)); [lia|].
Qed.

(** The close that nas_radius_open and nas_radius_close begin with. *)
Lemma radius_close_owns i w : proc_ok w -> (i < length (nw_nwcb (ww w)))%nat -> CHECK_RADIUS (na_mode (cb_nas (cb_at (ww w) i))) = true ->
  wp (nas_radius_close i) (fun _ w' => owns i ∅ w' /\ cb_wan (cb_at (ww w') i) = NAS_WKSP_UNK_FILE_DESC) w.
Proof.
  intros H Hi Hm. unfold nas_radius_close. apply wp_bind, wp_cb. pose proof (proc_owns i w H Hi Hm) as Ho. unfold held_fd in Ho.
  destruct (Z.eqb_spec (cb_wan (cb_at (ww w) i)) NAS_WKSP_UNK_FILE_DESC) as [Hw|Hw]; cbn [negb when]; [by apply wp_ret|].
  apply wp_bind, wp_wlog, wp_set_cb. split; [|cbn [ww]; by rewrite at_set].
  apply (owns_set i ∅ (fun c : nas_wpa_cb_t => c <| cb_wan := NAS_WKSP_UNK_FILE_DESC |>) (WWorld (ww w) (WCall (WClose (cb_wan (cb_at (ww w) i))) :: ww_log w))).
  - done.
  - by apply owns_close.
Qed.

Lemma radius_open_ok i w : proc_ok w -> (i < length (nw_nwcb (ww w)))%nat -> CHECK_RADIUS (na_mode (cb_nas (cb_at (ww w) i))) = true ->
  wp (nas_radius_open i) (fun _ w' => proc_ok w') w.
Proof.
  intros H Hi Hm. change (nas_radius_open i) with (fd ← cb i cb_wan;
    when (negb (fd =? NAS_WKSP_UNK_FILE_DESC)) (wlog (WClose fd) ;; set_cb i (fun c => c <| cb_wan := NAS_WKSP_UNK_FILE_DESC |>)) ;;
    (srv ← cb i cb_server; fd ← wcall_int (WSocket (sin_family srv)); set_cb i (fun c => c <| cb_wan := fd |>) ;;
     if fd <? 0 then radius_failed i else radius_connect NAS_WKSP_RADIUS_TRIES i)).
  pose proof (radius_close_owns i w H Hi Hm) as Hc. unfold nas_radius_close in Hc. apply wp_bind_inv in Hc.
  apply wp_bind. eapply wp_mono; [exact Hc|]. cbv beta. intros fd0 w0 H0. apply wp_bind. eapply wp_mono; [exact H0|]. cbv beta.
  clear. intros _ w [Ho Hw]. apply wp_bind, wp_cb, wp_bind, wp_wcall. intros fd Hfd. set (w1 := WWorld _ _).
  apply wp_bind, wp_set_cb. set (f := fun c : nas_wpa_cb_t => _). set (w2 := WWorld _ _).
  assert (H1 : owns i (if fd <? 0 then ∅ else {[+ fd +]}) w1).
  { destruct Ho as (A & B & C & D). split_and!; [done..|]. cbn [ww_log open_fds ww w1]. rewrite <- Hfd.
    destruct (fd <? 0); [done|]. rewrite D. multiset_solver. }
  assert (H2 : owns i (if fd <? 0 then ∅ else {[+ fd +]}) w2) by (by apply (owns_set i _ f)).
  apply wp_if; intros Hn; rewrite Hn in H2; [by apply radius_failed_ok|]. apply Z.ltb_ge in Hn.
  apply (radius_connect_ok _ i fd); [done|done|]. subst w2. cbn [ww]. rewrite at_set by apply H1. done.
Qed.

Lemma stays_open i : Rel stays (open_if_radius i).
Proof.
  intros w. unfold stays. apply wp_bind, wp_cb. apply wp_when; [|done]. intros Hm.
  destruct (decide (i < length (nw_nwcb (ww w)))%nat) as [Hi|Hi].
  - apply wp_bind. pose proof (fun H => radius_open_ok i w H Hi Hm) as Ho. unfold wpx in *. destruct (nas_radius_open i w); [|done..]. auto.
  - exfalso. revert Hm. unfold cb_at. rewrite nth_overflow by lia. done.
Qed.


Lemma recv_packet_cbs fd w : twp (recv_packet fd) (fun _ w' => nw_nwcb (ww w') = nw_nwcb (ww w)) w.
Proof. unfold recv_packet. apply wp_bind, wp_wlog, wp_bind, wp_wreply. destruct (we_data _); [|by apply wp_ret]. by apply wp_bind, wp_set_wwk, wp_ret. Qed.

Lemma stays_radius ready i : Rel stays (dispatch_radius ready i).
Proof.
  intros w. unfold dispatch_radius. apply wp_bind, wp_cb, wp_when; [|by intros ? H].
  intros [Hw%negb_true_iff%Z.eqb_neq _]%andb_true_iff. apply wp_bind.
  pose proof (twp_wp (P := True) _ _ _ (recv_packet_cbs (cb_wan (cb_at (ww w) i)) w)) as Hr.
  pose proof (rel (R := stays) (m := recv_packet (cb_wan (cb_at (ww w) i))) w) as Hs.
  eapply wp_mono; [exact (wp_conj _ _ _ _ Hr Hs)|]. cbv beta. intros bytes w1 [H1 H2]. apply wp_if; intros _.
  - apply wp_bind. destruct (decide (i < length (nw_nwcb (ww w)))%nat) as [Hi|Hi].
    + unfold stays. eapply wp_mono with (Q1 := fun _ w' => proc_ok w -> proc_ok w'); [|by intros ? w' H; apply wp_ret].
      destruct (lookup_lt_is_Some_2 _ _ Hi) as [c Hc].
      pose proof (fun H => radius_open_ok i w1 (H2 H)) as Ho. unfold cb_at in Ho. rewrite H1, nth_lookup, Hc in Ho. cbn [default] in Ho.
      revert Hw. unfold cb_at. rewrite nth_lookup, Hc. cbn [default]. intros Hw.
      assert (Hm : proc_ok w -> CHECK_RADIUS (na_mode (cb_nas c)) = true).
      { intros [[_ _ _ B4] _]. rewrite Forall_lookup in B4. by apply (B4 i c Hc). }
      unfold wpx in *. destruct (nas_radius_open i w1); [|done..]. auto.
    + exfalso. apply Hw. unfold cb_at. by rewrite nth_overflow by lia.
  - apply wp_bind, wp_wwk. assert (Hn : Rel stays (in_nas i (fun E0 => radius_dispatch (E := E0) (nw_packet (ww w1))))) by exact _.
    eapply wp_mono; [apply Hn|]. intros ? w2 H3 H. auto.
Qed.
End Sockets.

(** ** A new server *)

Section Add.
Context `{E : WEnv}.

(** Questions only. *)
Definition asked (w w' : wworld) : Prop := ww w' = ww w /\ open_fds (ww_log w') = open_fds (ww_log w).
#[export] Instance asked_pre : PreOrder asked.
Proof. split; [by intros w|]. intros w1 w2 w3 [??] [??]. split; congruence. Qed.
Lemma asked_wlog c : quiet c -> Rel asked (wlog c).
Proof. intros Hc w. apply wp_modify. split; [done|]. by apply (open_fds_quiet (WCall c)). Qed.
Lemma asked_wcall c : quiet c -> Rel asked (wcall_int c).
Proof. intros Hc. unfold wcall_int. apply rel_bind; [exact _|by apply asked_wlog|intros; apply rel_get; exact _]. Qed.
#[local] Hint Extern 2 (Rel asked (wcall_int _)) => apply asked_wcall; exact I : typeclass_instances.
#[local] Hint Extern 2 (Rel asked (wreply _)) => apply rel_get; exact _ : typeclass_instances.

#[export] Instance asked_akm info name : Rel asked (akm_wsec info name).
Proof. unfold akm_wsec. rel_auto. Qed.
#[export] Instance asked_server info srv : Rel asked (radius_server info srv).
Proof. unfold radius_server. rel_auto. Qed.

(** The settings nas_get_wsec is given, and what it does with them. *)
Definition asked_wsec (mac : list Z) (osifname : option (list Z)) (w : wworld) : option wsec_info_t :=
  we_wsec (WCall (WGetWsec mac osifname) :: ww_log w).
Definition add_cb (k : nas_wksp_t) (c : nas_wpa_cb_t) : nas_wksp_t := k <| nw_nwcb ::= fun l => l ++ [c] |>.

Lemma get_wsec_spec mac osifname w : wp (nas_get_wsec mac osifname) (fun r w' => open_fds (ww_log w') = open_fds (ww_log w) /\
  match r with
  | None => ww w' = ww w
  | Some i => i = length (nw_nwcb (ww w)) /\ exists info akm wsec srv, asked_wsec mac osifname w = Some info /\
      ww w' = add_cb (ww w) (new_cb info akm wsec srv)
  end) w.
Proof.
  unfold nas_get_wsec. apply wp_bind, wp_wlog, wp_bind, wp_wreply. cbn [ww_log]. fold (asked_wsec mac osifname w).
  destruct (asked_wsec mac osifname w) as [info|] eqn:Hinfo; [|by apply wp_ret].
  apply wp_bind, wp_wcall. intros p _. apply wp_if; intros _; [by apply wp_ret|]. apply wp_if; intros _; [by apply wp_ret|].
  set (w1 := WWorld _ _). apply wp_bind. eapply wp_mono; [apply (rel (R := asked))|]. cbv beta. intros m w2 [A2 B2].
  apply wp_bind. eapply wp_mono; [apply (rel (R := asked))|]. cbv beta. intros srv w3 [A3 B3].
  apply wp_bind, wp_wwk, wp_bind, wp_set_wwk, wp_ret. cbn [ww ww_log]. split; [by rewrite B3, B2|]. rewrite A3, A2.
  split; [done|]. by exists info, (fst m), (snd m), srv.
Qed.

Lemma new_cb_table info akm wsec srv : table_ok (cb_nas (new_cb info akm wsec srv)).
Proof. by apply (table_ok_same (table_reset nas_zero)); [..|apply table_reset_ok]. Qed.

Lemma held_add k c : cb_wan c = NAS_WKSP_UNK_FILE_DESC -> held (add_cb k c) = held k.
Proof.
  intros Hc. unfold held. change (nw_nwcb (add_cb k c)) with (nw_nwcb k ++ [c]). change (nw_eapd (add_cb k c)) with (nw_eapd k). f_equal.
  induction (nw_nwcb k) as [|c' l IH]; cbn; [|by rewrite IH]. unfold held_fd. rewrite Hc. cbn. multiset_solver.
Qed.

Lemma add_proc_ok info akm wsec srv w w' : (length (nw_nwcb (ww w)) < NAS_WKSP_MAX_NUM_INTERFACES)%nat -> proc_ok w ->
  open_fds (ww_log w') = open_fds (ww_log w) -> ww w' = add_cb (ww w) (new_cb info akm wsec srv) -> proc_ok w'.
Proof.
  intros Hn [[B1 B2 B3 B4] H] Hl Hk. unfold proc_ok. rewrite Hl, Hk, held_add by done. split; [|done].
  split; change (nw_nwcb (add_cb ?k ?c)) with (nw_nwcb k ++ [c]).
  - rewrite length_app. cbn. lia.
  - done.
  - apply Forall_app. split; [done|]. constructor; [apply new_cb_table|constructor].
  - apply Forall_app. split; [done|]. constructor; [done|constructor].
Qed.

Lemma stays_add mac osifname : Rel stays (nas_wksp_add_nwcb mac osifname).
Proof.
  intros w. unfold nas_wksp_add_nwcb. apply wp_bind, wp_wwk, wp_if; intros Hn; [by apply wp_ret; intros H|].
  apply negb_false_iff, Nat.ltb_lt in Hn. apply wp_bind. eapply wp_mono; [apply get_wsec_spec|]. cbv beta.
  intros [i|] w1 (Hl & H1).
  - destruct H1 as (-> & info & akm & wsec & srv & _ & Hk). pose proof (stays_open (length (nw_nwcb (ww w)))) as Ho.
    assert (Hr : Rel stays (open_if_radius (length (nw_nwcb (ww w))) ;; nas_init_nas (length (nw_nwcb (ww w))) ;; mret (Some (length (nw_nwcb (ww w))))))
      by rel_auto.
    eapply wp_mono; [apply Hr|]. intros ? w2 H2 H. by apply H2, (add_proc_ok info akm wsec srv w w1).
  - apply wp_ret. intros [H2 H3]. split; [by rewrite H1|by rewrite Hl, H1].
Qed.

#[export] Instance stays_proc : ProcRel stays.
Proof. pose proof stays_add. split; [exact _|apply stays_open|apply stays_radius|intros; unfold nas_wksp_find_nwcb; rel_auto]. Qed.
End Add.

(** ** Start, run and end *)

Section Run.
Context `{E : WEnv}.

Lemma open_eapd_ok w : nw_nwcb (ww w) = [] -> length (nw_packet (ww w)) = Z.to_nat RADIUS_MAX_LEN -> open_fds (ww_log w) = ∅ ->
  wp nas_wksp_open_eapd (fun _ w' => proc_ok w') w.
Proof.
  intros Hn Hp Hl. assert (Hb : forall k, nw_nwcb k = [] -> length (nw_packet k) = Z.to_nat RADIUS_MAX_LEN -> base_ok k).
  { intros k H1 H2. split; rewrite ?H1; [cbn; lia|done|constructor..]. }
  assert (Hh : forall k, nw_nwcb k = [] -> held k = held_fd (nw_eapd k)) by (intros k H1; unfold held; rewrite H1; cbn; multiset_solver).
  assert (Hf : forall w1, nw_nwcb (ww w1) = [] -> length (nw_packet (ww w1)) = Z.to_nat RADIUS_MAX_LEN -> open_fds (ww_log w1) = ∅ ->
    wp (set_wk (fun k => k <| nw_eapd := NAS_WKSP_UNK_FILE_DESC |>) ;; wcall_int WErrno) (fun _ w' => proc_ok w') w1).
  { intros w1 A B C. apply wp_bind, wp_set_wwk, wp_wcall. intros ? _. split; [by apply Hb|]. cbn [ww ww_log]. by rewrite open_fds_quiet, Hh. }
  unfold nas_wksp_open_eapd. apply wp_bind, wp_wcall. intros fd Hfd. apply wp_bind, wp_set_wwk. cbn [ww ww_log].
  set (k := upd nw_eapd _ _). set (l := WCall _ :: ww_log w).
  assert (Ho : open_fds l = if fd <? 0 then ∅ else {[+ fd +]}).
  { subst l. cbn [open_fds]. rewrite <- Hfd, Hl. destruct (fd <? 0); [done|multiset_solver]. }
  apply wp_if; intros Hneg; rewrite Hneg in Ho; [by apply Hf|]. apply Z.ltb_ge in Hneg.
  apply wp_bind, wp_wcall. intros r _. apply wp_if; intros _.
  { apply wp_bind, wp_wlog, Hf; [done..|]. cbn [ww_log open_fds]. rewrite Ho. multiset_solver. }
  apply wp_bind, wp_wcall. intros r2 _. apply wp_if; intros _.
  { apply wp_bind, wp_wlog, Hf; [done..|]. cbn [ww_log open_fds]. rewrite Ho. multiset_solver. }
  apply wp_ret. split; [by apply Hb|]. cbn [ww ww_log]. rewrite !open_fds_quiet by done. rewrite Ho, Hh by done.
  unfold held_fd, NAS_WKSP_UNK_FILE_DESC. change (nw_eapd k) with fd. by destruct (Z.eqb_spec fd (-1)); [lia|].
Qed.

Lemma start_ok : wp nas_process_start (fun b w => b = true -> proc_ok w) (WWorld nas_wksp_alloc_workspace []).
Proof.
  unfold nas_process_start, nas_wksp_init. apply wp_bind, wp_bind, wp_wcall. intros r _. set (w1 := WWorld _ _).
  apply wp_bind. eapply wp_mono; [apply (open_eapd_ok w1); [done|apply length_replicate|done]|]. cbv beta. intros ? w2 H2.
  assert (Hr : Rel stays (nas_wksp_open_radius ;; nas_wksp_init_nas ;; (mret 0 : W Z))).
  { pose proof stays_open. unfold nas_wksp_open_radius. rel_auto. }
  eapply wp_mono; [apply Hr|]. cbv beta. intros ret w3 H3. apply wp_if; intros _; [by apply wp_ret|].
  apply wp_bind, wp_wcall. intros r2 _. apply wp_if; intros _; [|apply wp_ret; intros _].
  - apply wp_bind. unfold wpx. destruct (nas_wksp_cleanup _); done.
  - apply (wr_log (R := stays) (WCall WDaemon) w3 I). auto.
Qed.

Lemma runs_proc_ok w : nas_runs w -> proc_ok w.
Proof.
  intros (w0 & H0 & H). pose proof (wp_ret_inv _ _ _ _ _ start_ok H0 eq_refl) as H1. clear H0.
  induction H as [w|w w1 w2 Hs _ IH]; [done|]. apply IH. destruct Hs as [w w1 _ Hr|s w].
  - exact (wp_ret_inv _ _ _ _ _ (rel (R := stays) w) Hr H1).
  - apply (wr_wk (R := stays) (handle_signal s (ww w)) w); [by destruct s|done].
Qed.

(** *** The end *)

(** Every server but those of [l] has no connection. *)
Definition closed_but (l : list nat) (k : nas_wksp_t) : Prop :=
  forall j, j ∉ l -> cb_wan (cb_at k j) = NAS_WKSP_UNK_FILE_DESC.

Lemma close_one ids i w : proc_ok w -> closed_but (i :: ids) (ww w) ->
  twp (mode ← cb i (fun c => na_mode (cb_nas c)); when (CHECK_RADIUS mode) (nas_radius_close i))
    (fun _ w' => proc_ok w' /\ closed_but ids (ww w')) w.
Proof.
  intros H Hc. apply wp_bind, wp_cb.
  assert (Hout : (length (nw_nwcb (ww w)) <= i)%nat -> CHECK_RADIUS (na_mode (cb_nas (cb_at (ww w) i))) = false).
  { intros Hi. unfold cb_at. by rewrite nth_overflow. }
  assert (Hskip : cb_wan (cb_at (ww w) i) = NAS_WKSP_UNK_FILE_DESC -> closed_but ids (ww w)).
  { intros Hw j Hj. destruct (decide (j = i)) as [->|Hne]; [done|]. apply Hc. set_solver. }
  apply wp_when; intros Hm.
  - destruct (decide (i < length (nw_nwcb (ww w)))%nat) as [Hi|Hi]; [|rewrite Hout in Hm by lia; done].
    pose proof (radius_close_owns i w H Hi Hm) as Ho. unfold nas_radius_close in *. apply wp_bind, wp_cb.
    destruct (negb (cb_wan (cb_at (ww w) i) =? NAS_WKSP_UNK_FILE_DESC)) eqn:Hw; cbn [when].
    + apply wp_bind, wp_wlog, wp_set_cb. set (w1 := WWorld _ _).
      assert (Ho1 : owns i ∅ w1 /\ cb_wan (cb_at (ww w1) i) = NAS_WKSP_UNK_FILE_DESC).
      { apply wp_bind_inv in Ho. unfold wpx, cb, wk, get in Ho. unfold when in Ho. rewrite Hw in Ho. exact Ho. }
      destruct Ho1 as [Ho1 Hw1]. split; [by apply (owns_proc i); rewrite Hw1|]. intros j Hj.
      destruct (decide (j = i)) as [->|Hne]; [done|]. subst w1. cbn [ww ww_log].
      unfold cb_at. change (nw_nwcb (upd_cb (ww w) i ?f)) with (alter f i (nw_nwcb (ww w))). rewrite nth_lookup, list_lookup_alter_ne, <- nth_lookup by done.
      apply Hc. set_solver.
    + apply wp_ret. split; [done|]. apply Hskip. apply negb_false_iff, Z.eqb_eq in Hw. done.
  - split; [done|]. apply Hskip. destruct (decide (i < length (nw_nwcb (ww w)))%nat) as [Hi|Hi].
    + destruct H as [[_ _ _ B4] _]. destruct (lookup_lt_is_Some_2 _ _ Hi) as [c Hcc]. rewrite Forall_lookup in B4. specialize (B4 i c Hcc).
      assert (Hat : cb_at (ww w) i = c) by by apply nth_lookup_Some. rewrite Hat in *.
      destruct (decide (cb_wan c = NAS_WKSP_UNK_FILE_DESC)) as [|Hne]; [done|]. by rewrite (B4 Hne) in Hm.
    + unfold cb_at. by rewrite nth_overflow by lia.
Qed.

Lemma close_all ids : forall w, proc_ok w -> closed_but ids (ww w) ->
  twp (for_each ids (fun i => mode ← cb i (fun c => na_mode (cb_nas c)); when (CHECK_RADIUS mode) (nas_radius_close i)))
    (fun _ w' => proc_ok w' /\ closed_but [] (ww w')) w.
Proof.
  induction ids as [|i ids IH]; intros w H Hc; [by apply wp_ret|]. cbn [for_each]. apply wp_bind.
  eapply wp_mono; [by apply (close_one ids)|]. cbv beta. intros ? w1 [H1 Hc1]. by apply IH.
Qed.

Lemma held_closed k : closed_but [] k -> held k = held_fd (nw_eapd k).
Proof.
  intros Hc. unfold held. assert (held_cbs (nw_nwcb k) = ∅) as ->; [|multiset_solver].
  assert (Hl : forall c, c ∈ nw_nwcb k -> cb_wan c = NAS_WKSP_UNK_FILE_DESC).
  { intros c (i & Hi)%list_elem_of_lookup. specialize (Hc i ltac:(set_solver)). unfold cb_at in Hc. by rewrite nth_lookup, Hi in Hc. }
  revert Hl. generalize (nw_nwcb k). intros l Hl. induction l as [|c l IH]; [done|]. cbn. rewrite IH by (intros; apply Hl; set_solver).
  unfold held_fd. rewrite (Hl c) by set_solver. cbn. multiset_solver.
Qed.

(** A handler that always returns. *)
Lemma in_nas_returns {A} i (h : forall E : Env, N A) w : (forall E w0, twp (h E) (fun _ _ => True) w0) -> twp (in_nas i h) (fun _ _ => True) w.
Proof. intros Hh. unfold in_nas, wpx. specialize (Hh (we_nas (ww_log w) i) (World (cb_nas (cb_at (ww w) i)) [])). unfold wpx in Hh. by destruct (h _ _). Qed.

Lemma twp_rel {A} (R : relation wworld) (m : W A) w : Rel R m -> twp m (fun _ _ => True) w -> twp m (fun _ w' => R w w') w.
Proof. intros Hr Ht. specialize (Hr w). unfold wpx in *. by destruct (m w). Qed.

Lemma reset_returns i w : twp (wpa_reset_countermeasures i) (fun _ _ => True) w.
Proof.
  apply in_nas_returns. intros E0 w0. nas_step. nas_step. apply wp_when; intros _; [|done].
  unfold wpa_countermeasures_cb, nas_wl_tkip_countermeasures, TIMER_DELETE. by nas_steps.
Qed.

Lemma reset_all ids : forall w, twp (for_each ids wpa_reset_countermeasures) (fun _ w' => stays w w') w.
Proof.
  induction ids as [|i ids IH]; intros w; cbn [for_each]; [by apply wp_ret; intros H|]. apply wp_bind.
  eapply wp_mono; [apply (twp_rel stays); [exact _|apply reset_returns]|]. cbv beta. intros ? w1 H1.
  eapply wp_mono; [apply IH|]. cbv beta. intros ? w2 H2 H. auto.
Qed.

Lemma close_eapd_ok w : proc_ok w -> closed_but [] (ww w) -> twp nas_wksp_close_eapd (fun _ w' => open_fds (ww_log w') = ∅) w.
Proof.
  intros [_ H] Hc. rewrite held_closed in H by done. unfold nas_wksp_close_eapd. apply wp_bind, wp_wwk. unfold held_fd in H.
  destruct (Z.eqb_spec (nw_eapd (ww w)) NAS_WKSP_UNK_FILE_DESC) as [He|He]; cbn [negb when]; [by apply wp_ret|].
  apply wp_bind, wp_wlog, wp_set_wwk. cbn [ww_log open_fds]. rewrite H. multiset_solver.
Qed.

Lemma cleanup_ok w : proc_ok w -> twp nas_wksp_cleanup (fun _ w' => open_fds (ww_log w') = ∅) w.
Proof.
  intros H. unfold nas_wksp_cleanup. apply wp_bind, wp_wwk, wp_bind. eapply wp_mono; [apply reset_all|]. cbv beta. intros ? w1 H1.
  specialize (H1 H). apply wp_bind. unfold nas_wksp_close_radius. apply wp_bind, wp_wwk.
  eapply wp_mono; [apply close_all; [done|]|].
  { intros j Hj. unfold cb_at. rewrite nth_overflow; [done|]. rewrite list_elem_of_In, in_seq in Hj. lia. }
  cbv beta. intros ? w2 [H2 Hc]. apply wp_bind, wp_wlog. apply close_eapd_ok; [|done].
  by apply (wr_log (R := stays) (WCall WTimerCleanup) w2 I).
Qed.
End Run.
