(* ===== verification/NasMain.v ===== *)
(** The theorems about the process of the network access server: what its main loop keeps,
    the key a setting stands for, that one interface has one server, how a frame gets from
    the dispatcher to the server of its interface, and what happens to an interface whose
    settings are in error. *)
From stdpp Require Import base option list numbers strings relations gmultiset.
From Stdlib Require Import ZArith Lia.
From S2P Require Import Prelude HashRef Prf Monad NasState NasSta WpaIe WpaKey NasRel WpaMsg NasPae WpaAuth WpaSafety WpaSup NasDispatch NasRadius NasSystem Chanspec NasWksp NasProcess.
Local Open Scope Z_scope.

(** ** The main loop *)

Section Run.
Context `{E : WEnv}.


(** ** Keys *)

(** The digits of a byte string. *)
Definition hex_digit (d : Z) : Z := if d <? 10 then 48 + d else 87 + d.
Definition hex_text (l : list Z) : list Z := flat_map (fun b => [hex_digit (b / 16); hex_digit (b mod 16)]) l.

Lemma xdigit_hex d : 0 <= d < 16 -> xdigit (hex_digit d) = Some d.
Proof.
  intros H. unfold hex_digit, xdigit. destruct (Z.ltb_spec d 10).
  - rewrite (proj2 (Z.leb_le _ _)), (proj2 (Z.leb_le _ _)) by lia. cbn [andb]. f_equal. lia.
  - rewrite (proj2 (Z.leb_gt (87 + d) 57)), (proj2 (Z.leb_gt (87 + d) 70)), !andb_false_r, !(proj2 (Z.leb_le _ _)) by lia. cbn [andb]. f_equal. lia.
Qed.

Lemma psk_hex_text l : bytes_ok l -> psk_hex (length l) (hex_text l) = (l, true).
Proof.
  induction 1 as [|b l Hb _ IH]; [done|]. cbn [length hex_text flat_map Datatypes.app psk_hex]. fold (hex_text l).
  rewrite !xdigit_hex by (unfold is_u in Hb; split; [apply Z.div_pos || apply Z.mod_pos_bound|apply Z.div_lt_upper_bound || apply Z.mod_pos_bound]; lia).
  rewrite IH. f_equal. f_equal. pose proof (Z.div_mod b 16). lia.
Qed.

Lemma hex_text_length l : length (hex_text l) = (2 * length l)%nat.
Proof. induction l as [|b l IH]; [done|]. cbn [hex_text flat_map Datatypes.app length]. fold (hex_text l). lia. Qed.

(** What init_psk leaves in the server. *)
Definition has_pmk (i : nat) (pmk : list Z) (c0 : nas_wpa_cb_t) (w : wworld) : Prop :=
  let c := cb_at (ww w) i in
  wp_pmk (na_wpa (cb_nas c)) = pmk /\ wp_pmk_len (na_wpa (cb_nas c)) = 32 /\ cb_key_length c = 32 /\ cb_flags c = cb_flags c0.

Definition with_error (f : cb_flags_t) : cb_flags_t := f <| cf_error := true |>.

(** Writing the key, after the interface was marked or not. *)
Lemma set_pmk_spec (bad : bool) i data w : (i < length (nw_nwcb (ww w)))%nat ->
  twp (when bad (set_error i) ;;
       (set_cb_wpa i (fun w => w <| wp_pmk := overwrite (wp_pmk w) data (length data) |> <| wp_pmk_len := 32 |>) ;;
        set_cb i (fun c => c <| cb_key_length := 32 |>)) ;; (mret true : W bool))
    (fun go w' => go = true /\ let c := cb_at (ww w) i in let c' := cb_at (ww w') i in
      wp_pmk (na_wpa (cb_nas c')) = overwrite (wp_pmk (na_wpa (cb_nas c))) data (length data) /\
      wp_pmk_len (na_wpa (cb_nas c')) = 32 /\ cb_key_length c' = 32 /\
      cb_flags c' = if bad then with_error (cb_flags c) else cb_flags c) w.
Proof.
  intros Hi. assert (Hlen : forall k f, length (nw_nwcb (upd_cb k i f)) = length (nw_nwcb k)) by (intros; apply length_alter).
  unfold set_cb_wpa, set_cb_nas, set_error. apply wp_bind. destruct bad; cbn [when].
  - apply wp_set_cb, wp_bind, wp_bind, wp_set_cb, wp_set_cb, wp_ret. split; [done|]. cbn [ww].
    rewrite !at_set by (rewrite ?Hlen; done). done.
  - apply wp_ret, wp_bind, wp_bind, wp_set_cb, wp_set_cb, wp_ret. split; [done|]. cbn [ww].
    rewrite !at_set by (rewrite ?Hlen; done). done.
Qed.

Lemma psk_num_hex pmk : length pmk = 32%nat -> psk_num (hex_text pmk) = Some (hex_text pmk) /\ psk_num (str "0x" ++ hex_text pmk) = Some (hex_text pmk).
Proof.
  intros Hl. pose proof (hex_text_length pmk) as H. rewrite Hl in H. unfold psk_num, NAS_WKSP_PSK_LEN. split.
  - by rewrite H.
  - rewrite length_app, H. cbn [str length Nat.add Nat.eqb]. done.
Qed.

End Run.

(** ** One server per interface *)

(** What messages are matched with. *)
Definition ident (c : nas_wpa_cb_t) : list Z * list Z := (na_ea (cb_nas c), take 16 (cb_interface c)).
Definition idents (k : nas_wksp_t) : list (list Z * list Z) := map ident (nw_nwcb k).

Section Idents.
Context `{E : WEnv}.

Definition same_idents (w w' : wworld) : Prop := idents (ww w') = idents (ww w).

Lemma idents_upd k i f : (forall c, nw_nwcb k !! i = Some c -> ident (f c) = ident c) -> idents (upd_cb k i f) = idents k.
Proof.
  intros Hf. unfold idents. change (nw_nwcb (upd_cb k i f)) with (alter f i (nw_nwcb k)). apply list_eq. intros j.
  rewrite !list_lookup_fmap. destruct (decide (i = j)) as [<-|Hne].
  - rewrite list_lookup_alter_eq. destruct (nw_nwcb k !! i) eqn:H; cbn; [|done]. by rewrite Hf.
  - by rewrite list_lookup_alter_ne.
Qed.

#[export] Instance same_idents_pre : PreOrder same_idents.
Proof. split; [by intros w|]. intros w1 w2 w3 H1 H2. unfold same_idents in *. congruence. Qed.
#[export] Instance same_idents_wr : WRel same_idents.
Proof.
  split; [exact _|done|..].
  - intros k w (_ & Hn & _). unfold same_idents, idents. cbn [ww]. by rewrite Hn.
  - intros i f w Hf. apply idents_upd. intros c Hc. destruct (Hf c Hc) as (Hi & _ & Ha & _). unfold ident. by rewrite Hi, Ha.
Qed.

Lemma ids_wlog c : Rel same_idents (wlog c).
Proof. intros w. by apply wp_wlog. Qed.
Lemma ids_set_cb i f : (forall c, ident (f c) = ident c) -> Rel same_idents (set_cb i f).
Proof. intros Hf w. apply wp_set_cb. by apply idents_upd. Qed.
#[local] Hint Extern 1 (Rel same_idents (wlog _)) => apply ids_wlog : typeclass_instances.
#[local] Hint Extern 1 (Rel same_idents (set_cb _ _)) => apply ids_set_cb; done : typeclass_instances.
#[local] Instance ids_wcall c : Rel same_idents (wcall_int c).
Proof. unfold wcall_int. rel_auto. Qed.
#[local] Instance ids_failed i : Rel same_idents (radius_failed i).
Proof. unfold radius_failed. rel_auto. Qed.
#[local] Instance ids_set_nas i f : (forall n, na_ea (f n) = na_ea n) -> Rel same_idents (set_cb_nas i f).
Proof. intros Hf. apply ids_set_cb. intros c. unfold ident. cbn. by rewrite Hf. Qed.
#[local] Instance ids_connect n : forall i, Rel same_idents (radius_connect n i).
Proof. induction n as [|n IH]; intros i; cbn [radius_connect]; rel_auto. Qed.
Lemma ids_open i : Rel same_idents (nas_radius_open i).
Proof. unfold nas_radius_open. rel_auto. Qed.

(** No two servers answer to the same messages. *)
Definition keeps_distinct (w w' : wworld) : Prop := NoDup (idents (ww w)) -> NoDup (idents (ww w')).

Lemma distinct_of {A} (m : W A) : Rel same_idents m -> Rel keeps_distinct m.
Proof. intros H w. eapply wp_mono; [apply H|]. intros ? w' Hs Hd. by rewrite Hs. Qed.

#[export] Instance keeps_distinct_wr : WRel keeps_distinct.
Proof.
  split.
  - split; unfold keeps_distinct; [by intros w|]. intros w1 w2 w3. tauto.
  - by intros e w _ H.
  - intros k w Hk H. by rewrite (wr_wk (R := same_idents) k w Hk).
  - intros i f w Hf H. by rewrite (wr_cb (R := same_idents) i f w Hf).
Qed.

Lemma find_none mac name l : find_nwcb mac name l = None -> Forall (fun c => nwcb_matches mac name c = false) l.
Proof.
  unfold find_nwcb. intros H%fmap_None%list_find_None. rewrite Forall_forall in *. intros c Hc. specialize (H c Hc).
  by destruct (nwcb_matches mac name c).
Qed.

(** The settings get_wsec of libshared hands out are those of the interface asked for. *)
Context (Hwsec : forall log mac osifname info, we_wsec (WCall (WGetWsec mac osifname) :: log) = Some info ->
  wi_ea info = mac /\ forall name, osifname = Some name -> take 16 (wi_osifname info) = take 16 name).

Lemma find_distinct mac name mode : Rel keeps_distinct (nas_wksp_find_nwcb mac name mode).
Proof.
  intros w. unfold nas_wksp_find_nwcb. apply wp_bind, wp_wwk. destruct (find_nwcb mac name (nw_nwcb (ww w))) eqn:Hfind; [by apply wp_ret; intros H|].
  destruct mode; [by apply wp_ret; intros H|]. apply find_none in Hfind. unfold nas_wksp_add_nwcb.
  apply wp_bind, wp_wwk, wp_if; intros _; [by apply wp_ret; intros H|]. apply wp_bind. eapply wp_mono; [apply get_wsec_spec|]. cbv beta.
  intros [i|] w1 (_ & H1); [|by apply wp_ret; intros H; rewrite H1].
  destruct H1 as (-> & info & akm & wsec & srv & Hinfo & Hk). destruct (Hwsec _ _ _ _ Hinfo) as [Hea Hname].
  set (i := length _). pose proof (fun i => distinct_of _ (ids_open i)) as Ho.
  assert (Hr : Rel keeps_distinct (open_if_radius i ;; nas_init_nas i ;; mret (Some i))) by (unfold open_if_radius; rel_auto).
  eapply wp_mono; [apply Hr|]. cbv beta. intros ? w2 H2 H. apply H2. rewrite Hk. unfold idents.
  change (nw_nwcb (add_cb (ww w) ?c)) with (nw_nwcb (ww w) ++ [c]). rewrite map_app. apply list.NoDup_app. split_and!; [done| |by apply NoDup_singleton].
  intros x Hx ->%list_elem_of_singleton. change (map ident (nw_nwcb (ww w))) with (ident <$> nw_nwcb (ww w)) in Hx.
  apply list_elem_of_fmap in Hx as (c & Hc & Hin). rewrite Forall_forall in Hfind. specialize (Hfind c (proj1 (list_elem_of_In _ _) Hin)).
  unfold ident in Hc. cbn [new_cb cb_nas cb_interface] in Hc. injection Hc as Hc1 Hc2. revert Hfind. unfold nwcb_matches.
  rewrite bool_decide_true by (rewrite <- Hea; exact Hc1). cbn [andb]. destruct name as [name|]; [|done].
  rewrite bool_decide_true; [done|]. rewrite <- Hc2, take_take, Nat.min_id. by apply Hname.
Qed.

#[local] Instance distinct_proc : ProcRel keeps_distinct.
Proof.
  pose proof ids_open. split; [exact _|intros; apply distinct_of; unfold open_if_radius; rel_auto|
    intros; apply distinct_of; unfold dispatch_radius; rel_auto|exact find_distinct].
Qed.

Lemma start_distinct : wp nas_process_start (fun _ w => NoDup (idents (ww w))) (WWorld nas_wksp_alloc_workspace []).
Proof.
  assert (Hr : Rel keeps_distinct nas_process_start); [|eapply wp_mono; [apply Hr|]; intros ? w' H; apply H; constructor].
  apply distinct_of. pose proof ids_open.
  assert (Hc : forall i, Rel same_idents (nas_radius_close i)) by (intros; unfold nas_radius_close; rel_auto).
  assert (Hs : forall f, (forall k, nw_nwcb (f k) = nw_nwcb k) -> Rel same_idents (set_wk f)).
  { intros f Hf w. apply wp_set_wwk. unfold same_idents, idents. cbn [ww]. by rewrite Hf. }
  unfold nas_process_start, nas_wksp_init, nas_wksp_open_radius, open_if_radius, nas_wksp_cleanup, nas_wksp_close_radius, nas_wksp_open_eapd, nas_wksp_close_eapd.
  rel_auto; by apply Hs.
Qed.

(** C12: while get_wsec answers for the interface it is asked about, an interface never gets
    a second server, whatever messages arrive for it and however its first one fared: in
    every state no two servers answer to the same address and name. *)
Theorem one_server_per_interface w : nas_runs w -> forall i j c d, nw_nwcb (ww w) !! i = Some c -> nw_nwcb (ww w) !! j = Some d ->
  na_ea (cb_nas c) = na_ea (cb_nas d) -> take 16 (cb_interface c) = take 16 (cb_interface d) -> i = j.
Proof.
  intros (w0 & H0 & H). assert (Hd : NoDup (idents (ww w))).
  { pose proof (wp_ret_inv _ _ _ _ _ start_distinct H0) as H1. clear H0. induction H as [w|w w1 w2 Hs _ IH]; [done|]. apply IH.
    destruct Hs as [w w1 _ Hr|s w]; [exact (wp_ret_inv _ _ _ _ _ (rel (R := keeps_distinct) w) Hr H1)|by destruct s]. }
  intros i j c d Hc Hj Ha Hn. apply (NoDup_lookup _ i j (ident c) Hd); unfold idents; rewrite list_lookup_fmap.
  - by rewrite Hc.
  - rewrite Hj. cbn. unfold ident. by rewrite Ha, Hn.
Qed.
End Idents.

(** ** Lengths *)

Section Lengths.
Context `{E : WEnv}.

Lemma drop_overwrite p d n k : (n <= k)%nat -> length d = n -> drop k (overwrite p d n) = drop k p.
Proof.
  intros Hn Hd. unfold overwrite. rewrite take_ge by lia. rewrite drop_app_ge by lia. rewrite drop_drop. f_equal. lia.
Qed.

(** A negative length is a large one. *)
Lemma validate_negative bytes dpkt : -16 < bytes < 0 -> nas_validate_wlpvt_message bytes dpkt = nas_validate_wlpvt_message 74 dpkt.
Proof.
  intros Hb. unfold nas_validate_wlpvt_message, sizeof_bcm_event_t. change (74 mod 2 ^ 64) with 74.
  rewrite <- (Z_mod_plus_full bytes 1 (2 ^ 64)), Z.mod_small by lia.
  by rewrite (proj2 (Z.ltb_ge (bytes + 1 * 2 ^ 64) (72 + 2))) by lia.
Qed.

(** C15: the length of an event of the driver.  A message of 16 to 89 bytes, the name in front
    counted, cannot hold an event and is not handled.  One of 1 to 15 bytes is: what it
    leaves over of the message before it is handled once more, whenever that was an event
    of full length. *)
Theorem short_message_replays pkt d v : get16 (drop 16 pkt) 12 = ETHER_TYPE_BRCM ->
  (forall bytes, 16 <= bytes < 90 -> eapd_message pkt bytes v = Ret false v) /\
  ((0 < length d < 16)%nat -> forall bytes, 90 <= bytes <= RADIUS_MAX_LEN ->
     eapd_message (overwrite pkt d (length d)) (Z.of_nat (length d)) v = eapd_message pkt bytes v).
Proof.
  intros Ht. assert (Hv : forall p bytes, drop 16 p = drop 16 pkt -> eapd_message p bytes v =
    (if negb (nas_validate_wlpvt_message (bytes - 16) (drop 16 pkt) =? 0) then mret false else
       nwcb ← nas_wksp_find_nwcb (field (drop 16 pkt) 0 6) (Some (c_string (drop 54 (drop 16 pkt)))) NAS_WKSP_NWCB_AUTO;
       match (nwcb : option nat) with None => mret false | Some i => nas_handle_wlpvt_messages i (drop 16 pkt) ;; mret true end) v).
  { intros p bytes Hp. unfold eapd_message. change NasWksp.IFNAMSIZ with 16%nat. rewrite Hp, Ht. done. }
  split.
  - intros bytes Hb. rewrite Hv by done. unfold nas_validate_wlpvt_message, sizeof_bcm_event_t.
    rewrite Z.mod_small by lia. by rewrite (proj2 (Z.ltb_lt (bytes - 16) (72 + 2))) by lia.
  - intros Hd bytes Hb. unfold RADIUS_MAX_LEN in Hb. rewrite !Hv by (done || by apply drop_overwrite; lia). rewrite validate_negative by lia.
    assert (Hlen : nas_validate_wlpvt_message (bytes - 16) (drop 16 pkt) = nas_validate_wlpvt_message 74 (drop 16 pkt)); [|by rewrite Hlen].
    unfold nas_validate_wlpvt_message, sizeof_bcm_event_t. rewrite !Z.mod_small by lia.
    by rewrite (proj2 (Z.ltb_ge (bytes - 16) (72 + 2))) by lia.
Qed.

(** ** Runs *)

(** [n] passes through the loop; false when it ended before. *)
Fixpoint rounds (n : nat) : W bool :=
  match n with
  | O => mret true
  | S n => stop ← wk wshutting; if (stop : bool) then mret false else main_round ;; rounds n
  end.

Definition nas_run (n : nat) : res wworld bool :=
  (ok ← nas_process_start; if (ok : bool) then rounds n else mret false) (WWorld nas_wksp_alloc_workspace []).

Lemma rounds_rtc n : forall w w', rounds n w = Ret true w' -> rtc nas_step w w'.
Proof.
  induction n as [|n IH]; intros w w'; cbn [rounds]; [by intros [= <-]|]. unfold mbind at 1, M_bind at 1, wk, get.
  destruct (wshutting (ww w)) eqn:Hs; [done|]. unfold mbind, M_bind.
  destruct (main_round w) as [[] w1| |] eqn:Hr; [|done..]. intros H%IH. eapply rtc_l; [by eapply nas_step_round|done].
Qed.

Lemma nas_run_runs n chk : match nas_run n with Ret true w => chk w | _ => false end = true -> exists w, nas_runs w /\ chk w = true.
Proof.
  unfold nas_run, mbind, M_bind. destruct (nas_process_start _) as [[] w0| |] eqn:H0; [|done..].
  destruct (rounds n w0) as [[] w| |] eqn:Hr; [|done..]. intros Hc. exists w. split; [|done]. exists w0. split; [done|]. by apply (rounds_rtc n).
Qed.
End Lengths.

(** ** Concrete runs *)

(** The settings of an access point with WPA2 and the key [psk]. *)
Definition demo_info (psk mac name : list Z) : wsec_info_t :=
  WsecInfo 0 name mac (str "home") WPA2_PSK AES_ENABLED 0 false true false (replicate 6 0) psk None
    0 1 None None 1812 5 0 None.

Definition wksp_reply (log : list wevent) : Z :=
  match log with
  | WCall WMalloc :: _ | WCall (WSelect _) :: _ => 1
  | WCall (WSocket _) :: _ => 5
  | _ => 0
  end.

(** The frames a server sent, the last one sent, and the number of messages received. *)
Definition sent_frames (e : wevent) : list (list Z) :=
  match e with WNas _ es => omap (fun e => match e with EvSend p => Some p | _ => None end) es | _ => [] end.
Fixpoint last_sent (log : list wevent) : list Z :=
  match log with
  | [] => []
  | e :: log => match sent_frames e with p :: _ => p | [] => last_sent log end
  end.
Definition received_count (log : list wevent) : nat :=
  length (List.filter (fun e => match e with WCall (WRecv _) => true | _ => false end) log).

(** A station with the key [pmk]: the driver reports its association, with the element
    [rsn_ie], and it answers the messages of the handshake. *)
Definition rsn_ie : list Z := [48; 20; 1; 0; 0; 15; 172; 4; 1; 0; 0; 15; 172; 4; 1; 0; 0; 15; 172; 2; 0; 0].
Definition named (p : list Z) : list Z := str "eth1" ++ replicate 12 0 ++ p.
Definition assoc_event : list Z :=
  named (ap_ea ++ cl_ea ++ be16 ETHER_TYPE_BRCM ++ be16 BCMILCP_SUBTYPE_VENDOR_LONG ++ be16 58 ++ [BCMILCP_BCM_SUBTYPEHDR_VERSION] ++ BRCM_OUI ++
    be16 BCMILCP_BCM_SUBTYPE_EVENT ++ be16 1 ++ be16 0 ++ be16 0 ++ be16 WLC_E_ASSOC_IND ++ replicate 12 0 ++ be16 0 ++ be16 22 ++ cl_ea ++ str "eth1" ++ replicate 14 0 ++ rsn_ie).

Definition station_ptk (pmk : list Z) (p : eapol_key_t) : list Z :=
  match fPRF pmk ascii_pairwise (ptk_data ap_ea cl_ea (replicate 32 5) (ek_nonce p)) 48 with PRF_ok out _ => out | _ => [] end.
Definition answer (ptk : list Z) (info : Z) (data : list Z) (p : eapol_key_t) : list Z :=
  named (frame_bytes (sign 2 (take 16 ptk) (p <| ek_dhost := ap_ea |> <| ek_shost := cl_ea |> <| ek_key_info := info |>
    <| ek_nonce := replicate 32 5 |> <| ek_mic := replicate 16 0 |> <| ek_data_len := Z.of_nat (length data) |> <| ek_data := data |>
    <| ek_length := 95 + Z.of_nat (length data) |>))).
Definition station (pmk : list Z) (log : list wevent) : option (list Z) :=
  match received_count log with
  | 1%nat => Some assoc_event
  | 2%nat => let m1 := eapol_parse (last_sent log) in Some (answer (station_ptk pmk m1) (2 + 8 + 0x100) rsn_ie m1)
  | 3%nat => let m3 := eapol_parse (last_sent log) in Some (answer (station_ptk pmk m3) (2 + 8 + 0x100 + 0x200) [] m3)
  | _ => None
  end.

(** get_wsec answers for the interface it is asked about. *)
Definition demo_wsec (psk : list Z) (log : list wevent) : option wsec_info_t :=
  match log with
  | WCall (WGetWsec mac name) :: _ => Some (demo_info psk mac (default (str "eth1") name))
  | _ => None
  end.

Definition wenv_demo (psk pmk : list Z) : WEnv := {|
  we_int := wksp_reply; we_data := station pmk; we_ready := fun _ => [5]; we_timers := fun _ => [];
  we_wsec := demo_wsec psk; we_addrs := fun _ => []; we_ivar := fun _ => 0; we_nas := fun _ _ => env_yes |}.


(** The first server got an error and still authorized the station. *)
Definition flagged_authorizes (w : wworld) : bool :=
  cf_error (cb_flags (cb_at (ww w) 0)) &&
  match ww_log w with WNas 0 es :: _ => authorized cl_ea es | _ => false end.


(** An interface with a key in order authorizes the station that has it, and no other. *)
Definition demo_key : list Z := repeat 0x5a 32.
Example good_key_is_served : match nas_run (E := wenv_demo (hex_text demo_key) demo_key) 3 with
  Ret true w => negb (cf_error (cb_flags (cb_at (ww w) 0))) && match ww_log w with WNas 0 es :: _ => authorized cl_ea es | _ => false end
  | _ => false end = true.
Proof. vm_compute. reflexivity. Qed.
Example wrong_key_is_not_served : match nas_run (E := wenv_demo (hex_text demo_key) (replicate 32 0)) 3 with
  Ret true w => forallb (fun e => match e with WNas _ es => negb (authorized cl_ea es) | _ => true end) (ww_log w)
  | _ => false end = true.
Proof. vm_compute. reflexivity. Qed.

(** ** Witnesses *)

Abbreviation wenv_ap := (wenv_demo (hex_text demo_key) demo_key).
Definition one_server (w : wworld) : bool := Nat.eqb (length (nw_nwcb (ww w))) 1.


Lemma one_server_per_interface_witness : exists w c, nas_runs (E := wenv_ap) w /\ nw_nwcb (ww w) !! 0%nat = Some c /\
  forall j d, nw_nwcb (ww w) !! j = Some d -> na_ea (cb_nas c) = na_ea (cb_nas d) -> take 16 (cb_interface c) = take 16 (cb_interface d) -> 0%nat = j.
Proof.
  destruct (nas_run_runs (E := wenv_ap) 1 one_server ltac:(vm_compute; reflexivity)) as (w & Hw & Hc).
  destruct (nw_nwcb (ww w)) as [|c l] eqn:Hl; [unfold one_server in Hc; rewrite Hl in Hc; discriminate Hc|].
  assert (H0 : nw_nwcb (ww w) !! 0%nat = Some c) by (rewrite Hl; reflexivity).
  exists w, c. split; [exact Hw|]. split; [exact H0|]. intros j d Hd.
  refine (one_server_per_interface (E := wenv_ap) _ w Hw 0 j c d H0 Hd).
  intros log mac osifname info Hi. injection Hi as <-. split; [reflexivity|]. intros name ->. reflexivity.
Defined.

Definition psk_world (psk : list Z) : wworld :=
  WWorld (nas_wksp_alloc_workspace <| nw_nwcb := [new_cb (demo_info psk ap_ea (str "eth1")) WPA2_PSK AES_ENABLED (Sockaddr 0 [] 0)] |>) [].


Definition demo_buffer : list Z := overwrite (replicate 4096 0) assoc_event (length assoc_event).
Lemma short_message_replays_witness :
  eapd_message (E := wenv_ap) (overwrite demo_buffer [1] 1) 1 (psk_world demo_key) = eapd_message (E := wenv_ap) demo_buffer 110 (psk_world demo_key).
Proof.
  exact (proj2 (short_message_replays (E := wenv_ap) demo_buffer [1] (psk_world demo_key) ltac:(vm_compute; reflexivity))
    ltac:(vm_compute; lia) 110 ltac:(vm_compute; split; discriminate)).
Defined.
