(* ===== verification/ShadowNvram.v ===== *)
(** Broadcom's NVRAM interface of src/wl_shadow_nvram.c, over the contents the kernel's
    NVRAM driver returns: a run of "name=value" strings, each ended by a zero. *)
From stdpp Require Import base option list numbers.
From Stdlib Require Import ZArith Lia.
From S2P Require Import Prelude.
Local Open Scope Z_scope.

Definition ENOMEM : Z := 12.
Definition ENODEV : Z := 19.
Definition ch_equals : Z := 61.

(** wl_nvram_buf, with the zero behind the contents, and wl_nvram_len. *)
Record nvram_t := Nvram { wl_nvram_buf : option (list Z); wl_nvram_len : nat }.
Definition nvram_0 : nvram_t := Nvram None 0.

(** What the kernel answers to a call: the contents of the flash region, if it has any,
    and whether there is memory for the copy. *)
Record nvram_env := NvramEnv { bcm47xx_nvram_get_contents : option (list Z); kzalloc_ok : bool }.

Definition wl_nvram_load (e : nvram_env) (st : nvram_t) : Z * nvram_t :=
  match wl_nvram_buf st with
  | Some _ => (0, st)
  | None =>
      match bcm47xx_nvram_get_contents e with
      | None | Some [] => (- ENODEV, st)
      | Some src => if kzalloc_ok e then (0, Nvram (Some (src ++ [0])) (length src)) else (- ENOMEM, st)
      end
  end.

Definition nvram_init (e : nvram_env) (st : nvram_t) : Z * nvram_t := wl_nvram_load e st.

(** Reads outside the buffer are [None]. *)
Definition strlen (buf : list Z) (p : nat) : option nat :=
  let n := length (c_string (drop p buf)) in
  if bool_decide (buf !! (p + n)%nat = Some 0) then Some n else None.

(** strncmp(p, name, strlen(name)) == 0. *)
Fixpoint strncmp_eq (buf : list Z) (p : nat) (name : list Z) : option bool :=
  match name with
  | [] => Some true
  | n :: name =>
      c ← buf !! p;
      if negb (c =? n) then Some false else if c =? 0 then Some true else strncmp_eq buf (S p) name
  end.

(** The loop of nvram_get from [p] on: the index of the value, or [None] for NULL. *)
Fixpoint nvram_scan (fuel : nat) (buf : list Z) (len : nat) (name : list Z) (p : nat) : option (option nat) :=
  if (len <=? p)%nat then Some None
  else match fuel with
       | O => None
       | S fuel =>
           let next := n ← strlen buf p; nvram_scan fuel buf len name (p + n + 1) in
           c ← buf !! p;
           if c =? 0 then next
           else
             eq ← strncmp_eq buf p name;
             if (eq : bool) then
               c ← buf !! (p + length name)%nat;
               if c =? ch_equals then Some (Some (p + length name + 1)%nat) else next
             else next
       end.

(** Each round moves past a character, so there are at most as many as characters. *)
Definition nvram_get (e : nvram_env) (name : option (list Z)) (st : nvram_t) : option (option nat) * nvram_t :=
  match name with
  | None => (Some None, st)
  | Some name =>
      let '(err, st) := wl_nvram_load e st in
      (if negb (err =? 0) then Some None
       else match wl_nvram_buf st with
            | Some buf => nvram_scan (wl_nvram_len st) buf (wl_nvram_len st) name 0
            | None => None
            end, st)
  end.

(** What is written to the caller's buffer of [count] bytes, and the result. *)
Definition nvram_getall (e : nvram_env) (count : Z) (st : nvram_t) : Z * option (list Z) * nvram_t :=
  let '(err, st) := wl_nvram_load e st in
  if negb (err =? 0) then (-1, None, st)
  else if (count <? 0) || (count <? Z.of_nat (wl_nvram_len st) + 1) then (-1, None, st)
  else match wl_nvram_buf st with
       | Some buf => (0, Some (take (wl_nvram_len st) buf ++ [0]), st)
       | None => (-1, None, st)
       end.

Definition wl_shadow_nvram_exit (st : nvram_t) : nvram_t := nvram_0.

(** ** The contents as a list of entries *)

(** The strings of the contents. *)
Fixpoint entries (l : list Z) : list (list Z) :=
  match l with
  | [] => [[]]
  | b :: l =>
      if b =? 0 then [] :: entries l
      else match entries l with
           | e :: es => (b :: e) :: es
           | [] => [[b]]
           end
  end.

Fixpoint strip_prefix (p l : list Z) : option (list Z) :=
  match p, l with
  | [], _ => Some l
  | a :: p, b :: l => if a =? b then strip_prefix p l else None
  | _ :: _, [] => None
  end.

(** The value of the first entry of that name. *)
Fixpoint value_of (name : list Z) (es : list (list Z)) : option (list Z) :=
  match es with
  | [] => None
  | e :: es =>
      match strip_prefix (name ++ [ch_equals]) e with
      | Some v => Some v
      | None => value_of name es
      end
  end.

Lemma entries_unfold l : entries l = c_string l ::
  (if (length (c_string l) <? length l)%nat then entries (drop (S (length (c_string l))) l) else []).
Proof.
  induction l as [|b l IH]; [done|]. cbn [entries c_string]. destruct (b =? 0); [done|].
  rewrite IH. cbn [length drop]. do 2 f_equal.
Qed.

(** The contents have been loaded. *)
Definition loaded (c : list Z) (st : nvram_t) : Prop := st = Nvram (Some (c ++ [0])) (length c).

(** The next call finds the contents [c], loaded already or to be loaded. *)
Definition holds_contents (c : list Z) (e : nvram_env) (st : nvram_t) : Prop :=
  loaded c st \/ st = nvram_0 /\ c <> [] /\ bcm47xx_nvram_get_contents e = Some c /\ kzalloc_ok e = true.

Lemma load_contents c e st : holds_contents c e st -> exists st', wl_nvram_load e st = (0, st') /\ loaded c st'.
Proof.
  intros [->|(-> & Hc & He & Hk)]; [eexists; split; reflexivity|].
  unfold wl_nvram_load. cbn. rewrite He, Hk. destruct c; [done|]. eexists. split; reflexivity.
Qed.

Lemma drop_contents (c : list Z) p : (p <= length c)%nat -> drop p (c ++ [0]) = drop p c ++ [0].
Proof. intros. by rewrite drop_app_le. Qed.

Lemma strlen_contents c p : (p <= length c)%nat -> strlen (c ++ [0]) p = Some (length (c_string (drop p c))).
Proof.
  intros Hp. unfold strlen. rewrite drop_contents, c_string_app by done.
  set (n := length (c_string (drop p c))).
  assert (Hn : (n <= length c - p)%nat) by (rewrite <- length_drop; apply c_string_le).
  rewrite bool_decide_true; [done|].
  pose proof (c_string_term (drop p c)) as Ht. rewrite c_string_app in Ht. fold n in Ht. rewrite lookup_drop in Ht.
  destruct Ht as [Ht|Ht].
  - apply lookup_ge_None in Ht. rewrite lookup_app_r by lia. replace (p + n - length c)%nat with 0%nat by lia. done.
  - rewrite lookup_app_l; [done|]. eapply lookup_lt_Some, Ht.
Qed.

(** Comparing with a name stops at the end of the string. *)
Lemma strncmp_contents c name p s : Forall (fun b => b <> 0) name -> Forall (fun b => b <> 0) s ->
  take (S (length s)) (drop p c) = s ++ [0] ->
  exists b, strncmp_eq c p name = Some b /\
    (if b then exists r, s = name ++ r /\ c !! (p + length name)%nat = Some (hd 0 r) else ~ exists r, s = name ++ r).
Proof.
  intros Hn. revert p s. induction Hn as [|n name Hn0 _ IH]; intros p s Hs Ht.
  - exists true. split; [done|]. exists s. split; [done|]. cbn [length]. rewrite Nat.add_0_r.
    assert (H : take (S (length s)) (drop p c) !! 0%nat = (s ++ [0]) !! 0%nat) by (by rewrite Ht).
    rewrite lookup_take_lt, lookup_drop, Nat.add_0_r in H by lia. rewrite H. by destruct s.
  - assert (H : take (S (length s)) (drop p c) !! 0%nat = (s ++ [0]) !! 0%nat) by (by rewrite Ht).
    rewrite lookup_take_lt, lookup_drop, Nat.add_0_r in H by lia. cbn [strncmp_eq].
    destruct s as [|a s]; cbn in H; rewrite H; cbn [mbind option_bind].
    + rewrite (proj2 (Z.eqb_neq 0 n)) by done. exists false. split; [done|]. by intros [r ?].
    + inversion_clear Hs as [|? ? Ha Hs']. destruct (Z.eqb_spec a n) as [<-|Hne]; cbn [negb].
      * rewrite (proj2 (Z.eqb_neq a 0)) by done.
        destruct (IH (S p) s Hs') as (b & Hb & Hr).
        { destruct (drop p c) as [|x t] eqn:Hd; [done|]. injection Ht as -> Ht.
          replace (S p) with (p + 1)%nat by lia. rewrite <- drop_drop, Hd. done. }
        exists b. split; [done|]. destruct b.
        -- destruct Hr as (r & -> & Hc). exists r. split; [done|]. rewrite <- Hc. f_equal. cbn [length]. lia.
        -- intros [r Hr']. apply Hr. exists r. by injection Hr'.
      * exists false. split; [done|]. intros [r Hr']. by injection Hr'.
Qed.

Lemma strip_prefix_app p r : strip_prefix p (p ++ r) = Some r.
Proof. induction p as [|a p IH]; cbn; [done|]. by rewrite Z.eqb_refl. Qed.

Lemma strip_prefix_Some p l r : strip_prefix p l = Some r -> l = p ++ r.
Proof.
  revert l. induction p as [|a p IH]; intros l H; cbn in H; [by injection H|].
  destruct l as [|b l]; [done|]. destruct (Z.eqb_spec a b) as [->|]; [|done]. cbn. f_equal. by apply IH.
Qed.

Lemma strip_prefix_None p l : (~ exists r, l = p ++ r) -> strip_prefix p l = None.
Proof.
  intros H. destruct (strip_prefix p l) as [r|] eqn:E; [|done]. exfalso. apply H. exists r. by apply strip_prefix_Some.
Qed.

(** The string at [p], with its terminator. *)
Lemma take_string c p : (p <= length c)%nat ->
  take (S (length (c_string (drop p c)))) (drop p (c ++ [0])) = c_string (drop p c) ++ [0].
Proof.
  intros Hp. rewrite drop_contents by done. generalize (drop p c). intros l.
  induction l as [|b l IH]; [done|]. cbn [c_string app]. destruct (Z.eqb_spec b 0) as [->|]; [done|].
  cbn [length app]. by rewrite <- IH.
Qed.

(** What is left of a string behind a prefix of it. *)
Lemma string_tail c p a v : (p <= length c)%nat -> c_string (drop p c) = a ++ v -> c_string (drop (p + length a) (c ++ [0])) = v.
Proof.
  intros Hp Hs. pose proof (take_string c p Hp) as Ht. pose proof (c_string_nonzero (drop p c)) as Hn.
  rewrite Hs in Ht, Hn. apply Forall_app in Hn as [_ Hv]. rewrite <- drop_drop.
  rewrite <- (take_drop (S (length (a ++ v))) (drop p (c ++ [0]))), Ht, <- app_assoc.
  rewrite <- app_assoc, drop_app_length. cbn [app]. rewrite c_string_app. by apply c_string_id.
Qed.

(** The loop finds the first entry of the name. *)
Lemma scan_contents fuel c name p : Forall (fun b => b <> 0) name -> (length c <= p + fuel)%nat ->
  exists r, nvram_scan fuel (c ++ [0]) (length c) name p = Some r /\
    value_of name (if (p <? length c)%nat then entries (drop p c) else []) = (fun q => c_string (drop q (c ++ [0]))) <$> r.
Proof.
  intros Hname. revert p. induction fuel as [|fuel IH]; intros p Hf.
  { exists None. cbn [nvram_scan]. rewrite (proj2 (Nat.leb_le _ _)), (proj2 (Nat.ltb_ge _ _)) by lia. done. }
  cbn [nvram_scan]. destruct (Nat.leb_spec (length c) p) as [Hp|Hp].
  { exists None. by rewrite (proj2 (Nat.ltb_ge _ _)). }
  rewrite (proj2 (Nat.ltb_lt _ _) Hp). rewrite strlen_contents by lia. cbn [mbind option_bind].
  set (s := c_string (drop p c)). set (next := nvram_scan fuel _ _ _ _).
  (* the rest of the entries are those of the next round *)
  assert (Hnext : exists r, next = Some r /\
    value_of name (if (length s <? length (drop p c))%nat then entries (drop (S (length s)) (drop p c)) else []) =
    (fun q => c_string (drop q (c ++ [0]))) <$> r).
  { destruct (IH (p + length s + 1)%nat) as (r & Hr & Hv); [lia|]. exists r. split; [done|]. rewrite <- Hv.
    rewrite drop_drop, length_drop. replace (p + S (length s))%nat with (p + length s + 1)%nat by lia.
    destruct (Nat.ltb_spec (length s) (length c - p)), (Nat.ltb_spec (p + length s + 1) (length c)); try done; try lia.
    rewrite drop_ge by lia. by destruct name. }
  clearbody next. rewrite entries_unfold. fold s. cbn [value_of].
  destruct (lookup_lt_is_Some_2 c p Hp) as [b Hb]. assert (Hb' : (c ++ [0]) !! p = Some b) by (by rewrite lookup_app_l).
  rewrite Hb'. cbn [mbind option_bind].
  pose proof (take_string c p ltac:(lia)) as Ht. fold s in Ht.
  assert (Hs : s = if b =? 0 then [] else b :: c_string (drop (S p) c)).
  { unfold s. by rewrite (drop_S _ _ _ Hb). }
  destruct (b =? 0).
  { rewrite Hs in *. destruct Hnext as (r & -> & Hv). exists r. split; [done|]. rewrite strip_prefix_None; [done|].
    intros [r' Hr']. by destruct name. }
  destruct (strncmp_contents (c ++ [0]) name p s Hname (c_string_nonzero _) Ht) as (eq & -> & Heq). cbn [mbind option_bind].
  destruct eq.
  - destruct Heq as (r & Hr & Hc). rewrite Hc. cbn [mbind option_bind]. unfold ch_equals.
    destruct (Z.eqb_spec (hd 0 r) 61) as [H61|H61].
    + exists (Some (p + length name + 1)%nat). split; [done|]. destruct r as [|x v]; [done|]. cbn in H61. subst x.
      rewrite Hr. replace (name ++ 61 :: v) with ((name ++ [61]) ++ v) by (by rewrite <- app_assoc).
      rewrite strip_prefix_app. cbn. f_equal. symmetry.
      replace (p + length name + 1)%nat with (p + length (name ++ [61%Z]))%nat by (rewrite length_app; cbn; lia).
      apply string_tail; [lia|]. fold s. by rewrite Hr, <- app_assoc.
    + destruct Hnext as (r' & -> & Hv). exists r'. split; [done|]. rewrite strip_prefix_None; [done|].
      intros [v Hv']. rewrite Hr, <- app_assoc in Hv'. apply app_inv_head in Hv'. by subst r.
  - destruct Hnext as (r' & -> & Hv). exists r'. split; [done|]. rewrite strip_prefix_None; [done|].
    intros [v Hv']. apply Heq. exists (ch_equals :: v). by rewrite Hv', <- app_assoc.
Qed.

(** Nvram_get reads nothing outside its buffer and returns the value of the first
    entry of that name, or NULL when the contents have none.  Entries are ended by
    zeros only: a value keeps its newlines.  The contents are fetched once. *)
Theorem nvram_get_spec c e name st : holds_contents c e st -> Forall (fun b => b <> 0) name ->
  exists r st', nvram_get e (Some name) st = (Some r, st') /\ loaded c st' /\
    value_of name (entries c) = (fun p => c_string (drop p (c ++ [0]))) <$> r.
Proof.
  intros Hst Hname. destruct (load_contents c e st Hst) as (st' & Hl & Hc). unfold nvram_get. rewrite Hl. cbn [negb Z.eqb].
  destruct (scan_contents (length c) c name 0 Hname) as (r & Hr & Hv); [lia|].
  exists r, st'. split; [|split; [done|]].
  { unfold loaded in Hc. subst st'. cbn [wl_nvram_buf wl_nvram_len]. by rewrite Hr. }
  rewrite <- Hv, drop_0. destruct c; [|done]. by destruct name.
Qed.

Lemma nvram_get_spec_witness :
  let c := [112; 99; 105; 61; 49; 10; 50; 0; 97; 61; 0] in
  value_of [112; 99; 105] (entries c) = Some [49; 10; 50].
Proof.
  intros c.
  destruct (nvram_get_spec c (NvramEnv (Some c) true) [112; 99; 105] nvram_0) as (r & st' & Hg & _ & ->).
  - right. repeat split; done.
  - repeat constructor; done.
  - assert (r = Some 4%nat) as -> by (vm_compute in Hg; injection Hg; intros; subst; reflexivity). reflexivity.
Defined.
