(* ===== verification/Words.v ===== *)
(** What the parts of the shadow layer share: the driver's memory, in 32-bit words at byte
    addresses, and searches in a table of distinct keys. *)
From stdpp Require Import base option list numbers gmap.
From Stdlib Require Import ZArith Lia.
From S2P Require Import Prelude.
Local Open Scope Z_scope.

Abbreviation words := (gmap Z Z).
Definition load (m : words) (a : Z) : Z := default 0 (m !! a).
Definition store (a v : Z) (m : words) : words := <[a := v]> m.

Lemma load_store a v m b : load (store a v m) b = if b =? a then v else load m b.
Proof.
  unfold load, store. destruct (Z.eqb_spec b a) as [->|]; [by rewrite lookup_insert_eq|by rewrite lookup_insert_ne].
Qed.

Lemma find_unique {A} (f : A -> bool) (g : A -> Z) l x v : NoDup (map g l) -> (forall y, f y = true <-> g y = v) ->
  x ∈ l -> g x = v -> find f l = Some x.
Proof.
  intros Hn Hf. induction l as [|y l IH]; [by intros ?%not_elem_of_nil|]. inversion_clear Hn as [|? ? Hy Hn'].
  intros Hx Hg. cbn [find]. destruct (f y) eqn:Hfy.
  - apply Hf in Hfy. apply elem_of_cons in Hx as [->|Hx]; [done|]. exfalso. apply Hy. rewrite Hfy, <- Hg.
    apply list_elem_of_fmap. eauto.
  - apply elem_of_cons in Hx as [<-|Hx]; [apply Hf in Hg; congruence|]. by apply IH.
Qed.
