(* ===== verification/ShadowTimer.v ===== *)
(** The timer translation of src/wl_shadow_timer.c: the driver's timers have the layout
    and the contract of Linux 2.6.36, the kernel's those of 6.12.  The driver's timer is
    private data of this file; a timer of the kernel stands for it, found by its address
    in a table. *)
From stdpp Require Import base option list numbers gmap.
From Stdlib Require Import ZArith Lia.
From S2P Require Import Prelude Words.
Local Open Scope Z_scope.

(** Offsets in the driver's timer_list, and its size. *)
Definition WL236_TIMER_LIST_ENTRY : Z := 0.
Definition WL236_TIMER_LIST_EXPIRES : Z := 8.
Definition WL236_TIMER_LIST_FUNCTION : Z := 16.
Definition WL236_TIMER_LIST_DATA : Z := 20.
Definition WL236_TIMER_LIST_SIZEOF : Z := 28.

(** ** The kernel's timers

    The state of the kernel's timer wheel, seen through [armed]: the expiry of the
    timer_list at an address while it is pending.  A timer that expires is dequeued
    before its callback runs. *)
Class TimerKernel := {
  kstate : Type;
  armed : kstate -> Z -> option Z;
  timer_setup : Z -> kstate -> kstate;
  add_timer : Z -> Z -> kstate -> kstate;
  mod_timer : Z -> Z -> kstate -> kstate;
  timer_delete : Z -> kstate -> kstate;
  dequeue : Z -> kstate -> kstate;
  armed_setup t k t' : armed (timer_setup t k) t' = if t' =? t then None else armed k t';
  armed_add t e k t' : armed k t = None -> armed (add_timer t e k) t' = if t' =? t then Some e else armed k t';
  armed_mod t e k t' : armed (mod_timer t e k) t' = if t' =? t then Some e else armed k t';
  armed_delete t k t' : armed (timer_delete t k) t' = if t' =? t then None else armed k t';
  armed_dequeue t k t' : armed (dequeue t k) t' = if t' =? t then None else armed k t'
}.

Definition timer_pending `{TimerKernel} (t : Z) (k : kstate) : bool := bool_decide (is_Some (armed k t)).

Section Shadow.
Context `{K : TimerKernel}.

(** wl_timer_ht as the pairs of the driver's timer and the map's address, newest first;
    the map's own timer is known by the same address. *)
Record shadow := Shadow { sh_mem : words; wl_timer_ht : list (Z * Z); sh_kernel : kstate }.

Definition blob_entry_next (s : shadow) (bt : Z) : Z := load (sh_mem s) (bt + WL236_TIMER_LIST_ENTRY).
Definition blob_expires (s : shadow) (bt : Z) : Z := load (sh_mem s) (bt + WL236_TIMER_LIST_EXPIRES).
Definition blob_function (s : shadow) (bt : Z) : Z := load (sh_mem s) (bt + WL236_TIMER_LIST_FUNCTION).
Definition blob_data (s : shadow) (bt : Z) : Z := load (sh_mem s) (bt + WL236_TIMER_LIST_DATA).

Definition assoc_find (blob : Z) (l : list (Z * Z)) : option Z := snd <$> find (fun p => fst p =? blob) l.
Definition map_find (blob : Z) (s : shadow) : option Z := assoc_find blob (wl_timer_ht s).

(** m->blob. *)
Definition blob_of (m : Z) (s : shadow) : option Z := fst <$> find (fun p => snd p =? m) (wl_timer_ht s).

Definition set_mem (f : words -> words) (s : shadow) : shadow := Shadow (f (sh_mem s)) (wl_timer_ht s) (sh_kernel s).
Definition set_kernel (f : kstate -> kstate) (s : shadow) : shadow := Shadow (sh_mem s) (wl_timer_ht s) (f (sh_kernel s)).

Definition blob_set_pending (blob m : Z) (pending : bool) : shadow -> shadow :=
  set_mem (store (blob + WL236_TIMER_LIST_ENTRY) (if pending then m else 0)).

(** ** The sections under the lock and the calls between them *)

(** The trampoline: the callback and its cookie. *)
Definition trampoline_lock (m : Z) (s : shadow) : option (Z * Z) * shadow :=
  match blob_of m s with
  | None => (None, s)
  | Some blob => (Some (blob_function s blob, blob_data s blob), blob_set_pending blob m false s)
  end.

Definition add_lock (blob : Z) (s : shadow) : option (Z * Z) * shadow :=
  match map_find blob s with
  | None => (None, s)
  | Some m => (Some (m, blob_expires s blob), blob_set_pending blob m true s)
  end.

Definition add_arm (m expires : Z) (s : shadow) : shadow :=
  set_kernel (if timer_pending m (sh_kernel s) then mod_timer m expires else add_timer m expires) s.

(** The map and what the call returns. *)
Definition del_lock (blob : Z) (s : shadow) : option Z * Z * shadow :=
  match map_find blob s with
  | None => (None, 0, s)
  | Some m => (Some m, if blob_entry_next s blob =? 0 then 0 else 1, blob_set_pending blob m false s)
  end.

Definition del_kernel (m : Z) (s : shadow) : shadow := set_kernel (timer_delete m) s.

(** ** The entry points, uninterrupted *)

(** [alloc] is the memory for a new map, if there is any. *)
Definition wl_shim_init_timer_key (alloc : option Z) (blob : Z) (s : shadow) : shadow :=
  match map_find blob s with
  | Some dup => blob_set_pending blob dup false (set_kernel (timer_delete dup) s)
  | None =>
      match alloc with
      | None => s
      | Some m =>
          let s := blob_set_pending blob m false (set_kernel (timer_setup m) s) in
          Shadow (sh_mem s) ((blob, m) :: wl_timer_ht s) (sh_kernel s)
      end
  end.

Definition wl_shim_add_timer (blob : Z) (s : shadow) : shadow :=
  match add_lock blob s with
  | (None, s) => s
  | (Some (m, expires), s) => add_arm m expires s
  end.

Definition wl_shim_del_timer (blob : Z) (s : shadow) : Z * shadow :=
  match del_lock blob s with
  | (None, r, s) => (r, s)
  | (Some m, r, s) => (r, del_kernel m s)
  end.

(** The callback is called unless it is NULL. *)
Definition callback (call : option (Z * Z)) : option (Z * Z) := '(fn, data) ← call; if fn =? 0 then None else Some (fn, data).

(** The kernel's timer expires: it is dequeued and calls the trampoline. *)
Definition wl_timer_trampoline (m : Z) (s : shadow) : option (Z * Z) * shadow :=
  let '(call, s) := trampoline_lock m (set_kernel (dequeue m) s) in (callback call, s).

(** Every entry is deleted and freed. *)
Definition wl_shadow_timer_exit (s : shadow) : shadow :=
  Shadow (sh_mem s) [] (fold_left (fun k p => timer_delete (snd p) k) (wl_timer_ht s) (sh_kernel s)).

(** ** What the driver and the kernel do, one after the other *)

Inductive op :=
  | OStore (a v : Z)                       (* the driver writes a word *)
  | OLoad (a : Z)                          (* the driver reads a word *)
  | OInit (alloc : option Z) (t : Z)
  | OAdd (t : Z)
  | ODel (t : Z)
  | OPending (t : Z)                       (* 2.6.36's timer_pending, inlined in the driver *)
  | OExpire (t : Z).                       (* the kernel's timer for [t] expires *)

Inductive out := RNone | RVal (v : Z) | RCall (fn data : Z).

Definition call_out (c : option (Z * Z)) : out := match c with Some (fn, data) => RCall fn data | None => RNone end.

(** [None]: the kernel does not do that. *)
Definition shadow_step (o : op) (s : shadow) : option (out * shadow) :=
  match o with
  | OStore a v => Some (RNone, set_mem (store a v) s)
  | OLoad a => Some (RVal (load (sh_mem s) a), s)
  | OInit alloc t => Some (RNone, wl_shim_init_timer_key alloc t s)
  | OAdd t => Some (RNone, wl_shim_add_timer t s)
  | ODel t => let '(r, s) := wl_shim_del_timer t s in Some (RVal r, s)
  | OPending t => Some (RVal (if blob_entry_next s t =? 0 then 0 else 1), s)
  | OExpire t =>
      m ← map_find t s;
      if timer_pending m (sh_kernel s) then let '(c, s) := wl_timer_trampoline m s in Some (call_out c, s) else None
  end.

(** ** The timers of 2.6.36

    Its memory, and for every initialised timer when it is due, if it is pending. *)
Record timers := Timers { tm_mem : words; tm_pending : gmap Z (option Z) }.

Definition apart (t t' : Z) : bool :=
  (t + WL236_TIMER_LIST_SIZEOF <=? t') || (t' + WL236_TIMER_LIST_SIZEOF <=? t).

(** A word the driver may use: not the list entry of a timer. *)
Definition plain (st : timers) (a : Z) : bool :=
  forallb (fun p => negb (a =? fst p + WL236_TIMER_LIST_ENTRY)) (map_to_list (tm_pending st)).

Definition set_pending (t : Z) (p : option Z) (st : timers) : timers := Timers (tm_mem st) (<[t := p]> (tm_pending st)).
Definition is_pending (p : option Z) : Z := match p with Some _ => 1 | None => 0 end.

(** [None]: the driver misuses the interface. *)
Definition timers_step (o : op) (st : timers) : option (out * timers) :=
  match o with
  | OStore a v => if plain st a then Some (RNone, Timers (store a v (tm_mem st)) (tm_pending st)) else None
  | OLoad a => if plain st a then Some (RVal (load (tm_mem st) a), st) else None
  | OInit alloc t =>
      match tm_pending st !! t, alloc with
      | Some _, _ => Some (RNone, set_pending t None st)
      | None, Some _ =>
          if forallb (fun p => apart t (fst p)) (map_to_list (tm_pending st)) then Some (RNone, set_pending t None st) else None
      | None, None => Some (RNone, st)
      end
  | OAdd t =>
      tm_pending st !! t ≫= fun _ => Some (RNone, set_pending t (Some (load (tm_mem st) (t + WL236_TIMER_LIST_EXPIRES))) st)
  | ODel t => p ← tm_pending st !! t; Some (RVal (is_pending p), set_pending t None st)
  | OPending t => p ← tm_pending st !! t; Some (RVal (is_pending p), st)
  | OExpire t =>
      p ← tm_pending st !! t;
      _ ← (p : option Z);
      Some (call_out (callback (Some (load (tm_mem st) (t + WL236_TIMER_LIST_FUNCTION), load (tm_mem st) (t + WL236_TIMER_LIST_DATA)))),
            set_pending t None st)
  end.

Fixpoint run {S} (step : op -> S -> option (out * S)) (ops : list op) (s : S) : option (list out) :=
  match ops with
  | [] => Some []
  | o :: ops =>
      '(r, s) ← step o s;
      rs ← run step ops s;
      Some (r :: rs)
  end.

(** The memory the allocator hands out: never twice, never at address 0. *)
Definition allocs (ops : list op) : list Z := omap (fun o => match o with OInit alloc _ => alloc | _ => None end) ops.

(** ** The simulation *)

(** How the shadow represents a timer that is due at [p]. *)
Definition represents (s : shadow) (t : Z) (p : option Z) : Prop :=
  exists m, map_find t s = Some m /\ m <> 0 /\ armed (sh_kernel s) m = p /\
    blob_entry_next s t = match p with Some _ => m | None => 0 end.

Record sim (fresh : list Z) (st : timers) (s : shadow) : Prop := {
  sim_keys : NoDup (map fst (wl_timer_ht s));
  sim_maps : NoDup (map snd (wl_timer_ht s));
  sim_fresh : Forall (fun m => m ∉ fresh) (map snd (wl_timer_ht s));
  sim_none t : tm_pending st !! t = None -> map_find t s = None;
  sim_some t p : tm_pending st !! t = Some p -> represents s t p;
  sim_apart t t' p p' : tm_pending st !! t = Some p -> tm_pending st !! t' = Some p' -> t <> t' -> apart t t' = true;
  sim_mem a : (forall t p, tm_pending st !! t = Some p -> a <> t) -> load (sh_mem s) a = load (tm_mem st) a
}.

(** *** The table *)

Lemma map_find_elem t m s : map_find t s = Some m -> (t, m) ∈ wl_timer_ht s.
Proof.
  unfold map_find, assoc_find. destruct (find _ _) as [[t' m']|] eqn:E; [|done]. intros [= <-].
  apply find_some in E as [Hi He%Z.eqb_eq]. cbn in *. subst t'. by apply list_elem_of_In.
Qed.

Lemma elem_map_find t m s : NoDup (map fst (wl_timer_ht s)) -> (t, m) ∈ wl_timer_ht s -> map_find t s = Some m.
Proof.
  intros Hn Hi. unfold map_find, assoc_find. rewrite (find_unique _ fst _ (t, m) t Hn); [done| |done|done].
  intros y. apply Z.eqb_eq.
Qed.

Lemma map_find_blob t m s : NoDup (map snd (wl_timer_ht s)) -> map_find t s = Some m -> blob_of m s = Some t.
Proof.
  intros Hn Hi%map_find_elem. unfold blob_of. rewrite (find_unique _ snd _ (t, m) m Hn); [done| |done|done].
  intros y. apply Z.eqb_eq.
Qed.

(** *** Preservation *)

Lemma plain_spec st a : plain st a = true <-> forall t p, tm_pending st !! t = Some p -> a <> t.
Proof.
  unfold plain. rewrite forallb_forall. unfold WL236_TIMER_LIST_ENTRY. split.
  - intros H t p Hp ->. specialize (H (t, p)). rewrite <- list_elem_of_In, elem_of_map_to_list in H.
    specialize (H Hp). cbn in H. by rewrite Z.add_0_r, Z.eqb_refl in H.
  - intros H [t p] Hi%list_elem_of_In%elem_of_map_to_list. cbn. rewrite Z.add_0_r. apply negb_true_iff, Z.eqb_neq. eauto.
Qed.

Lemma apart_sym t t' : apart t t' = apart t' t.
Proof. unfold apart. apply orb_comm. Qed.

Lemma apart_word t t' i : apart t t' = true -> 0 <= i < WL236_TIMER_LIST_SIZEOF -> t + i <> t'.
Proof. unfold apart. intros [H%Z.leb_le|H%Z.leb_le]%orb_true_iff; unfold WL236_TIMER_LIST_SIZEOF in *; lia. Qed.

(** The driver's own words of an initialised timer are no entry of any timer. *)
Lemma timer_word fresh st s t p i : sim fresh st s -> tm_pending st !! t = Some p -> 0 < i < WL236_TIMER_LIST_SIZEOF ->
  load (sh_mem s) (t + i) = load (tm_mem st) (t + i).
Proof.
  intros Hs Ht Hi. apply (sim_mem _ _ _ Hs). intros t' p' Ht'. destruct (decide (t = t')) as [<-|Hne]; [lia|].
  apply apart_word; [|lia]. by apply (sim_apart _ _ _ Hs t t' p p').
Qed.

(** One timer of the table changes. *)
Lemma sim_update fresh st s s' t m p p' : sim fresh st s -> tm_pending st !! t = Some p -> map_find t s = Some m ->
  wl_timer_ht s' = wl_timer_ht s ->
  sh_mem s' = store t (match p' with Some _ => m | None => 0 end) (sh_mem s) ->
  (forall m', armed (sh_kernel s') m' = if m' =? m then p' else armed (sh_kernel s) m') ->
  sim fresh (set_pending t p' st) s'.
Proof.
  intros [Hk Hm Hf Hn Hsome Ha Hmem] Ht Hfind Hht Hms Hks.
  assert (Hfs : forall t', map_find t' s' = map_find t' s) by (intros; unfold map_find; by rewrite Hht).
  split; rewrite ?Hht; try done; cbn [set_pending tm_pending tm_mem].
  - intros t' [Hn' _]%lookup_insert_None. rewrite Hfs. by apply Hn.
  - intros t' q Hq. destruct (decide (t = t')) as [<-|Hne].
    + rewrite lookup_insert_eq in Hq. injection Hq as <-. destruct (Hsome t p Ht) as (m' & Hm' & H0 & _ & _).
      rewrite Hfind in Hm'. injection Hm' as <-. exists m. rewrite Hfs, Hks, Z.eqb_refl. repeat split; try done.
      unfold blob_entry_next, WL236_TIMER_LIST_ENTRY. rewrite Hms, Z.add_0_r, load_store, Z.eqb_refl. by destruct p'.
    + rewrite lookup_insert_ne in Hq by done. destruct (Hsome t' q Hq) as (m' & Hm' & H0 & Har & He).
      exists m'. rewrite Hfs, Hks. assert (m' <> m).
      { intros ->. apply (map_find_blob _ _ _ Hm) in Hm', Hfind. congruence. }
      rewrite (proj2 (Z.eqb_neq m' m)) by done. repeat split; try done.
      unfold blob_entry_next, WL236_TIMER_LIST_ENTRY in *. rewrite Hms, Z.add_0_r in *. rewrite load_store.
      by rewrite (proj2 (Z.eqb_neq t' t)) by done.
  - intros t1 t2 p1 p2 H1 H2 Hne.
    assert (Hin : forall x q, <[t := p']> (tm_pending st) !! x = Some q -> exists q', tm_pending st !! x = Some q').
    { intros x q Hx. destruct (decide (t = x)) as [<-|]; [eauto|]. rewrite lookup_insert_ne in Hx by done. eauto. }
    destruct (Hin _ _ H1) as [q1 Hq1], (Hin _ _ H2) as [q2 Hq2]. eauto.
  - intros a Hp. rewrite Hms, load_store.
    assert (a <> t) by (apply (Hp t p'); by rewrite lookup_insert_eq).
    rewrite (proj2 (Z.eqb_neq a t)) by done. apply Hmem. intros t' q Hq. destruct (decide (t = t')) as [<-|]; [done|].
    apply (Hp t' q). by rewrite lookup_insert_ne.
Qed.

(** A timer that was not in the table. *)
Lemma sim_init fresh st s t m : sim (m :: fresh) st s -> m <> 0 -> m ∉ fresh -> tm_pending st !! t = None ->
  (forall t' p, tm_pending st !! t' = Some p -> apart t t' = true) ->
  sim fresh (set_pending t None st) (wl_shim_init_timer_key (Some m) t s).
Proof.
  intros [Hk Hm Hf Hn Hsome Ha Hmem] H0 Hm0 Ht Hap. unfold wl_shim_init_timer_key. rewrite (Hn t Ht).
  assert (Hmn : m ∉ map snd (wl_timer_ht s)).
  { intros Hi. rewrite Forall_forall in Hf. apply (Hf m Hi). left. }
  assert (Htn : t ∉ map fst (wl_timer_ht s)).
  { intros Hi. apply list_elem_of_fmap in Hi as ([t' m'] & -> & Hi). apply (elem_map_find _ _ _ Hk) in Hi. cbn in *.
    rewrite Hn in Hi; done. }
  assert (Hfs : forall t' mem k, map_find t' (Shadow mem ((t, m) :: wl_timer_ht s) k) = if t =? t' then Some m else map_find t' s).
  { intros. unfold map_find, assoc_find. cbn [wl_timer_ht find fst]. by destruct (t =? t'). }
  split; cbn [set_pending tm_pending tm_mem wl_timer_ht sh_mem sh_kernel blob_set_pending set_mem set_kernel map fst snd].
  - by constructor.
  - by constructor.
  - constructor; [done|]. eapply Forall_impl; [exact Hf|]. intros x Hx Hi. apply Hx. by right.
  - intros t' [Hn' Hne]%lookup_insert_None. rewrite Hfs, (proj2 (Z.eqb_neq t t')) by done. by apply Hn.
  - intros t' q Hq. destruct (decide (t = t')) as [<-|Hne].
    + rewrite lookup_insert_eq in Hq. injection Hq as <-. exists m. rewrite Hfs, Z.eqb_refl. cbn [sh_kernel].
      rewrite armed_setup, Z.eqb_refl. repeat split; try done. unfold blob_entry_next, WL236_TIMER_LIST_ENTRY. cbn [sh_mem].
      by rewrite !Z.add_0_r, load_store, Z.eqb_refl.
    + rewrite lookup_insert_ne in Hq by done. destruct (Hsome t' q Hq) as (m' & Hm' & H0' & Har & He).
      exists m'. rewrite Hfs, (proj2 (Z.eqb_neq t t')) by done. cbn [sh_kernel]. rewrite armed_setup.
      assert (m' <> m).
      { intros ->. apply Hmn. apply map_find_elem in Hm'. apply list_elem_of_fmap. by exists (t', m). }
      rewrite (proj2 (Z.eqb_neq m' m)) by done. repeat split; try done.
      unfold blob_entry_next, WL236_TIMER_LIST_ENTRY in *. cbn [sh_mem]. rewrite !Z.add_0_r in *. rewrite load_store.
      by rewrite (proj2 (Z.eqb_neq t' t)) by done.
  - intros t1 t2 p1 p2 H1 H2 Hne. destruct (decide (t = t1)) as [<-|H1n].
    + rewrite lookup_insert_ne in H2 by done. eauto.
    + rewrite lookup_insert_ne in H1 by done. destruct (decide (t = t2)) as [<-|H2n].
      * rewrite apart_sym. eauto.
      * rewrite lookup_insert_ne in H2 by done. eauto.
  - intros a Hp. unfold WL236_TIMER_LIST_ENTRY. rewrite Z.add_0_r, load_store.
    assert (a <> t) by (apply (Hp t None); by rewrite lookup_insert_eq).
    rewrite (proj2 (Z.eqb_neq a t)) by done. apply Hmem. intros t' q Hq. destruct (decide (t = t')) as [<-|]; [done|].
    apply (Hp t' q). by rewrite lookup_insert_ne.
Qed.

Lemma sim_weaken fresh fresh' st s : sim fresh st s -> fresh' ⊆ fresh -> sim fresh' st s.
Proof.
  intros [Hk Hm Hf Hn Hsome Ha Hmem] Hsub. split; try done. eapply Forall_impl; [exact Hf|]. intros x Hx Hi. by apply Hx, Hsub.
Qed.

Lemma sim_store fresh st s a v : sim fresh st s -> plain st a = true ->
  sim fresh (Timers (store a v (tm_mem st)) (tm_pending st)) (set_mem (store a v) s).
Proof.
  intros [Hk Hm Hf Hn Hsome Ha Hmem] Hp. rewrite plain_spec in Hp. split; try done; cbn [tm_pending tm_mem set_mem sh_mem].
  - intros t p Ht. destruct (Hsome t p Ht) as (m & H1 & H2 & H3 & H4). exists m. repeat split; try done.
    unfold blob_entry_next, WL236_TIMER_LIST_ENTRY in *. cbn [sh_mem set_mem]. rewrite Z.add_0_r in *. rewrite load_store.
    rewrite (proj2 (Z.eqb_neq t a)); [done|]. intros ->. by apply (Hp a p).
  - intros b Hb. rewrite !load_store. destruct (b =? a); [done|]. by apply Hmem.
Qed.

(** *** The steps *)

Definition op_alloc (o : op) : list Z := match o with OInit (Some m) _ => [m] | _ => [] end.

Lemma allocs_cons o ops : allocs (o :: ops) = op_alloc o ++ allocs ops.
Proof. destruct o as [| |[m|]| | | |]; done. Qed.

(** Each step of the old timers is a step of the shadow with the same outcome. *)
Lemma sim_step fresh st s o r st' : sim (op_alloc o ++ fresh) st s -> NoDup (op_alloc o ++ fresh) -> Forall (fun m => m <> 0) (op_alloc o) ->
  timers_step o st = Some (r, st') -> exists s', shadow_step o s = Some (r, s') /\ sim fresh st' s'.
Proof.
  intros Hs Hnd H0 Ho. destruct o as [a v|a|alloc t|t|t|t|t]; cbn [timers_step op_alloc app] in *.
  - destruct (plain st a) eqn:Hp; [|done]. injection Ho as <- <-. eexists. split; [reflexivity|]. by apply sim_store.
  - destruct (plain st a) eqn:Hp; [|done]. injection Ho as <- <-. exists s. split; [|done]. cbn [shadow_step].
    rewrite (sim_mem _ _ _ Hs); [done|]. by apply plain_spec.
  - destruct (tm_pending st !! t) as [p|] eqn:Ht.
    + injection Ho as <- <-. eexists. split; [reflexivity|].
      pose proof (sim_some _ _ _ Hs t p Ht) as (m & Hm & _). unfold wl_shim_init_timer_key. rewrite Hm.
      apply (sim_update fresh st s _ t m p); try done.
      * eapply sim_weaken; [exact Hs|]. intros x Hx. destruct alloc; [by right|done].
      * cbn. by rewrite Z.add_0_r.
      * intros m'. cbn. apply armed_delete.
    + destruct alloc as [m|].
      * destruct (forallb _ _) eqn:Hap; [|done]. injection Ho as <- <-. eexists. split; [reflexivity|].
        inversion_clear H0. inversion_clear Hnd. apply sim_init; try done. intros t' p' Ht'.
        rewrite forallb_forall in Hap. apply (Hap (t', p')), list_elem_of_In. by apply elem_of_map_to_list.
      * injection Ho as <- <-. eexists. split; [reflexivity|]. unfold wl_shim_init_timer_key.
        by rewrite (sim_none _ _ _ Hs t Ht).
  - destruct (tm_pending st !! t) as [p|] eqn:Ht; [|done]. injection Ho as <- <-. eexists. split; [reflexivity|].
    pose proof (sim_some _ _ _ Hs t p Ht) as (m & Hm & Hm0 & Har & He). unfold wl_shim_add_timer, add_lock. rewrite Hm.
    unfold blob_expires. rewrite (timer_word _ _ _ t p _ Hs Ht) by (unfold WL236_TIMER_LIST_EXPIRES, WL236_TIMER_LIST_SIZEOF; lia).
    apply (sim_update fresh st s _ t m p); try done.
    + cbn. by rewrite Z.add_0_r.
    + intros m'. cbn. unfold timer_pending. case_bool_decide as Hp; [apply armed_mod|apply armed_add].
      by apply eq_None_not_Some.
  - destruct (tm_pending st !! t) as [p|] eqn:Ht; [|done]. injection Ho as <- <-.
    pose proof (sim_some _ _ _ Hs t p Ht) as (m & Hm & Hm0 & Har & He). cbn [shadow_step]. unfold wl_shim_del_timer, del_lock.
    rewrite Hm, He. eexists. split; [do 3 f_equal; destruct p; [by rewrite (proj2 (Z.eqb_neq m 0))|done]|].
    apply (sim_update fresh st s _ t m p); try done.
    + cbn. by rewrite Z.add_0_r.
    + intros m'. cbn. apply armed_delete.
  - destruct (tm_pending st !! t) as [p|] eqn:Ht; [|done]. injection Ho as <- <-.
    pose proof (sim_some _ _ _ Hs t p Ht) as (m & Hm & Hm0 & Har & He). exists s. split; [|done]. cbn [shadow_step]. rewrite He.
    do 3 f_equal. destruct p; [by rewrite (proj2 (Z.eqb_neq m 0))|done].
  - destruct (tm_pending st !! t) as [[e|]|] eqn:Ht; [|done|done]. cbn in Ho. injection Ho as <- <-.
    pose proof (sim_some _ _ _ Hs t _ Ht) as (m & Hm & Hm0 & Har & He). cbn [shadow_step]. rewrite Hm. cbn [mbind option_bind].
    unfold timer_pending. rewrite Har, bool_decide_true by eauto. unfold wl_timer_trampoline, trampoline_lock.
    assert (Hb : blob_of m (set_kernel (dequeue m) s) = Some t) by (apply map_find_blob; [apply (sim_maps _ _ _ Hs)|done]).
    rewrite Hb. unfold blob_function, blob_data. cbn [sh_mem set_kernel].
    rewrite !(timer_word _ _ _ t _ _ Hs Ht) by (unfold WL236_TIMER_LIST_FUNCTION, WL236_TIMER_LIST_DATA, WL236_TIMER_LIST_SIZEOF; lia).
    eexists. split; [reflexivity|]. apply (sim_update fresh st s _ t m (Some e)); try done.
    + cbn. by rewrite Z.add_0_r.
    + intros m'. cbn. apply armed_dequeue.
Qed.

Lemma sim_run ops fresh st s outs : sim (allocs ops ++ fresh) st s -> NoDup (allocs ops ++ fresh) -> Forall (fun m => m <> 0) (allocs ops) ->
  run timers_step ops st = Some outs -> run shadow_step ops s = Some outs.
Proof.
  revert st s outs. induction ops as [|o ops IH]; intros st s outs Hs Hnd H0 Hr; [done|].
  rewrite allocs_cons, <- app_assoc in Hs, Hnd. rewrite allocs_cons in H0. apply Forall_app in H0 as [H0 H0'].
  cbn [run] in *. destruct (timers_step o st) as [[r st']|] eqn:Ho; [|done]. cbn [mbind option_bind] in *.
  destruct (run timers_step ops st') as [rs|] eqn:Hrs; [|done]. injection Hr as <-.
  destruct (sim_step _ _ _ _ _ _ Hs Hnd H0 Ho) as (s' & -> & Hs'). cbn [mbind option_bind].
  apply NoDup_app in Hnd as (_ & _ & Hnd). by rewrite (IH _ _ _ Hs' Hnd H0' Hrs).
Qed.

Lemma sim_start fresh m k : sim fresh (Timers m ∅) (Shadow m [] k).
Proof. split; cbn; try done; try constructor; intros; by simplify_map_eq. Qed.


(** ** The window of the trampoline

    The kernel has dequeued the timer of [t]; the trampoline does not have the lock yet. *)
Definition in_window (m : Z) (s : shadow) : shadow := set_kernel (dequeue m) s.

(** In the window between the kernel's dequeueing and the trampoline's section the
    driver's pending flag is stale.  A del_timer there reports that it dequeued a timer
    although none was pending, and the callback still runs after it; an add_timer there
    arms the timer, but the trampoline then clears the flag, so the driver sees the armed
    timer as idle and del_timer, dequeueing it, reports that it did not. *)
Theorem timer_window_races fresh st s t m e : sim fresh st s -> tm_pending st !! t = Some (Some e) -> map_find t s = Some m ->
  let w := in_window m s in
  let fn := load (tm_mem st) (t + WL236_TIMER_LIST_FUNCTION) in
  let data := load (tm_mem st) (t + WL236_TIMER_LIST_DATA) in
  (armed (sh_kernel w) m = None /\
   let '(r, w') := wl_shim_del_timer t w in r = 1 /\ fst (trampoline_lock m w') = Some (fn, data)) /\
  (let '(_, w') := trampoline_lock m (wl_shim_add_timer t w) in
   armed (sh_kernel w') m = Some (load (tm_mem st) (t + WL236_TIMER_LIST_EXPIRES)) /\ blob_entry_next w' t = 0 /\
   let '(r, w'') := wl_shim_del_timer t w' in r = 0 /\ armed (sh_kernel w'') m = None).
Proof.
  intros Hs Ht Hm w fn data. pose proof (sim_some _ _ _ Hs t _ Ht) as (m' & Hm' & H0 & Har & He).
  rewrite Hm in Hm'. injection Hm' as <-.
  assert (Hf : forall mem k, map_find t (Shadow mem (wl_timer_ht s) k) = Some m) by done.
  assert (Hb : forall mem k, blob_of m (Shadow mem (wl_timer_ht s) k) = Some t).
  { intros. apply map_find_blob; [apply (sim_maps _ _ _ Hs)|done]. }
  assert (Hk : armed (dequeue m (sh_kernel s)) m = None) by (by rewrite armed_dequeue, Z.eqb_refl).
  assert (Hl : forall i v, 0 < i < WL236_TIMER_LIST_SIZEOF -> load (store (t + 0) v (sh_mem s)) (t + i) = load (tm_mem st) (t + i)).
  { intros i v Hi. rewrite load_store, (proj2 (Z.eqb_neq _ _)) by lia. by apply (timer_word _ _ _ _ _ _ Hs Ht). }
  unfold blob_entry_next, WL236_TIMER_LIST_ENTRY in He. split.
  - split; [exact Hk|]. unfold wl_shim_del_timer, del_lock, w, in_window, set_kernel. rewrite Hf.
    unfold del_kernel, set_kernel, blob_set_pending, set_mem, trampoline_lock. cbn [sh_mem wl_timer_ht sh_kernel]. rewrite Hb.
    unfold blob_entry_next, blob_function, blob_data, WL236_TIMER_LIST_ENTRY. cbn [sh_mem]. rewrite He, !Hl, (proj2 (Z.eqb_neq m 0)) by done.
    done.
  - unfold wl_shim_add_timer, add_lock, w, in_window, set_kernel. rewrite Hf.
    unfold add_arm, set_kernel, blob_set_pending, set_mem, trampoline_lock. cbn [sh_mem wl_timer_ht sh_kernel]. rewrite Hb.
    cbn [sh_mem wl_timer_ht sh_kernel]. unfold timer_pending. rewrite Hk, bool_decide_false by (by intros []).
    cbv beta iota. unfold blob_set_pending, set_mem, blob_expires. cbn [sh_mem wl_timer_ht sh_kernel].
    rewrite armed_add, Z.eqb_refl by done. cbn [sh_mem].
    rewrite (timer_word _ _ _ _ _ _ Hs Ht) by done. split; [done|].
    unfold blob_entry_next, WL236_TIMER_LIST_ENTRY. cbn [sh_mem]. rewrite load_store, Z.eqb_refl. split; [done|].
    unfold wl_shim_del_timer, del_lock. rewrite Hf. unfold blob_entry_next, WL236_TIMER_LIST_ENTRY. cbn [sh_mem].
    rewrite load_store, Z.eqb_refl. split; [done|]. cbn. by rewrite armed_delete, Z.eqb_refl.
Qed.

End Shadow.

(** ** Witnesses *)

(** A timer wheel: when each pending timer is due. *)
#[global] Program Instance wheel : TimerKernel := {|
  kstate := gmap Z Z;
  armed k t := k !! t;
  timer_setup := base.delete;
  add_timer t e k := <[t := e]> k;
  mod_timer t e k := <[t := e]> k;
  timer_delete := base.delete;
  dequeue := base.delete
|}.
Solve All Obligations with
  intros; cbn; match goal with |- context [?a =? ?b] => destruct (Z.eqb_spec a b) as [->|] end; by simplify_map_eq.

Definition demo_ops : list op :=
  [OInit (Some 500) 64; OStore 80 7; OStore 84 9; OStore 72 1000; OAdd 64; OPending 64; OExpire 64; OPending 64; OAdd 64; ODel 64; ODel 64].


(** A pending timer of the driver at 64, with its map at 500. *)
Definition demo_mem : words := {[80 := 7; 84 := 9; 72 := 1000]}.
Definition demo_timers : timers := Timers demo_mem {[64 := Some 1000]}.
Definition demo_shadow : shadow := Shadow (<[64 := 500]> demo_mem) [(64, 500)] ({[500 := 1000]} : gmap Z Z).

Lemma demo_sim : sim [] demo_timers demo_shadow.
Proof.
  split; cbn.
  - apply NoDup_singleton.
  - apply NoDup_singleton.
  - repeat constructor. by intros ?%not_elem_of_nil.
  - intros t Ht%lookup_singleton_None. destruct (map_find t demo_shadow) as [m|] eqn:E; [|done].
    apply map_find_elem, list_elem_of_singleton in E. by injection E.
  - intros t p [<- <-]%lookup_singleton_Some. by exists 500.
  - by intros t t' p p' [<- _]%lookup_singleton_Some [<- _]%lookup_singleton_Some.
  - intros a Ha. assert (a <> 64) by (apply (Ha 64 (Some 1000)); by simplify_map_eq). unfold load. by simplify_map_eq.
Qed.

Lemma timer_window_races_witness : let '(r, w) := wl_shim_del_timer 64 (in_window 500 demo_shadow) in
  r = 1 /\ fst (trampoline_lock 500 w) = Some (7, 9).
Proof. apply (timer_window_races [] demo_timers demo_shadow 64 500 1000); [exact demo_sim|reflexivity|reflexivity]. Defined.
