(* ===== verification/ShadowTasklet.v ===== *)
(** The tasklet translation of src/wl_shadow_tasklet.c.  The driver tests and sets the
    SCHED bit of its own tasklet before it calls the entry point, so the shadow must clear
    that bit whenever the tasklet runs; otherwise it runs once and never again. *)
From stdpp Require Import base option list numbers gmap.
From Stdlib Require Import ZArith Lia.
From S2P Require Import Prelude Words.
Local Open Scope Z_scope.

Definition WL236_TASKLET_STRUCT_STATE : Z := 4.
Definition TASKLET_STATE_SCHED : Z := 0.

(** ** The kernel's tasklets

    [sched]: the tasklet at that address waits to be run.  The softirq takes it off its
    list before it calls the function; tasklet_kill returns once it neither waits nor
    runs. *)
Class TaskletKernel := {
  kstate : Type;
  sched : kstate -> Z -> bool;
  tasklet_setup : Z -> kstate -> kstate;
  tasklet_schedule : Z -> kstate -> kstate;
  tasklet_take : Z -> kstate -> kstate;
  tasklet_kill : Z -> kstate -> kstate;
  sched_setup m k m' : sched (tasklet_setup m k) m' = if m' =? m then false else sched k m';
  sched_schedule m k m' : sched (tasklet_schedule m k) m' = if m' =? m then true else sched k m';
  sched_take m k m' : sched (tasklet_take m k) m' = if m' =? m then false else sched k m';
  sched_kill m k m' : sched (tasklet_kill m k) m' = if m' =? m then false else sched k m'
}.

(** struct wl_tasklet_map, at the address [tk_map]. *)
Record tmap := TMap { tk_map : Z; tk_blob : Z; tk_func : Z; tk_data : Z }.

(** What has begun and is not done: the driver has set its bit and is about to call the
    entry point; the entry point has found the map; the trampoline has been entered;
    it has cleared the bit; a repeated tasklet_init is about to clear the bit. *)
Inductive task := TSched (t : Z) | TKick (m : Z) | TRun (m : Z) | TFunc (m : Z) | TClear (t : Z).

Section Shadow.
Context `{K : TaskletKernel}.

Record shadow := Shadow { sh_mem : words; wl_tasklet_ht : list tmap; sh_kernel : kstate; sh_tasks : list task }.

Definition blob_state (t : Z) : Z := t + WL236_TASKLET_STRUCT_STATE.
Definition mem_bit (t : Z) (mem : words) : bool := Z.testbit (load mem (blob_state t)) TASKLET_STATE_SCHED.
Definition sched_bit (t : Z) (s : shadow) : bool := mem_bit t (sh_mem s).
Definition clear_bit (t : Z) (mem : words) : words :=
  store (blob_state t) (Z.clearbit (load mem (blob_state t)) TASKLET_STATE_SCHED) mem.
Definition set_bit (t : Z) (mem : words) : words :=
  store (blob_state t) (Z.setbit (load mem (blob_state t)) TASKLET_STATE_SCHED) mem.

Definition map_find (t : Z) (s : shadow) : option tmap := find (fun e => tk_blob e =? t) (wl_tasklet_ht s).
Definition with_mem (f : words -> words) (s : shadow) : shadow := Shadow (f (sh_mem s)) (wl_tasklet_ht s) (sh_kernel s) (sh_tasks s).
Definition with_kernel (f : kstate -> kstate) (s : shadow) : shadow :=
  Shadow (sh_mem s) (wl_tasklet_ht s) (f (sh_kernel s)) (sh_tasks s).
Definition with_ht (f : list tmap -> list tmap) (s : shadow) : shadow :=
  Shadow (sh_mem s) (f (wl_tasklet_ht s)) (sh_kernel s) (sh_tasks s).
Definition with_tasks (f : list task -> list task) (s : shadow) : shadow :=
  Shadow (sh_mem s) (wl_tasklet_ht s) (sh_kernel s) (f (sh_tasks s)).

(** ** The entry points *)

(** A repeated init takes over the function and its cookie; the bit is cleared after the
    lock is released.  [alloc] is the memory for a new map, if there is any. *)
Definition wl_shim_tasklet_init (alloc : option Z) (t func data : Z) (s : shadow) : shadow :=
  if t =? 0 then s
  else match map_find t s with
       | Some dup =>
           with_tasks (cons (TClear t))
             (with_ht (map (fun e => if tk_blob e =? t then TMap (tk_map e) t func data else e)) s)
       | None =>
           match alloc with
           | None => s
           | Some m => with_ht (cons (TMap m t func data)) (with_mem (clear_bit t) (with_kernel (tasklet_setup m) s))
           end
       end.

(** The lookup; the kernel's tasklet is scheduled after the lock is released. *)
Definition wl_shim___tasklet_schedule (t : Z) (s : shadow) : shadow :=
  match map_find t s with
  | None => s
  | Some e => with_tasks (cons (TKick (tk_map e))) s
  end.

(** The driver's inlined tasklet_schedule. *)
Definition driver_schedule (t : Z) (s : shadow) : shadow :=
  if sched_bit t s then s else with_tasks (cons (TSched t)) (with_mem (set_bit t) s).

(** The trampoline up to the call of the function. *)
Definition wl_tasklet_tramp (e : tmap) (s : shadow) : shadow :=
  with_tasks (cons (TFunc (tk_map e))) (with_mem (clear_bit (tk_blob e)) s).

(** Once the kernel's tasklet_kill has returned. *)
Definition wl_shim_tasklet_kill (t : Z) (s : shadow) : shadow :=
  match map_find t s with
  | None => s
  | Some e =>
      with_mem (clear_bit t)
        (with_kernel (tasklet_kill (tk_map e)) (with_ht (filter (fun e => tk_blob e <> t)) s))
  end.

Definition wl_shadow_tasklet_exit (s : shadow) : shadow :=
  with_ht (fun _ => []) (with_kernel (fun k => fold_left (fun k e => tasklet_kill (tk_map e) k) (wl_tasklet_ht s) k) s).

(** ** Interleavings *)

Inductive event := ENone | ESchedule (t : Z) | ECall (m func data : Z) | EKill (t : Z).

(** The task [x] is one of those of [s]; the others are those of [s']. *)
Definition takes (x : task) (s s' : shadow) : Prop :=
  exists l r, sh_tasks s = l ++ x :: r /\ s' = with_tasks (fun _ => l ++ r) s.

(** tasklet_kill waits for this, and its caller sees to it that nobody schedules. *)
Definition idle (e : tmap) (s : shadow) : Prop :=
  sched (sh_kernel s) (tk_map e) = false /\
  forall x, x ∈ sh_tasks s -> x <> TSched (tk_blob e) /\ x <> TKick (tk_map e) /\ x <> TRun (tk_map e) /\ x <> TFunc (tk_map e).

(** Memory the allocator hands out is in no other use. *)
Definition unused (m : Z) (s : shadow) : Prop :=
  (forall e, e ∈ wl_tasklet_ht s -> tk_map e <> m) /\
  sched (sh_kernel s) m = false /\
  forall x, x ∈ sh_tasks s -> x <> TKick m /\ x <> TRun m /\ x <> TFunc m.

Inductive step : shadow -> event -> shadow -> Prop :=
  | step_init alloc t func data s : (forall m, alloc = Some m -> unused m s) ->
      step s ENone (wl_shim_tasklet_init alloc t func data s)
  | step_clear t s s' : takes (TClear t) s s' -> step s ENone (with_mem (clear_bit t) s')
  | step_schedule t s : step s (ESchedule t) (driver_schedule t s)
  | step_enter t s s' : takes (TSched t) s s' -> step s ENone (wl_shim___tasklet_schedule t s')
  | step_kick m s s' : takes (TKick m) s s' -> step s ENone (with_kernel (tasklet_schedule m) s')
  | step_take m s : sched (sh_kernel s) m = true -> step s ENone (with_tasks (cons (TRun m)) (with_kernel (tasklet_take m) s))
  | step_tramp e s s' : takes (TRun (tk_map e)) s s' -> e ∈ wl_tasklet_ht s -> step s ENone (wl_tasklet_tramp e s')
  | step_func e s s' : takes (TFunc (tk_map e)) s s' -> e ∈ wl_tasklet_ht s -> step s (ECall (tk_map e) (tk_func e) (tk_data e)) s'
  | step_kill t s : (forall e, map_find t s = Some e -> idle e s) -> step s (EKill t) (wl_shim_tasklet_kill t s).

Inductive steps : shadow -> list event -> shadow -> Prop :=
  | steps_nil s : steps s [] s
  | steps_cons s ev s' evs s'' : step s ev s' -> steps s' evs s'' -> steps s (ev :: evs) s''.

(** Nothing is scheduled in the kernel and nothing is under way. *)
Definition quiescent (s : shadow) : Prop := sh_tasks s = [] /\ forall m, sched (sh_kernel s) m = false.

Definition started (s : shadow) : Prop := wl_tasklet_ht s = [] /\ quiescent s.

(** The tasklet [t] of the driver has the map [m]. *)
Definition registered (t m : Z) (s : shadow) : Prop := exists func data, TMap m t func data ∈ wl_tasklet_ht s.

(** ** The invariant *)

(** A run of the function of [t] has yet to begin. *)
Definition waiting (t m : Z) (s : shadow) : Prop :=
  sched (sh_kernel s) m = true \/ TSched t ∈ sh_tasks s \/ TKick m ∈ sh_tasks s \/ TRun m ∈ sh_tasks s.
Definition owed (t m : Z) (s : shadow) : Prop := waiting t m s \/ TFunc m ∈ sh_tasks s.

Definition pairs (s : shadow) : list (Z * Z) := map (fun e => (tk_blob e, tk_map e)) (wl_tasklet_ht s).

Record inv (s : shadow) : Prop := {
  inv_blobs : NoDup (map tk_blob (wl_tasklet_ht s));
  inv_maps : NoDup (map tk_map (wl_tasklet_ht s));
  inv_bit t m : (t, m) ∈ pairs s -> sched_bit t s = true -> waiting t m s
}.

Lemma registered_pairs t m s : registered t m s <-> (t, m) ∈ pairs s.
Proof.
  unfold pairs. rewrite list_elem_of_fmap. split.
  - intros (f & d & H). by exists (TMap m t f d).
  - intros ([m' t' f d] & [= -> ->] & H). by exists f, d.
Qed.

Lemma pairs_entry t m s : (t, m) ∈ pairs s -> exists e, e ∈ wl_tasklet_ht s /\ tk_blob e = t /\ tk_map e = m.
Proof. unfold pairs. rewrite list_elem_of_fmap. intros (e & [= -> ->] & H). eauto. Qed.

Lemma entry_pairs e s : e ∈ wl_tasklet_ht s -> (tk_blob e, tk_map e) ∈ pairs s.
Proof. intros H. unfold pairs. apply list_elem_of_fmap. eauto. Qed.

Lemma NoDup_inj {A} (g : A -> Z) l x y : NoDup (map g l) -> x ∈ l -> y ∈ l -> g x = g y -> x = y.
Proof.
  intros Hn Hx Hy Hg. assert (H : forall z, z ∈ l -> g z = g x -> find (fun z => g z =? g x) l = Some z).
  { intros z Hz Hzx. eapply (find_unique _ g); [done| |done|exact Hzx]. intros. apply Z.eqb_eq. }
  pose proof (H x Hx eq_refl) as Hfx. rewrite (H y Hy) in Hfx by done. congruence.
Qed.

(** The keys of the table are unique both ways. *)
Lemma pairs_blob s t m m' : inv s -> (t, m) ∈ pairs s -> (t, m') ∈ pairs s -> m = m'.
Proof.
  intros Hi (e & He & <- & <-)%pairs_entry (e' & He' & Hb & <-)%pairs_entry.
  by rewrite (NoDup_inj tk_blob _ e e' (inv_blobs _ Hi) He He').
Qed.

Lemma pairs_map s t t' m : inv s -> (t, m) ∈ pairs s -> (t', m) ∈ pairs s -> t = t'.
Proof.
  intros Hi (e & He & <- & <-)%pairs_entry (e' & He' & <- & Hm)%pairs_entry.
  by rewrite (NoDup_inj tk_map _ e e' (inv_maps _ Hi) He He').
Qed.

Lemma map_find_Some t s e : map_find t s = Some e -> e ∈ wl_tasklet_ht s /\ tk_blob e = t.
Proof. intros [Hi Hb%Z.eqb_eq]%find_some. split; [by apply list_elem_of_In|done]. Qed.

Lemma map_find_None t s m : map_find t s = None -> (t, m) ∉ pairs s.
Proof.
  intros Hn (e & He & <- & _)%pairs_entry. apply list_elem_of_In in He. apply (find_none _ _ Hn) in He.
  by rewrite Z.eqb_refl in He.
Qed.

Lemma bit_clear t t' mem : mem_bit t' (clear_bit t mem) = if t' =? t then false else mem_bit t' mem.
Proof.
  unfold mem_bit, clear_bit. rewrite load_store. unfold blob_state, TASKLET_STATE_SCHED.
  destruct (Z.eqb_spec t' t) as [->|Hne]; [by rewrite Z.eqb_refl, Z.clearbit_eq|by rewrite (proj2 (Z.eqb_neq _ _)) by lia].
Qed.

Lemma bit_set t t' mem : mem_bit t' (set_bit t mem) = if t' =? t then true else mem_bit t' mem.
Proof.
  unfold mem_bit, set_bit. rewrite load_store. unfold blob_state, TASKLET_STATE_SCHED.
  destruct (Z.eqb_spec t' t) as [->|Hne]; [by rewrite Z.eqb_refl, Z.setbit_eq|by rewrite (proj2 (Z.eqb_neq _ _)) by lia].
Qed.

Lemma takes_elem x s s' y : takes x s s' -> y ∈ sh_tasks s -> y = x \/ y ∈ sh_tasks s'.
Proof. intros (l & r & Hs & ->) Hy. rewrite Hs in Hy. cbn [with_tasks sh_tasks]. set_solver. Qed.

Lemma takes_same x s s' : takes x s s' ->
  sh_mem s' = sh_mem s /\ wl_tasklet_ht s' = wl_tasklet_ht s /\ sh_kernel s' = sh_kernel s.
Proof. intros (l & r & _ & ->). done. Qed.

(** *** What a step does to the table *)

Lemma dup_keys t func data (l : list tmap) :
  let f e := if tk_blob e =? t then TMap (tk_map e) t func data else e in
  map tk_blob (map f l) = map tk_blob l /\ map tk_map (map f l) = map tk_map l /\
  map (fun e => (tk_blob e, tk_map e)) (map f l) = map (fun e => (tk_blob e, tk_map e)) l.
Proof.
  cbv zeta. rewrite !map_map. repeat split; apply map_ext; intros e; destruct (Z.eqb_spec (tk_blob e) t) as [<-|]; done.
Qed.

Lemma init_cases alloc t func data s :
  let s' := wl_shim_tasklet_init alloc t func data s in
  s' = s \/
  (map tk_blob (wl_tasklet_ht s') = map tk_blob (wl_tasklet_ht s) /\ map tk_map (wl_tasklet_ht s') = map tk_map (wl_tasklet_ht s) /\
   pairs s' = pairs s /\ sh_mem s' = sh_mem s /\ sh_kernel s' = sh_kernel s /\ sh_tasks s' = TClear t :: sh_tasks s) \/
  exists m, alloc = Some m /\ map_find t s = None /\
    s' = Shadow (clear_bit t (sh_mem s)) (TMap m t func data :: wl_tasklet_ht s) (tasklet_setup m (sh_kernel s)) (sh_tasks s).
Proof.
  cbv zeta. unfold wl_shim_tasklet_init. destruct (t =? 0); [by left|]. destruct (map_find t s) as [dup|] eqn:Hf.
  - right. left. cbn. destruct (dup_keys t func data (wl_tasklet_ht s)) as (H1 & H2 & H3). unfold pairs. cbn. done.
  - destruct alloc as [m|]; [|by left]. right. right. by exists m.
Qed.

Lemma kill_cases t s : let s' := wl_shim_tasklet_kill t s in
  s' = s \/ exists e, map_find t s = Some e /\
    s' = Shadow (clear_bit t (sh_mem s)) (filter (fun e => tk_blob e <> t) (wl_tasklet_ht s)) (tasklet_kill (tk_map e) (sh_kernel s)) (sh_tasks s).
Proof. cbv zeta. unfold wl_shim_tasklet_kill. destruct (map_find t s) as [e|]; [right; by exists e|by left]. Qed.

Lemma kill_pairs t s t' m : (t', m) ∈ map (fun e => (tk_blob e, tk_map e)) (filter (fun e => tk_blob e <> t) (wl_tasklet_ht s)) <->
  (t', m) ∈ pairs s /\ t' <> t.
Proof.
  unfold pairs. rewrite !list_elem_of_fmap. split.
  - intros (e & [= -> ->] & [Hn He]%list_elem_of_filter). eauto.
  - intros [(e & [= -> ->] & He) Hn]. exists e. split; [done|]. by apply list_elem_of_filter.
Qed.

(** Takes a step apart; the table and the other tasks are unchanged unless said. *)
Ltac step_cases H :=
  inversion H as [alloc t0 func data s0 Hal|t0 s0 s1 Htk|t0 s0|t0 s0 s1 Htk|m0 s0 s1 Htk|m0 s0 Hsc|e0 s0 s1 Htk He0|e0 s0 s1 Htk He0|t0 s0 Hidle]; subst;
  try (let Hm := fresh "Hmem" in let Hh := fresh "Hht" in let Hk := fresh "Hker" in
       pose proof (takes_same _ _ _ Htk) as (Hm & Hh & Hk)).

(** Pairs stay, but for a kill; the new ones are idle with the bit clear. *)
Lemma step_pairs s ev s' t m : inv s -> step s ev s' -> (t, m) ∈ pairs s -> ev <> EKill t -> (t, m) ∈ pairs s'.
Proof.
  intros Hi Hs Hp Hev. step_cases Hs.
  - destruct (init_cases alloc t0 func data s) as [->|[(_ & _ & -> & _)|(m' & _ & _ & ->)]]; try done. by right.
  - unfold pairs. cbn. by rewrite Hht.
  - unfold driver_schedule. by destruct (sched_bit t0 s).
  - unfold wl_shim___tasklet_schedule, pairs. destruct (map_find t0 s1); cbn; by rewrite Hht.
  - unfold pairs. cbn. by rewrite Hht.
  - done.
  - unfold pairs. cbn. by rewrite Hht.
  - unfold pairs. by rewrite Hht.
  - destruct (kill_cases t0 s) as [->|(e & _ & ->)]; [done|]. apply kill_pairs. split; [done|]. congruence.
Qed.

Lemma step_new_pairs s ev s' t m : step s ev s' -> (t, m) ∈ pairs s' -> (t, m) ∈ pairs s \/ sched_bit t s' = false.
Proof.
  intros Hs Hp. step_cases Hs; try (unfold pairs in *; cbn in Hp; rewrite Hht in Hp; by left); try by left.
  - destruct (init_cases alloc t0 func data s) as [E|[(_ & _ & E & _)|(m' & _ & _ & E)]]; [rewrite E in Hp; by left|rewrite E in Hp; by left|].
    rewrite E in *. apply elem_of_cons in Hp as [[= -> ->]|Hp]; [right|by left]. unfold sched_bit. cbn [sh_mem].
    by rewrite bit_clear, Z.eqb_refl.
  - left. unfold driver_schedule in Hp. by destruct (sched_bit t0 s).
  - left. unfold wl_shim___tasklet_schedule, pairs in *. destruct (map_find t0 s1); cbn in Hp; by rewrite Hht in Hp.
  - left. destruct (kill_cases t0 s) as [E|(e & _ & E)]; rewrite E in Hp; [done|]. by apply kill_pairs in Hp as [Hp _].
Qed.

(** The bit is set by the driver only. *)
Lemma step_bit s ev s' t : step s ev s' -> sched_bit t s' = true -> sched_bit t s = true \/ TSched t ∈ sh_tasks s'.
Proof.
  unfold sched_bit. intros Hs Hb. step_cases Hs; try (left; cbn [with_kernel with_tasks sh_mem] in Hb; congruence).
  - left. destruct (init_cases alloc t0 func data s) as [E|[(_ & _ & _ & E & _)|(m' & _ & _ & E)]]; rewrite E in Hb; try done.
    cbn [sh_mem] in Hb. rewrite bit_clear in Hb. by destruct (t =? t0).
  - left. cbn [with_mem sh_mem] in Hb. rewrite bit_clear, Hmem in Hb. by destruct (t =? t0).
  - unfold driver_schedule in *. destruct (sched_bit t0 s); [by left|]. cbn [with_tasks with_mem sh_mem] in Hb.
    rewrite bit_set in Hb. destruct (Z.eqb_spec t t0) as [->|]; [right; by left|by left].
  - left. unfold wl_shim___tasklet_schedule in Hb. destruct (map_find t0 s1); cbn [with_tasks sh_mem] in Hb; congruence.
  - left. cbn [wl_tasklet_tramp with_tasks with_mem sh_mem] in Hb. rewrite bit_clear, Hmem in Hb. by destruct (t =? tk_blob e0).
  - left. destruct (kill_cases t0 s) as [E|(e & _ & E)]; rewrite E in Hb; [done|]. cbn [sh_mem] in Hb.
    rewrite bit_clear in Hb. by destruct (t =? t0).
Qed.

(** *** What a step does to the runs still to come *)

(** Where the runs to come can be is unchanged. *)
Lemma waiting_mono t m s s' : sh_kernel s' = sh_kernel s -> (forall x, x ∈ sh_tasks s -> (exists t, x = TClear t) \/ (exists m, x = TFunc m) \/ x ∈ sh_tasks s') ->
  waiting t m s -> waiting t m s'.
Proof.
  unfold waiting. intros -> Hx [H|[H|[H|H]]]; [by left| | |]; right; apply Hx in H as [[? [=]]|[[? [=]]|H]]; auto.
Qed.

Lemma waiting_step s ev s' t m : inv s -> step s ev s' -> (t, m) ∈ pairs s -> (t, m) ∈ pairs s' -> waiting t m s ->
  waiting t m s' \/ (TFunc m ∈ sh_tasks s' /\ sched_bit t s' = false).
Proof.
  intros Hi Hs Hp Hp' Hw. step_cases Hs.
  - left. destruct (init_cases alloc t0 func data s) as [->|[(_ & _ & _ & _ & Ek & Et)|(m' & Ha & _ & ->)]]; [done| |].
    + apply (waiting_mono t m s); [exact Ek| |done]. intros x Hx. rewrite Et. right. right. by right.
    + destruct (Hal m' Ha) as (Hu & _). destruct (pairs_entry _ _ _ Hp) as (e & He & _ & Hm). specialize (Hu e He).
      unfold waiting in *. cbn [sh_kernel sh_tasks]. rewrite sched_setup, (proj2 (Z.eqb_neq m m')) by congruence. done.
  - left. apply (waiting_mono t m s); [cbn; exact Hker| |done]. intros x Hx. destruct (takes_elem _ _ _ _ Htk Hx); eauto.
  - left. unfold driver_schedule. destruct (sched_bit t0 s); [done|]. apply (waiting_mono t m s); [done| |done].
    intros x Hx. right. right. by right.
  - left. assert (Hsame : t <> t0 -> waiting t m (wl_shim___tasklet_schedule t0 s1)).
    { intros Hne. unfold waiting, wl_shim___tasklet_schedule in *.
      destruct (map_find t0 s1); cbn [with_tasks sh_kernel sh_tasks]; rewrite Hker;
        destruct Hw as [H|[H|[H|H]]]; [by left| | | |by left| | |]; right;
        apply (takes_elem _ _ _ _ Htk) in H as [H|H]; try congruence; rewrite ?elem_of_cons; auto. }
    destruct (decide (t = t0)) as [<-|Hne]; [|by apply Hsame].
    unfold wl_shim___tasklet_schedule. destruct (map_find t s1) as [e|] eqn:Hf.
    + apply map_find_Some in Hf as [He Hb]. rewrite Hht in He. apply entry_pairs in He. rewrite Hb in He.
      rewrite (pairs_blob _ _ _ _ Hi He Hp). right. right. left. by left.
    + exfalso. apply (map_find_None _ _ m Hf). unfold pairs. by rewrite Hht.
  - left. unfold waiting in *. cbn [with_kernel sh_kernel sh_tasks]. rewrite sched_schedule, Hker.
    destruct (Z.eqb_spec m m0) as [->|Hne]; [by left|].
    destruct Hw as [H|[H|[H|H]]]; [by left| | |]; right; apply (takes_elem _ _ _ _ Htk) in H as [H|H]; try congruence; auto.
  - left. unfold waiting in *. cbn [with_tasks with_kernel sh_kernel sh_tasks]. rewrite sched_take.
    destruct (Z.eqb_spec m m0) as [->|Hne]; [right; right; right; by left|]. rewrite !elem_of_cons. naive_solver.
  - destruct (decide (m = tk_map e0)) as [->|Hne].
    + right. split; [by left|]. apply entry_pairs in He0. rewrite <- (pairs_map _ _ _ _ Hi He0 Hp).
      unfold sched_bit. cbn [wl_tasklet_tramp with_tasks with_mem sh_mem]. by rewrite bit_clear, Z.eqb_refl.
    + left. unfold waiting in *. cbn [wl_tasklet_tramp with_tasks with_mem sh_kernel sh_tasks]. rewrite Hker.
      destruct Hw as [H|[H|[H|H]]]; [by left| | |]; right; apply (takes_elem _ _ _ _ Htk) in H as [H|H]; try congruence;
        rewrite ?elem_of_cons; auto.
  - left. apply (waiting_mono t m s); [exact Hker| |done]. intros x Hx. destruct (takes_elem _ _ _ _ Htk Hx); eauto.
  - left. destruct (kill_cases t0 s) as [->|(e & He & E)]; [done|]. rewrite E in *. apply kill_pairs in Hp' as [_ Hne].
    apply map_find_Some in He as [He Hb]. apply entry_pairs in He.
    unfold waiting in *. cbn [sh_kernel sh_tasks]. rewrite sched_kill, (proj2 (Z.eqb_neq m (tk_map e))); [done|].
    intros ->. apply Hne. rewrite <- Hb. exact (pairs_map _ _ _ _ Hi Hp He).
Qed.

Lemma inv_step s ev s' : inv s -> step s ev s' -> inv s'.
Proof.
  intros Hi Hs. split.
  - step_cases Hs; cbn; try (rewrite Hht); try apply Hi.
    + destruct (init_cases alloc t0 func data s) as [->|[(-> & _)|(m' & _ & Hf & ->)]]; try apply Hi.
      cbn. constructor; [|apply Hi]. intros He. apply list_elem_of_fmap in He as (e & -> & He).
      apply entry_pairs in He. by apply map_find_None in He.
    + unfold driver_schedule. destruct (sched_bit t0 s); apply Hi.
    + unfold wl_shim___tasklet_schedule. destruct (map_find t0 s1); cbn; rewrite Hht; apply Hi.
    + destruct (kill_cases t0 s) as [->|(e & _ & ->)]; [apply Hi|]. cbn.
      eapply sublist_NoDup; [apply (inv_blobs _ Hi)|]. apply fmap_sublist, sublist_filter.
  - step_cases Hs; cbn; try (rewrite Hht); try apply Hi.
    + destruct (init_cases alloc t0 func data s) as [->|[(_ & -> & _)|(m' & Ha & Hf & ->)]]; try apply Hi.
      cbn. constructor; [|apply Hi]. intros He. apply list_elem_of_fmap in He as (e & -> & He).
      destruct (Hal _ Ha) as [Hu _]. by apply (Hu e).
    + unfold driver_schedule. destruct (sched_bit t0 s); apply Hi.
    + unfold wl_shim___tasklet_schedule. destruct (map_find t0 s1); cbn; rewrite Hht; apply Hi.
    + destruct (kill_cases t0 s) as [->|(e & _ & ->)]; [apply Hi|]. cbn.
      eapply sublist_NoDup; [apply (inv_maps _ Hi)|]. apply fmap_sublist, sublist_filter.
  - intros t m Hp Hb. destruct (step_new_pairs _ _ _ _ _ Hs Hp) as [Hp0|Hb']; [|congruence].
    destruct (step_bit _ _ _ _ Hs Hb) as [Hb0|Ht]; [|by right; left].
    destruct (waiting_step _ _ _ _ _ Hi Hs Hp0 Hp (inv_bit _ Hi _ _ Hp0 Hb0)) as [Hw|[_ Hb']]; [done|congruence].
Qed.

Definition call_of (m : Z) (ev : event) : Prop := exists func data, ev = ECall m func data.

Lemma owed_step s ev s' t m : inv s -> step s ev s' -> (t, m) ∈ pairs s -> ev <> EKill t -> owed t m s ->
  owed t m s' \/ call_of m ev.
Proof.
  intros Hi Hs Hp Hev [Hw|Hf].
  { left. destruct (waiting_step _ _ _ _ _ Hi Hs Hp (step_pairs _ _ _ _ _ Hi Hs Hp Hev) Hw) as [|[? _]]; [by left|by right]. }
  step_cases Hs.
  - left. right. destruct (init_cases alloc t0 func data s) as [->|[(_ & _ & _ & _ & _ & ->)|(m' & _ & _ & ->)]]; try done. by right.
  - left. right. destruct (takes_elem _ _ _ _ Htk Hf); [congruence|done].
  - left. right. unfold driver_schedule. destruct (sched_bit t0 s); [done|]. by right.
  - left. right. destruct (takes_elem _ _ _ _ Htk Hf) as [|H]; [congruence|]. unfold wl_shim___tasklet_schedule.
    destruct (map_find t0 s1); [by right|done].
  - left. right. destruct (takes_elem _ _ _ _ Htk Hf); [congruence|done].
  - left. right. by right.
  - left. right. destruct (takes_elem _ _ _ _ Htk Hf); [congruence|by right].
  - destruct (takes_elem _ _ _ _ Htk Hf) as [H|H]; [|left; by right]. injection H as ->. right. by do 2 eexists.
  - left. right. destruct (kill_cases t0 s) as [->|(e & _ & ->)]; done.
Qed.

Lemma inv_steps s evs s' : inv s -> steps s evs s' -> inv s'.
Proof. intros Hi Hs. induction Hs; [done|]. eauto using inv_step. Qed.

Lemma owed_steps s evs s' t m : inv s -> steps s evs s' -> (t, m) ∈ pairs s -> Forall (fun ev => ev <> EKill t) evs -> owed t m s ->
  owed t m s' \/ Exists (call_of m) evs.
Proof.
  intros Hi Hs. induction Hs as [s|s ev s1 evs s2 Hst Hs IH]; intros Hp Hk Ho; [by left|]. inversion_clear Hk as [|? ? Hev Hk'].
  destruct (owed_step _ _ _ _ _ Hi Hst Hp Hev Ho) as [Ho'|Hc]; [|right; by constructor].
  destruct (IH (inv_step _ _ _ Hi Hst) (step_pairs _ _ _ _ _ Hi Hst Hp Hev) Hk' Ho') as [|]; [by left|right; by constructor].
Qed.

Lemma inv_started s : started s -> inv s.
Proof. intros [Hh _]. split; unfold pairs; rewrite Hh; [constructor|constructor|by intros t m ?%not_elem_of_nil]. Qed.

(** C8: No wake-up is lost: however the driver's and the kernel's steps interleave, once
    the driver has scheduled a tasklet it initialised, the tasklet's function is called
    before everything has come to rest, unless the driver kills the tasklet. *)
Theorem tasklet_no_lost_wakeup s0 evs0 s t m s1 evs s2 : started s0 -> steps s0 evs0 s -> registered t m s ->
  step s (ESchedule t) s1 -> steps s1 evs s2 -> Forall (fun ev => ev <> EKill t) evs -> quiescent s2 ->
  Exists (call_of m) evs.
Proof.
  intros H0 Hs0 Hr Hst Hs Hk [Hq1 Hq2]. pose proof (inv_steps _ _ _ (inv_started _ H0) Hs0) as Hi.
  apply registered_pairs in Hr. assert (Ho : owed t m s1).
  { left. inversion Hst; subst. unfold driver_schedule. destruct (sched_bit t s) eqn:Hb; [by apply (inv_bit _ Hi)|].
    right. left. by left. }
  destruct (owed_steps _ _ _ _ _ (inv_step _ _ _ Hi Hst) Hs (step_pairs _ _ _ _ _ Hi Hst Hr ltac:(done)) Hk Ho) as [Ho'|]; [|done].
  exfalso. unfold owed, waiting in Ho'. rewrite Hq1, Hq2 in Ho'. set_solver.
Qed.

End Shadow.

(** ** A witness: the tasklets that wait, as a set *)
#[global] Program Instance softirq : TaskletKernel := {|
  kstate := gset Z;
  sched k m := bool_decide (m ∈ k);
  tasklet_setup m k := k ∖ {[m]};
  tasklet_schedule m k := {[m]} ∪ k;
  tasklet_take m k := k ∖ {[m]};
  tasklet_kill m k := k ∖ {[m]}
|}.
Solve All Obligations with
  intros; cbn; match goal with |- context [?a =? ?b] => destruct (Z.eqb_spec a b) as [->|] end;
  apply bool_decide_ext || apply bool_decide_true || apply bool_decide_false; set_solver.

(** The tasklet at 64 with its map at 500: scheduled by the driver, run, and at rest. *)
Definition demo_0 : shadow := Shadow ∅ [] (∅ : gset Z) [].
Definition demo_1 : shadow := wl_shim_tasklet_init (Some 500) 64 7 9 demo_0.
Definition demo_2 : shadow := driver_schedule 64 demo_1.
Definition demo_3 : shadow := wl_shim___tasklet_schedule 64 (with_tasks (fun _ => []) demo_2).
Definition demo_4 : shadow := with_kernel (tasklet_schedule 500) (with_tasks (fun _ => []) demo_3).
Definition demo_5 : shadow := with_tasks (cons (TRun 500)) (with_kernel (tasklet_take 500) demo_4).
Definition demo_6 : shadow := wl_tasklet_tramp (TMap 500 64 7 9) (with_tasks (fun _ => []) demo_5).
Definition demo_7 : shadow := with_tasks (fun _ => []) demo_6.

Lemma demo_rest : steps demo_2 [ENone; ENone; ENone; ENone; ECall 500 7 9] demo_7.
Proof.
  eapply steps_cons; [apply (step_enter 64 demo_2); by exists [], []|].
  eapply steps_cons; [apply (step_kick 500 demo_3); by exists [], []|].
  eapply steps_cons; [by apply (step_take 500 demo_4)|].
  eapply steps_cons; [apply (step_tramp (TMap 500 64 7 9) demo_5); [by exists [], []|by left]|].
  eapply steps_cons; [apply (step_func (TMap 500 64 7 9) demo_6); [by exists [], []|by left]|].
  apply steps_nil.
Qed.

Lemma demo_begin : steps demo_0 [ENone] demo_1.
Proof.
  eapply steps_cons; [|apply steps_nil]. apply step_init. intros m [= <-]. split; [|split]; [|done|]; intros ? ?%not_elem_of_nil; done.
Qed.

Lemma tasklet_no_lost_wakeup_witness : Exists (call_of 500) [ENone; ENone; ENone; ENone; ECall 500 7 9].
Proof.
  apply (tasklet_no_lost_wakeup demo_0 [ENone] demo_1 64 500 demo_2 [ENone; ENone; ENone; ENone; ECall 500 7 9] demo_7).
  - repeat split.
  - exact demo_begin.
  - exists 7, 9. by left.
  - apply (step_schedule 64 demo_1).
  - exact demo_rest.
  - repeat constructor; discriminate.
  - split; [reflexivity|]. intros m. apply bool_decide_eq_false. set_solver.
Defined.
