(* ===== verification/Fields.v ===== *)
(** Fields of the structs the driver was compiled for, at fixed offsets in memory, and how
    a field reads back through writes to it and to others. *)
From stdpp Require Import base option list numbers.
From Stdlib Require Import ZArith Lia.
From S2P Require Import Prelude Mem.
Local Open Scope Z_scope.

(** ** Fields of a struct in memory, little-endian *)

Fixpoint le_bytes (n : nat) (v : Z) : list Z :=
  match n with
  | O => []
  | S n => v mod 256 :: le_bytes n (v / 256)
  end.

Fixpoint le_val (l : list Z) : Z :=
  match l with
  | [] => 0
  | b :: l => b + 256 * le_val l
  end.

Definition get_field (off : Z) (n : nat) (s : list Z) : Z := le_val (rd s (Z.to_nat off) n).
Definition set_field (off : Z) (n : nat) (v : Z) (s : list Z) : list Z := wr s (Z.to_nat off) (le_bytes n v).

Lemma le_bytes_length n v : length (le_bytes n v) = n.
Proof. revert v. induction n; intros; cbn; auto. Qed.

Lemma le_val_bytes n v : 0 <= v < 256 ^ Z.of_nat n -> le_val (le_bytes n v) = v.
Proof.
  revert v. induction n as [|n IH]; intros v Hv; [cbn in *; lia|].
  rewrite Nat2Z.inj_succ, Z.pow_succ_r in Hv by lia. cbn [le_bytes le_val]. rewrite IH.
  - pose proof (Z.div_mod v 256). lia.
  - split; [apply Z.div_pos; lia|apply Z.div_lt_upper_bound; lia].
Qed.

Lemma set_field_length off n v s : (Z.to_nat off + n <= length s)%nat -> length (set_field off n v s) = length s.
Proof. intros. apply wr_length. by rewrite le_bytes_length. Qed.

Lemma get_set_same off n v s : (Z.to_nat off + n <= length s)%nat -> 0 <= v < 256 ^ Z.of_nat n -> get_field off n (set_field off n v s) = v.
Proof. intros. unfold get_field, set_field. rewrite rd_wr_same by (by rewrite le_bytes_length). by apply le_val_bytes. Qed.

Lemma get_set_disj off n off' n' v s : (Z.to_nat off + n <= length s)%nat -> (Z.to_nat off' + n' <= length s)%nat ->
  disj (Z.to_nat off') n' (Z.to_nat off) n -> get_field off n (set_field off' n' v s) = get_field off n s.
Proof. intros. unfold get_field, set_field. rewrite rd_wr_disj; rewrite ?le_bytes_length; done. Qed.

Definition get32 (off : Z) (s : list Z) : Z := get_field off 4 s.
Definition get16 (off : Z) (s : list Z) : Z := get_field off 2 s.
Definition get8 (off : Z) (s : list Z) : Z := get_field off 1 s.
Definition set32 (off v : Z) (s : list Z) : list Z := set_field off 4 v s.
Definition set16 (off v : Z) (s : list Z) : list Z := set_field off 2 v s.
Definition set8 (off v : Z) (s : list Z) : list Z := set_field off 1 v s.

(** *** Reading after writing, with the offsets checked by computation *)

Definition fits (size off : Z) (n : nat) : bool := (0 <=? off) && (off + Z.of_nat n <=? size).
Definition apart (off : Z) (n : nat) (off' : Z) (n' : nat) : bool := (off + Z.of_nat n <=? off') || (off' + Z.of_nat n' <=? off).

Lemma fits_le size off n (s : list Z) : fits size off n = true -> length s = Z.to_nat size -> (Z.to_nat off + n <= length s)%nat.
Proof. intros [H1%Z.leb_le H2%Z.leb_le]%andb_true_iff ->. lia. Qed.

Lemma set_size size off n v (s : list Z) : fits size off n = true -> length s = Z.to_nat size -> length (set_field off n v s) = Z.to_nat size.
Proof. intros Hf Hs. rewrite set_field_length; [done|]. by apply (fits_le size). Qed.

Lemma get_set_eq size off n v (s : list Z) : fits size off n = true -> length s = Z.to_nat size -> is_u (8 * Z.of_nat n) v ->
  get_field off n (set_field off n v s) = v.
Proof.
  intros Hf Hs Hv. apply get_set_same; [by apply (fits_le size)|]. unfold is_u in Hv. rewrite Z.pow_mul_r in Hv by lia. exact Hv.
Qed.

Lemma get_set_ne size off n off' n' v (s : list Z) : fits size off n = true -> fits size off' n' = true -> apart off n off' n' = true -> length s = Z.to_nat size ->
  get_field off n (set_field off' n' v s) = get_field off n s.
Proof.
  intros Hf Hf' Ha Hs. apply get_set_disj; [by apply (fits_le size)|by apply (fits_le size)|]. unfold disj.
  apply andb_true_iff in Hf as [?%Z.leb_le _], Hf' as [?%Z.leb_le _]. apply orb_true_iff in Ha as [?%Z.leb_le|?%Z.leb_le]; lia.
Qed.

(** The length of a struct through writes, and reads of a field through the writes to
    the others. *)
Ltac size := repeat match goal with |- length (set_field _ _ _ _) = Z.to_nat ?n => apply (set_size n); [reflexivity|] end; try assumption.

Ltac read_back n :=
  repeat match goal with
  | |- context [get_field ?o ?k (set_field ?o ?k ?v ?s)] => rewrite (get_set_eq n o k v s); [|reflexivity|size|]
  | |- context [get_field ?o ?k (set_field ?o' ?k' ?v ?s)] => rewrite (get_set_ne n o k o' k' v s); [|reflexivity|reflexivity|reflexivity|size]
  end.
