(* ===== verification/ShadowSkb.v ===== *)
(** The sk_buff translation of src/wl_shadow_skb.c.  The driver holds a shadow in the
    layout of Linux 2.6.36; a real sk_buff stands behind it, over the same data.  What
    the driver wrote is pushed into the real one before the kernel works on it, and the
    shadow is refreshed after. *)
From stdpp Require Import base option list numbers gmap.
From Stdlib Require Import ZArith Lia.
From S2P Require Import Prelude Mem Fields.
Local Open Scope Z_scope.

Definition WL236_SK_BUFF_SK : Z := 32.
Definition WL236_SK_BUFF_DEV : Z := 36.
Definition WL236_SK_BUFF_LEN : Z := 120.
Definition WL236_SK_BUFF_DATA_LEN : Z := 124.
Definition WL236_SK_BUFF_MAC_LEN : Z := 128.
Definition WL236_SK_BUFF_HDR_LEN : Z := 130.
Definition WL236_SK_BUFF_PRIORITY : Z := 136.
Definition WL236_SK_BUFF_FLAGS1 : Z := WL236_SK_BUFF_PRIORITY + 4.
Definition WL236_SK_BUFF_PROTOCOL : Z := 142.
Definition WL236_SK_BUFF_TAIL : Z := 176.
Definition WL236_SK_BUFF_END : Z := 180.
Definition WL236_SK_BUFF_HEAD : Z := 184.
Definition WL236_SK_BUFF_DATA : Z := 188.
Definition WL236_SK_BUFF_TRUESIZE : Z := 192.
Definition WL236_SK_BUFF_SIZEOF : Z := 224.
Definition WL236_SKB_CLONED : Z := 0x02.
Definition WL_SKB_SHADOW_MAGIC : Z := 0x5731534B.

(** ** The real sk_buff

    Its fields by name, with the pointers as addresses; the tail and end are pointers on
    this 32-bit machine. *)
Record sk_buff := SkBuff {
  r_len : Z; r_data_len : Z; r_mac_len : Z; r_hdr_len : Z; r_priority : Z; r_protocol : Z; r_truesize : Z;
  r_head : Z; r_data : Z; r_tail : Z; r_end : Z; r_sk : Z; r_dev : Z; r_cloned : bool
}.

(** The values fit their C types. *)
Record skb_ok (r : sk_buff) : Prop := {
  ok_len : u32 (r_len r); ok_data_len : u32 (r_data_len r); ok_mac_len : u16 (r_mac_len r); ok_hdr_len : u16 (r_hdr_len r);
  ok_priority : u32 (r_priority r); ok_protocol : u16 (r_protocol r); ok_truesize : u32 (r_truesize r);
  ok_head : u32 (r_head r); ok_data : u32 (r_data r); ok_tail : u32 (r_tail r); ok_end : u32 (r_end r);
  ok_sk : u32 (r_sk r)
}.

(** skb_put, skb_push and skb_pull: the pointer they return and the packet after; [None]
    when the kernel panics for want of room.  They leave the buffer where it is. *)
Class SkbKernel := {
  skb_put : sk_buff -> Z -> option (Z * sk_buff);
  skb_push : sk_buff -> Z -> option (Z * sk_buff);
  skb_pull : sk_buff -> Z -> option (Z * sk_buff);
  skb_put_ok r n p r' : skb_ok r -> skb_put r n = Some (p, r') -> skb_ok r';
  skb_push_ok r n p r' : skb_ok r -> skb_push r n = Some (p, r') -> skb_ok r';
  skb_pull_ok r n p r' : skb_ok r -> skb_pull r n = Some (p, r') -> skb_ok r'
}.

(** ** Sync *)

Abbreviation shadow_size := (Z.to_nat WL236_SK_BUFF_SIZEOF).

Section Sync.
(** wl_netdev_blob_of: the shadow of a net_device. *)
Context (blob_of_dev : Z -> Z).

Definition sync_down (r : sk_buff) (s : list Z) : list Z :=
  let s := set32 WL236_SK_BUFF_LEN (r_len r) s in
  let s := set32 WL236_SK_BUFF_DATA_LEN (r_data_len r) s in
  let s := set16 WL236_SK_BUFF_MAC_LEN (r_mac_len r) s in
  let s := set16 WL236_SK_BUFF_HDR_LEN (r_hdr_len r) s in
  let s := set32 WL236_SK_BUFF_PRIORITY (r_priority r) s in
  let s := set16 WL236_SK_BUFF_PROTOCOL (r_protocol r) s in
  let s := set32 WL236_SK_BUFF_TRUESIZE (r_truesize r) s in
  let s := set32 WL236_SK_BUFF_HEAD (r_head r) s in
  let s := set32 WL236_SK_BUFF_DATA (r_data r) s in
  let s := set32 WL236_SK_BUFF_TAIL (r_tail r) s in
  let s := set32 WL236_SK_BUFF_END (r_end r) s in
  let s := set32 WL236_SK_BUFF_SK (r_sk r) s in
  let s := if r_dev r =? 0 then s else set32 WL236_SK_BUFF_DEV (blob_of_dev (r_dev r)) s in
  let flags1 := get8 WL236_SK_BUFF_FLAGS1 s in
  set8 WL236_SK_BUFF_FLAGS1 (if r_cloned r then Z.lor flags1 WL236_SKB_CLONED else Z.ldiff flags1 WL236_SKB_CLONED) s.

(** A shadow whose head has moved is not believed. *)
Definition sync_up (s : list Z) (r : sk_buff) : sk_buff :=
  if negb (get32 WL236_SK_BUFF_HEAD s =? r_head r) then r
  else
    let data := get32 WL236_SK_BUFF_DATA s in
    SkBuff (get32 WL236_SK_BUFF_LEN s) (get32 WL236_SK_BUFF_DATA_LEN s) (get16 WL236_SK_BUFF_MAC_LEN s)
      (get16 WL236_SK_BUFF_HDR_LEN s) (get32 WL236_SK_BUFF_PRIORITY s) (get16 WL236_SK_BUFF_PROTOCOL s) (r_truesize r)
      (r_head r) data (wrap32 (data + (get32 WL236_SK_BUFF_TAIL s - data))) (r_end r) (r_sk r) (r_dev r) (r_cloned r).

(** ** The entry points, on one packet: the shadow's bytes and the real sk_buff *)

Definition wrap (r : sk_buff) : list Z := sync_down r (replicate shadow_size 0).

Definition around (f : sk_buff -> option (Z * sk_buff)) (s : list Z) (r : sk_buff) : option (Z * list Z * sk_buff) :=
  '(p, r) ← f (sync_up s r);
  Some (p, sync_down r s, r).

Context `{K : SkbKernel}.

Definition wl_shim_skb_put (len : Z) : list Z -> sk_buff -> option (Z * list Z * sk_buff) := around (fun r => skb_put r len).
Definition wl_shim_skb_push (len : Z) : list Z -> sk_buff -> option (Z * list Z * sk_buff) := around (fun r => skb_push r len).
Definition wl_shim_skb_pull (len : Z) : list Z -> sk_buff -> option (Z * list Z * sk_buff) := around (fun r => skb_pull r len).

End Sync.

(** ** A packet as the driver sees it

    The fields the driver reads and writes at its compiled-in offsets. *)
Inductive field := FLen | FDataLen | FMacLen | FHdrLen | FPriority | FProtocol | FData | FTail.

#[global] Instance field_eq_dec : EqDecision field.
Proof. solve_decision. Defined.

Definition f_off (f : field) : Z :=
  match f with
  | FLen => WL236_SK_BUFF_LEN | FDataLen => WL236_SK_BUFF_DATA_LEN | FMacLen => WL236_SK_BUFF_MAC_LEN
  | FHdrLen => WL236_SK_BUFF_HDR_LEN | FPriority => WL236_SK_BUFF_PRIORITY | FProtocol => WL236_SK_BUFF_PROTOCOL
  | FData => WL236_SK_BUFF_DATA | FTail => WL236_SK_BUFF_TAIL
  end.

Definition f_size (f : field) : nat := match f with FMacLen | FHdrLen | FProtocol => 2 | _ => 4 end.

Definition f_get (f : field) (r : sk_buff) : Z :=
  match f with
  | FLen => r_len r | FDataLen => r_data_len r | FMacLen => r_mac_len r | FHdrLen => r_hdr_len r
  | FPriority => r_priority r | FProtocol => r_protocol r | FData => r_data r | FTail => r_tail r
  end.

Definition f_set (f : field) (v : Z) (r : sk_buff) : sk_buff :=
  let '(SkBuff l dl ml hl pr pt ts h d t e sk dev c) := r in
  match f with
  | FLen => SkBuff v dl ml hl pr pt ts h d t e sk dev c
  | FDataLen => SkBuff l v ml hl pr pt ts h d t e sk dev c
  | FMacLen => SkBuff l dl v hl pr pt ts h d t e sk dev c
  | FHdrLen => SkBuff l dl ml v pr pt ts h d t e sk dev c
  | FPriority => SkBuff l dl ml hl v pt ts h d t e sk dev c
  | FProtocol => SkBuff l dl ml hl pr v ts h d t e sk dev c
  | FData => SkBuff l dl ml hl pr pt ts h v t e sk dev c
  | FTail => SkBuff l dl ml hl pr pt ts h d v e sk dev c
  end.

(** What is done with a packet: the driver reads and writes fields, inlined code
    included, and calls the kernel; a crossing hands the kernel the real sk_buff. *)
Inductive pop := PGet (f : field) | PSet (f : field) (v : Z) | PPut (n : Z) | PPush (n : Z) | PPull (n : Z) | PUnwrap.
Inductive pout := VUnit | VNum (v : Z) | VSkb (r : sk_buff).

Section Steps.
Context (blob_of_dev : Z -> Z) `{K : SkbKernel}.

(** One sk_buff, as in 2.6.36; [None] when the kernel panics or a value does not fit. *)
Definition skb_step (o : pop) (r : sk_buff) : option (pout * sk_buff) :=
  match o with
  | PGet f => Some (VNum (f_get f r), r)
  | PSet f v => if is_ub (8 * Z.of_nat (f_size f)) v then Some (VUnit, f_set f v r) else None
  | PPut n => '(p, r) ← skb_put r n; Some (VNum p, r)
  | PPush n => '(p, r) ← skb_push r n; Some (VNum p, r)
  | PPull n => '(p, r) ← skb_pull r n; Some (VNum p, r)
  | PUnwrap => Some (VSkb r, r)
  end.

Definition called (c : option (Z * list Z * sk_buff)) : option (pout * (list Z * sk_buff)) :=
  '(p, s, r) ← c; Some (VNum p, (s, r)).

(** The shadow and the real sk_buff. *)
Definition shadow_step (o : pop) (st : list Z * sk_buff) : option (pout * (list Z * sk_buff)) :=
  let '(s, r) := st in
  match o with
  | PGet f => Some (VNum (get_field (f_off f) (f_size f) s), (s, r))
  | PSet f v => Some (VUnit, (set_field (f_off f) (f_size f) v s, r))
  | PPut n => called (wl_shim_skb_put blob_of_dev n s r)
  | PPush n => called (wl_shim_skb_push blob_of_dev n s r)
  | PPull n => called (wl_shim_skb_pull blob_of_dev n s r)
  | PUnwrap => Some (VSkb (sync_up s r), (s, sync_up s r))
  end.

Fixpoint run {S} (step : pop -> S -> option (pout * S)) (ops : list pop) (s : S) : option (list pout) :=
  match ops with
  | [] => Some []
  | o :: ops => '(v, s) ← step o s; vs ← run step ops s; Some (v :: vs)
  end.

(** The fields the driver does not write are those of the real sk_buff. *)
Definition same_rest (a r : sk_buff) : Prop :=
  r_truesize a = r_truesize r /\ r_head a = r_head r /\ r_end a = r_end r /\ r_sk a = r_sk r /\ r_dev a = r_dev r /\
  r_cloned a = r_cloned r.

Record sim (a : sk_buff) (st : list Z * sk_buff) : Prop := {
  sim_ok : skb_ok a;
  sim_size : @length Z (fst st) = shadow_size;
  sim_fields f : get_field (f_off f) (f_size f) (fst st) = f_get f a;
  sim_head : get32 WL236_SK_BUFF_HEAD (fst st) = r_head a;
  sim_rest : same_rest a (snd st)
}.

Lemma sim_up a s r : sim a (s, r) -> sync_up s r = a.
Proof.
  intros [Hok _ Hf Hh (E1 & E2 & E3 & E4 & E5 & E6)]. cbn [fst snd] in *. unfold sync_up. rewrite Hh, E2, Z.eqb_refl. cbn [negb].
  pose proof (Hf FLen) as H1. pose proof (Hf FDataLen) as H2. pose proof (Hf FMacLen) as H3. pose proof (Hf FHdrLen) as H4.
  pose proof (Hf FPriority) as H5. pose proof (Hf FProtocol) as H6. pose proof (Hf FData) as H7. pose proof (Hf FTail) as H8.
  unfold get32, get16. cbn [f_off f_size f_get] in *. rewrite H1, H2, H3, H4, H5, H6, H7, H8.
  replace (r_data a + (r_tail a - r_data a)) with (r_tail a) by lia. rewrite wrap32_id by apply Hok.
  destruct a, r. cbn in *. by subst.
Qed.

Lemma sync_down_fields r s : skb_ok r -> length s = shadow_size ->
  length (sync_down blob_of_dev r s) = shadow_size /\
  (forall f, get_field (f_off f) (f_size f) (sync_down blob_of_dev r s) = f_get f r) /\
  get32 WL236_SK_BUFF_HEAD (sync_down blob_of_dev r s) = r_head r.
Proof.
  intros [] Hs. unfold sync_down, set32, set16, set8, get32, get8. destruct (r_dev r =? 0).
  all: split; [size|]; split; [intros []; cbn [f_off f_size f_get]; read_back WL236_SK_BUFF_SIZEOF; done|read_back WL236_SK_BUFF_SIZEOF; done].
Qed.

Lemma sim_down r s : skb_ok r -> length s = shadow_size -> sim r (sync_down blob_of_dev r s, r).
Proof. intros Hr Hs. destruct (sync_down_fields r s Hr Hs) as (H1 & H2 & H3). by split. Qed.

Lemma f_ok f r : skb_ok r -> is_u (8 * Z.of_nat (f_size f)) (f_get f r).
Proof. intros []. by destruct f. Qed.

Lemma f_set_ok f v r : skb_ok r -> is_u (8 * Z.of_nat (f_size f)) v -> skb_ok (f_set f v r).
Proof. intros [] Hv. by destruct r, f; split. Qed.

Lemma sim_set a s r f v : sim a (s, r) -> is_u (8 * Z.of_nat (f_size f)) v -> sim (f_set f v a) (set_field (f_off f) (f_size f) v s, r).
Proof.
  intros [Hok Hs Hf Hh Hr] Hv. cbn [fst snd] in *. split; cbn [fst snd].
  - by apply f_set_ok.
  - apply set_size; [by destruct f|done].
  - intros g. destruct (decide (f = g)) as [<-|Hne]. 
    + rewrite (get_set_eq WL236_SK_BUFF_SIZEOF); [|by destruct f|done|done]. by destruct a, f.
    + rewrite (get_set_ne WL236_SK_BUFF_SIZEOF); [|by destruct g|by destruct f|by destruct f, g|done]. rewrite Hf. by destruct a, f, g.
  - unfold get32. rewrite (get_set_ne WL236_SK_BUFF_SIZEOF); [|done|by destruct f|by destruct f|done]. unfold get32 in Hh. rewrite Hh. by destruct a, f.
  - destruct Hr as (?&?&?&?&?&?). by destruct a, f.
Qed.

Lemma sim_called a s r (call : sk_buff -> option (Z * sk_buff)) p a' : sim a (s, r) -> call a = Some (p, a') -> skb_ok a' ->
  exists st, called (around blob_of_dev call s r) = Some (VNum p, st) /\ sim a' st.
Proof.
  intros Hs Hc Ha. unfold called, around. rewrite (sim_up _ _ _ Hs), Hc. cbn. eexists. split; [reflexivity|].
  apply sim_down; [done|apply Hs].
Qed.

Lemma skb_sim_step a st o v a' : sim a st -> skb_step o a = Some (v, a') -> exists st', shadow_step o st = Some (v, st') /\ sim a' st'.
Proof.
  destruct st as [s r]. intros Hs Ho. pose proof (sim_ok _ _ Hs) as Hok. destruct o as [f|f x|n|n|n|]; cbn [skb_step shadow_step] in *.
  - injection Ho as <- <-. eexists. split; [|exact Hs]. pose proof (sim_fields _ _ Hs f) as E. cbn [fst] in E. by rewrite E.
  - destruct (is_ub _ x) eqn:Hx; [|done]. injection Ho as <- <-. eexists. split; [reflexivity|]. apply sim_set; [done|by apply is_ub_spec].
  - destruct (skb_put a n) as [[p b]|] eqn:Hc; [|done]. injection Ho as <- <-. eapply sim_called; eauto using skb_put_ok.
  - destruct (skb_push a n) as [[p b]|] eqn:Hc; [|done]. injection Ho as <- <-. eapply sim_called; eauto using skb_push_ok.
  - destruct (skb_pull a n) as [[p b]|] eqn:Hc; [|done]. injection Ho as <- <-. eapply sim_called; eauto using skb_pull_ok.
  - injection Ho as <- <-. rewrite (sim_up _ _ _ Hs). eexists. split; [reflexivity|]. destruct Hs. by split.
Qed.


End Steps.

(** ** A kernel with linear packets *)

Definition sized (len data tail : Z) (r : sk_buff) : sk_buff :=
  SkBuff len (r_data_len r) (r_mac_len r) (r_hdr_len r) (r_priority r) (r_protocol r) (r_truesize r)
    (r_head r) data tail (r_end r) (r_sk r) (r_dev r) (r_cloned r).

Definition checked (len data tail : Z) (r : sk_buff) : option sk_buff :=
  if is_ub 32 len && (is_ub 32 data && is_ub 32 tail) then Some (sized len data tail r) else None.

Lemma checked_ok len data tail r r' : skb_ok r -> checked len data tail r = Some r' -> skb_ok r'.
Proof.
  intros [] H. unfold checked in H. destruct (is_ub 32 len && (is_ub 32 data && is_ub 32 tail)) eqn:E; [|done].
  injection H as <-. rewrite !andb_true_iff, !is_ub_spec in E. destruct E as (?&?&?). by split.
Qed.

#[global] Program Instance linear : SkbKernel := {|
  skb_put r n :=
    if (n <? 0) || (r_end r <? r_tail r + n) then None
    else r' ← checked (r_len r + n) (r_data r) (r_tail r + n) r; Some (r_tail r, r');
  skb_push r n :=
    if (n <? 0) || (r_data r - n <? r_head r) then None
    else r' ← checked (r_len r + n) (r_data r - n) (r_tail r) r; Some (r_data r - n, r');
  skb_pull r n :=
    if (n <? 0) || (r_len r <? n) then Some (0, r)
    else r' ← checked (r_len r - n) (r_data r + n) (r_tail r) r; Some (r_data r + n, r')
|}.
Solve All Obligations with
  intros * Hr H; cbv beta in H; case_match; [by simplify_eq|]; apply bind_Some in H as (q & Hc & H); simplify_eq; by eapply checked_ok.

Definition a_packet : sk_buff := SkBuff 60 0 14 0 7 8 704 0xc1000000 0xc1000040 0xc100007c 0xc1000240 0 0xc2000000 true.
Definition a_shadow_of (dev : Z) : Z := dev + 64.
Definition a_use : list pop :=
  [PPush 14; PGet FData; PSet FPriority 5; PSet FLen 40; PSet FTail 0xc100005a; PPut 8; PGet FLen; PPull 14; PUnwrap].


(** ** The shadows of the driver's packets

    The memory the shadows live in, the kernel's packets by address, the number of
    shadows and whether their cache exists.  A shadow that was freed keeps its last
    content, its magic gone, until the memory is given out again; what the kernel's
    allocators answer is an argument of the operation, 0 for no memory. *)
Record wl_skb_shadow := Shadow { s236 : list Z; sh_real : Z; sh_magic : Z }.

Record pool := Pool { p_shadows : gmap Z wl_skb_shadow; p_skbs : gmap Z sk_buff; wl_skb_live : Z; wl_skb_cache : bool }.

Definition NET_RX_SUCCESS : Z := 0.
Definition NET_RX_DROP : Z := 1.
Definition ETH_P_802_2 : Z := 4.
Definition EINVAL : Z := 22.

Definition to_shadow (b : Z) (w : pool) : option wl_skb_shadow :=
  if b =? 0 then None
  else sh ← p_shadows w !! b; if sh_magic sh =? WL_SKB_SHADOW_MAGIC then Some sh else None.

Section Pool.
Context (blob_of_dev : Z -> Z) (real_of_dev : Z -> Z).
(** eth_type_trans: the protocol, and the packet with its header taken off, from the
    device; the answers of the cut-through hook, netif_rx and skb_to_sgvec. *)
Context (eth_type_trans : sk_buff -> Z -> Z * sk_buff) (netdev_cutthrough_rx : Z -> sk_buff -> bool) (netif_rx : sk_buff -> Z)
  (skb_to_sgvec : sk_buff -> Z -> Z -> Z).
Context `{K : SkbKernel}.

(** What lies behind a shadow: a packet, which its holder keeps for as long. *)
Definition real_of (sh : wl_skb_shadow) (w : pool) : sk_buff := default (SkBuff 0 0 0 0 0 0 0 0 0 0 0 0 0 false) (p_skbs w !! sh_real sh).
Definition put_real (sh : wl_skb_shadow) (r : sk_buff) (w : pool) : pool :=
  Pool (p_shadows w) (<[sh_real sh := r]> (p_skbs w)) (wl_skb_live w) (wl_skb_cache w).
Definition put_shadow (b : Z) (sh : wl_skb_shadow) (live : Z) (w : pool) : pool :=
  Pool (<[b := sh]> (p_shadows w)) (p_skbs w) live (wl_skb_cache w).

(** The shadow and its packet after both syncs and what happens between. *)
Definition resync {A} (b : Z) (sh : wl_skb_shadow) (f : sk_buff -> A * sk_buff) (w : pool) : A * pool :=
  let '(v, r) := f (sync_up (s236 sh) (real_of sh w)) in
  (v, put_shadow b (Shadow (sync_down blob_of_dev r (s236 sh)) (sh_real sh) (sh_magic sh)) (wl_skb_live w) (put_real sh r w)).

Definition wl_skb_wrap (mem real : Z) (w : pool) : Z * pool :=
  if real =? 0 then (0, w)
  else if mem =? 0 then (0, w)
  else
    let sh := Shadow (replicate shadow_size 0) real WL_SKB_SHADOW_MAGIC in
    (mem, put_shadow mem (Shadow (sync_down blob_of_dev (real_of sh w) (s236 sh)) real WL_SKB_SHADOW_MAGIC) (wl_skb_live w + 1) w).

Definition wl_skb_unwrap (b : Z) (w : pool) : Z * pool :=
  match to_shadow b w with
  | None => (0, w)
  | Some sh => (sh_real sh, put_real sh (sync_up (s236 sh) (real_of sh w)) w)
  end.

Definition wl_skb_sync_to_blob (b : Z) (w : pool) : pool :=
  match to_shadow b w with
  | None => w
  | Some sh => put_shadow b (Shadow (sync_down blob_of_dev (real_of sh w) (s236 sh)) (sh_real sh) (sh_magic sh)) (wl_skb_live w) w
  end.

Definition wl_skb_shadow_put (b : Z) (w : pool) : pool :=
  match to_shadow b w with
  | None => w
  | Some sh => put_shadow b (Shadow (s236 sh) (sh_real sh) 0) (wl_skb_live w - 1) w
  end.

Definition kfree_skb (real : Z) (w : pool) : pool := Pool (p_shadows w) (delete real (p_skbs w)) (wl_skb_live w) (wl_skb_cache w).

(** [fresh] is the packet __netdev_alloc_skb made at [real]. *)
Definition wl_shim_dev_alloc_skb (mem real : Z) (fresh : sk_buff) (w : pool) : Z * pool :=
  if real =? 0 then (0, w)
  else
    let w := Pool (p_shadows w) (<[real := fresh]> (p_skbs w)) (wl_skb_live w) (wl_skb_cache w) in
    let '(b, w) := wl_skb_wrap mem real w in
    if b =? 0 then (0, kfree_skb real w) else (b, w).

(** Both ways of handing the packet up consume it. *)
Definition wl_shim_netif_rx (b : Z) (w : pool) : Z * pool :=
  match to_shadow b w with
  | None => (NET_RX_DROP, w)
  | Some sh =>
      let real := sync_up (s236 sh) (real_of sh w) in
      let w := wl_skb_shadow_put b (put_real sh real w) in
      if negb (r_dev real =? 0) && netdev_cutthrough_rx (r_dev real) real then (NET_RX_SUCCESS, kfree_skb (sh_real sh) w)
      else (netif_rx real, kfree_skb (sh_real sh) w)
  end.

Definition wl_shim_eth_type_trans (b blob_dev : Z) (w : pool) : Z * pool :=
  match to_shadow b w with
  | None => (ETH_P_802_2, w)
  | Some sh =>
      let dev := real_of_dev blob_dev in
      let dev := if dev =? 0 then r_dev (real_of sh w) else dev in
      if dev =? 0 then (ETH_P_802_2, w) else resync b sh (fun r => eth_type_trans r dev) w
  end.

Definition wl_shim_skb_to_sgvec (b offset len : Z) (w : pool) : Z * pool :=
  let '(real, w) := wl_skb_unwrap b w in
  if real =? 0 then (- EINVAL, w) else (skb_to_sgvec (default (SkBuff 0 0 0 0 0 0 0 0 0 0 0 0 0 false) (p_skbs w !! real)) offset len, w).

Definition wl_shadow_skb_init (got : bool) (w : pool) : Z * pool :=
  (if got then 0 else -12, Pool (p_shadows w) (p_skbs w) (wl_skb_live w) got).

Definition wl_shadow_skb_exit (w : pool) : pool :=
  if wl_skb_live w =? 0 then Pool (p_shadows w) (p_skbs w) (wl_skb_live w) false else w.

(** *** The count of the shadows *)

Inductive call :=
| CAlloc (mem real : Z) (fresh : sk_buff)
| CWrap (mem real : Z)
| CUnwrap (b : Z)
| CSync (b : Z)
| CPut (b : Z)
| CRx (b : Z)
| CEth (b blob_dev : Z)
| CSgvec (b offset len : Z).

Definition do_call (c : call) (w : pool) : Z * pool :=
  match c with
  | CAlloc mem real fresh => wl_shim_dev_alloc_skb mem real fresh w
  | CWrap mem real => wl_skb_wrap mem real w
  | CUnwrap b => wl_skb_unwrap b w
  | CSync b => (0, wl_skb_sync_to_blob b w)
  | CPut b => (0, wl_skb_shadow_put b w)
  | CRx b => wl_shim_netif_rx b w
  | CEth b dev => wl_shim_eth_type_trans b dev w
  | CSgvec b offset len => wl_shim_skb_to_sgvec b offset len w
  end.

Definition is_live (sh : wl_skb_shadow) : bool := sh_magic sh =? WL_SKB_SHADOW_MAGIC.
Definition live_count (m : gmap Z wl_skb_shadow) : Z := Z.of_nat (size (filter (fun kv => is_live kv.2 = true) m)).
Definition one_if (b : bool) : Z := if b then 1 else 0.

(** The allocator gives out memory no live shadow is in. *)
Definition mem_of (c : call) : option Z := match c with CAlloc mem _ _ | CWrap mem _ => Some mem | _ => None end.
Definition live_at (b : Z) (w : pool) : bool := match p_shadows w !! b with Some sh => is_live sh | None => false end.
Definition allocates (c : call) (w : pool) : Prop := match mem_of c with Some mem => live_at mem w = false | None => True end.

Inductive calls : pool -> list call -> pool -> Prop :=
| calls_nil w : calls w [] w
| calls_cons w c cs w' : allocates c w -> calls (snd (do_call c w)) cs w' -> calls w (c :: cs) w'.

Lemma live_insert b sh m : live_count (<[b := sh]> m) = live_count (delete b m) + one_if (is_live sh).
Proof.
  unfold live_count. destruct (is_live sh) eqn:E; cbn [one_if].
  - rewrite <- insert_delete_eq, map_filter_insert_True by done. rewrite map_size_insert_None; [lia|].
    apply map_lookup_filter_None. left. apply lookup_delete_eq.
  - rewrite map_filter_insert_False by (cbn [snd]; congruence). lia.
Qed.

Lemma live_delete b m : live_count m = live_count (delete b m) + one_if (match m !! b with Some sh => is_live sh | None => false end).
Proof.
  destruct (m !! b) as [sh|] eqn:E; [|rewrite delete_id by done; cbn; lia].
  rewrite <- live_insert. by rewrite insert_id.
Qed.

Lemma live_replace b sh m : live_count (<[b := sh]> m) =
  live_count m + one_if (is_live sh) - one_if (match m !! b with Some sh => is_live sh | None => false end).
Proof. rewrite live_insert, (live_delete b m). lia. Qed.

Lemma to_shadow_live b w sh : to_shadow b w = Some sh -> p_shadows w !! b = Some sh /\ is_live sh = true.
Proof.
  unfold to_shadow. destruct (b =? 0); [done|]. destruct (p_shadows w !! b) as [sh'|]; [|done]. cbn [mbind option_bind].
  destruct (sh_magic sh' =? _) eqn:E; [|done]. by intros [= <-].
Qed.

(** A call writes at most one shadow: a live one, or the memory it was given. *)
Definition writes (c : call) (w w' : pool) : Prop :=
  (p_shadows w' = p_shadows w /\ wl_skb_live w' = wl_skb_live w) \/
  (exists b sh, p_shadows w' = <[b := sh]> (p_shadows w) /\ (mem_of c = Some b \/ live_at b w = true) /\
     wl_skb_live w' = wl_skb_live w + one_if (is_live sh) - one_if (live_at b w)).

Lemma writes_shadow c b sh sh' w w' : to_shadow b w = Some sh ->
  p_shadows w' = <[b := sh']> (p_shadows w) -> wl_skb_live w' = wl_skb_live w + one_if (is_live sh') - 1 -> writes c w w'.
Proof.
  intros [Hb Hl]%to_shadow_live Hs Hn. assert (E : live_at b w = true) by (unfold live_at; by rewrite Hb).
  right. exists b, sh'. rewrite E. auto.
Qed.

Lemma call_writes c w : allocates c w -> writes c w (snd (do_call c w)).
Proof.
  unfold allocates. intros Ha. destruct c as [mem real fresh|mem real|b|b|b|b|b dev|b off len]; cbn [do_call mem_of] in *.
  - unfold wl_shim_dev_alloc_skb, wl_skb_wrap. destruct (real =? 0); [by left|]. destruct (mem =? 0) eqn:Em; [by left|].
    cbn [fst snd]. rewrite Em. right. eexists mem, _. split; [reflexivity|]. rewrite Ha. cbn. split; [by left|lia].
  - unfold wl_skb_wrap. destruct (real =? 0); [by left|]. destruct (mem =? 0) eqn:Em; [by left|].
    right. eexists mem, _. split; [reflexivity|]. rewrite Ha. cbn. split; [by left|lia].
  - unfold wl_skb_unwrap. left. by destruct (to_shadow b w).
  - unfold wl_skb_sync_to_blob. destruct (to_shadow b w) as [sh|] eqn:E; [|by left]. pose proof (to_shadow_live _ _ _ E) as [_ Hl].
    eapply writes_shadow; [exact E|reflexivity|]. unfold is_live in *. cbn. rewrite Hl. cbn. lia.
  - unfold wl_skb_shadow_put. destruct (to_shadow b w) as [sh|] eqn:E; [|by left].
    eapply writes_shadow; [exact E|reflexivity|cbn; lia].
  - unfold wl_shim_netif_rx. destruct (to_shadow b w) as [sh|] eqn:E; [|by left]. unfold wl_skb_shadow_put.
    assert (E' : forall r, to_shadow b (put_real sh r w) = Some sh) by done. rewrite E'.
    destruct (negb _ && _); (eapply writes_shadow; [exact E|reflexivity|cbn; lia]).
  - unfold wl_shim_eth_type_trans. destruct (to_shadow b w) as [sh|] eqn:E; [|by left]. destruct (_ =? 0); [by left|].
    pose proof (to_shadow_live _ _ _ E) as [_ Hl]. unfold resync. destruct (eth_type_trans _ _) as [v r].
    eapply writes_shadow; [exact E|reflexivity|]. unfold is_live in *. cbn. rewrite Hl. cbn. lia.
  - unfold wl_shim_skb_to_sgvec, wl_skb_unwrap. left. destruct (to_shadow b w) as [sh|]; cbn; [by destruct (sh_real sh =? 0)|done].
Qed.

Definition accounted (w : pool) : Prop := wl_skb_live w = live_count (p_shadows w).

Lemma accounted_call c w w' : accounted w -> writes c w w' -> accounted w'.
Proof.
  unfold accounted. intros Hw [[-> ->]|(b & sh & -> & _ & ->)]; [done|]. rewrite live_replace. unfold live_at. lia.
Qed.

(** What is not live stays so until its memory is given out. *)
Lemma dead_call c w w' b : live_at b w = false -> mem_of c <> Some b -> writes c w w' -> live_at b w' = false.
Proof.
  unfold live_at. intros Hb Hm [[-> _]|(b' & sh & -> & Hw & _)]; [done|]. rewrite lookup_insert_ne; [done|].
  intros ->. destruct Hw as [|Hw]; [done|]. unfold live_at in Hw. congruence.
Qed.

Lemma accounted_calls w cs w' : accounted w -> calls w cs w' -> accounted w'.
Proof. intros Hw Hc. induction Hc; [done|]. eauto using accounted_call, call_writes. Qed.

Lemma dead_calls w cs w' b : live_at b w = false -> calls w cs w' -> Forall (fun c => mem_of c <> Some b) cs -> live_at b w' = false.
Proof. intros Hb Hc. induction Hc; intros Hm; [done|]. inversion_clear Hm. eauto using dead_call, call_writes. Qed.

Lemma dead_refused b w : live_at b w = false -> to_shadow b w = None.
Proof.
  unfold live_at, to_shadow. destruct (b =? 0); [done|]. destruct (p_shadows w !! b) as [sh|]; [|done]. unfold is_live. cbn. by intros ->.
Qed.

Lemma rx_dead b w : b <> 0 -> live_at b (snd (wl_shim_netif_rx b w)) = false.
Proof.
  intros Hb. unfold wl_shim_netif_rx. destruct (to_shadow b w) as [sh|] eqn:E.
  - unfold wl_skb_shadow_put. assert (E' : forall r, to_shadow b (put_real sh r w) = Some sh) by done. rewrite E'.
    destruct (negb _ && _); unfold live_at; cbn; by rewrite lookup_insert_eq.
  - unfold to_shadow in E. unfold live_at. cbn [snd]. destruct (Z.eqb_spec b 0); [done|].
    destruct (p_shadows w !! b) as [sh|]; [|done]. cbn in E. unfold is_live. by destruct (_ =? _).
Qed.

(** Whatever calls are made, the count of shadows is the number of shadows not yet
    released, the cache is destroyed at exit exactly when none is left, and a pointer given
    to netif_rx is refused by every entry point until its memory is given out again. *)
Theorem skb_pool_accounts skbs cs w : calls (Pool ∅ skbs 0 true) cs w ->
  wl_skb_live w = live_count (p_shadows w) /\
  (wl_skb_cache w = true -> wl_skb_cache (wl_shadow_skb_exit w) = false <-> live_count (p_shadows w) = 0) /\
  (forall b cs' w', b <> 0 -> calls (snd (wl_shim_netif_rx b w)) cs' w' -> Forall (fun c => mem_of c <> Some b) cs' ->
     to_shadow b w' = None).
Proof.
  intros Hc. assert (Hw : accounted w) by (by eapply accounted_calls; [|exact Hc]). split; [exact Hw|]. split.
  - intros Hcache. unfold wl_shadow_skb_exit. rewrite Hw. destruct (Z.eqb_spec (live_count (p_shadows w)) 0); cbn; by rewrite ?Hcache.
  - intros b cs' w' Hb Hc' Hm. eapply dead_refused, dead_calls; [|exact Hc'|exact Hm]. by apply rx_dead.
Qed.

End Pool.

(** Two packets: the first is handed up, the second still held. *)
Definition a_calls : list call := [CAlloc 4096 1 a_packet; CAlloc 4352 2 a_packet; CEth 4096 5; CRx 4096; CPut 4096].
Definition after_calls (cs : list call) (w : pool) : pool :=
  fold_left (fun w c => snd (do_call (fun d => d) (fun d => d) (fun r _ => (8, r)) (fun _ _ => false) (fun _ => 0) (fun _ _ _ => 1) c w)) cs w.

Lemma skb_pool_accounts_witness : wl_skb_live (after_calls a_calls (Pool ∅ ∅ 0 true)) = 1.
Proof.
  rewrite (proj1 (skb_pool_accounts (fun d => d) (fun d => d) (fun r _ => (8, r)) (fun _ _ => false) (fun _ => 0) (fun _ _ _ => 1) ∅ a_calls
    (after_calls a_calls (Pool ∅ ∅ 0 true)) ltac:(repeat (apply calls_cons; [vm_compute; exact eq_refl || exact I|]); apply calls_nil))).
  vm_compute. reflexivity.
Defined.
