(* ===== verification/ShadowTxq.v ===== *)
(** The transmit queue of src/wl_shadow_netdev.c.  The driver stops and wakes its queue
    with bit operations on a word of its own; wl_shadow_netdev_txq_bitop does them on that
    word and stops and wakes the kernel's queue along with bit 0. *)
From stdpp Require Import base option list numbers relations.
From Stdlib Require Import ZArith Lia.
From S2P Require Import Prelude.
Local Open Scope Z_scope.

(** ** The queue: the driver's word, and whether the kernel's queue is stopped *)

Record queue := Queue { q_state : Z; q_xoff : bool }.

(** The bit operations: set, test and set, test and clear. *)
Inductive bitop := SetBit | TestAndSet | TestAndClear.

Definition netif_tx_stop_queue (q : queue) : queue := Queue (q_state q) true.
Definition netif_tx_wake_queue (q : queue) : queue := Queue (q_state q) false.

Definition test_bit (nr : Z) (q : queue) : bool := Z.testbit (q_state q) nr.
Definition write_bit (nr : Z) (op : bitop) (q : queue) : queue :=
  Queue (match op with TestAndClear => Z.clearbit (q_state q) nr | _ => Z.setbit (q_state q) nr end) (q_xoff q).

(** What is done to the kernel's queue once the word is written. *)
Definition mirror (nr : Z) (op : bitop) (prev : bool) (q : queue) : queue :=
  if negb (nr =? 0) then q
  else match op with
       | TestAndClear => if prev then netif_tx_wake_queue q else q
       | _ => netif_tx_stop_queue q
       end.

(** wl_shadow_netdev_txq_bitop on a queue it found, uninterrupted: the old bit. *)
Definition bitop_found (nr : Z) (op : bitop) (q : queue) : bool * queue :=
  let prev := test_bit nr q in
  (prev, mirror nr op prev (write_bit nr op q)).

(** ** In steps, as they interleave

    The lock is dropped before the word is read, so calls overlap: each reads the word,
    writes it and then turns to the kernel's queue. *)
Inductive at_pc := AtRead | AtWrite (prev : bool) | AtQueue (prev : bool).
Record caller := Caller { c_nr : Z; c_op : bitop; c_at : at_pc }.

Definition caller_step (c : caller) (q : queue) : option caller * queue :=
  match c_at c with
  | AtRead => (Some (Caller (c_nr c) (c_op c) (AtWrite (test_bit (c_nr c) q))), q)
  | AtWrite prev => (Some (Caller (c_nr c) (c_op c) (AtQueue prev)), write_bit (c_nr c) (c_op c) q)
  | AtQueue prev => (None, mirror (c_nr c) (c_op c) prev q)
  end.

(** One of the calls under way takes a step; one that returns is gone. *)
Inductive qstep : list caller * queue -> list caller * queue -> Prop :=
| qstep_at l c r q c' q' : caller_step c q = (c', q') -> qstep (l ++ c :: r, q) (l ++ option_list c' ++ r, q').

Definition call (nr : Z) (op : bitop) : caller := Caller nr op AtRead.

Lemma qstep_one c q c' q' : caller_step c q = (c', q') -> qstep ([c], q) (option_list c', q').
Proof. intros H. pose proof (qstep_at [] c [] q c' q' H) as S. by rewrite app_nil_r in S. Qed.

(** A call alone does what the uninterrupted operation does. *)
Lemma call_alone nr op q : rtc qstep ([call nr op], q) ([], snd (bitop_found nr op q)).
Proof. do 3 (eapply rtc_l; [by apply qstep_one|]). apply rtc_refl. Qed.

(** ** Operations one after the other *)

Definition plain_bitop (nr : Z) (op : bitop) (w : Z) : bool * Z :=
  (Z.testbit w nr, match op with TestAndClear => Z.clearbit w nr | _ => Z.setbit w nr end).

Fixpoint run {S A} (step : A -> S -> bool * S) (ops : list A) (s : S) : list bool * S :=
  match ops with
  | [] => ([], s)
  | o :: ops => let '(b, s) := step o s in let '(bs, s) := run step ops s in (b :: bs, s)
  end.

(** The kernel's queue is stopped when the driver's bit 0 says so. *)
Definition mirrored (q : queue) : Prop := q_xoff q = test_bit 0 q.

Lemma mirrored_bitop nr op q : 0 <= nr -> mirrored q -> mirrored (snd (bitop_found nr op q)).
Proof.
  unfold mirrored, bitop_found, mirror, test_bit, write_bit. cbn [snd]. intros Hnr Hq. destruct (Z.eqb_spec nr 0) as [->|Hne]; cbn [negb].
  - destruct op; cbn [q_state q_xoff netif_tx_stop_queue netif_tx_wake_queue].
    + by rewrite Z.setbit_eqb.
    + by rewrite Z.setbit_eqb.
    + destruct (Z.testbit (q_state q) 0) eqn:E; cbn [netif_tx_wake_queue q_state q_xoff]; rewrite Z.clearbit_eqb, E, ?Hq; done.
  - destruct op; cbn [q_state q_xoff]; rewrite ?Z.setbit_neq, ?Z.clearbit_neq by lia; done.
Qed.

(** With the calls one after the other, the driver's word and every bit it reads back
    are what the plain bit operations give, and the kernel's queue is stopped exactly
    while bit 0 is set. *)
Theorem txq_mirrors ops q : Forall (fun o => 0 <= fst o) ops -> mirrored q ->
  let '(bs, q') := run (fun o => bitop_found (fst o) (snd o)) ops q in
  run (fun o => plain_bitop (fst o) (snd o)) ops (q_state q) = (bs, q_state q') /\ mirrored q'.
Proof.
  intros Hops. revert q. induction Hops as [|[nr op] ops Hnr Hops IH]; intros q Hq; [done|]. cbn [run fst snd] in *.
  pose proof (mirrored_bitop nr op q Hnr Hq) as Hq'. destruct (bitop_found nr op q) as [b q1] eqn:E. cbn [snd] in Hq'.
  specialize (IH q1 Hq'). destruct (run _ ops q1) as [bs q2].
  assert (E1 : plain_bitop nr op (q_state q) = (b, q_state q1)).
  { unfold bitop_found in E. injection E as <- <-. unfold plain_bitop, mirror, write_bit, test_bit.
    destruct (negb _); [done|]. destruct op; [done|done|]. by destruct (Z.testbit _ _). }
  rewrite E1. destruct IH as [-> H]. done.
Qed.

Definition txq_demo : list (Z * bitop) := [(0, TestAndClear); (0, SetBit); (3, TestAndSet); (0, TestAndSet); (0, TestAndClear)].

Lemma txq_mirrors_witness : run (fun o => bitop_found (fst o) (snd o)) txq_demo (Queue 0 false) =
    ([false; false; false; true; true], Queue 8 false) /\
  run (fun o => plain_bitop (fst o) (snd o)) txq_demo 0 = ([false; false; false; true; true], 8).
Proof.
  split; [reflexivity|].
  exact (proj1 (txq_mirrors txq_demo (Queue 0 false) ltac:(repeat constructor; cbn; lia) eq_refl)).
Defined.

(** ** A stop and a wake that overlap *)

(** No run of wakes clears a stop the driver's word does not know of. *)
Lemma wakes_nothing n q : test_bit 0 q = false -> q_xoff q = true ->
  q_xoff (Nat.iter n (fun q => snd (bitop_found 0 TestAndClear q)) q) = true /\
  test_bit 0 (Nat.iter n (fun q => snd (bitop_found 0 TestAndClear q)) q) = false.
Proof.
  intros Hb Hx. induction n as [|n [IHx IHb]]; [done|]. rewrite Nat.iter_succ. revert IHx IHb.
  generalize (Nat.iter n (fun q => snd (bitop_found 0 TestAndClear q)) q). intros q1 IHx IHb. unfold bitop_found. cbn [snd].
  rewrite IHb. split; [done|]. apply Z.clearbit_eq.
Qed.

(** C36: A wake that falls between a stop's write of the word and its stop of the kernel's
    queue is lost: both calls return, the driver's bit is clear as it would be after the
    two plain operations in that order, the kernel's queue is stopped, and no number of
    further wakes starts it again. *)
Theorem txq_wake_lost q : test_bit 0 q = false -> exists q',
  rtc qstep ([call 0 SetBit; call 0 TestAndClear], q) ([], q') /\
  test_bit 0 q' = false /\ q_xoff q' = true /\
  forall n, q_xoff (Nat.iter n (fun q => snd (bitop_found 0 TestAndClear q)) q') = true.
Proof.
  intros Hq. set (q1 := write_bit 0 SetBit q). set (q2 := netif_tx_wake_queue (write_bit 0 TestAndClear q1)).
  assert (Hb1 : test_bit 0 q1 = true) by (unfold q1, test_bit, write_bit; cbn [q_state]; by rewrite Z.setbit_eqb).
  assert (Hb2 : test_bit 0 (netif_tx_stop_queue q2) = false).
  { unfold q2, test_bit, write_bit, netif_tx_stop_queue, netif_tx_wake_queue. cbn [q_state]. apply Z.clearbit_eq. }
  exists (netif_tx_stop_queue q2). split; [|split; [exact Hb2|split; [done|]]].
  - eapply rtc_l; [exact (qstep_at [] (call 0 SetBit) _ _ _ _ eq_refl)|]. cbn [app option_list c_nr c_op c_at call caller_step].
    eapply rtc_l; [exact (qstep_at [] (Caller 0 SetBit (AtWrite (test_bit 0 q))) _ _ _ _ eq_refl)|]. cbn [app option_list c_nr c_op].
    eapply rtc_l; [exact (qstep_at [_] (call 0 TestAndClear) [] _ _ _ eq_refl)|]. cbn [app option_list c_nr c_op call]. fold q1. rewrite Hb1.
    eapply rtc_l; [exact (qstep_at [_] (Caller 0 TestAndClear (AtWrite true)) [] _ _ _ eq_refl)|]. cbn [app option_list c_nr c_op].
    eapply rtc_l; [exact (qstep_at [_] (Caller 0 TestAndClear (AtQueue true)) [] _ _ _ eq_refl)|]. cbn [app option_list].
    eapply rtc_l; [exact (qstep_at [] (Caller 0 SetBit (AtQueue (test_bit 0 q))) [] _ _ _ eq_refl)|]. apply rtc_refl.
  - intros n. by apply wakes_nothing.
Qed.

Lemma txq_wake_lost_witness : test_bit 0 (Queue 0 false) = false /\
  exists q', rtc qstep ([call 0 SetBit; call 0 TestAndClear], Queue 0 false) ([], q') /\ q_xoff q' = true.
Proof.
  split; [reflexivity|]. destruct (txq_wake_lost (Queue 0 false) eq_refl) as (q' & H & _ & Hx & _). exists q'. split; [exact H|exact Hx].
Defined.
