(* ===== verification/ShadowNetdev.v ===== *)
(** The net_device translation of src/wl_shadow_netdev.c.  The driver configures a shadow
    in the layout of Linux 2.6.36; a real net_device is registered in its place, with
    trampolines for the callbacks the driver has. *)
From stdpp Require Import base option list numbers gmap.
From Stdlib Require Import ZArith Lia.
From S2P Require Import Prelude Mem Fields Words ShadowTxq.
Local Open Scope Z_scope.

Definition WL236_NET_DEVICE_NAME : Z := 0.
Definition WL236_NET_DEVICE_STATE : Z := 72.
Definition WL236_NET_DEVICE_NETDEV_OPS : Z := 204.
Definition WL236_NET_DEVICE_ETHTOOL_OPS : Z := 208.
Definition WL236_NET_DEVICE_FLAGS : Z := 216.
Definition WL236_NET_DEVICE_MTU : Z := 228.
Definition WL236_NET_DEVICE_TYPE : Z := 232.
Definition WL236_NET_DEVICE_UC : Z := 288.
Definition WL236_NET_DEVICE_MC : Z := 300.
Definition WL236_NET_DEVICE_PROMISCUITY : Z := 316.
Definition WL236_NET_DEVICE_ALLMULTI : Z := 320.
Definition WL236_NET_DEVICE_DEV_ADDR : Z := 356.
Definition WL236_NET_DEVICE__TX : Z := 544.
Definition WL236_NET_DEVICE_DEV : Z := 656.
Definition WL236_DEVICE_PARENT : Z := 0.
Definition WL236_NET_DEVICE_SIZEOF : Z := 896.
Definition WL236_NETDEV_PRIV_SIZE : Z := 4.
Definition WL236_NETDEV_QUEUE_SIZEOF : Z := 96.
Definition WL236_NETDEV_QUEUE_DEV : Z := 0.
Definition WL236_NETDEV_QUEUE_STATE : Z := 8.
Definition WL236_NET_DEVICE_STATS_SIZEOF : Z := 92.
Definition WL236_NET_DEVICE_OPS_NDO_OPEN : Z := 8.
Definition WL236_NET_DEVICE_OPS_NDO_STOP : Z := 12.
Definition WL236_NET_DEVICE_OPS_NDO_START_XMIT : Z := 16.
Definition WL236_NET_DEVICE_OPS_NDO_SET_MULTICAST_LIST : Z := 32.
Definition WL236_NET_DEVICE_OPS_NDO_SET_MAC_ADDRESS : Z := 36.
Definition WL236_NET_DEVICE_OPS_NDO_DO_IOCTL : Z := 44.
Definition WL236_NET_DEVICE_OPS_NDO_GET_STATS : Z := 68.
Definition WL236_ETHTOOL_OPS_GET_DRVINFO : Z := 8.
Definition WL236_ETHTOOL_DRVINFO_SIZEOF : Z := 196.
Definition WL_NETDEV_SHADOW_MAGIC : Z := 0x57314E44.
Definition MAX_ADDR_LEN : Z := 32.
Definition IFNAMSIZ : Z := 16.
Definition EINVAL : Z := 22.
Definition EOPNOTSUPP : Z := 95.
Definition NETDEV_TX_OK : Z := 0.
Definition __LINK_STATE_START : Z := 0.
Definition __LINK_STATE_PRESENT : Z := 1.
Definition __LINK_STATE_NOCARRIER : Z := 2.

(** The shadow's bytes: the 2.6.36 net_device with its private word. *)
Abbreviation nd_size := (WL236_NET_DEVICE_SIZEOF + WL236_NETDEV_PRIV_SIZE).
Definition fake_txq_off : Z := nd_size.
Definition mac_off : Z := nd_size + WL236_NETDEV_QUEUE_SIZEOF.

(** strscpy: at most [n - 1] characters and a NUL. *)
Definition strscpy (off n : Z) (src dst : list Z) : list Z := wr dst (Z.to_nat off) (take (Z.to_nat (n - 1)) (c_string src) ++ [0]).

(** ** The real device and its shadow *)

(** The members of net_device_ops the shadow layer fills. *)
Inductive ndo :=
| ndo_open | ndo_stop | ndo_start_xmit | ndo_set_rx_mode | ndo_set_mac_address | ndo_get_stats | ndo_do_ioctl | ndo_siocdevprivate.

#[global] Instance ndo_eq_dec : EqDecision ndo.
Proof. solve_decision. Defined.

(** [n_ops] is what was put in netdev_ops; [None]: never set. [n_priv]: netdev_priv. *)
Record net_device := NetDevice {
  n_name : list Z; n_type : Z; n_mtu : Z; n_flags : Z; n_state : Z; n_addr_len : Z; n_addr : list Z;
  n_promiscuity : Z; n_allmulti : Z; n_mc_count : Z; n_parent : Z; n_ops : option (list ndo); n_drvinfo : bool;
  n_xoff : bool; n_priv : Z
}.

Record wl_netdev_shadow := Shadow {
  s236 : list Z; fake_txq : list Z; mac : list Z; sh_real : Z; blob_ops : Z; blob_ethtool_ops : Z;
  stats : list Z; sh_magic : Z
}.

(** [w_mem]: the driver's tables of callbacks; the shadows by their address; the list
    they are on; the real devices; what became of the packets. *)
Record world := World {
  w_mem : words; w_shadows : gmap Z wl_netdev_shadow; wl_netdev_shadows : list Z; w_devs : gmap Z net_device;
  w_freed : list Z; wl_xmit_notok : Z
}.

Definition no_device : net_device := NetDevice [] 0 0 0 0 0 [] 0 0 0 0 None false false 0.
Definition no_shadow : wl_netdev_shadow := Shadow [] [] [] 0 0 0 [] 0.
Definition dev (real : Z) (w : world) : net_device := default no_device (w_devs w !! real).
Definition shadow (b : Z) (w : world) : wl_netdev_shadow := default no_shadow (w_shadows w !! b).

Definition set_dev (real : Z) (d : net_device) (w : world) : world :=
  World (w_mem w) (w_shadows w) (wl_netdev_shadows w) (<[real := d]> (w_devs w)) (w_freed w) (wl_xmit_notok w).
Definition set_shadow (b : Z) (sh : wl_netdev_shadow) (w : world) : world :=
  World (w_mem w) (<[b := sh]> (w_shadows w)) (wl_netdev_shadows w) (w_devs w) (w_freed w) (wl_xmit_notok w).
Definition set_list (l : list Z) (w : world) : world := World (w_mem w) (w_shadows w) l (w_devs w) (w_freed w) (wl_xmit_notok w).
Definition kfree_skb (skb : Z) (w : world) : world :=
  World (w_mem w) (w_shadows w) (wl_netdev_shadows w) (w_devs w) (skb :: w_freed w) (wl_xmit_notok w).
Definition count_notok (w : world) : world :=
  World (w_mem w) (w_shadows w) (wl_netdev_shadows w) (w_devs w) (w_freed w) (wl_xmit_notok w + 1).

Definition with_s236 (s : list Z) (sh : wl_netdev_shadow) : wl_netdev_shadow :=
  Shadow s (fake_txq sh) (mac sh) (sh_real sh) (blob_ops sh) (blob_ethtool_ops sh) (stats sh) (sh_magic sh).
Definition with_txq (q : list Z) (sh : wl_netdev_shadow) : wl_netdev_shadow :=
  Shadow (s236 sh) q (mac sh) (sh_real sh) (blob_ops sh) (blob_ethtool_ops sh) (stats sh) (sh_magic sh).
Definition with_mac (m : list Z) (sh : wl_netdev_shadow) : wl_netdev_shadow :=
  Shadow (s236 sh) (fake_txq sh) m (sh_real sh) (blob_ops sh) (blob_ethtool_ops sh) (stats sh) (sh_magic sh).
Definition with_stats (s : list Z) (sh : wl_netdev_shadow) : wl_netdev_shadow :=
  Shadow (s236 sh) (fake_txq sh) (mac sh) (sh_real sh) (blob_ops sh) (blob_ethtool_ops sh) s (sh_magic sh).
Definition with_ops (o : Z) (sh : wl_netdev_shadow) : wl_netdev_shadow :=
  Shadow (s236 sh) (fake_txq sh) (mac sh) (sh_real sh) o (blob_ethtool_ops sh) (stats sh) (sh_magic sh).
Definition with_ethtool (o : Z) (sh : wl_netdev_shadow) : wl_netdev_shadow :=
  Shadow (s236 sh) (fake_txq sh) (mac sh) (sh_real sh) (blob_ops sh) o (stats sh) (sh_magic sh).
Definition with_magic (m : Z) (sh : wl_netdev_shadow) : wl_netdev_shadow :=
  Shadow (s236 sh) (fake_txq sh) (mac sh) (sh_real sh) (blob_ops sh) (blob_ethtool_ops sh) (stats sh) m.

Definition with_link (name : list Z) (type : Z) (addr : list Z) (parent : Z) (d : net_device) : net_device :=
  NetDevice name type (n_mtu d) (n_flags d) (n_state d) (n_addr_len d) addr (n_promiscuity d) (n_allmulti d) (n_mc_count d)
    parent (n_ops d) (n_drvinfo d) (n_xoff d) (n_priv d).
Definition with_callbacks (o : option (list ndo)) (drvinfo : bool) (d : net_device) : net_device :=
  NetDevice (n_name d) (n_type d) (n_mtu d) (n_flags d) (n_state d) (n_addr_len d) (n_addr d) (n_promiscuity d) (n_allmulti d)
    (n_mc_count d) (n_parent d) o drvinfo (n_xoff d) (n_priv d).
Definition with_xoff (x : bool) (d : net_device) : net_device :=
  NetDevice (n_name d) (n_type d) (n_mtu d) (n_flags d) (n_state d) (n_addr_len d) (n_addr d) (n_promiscuity d) (n_allmulti d)
    (n_mc_count d) (n_parent d) (n_ops d) (n_drvinfo d) x (n_priv d).
Definition with_priv (b : Z) (d : net_device) : net_device :=
  NetDevice (n_name d) (n_type d) (n_mtu d) (n_flags d) (n_state d) (n_addr_len d) (n_addr d) (n_promiscuity d) (n_allmulti d)
    (n_mc_count d) (n_parent d) (n_ops d) (n_drvinfo d) (n_xoff d) b.

(** dev_addr_set. *)
Definition dev_addr_set (addr : list Z) (d : net_device) : net_device :=
  with_link (n_name d) (n_type d) (take (Z.to_nat (n_addr_len d)) addr) (n_parent d) d.

(** ** Helpers *)

Definition to_shadow (b : Z) (w : world) : option wl_netdev_shadow :=
  if b =? 0 then None
  else sh ← w_shadows w !! b; if sh_magic sh =? WL_NETDEV_SHADOW_MAGIC then Some sh else None.

(** The address of the shadow of a device of ours. *)
Definition shadow_of (real : Z) (w : world) : Z := n_priv (dev real w).

Definition blob_ndo (ops off : Z) (w : world) : Z := if ops =? 0 then 0 else load (w_mem w) (ops + off).

Definition shadow_init_list_head (b off : Z) (s : list Z) : list Z := set32 (off + 4) (b + off) (set32 off (b + off) s).

Definition state_mask : Z :=
  Z.lor (Z.lor (Z.shiftl 1 __LINK_STATE_START) (Z.shiftl 1 __LINK_STATE_PRESENT)) (Z.shiftl 1 __LINK_STATE_NOCARRIER).

Definition shadow_sync_state (b : Z) (w : world) : world :=
  let sh := shadow b w in
  set_shadow b (with_s236 (set32 WL236_NET_DEVICE_STATE (Z.land (n_state (dev (sh_real sh) w)) state_mask) (s236 sh)) sh) w.

(** ** The trampolines

    [blob f dev args]: the driver's function at [f] on its device. *)
Section Trampolines.
Context (blob : Z -> Z -> list Z -> world -> Z * world).

Definition wl_tramp_open (real : Z) (w : world) : Z * world :=
  let b := shadow_of real w in
  let fn := blob_ndo (blob_ops (shadow b w)) WL236_NET_DEVICE_OPS_NDO_OPEN w in
  let w := shadow_sync_state b w in
  if fn =? 0 then (- EOPNOTSUPP, w) else blob fn b [] w.

Definition wl_tramp_stop (real : Z) (w : world) : Z * world :=
  let b := shadow_of real w in
  let fn := blob_ndo (blob_ops (shadow b w)) WL236_NET_DEVICE_OPS_NDO_STOP w in
  let w := shadow_sync_state b w in
  if fn =? 0 then (0, w) else blob fn b [] w.

(** skb_cow_head and wl_skb_wrap, of the packet. *)
Definition wl_tramp_start_xmit (skb_cow_head wl_skb_wrap : Z -> Z) (skb real : Z) (w : world) : Z * world :=
  let b := shadow_of real w in
  let fn := blob_ndo (blob_ops (shadow b w)) WL236_NET_DEVICE_OPS_NDO_START_XMIT w in
  if fn =? 0 then (NETDEV_TX_OK, kfree_skb skb w)
  else if negb (skb_cow_head skb =? 0) then (NETDEV_TX_OK, kfree_skb skb w)
  else if wl_skb_wrap skb =? 0 then (NETDEV_TX_OK, kfree_skb skb w)
  else
    let '(ret, w) := blob fn b [wl_skb_wrap skb] w in
    (ret, if ret =? NETDEV_TX_OK then w else count_notok w).

Definition wl_tramp_set_rx_mode (real : Z) (w : world) : world :=
  let b := shadow_of real w in
  let sh := shadow b w in
  let d := dev real w in
  let fn := blob_ndo (blob_ops sh) WL236_NET_DEVICE_OPS_NDO_SET_MULTICAST_LIST w in
  if fn =? 0 then w
  else
    let allmulti := if 0 <? n_mc_count d then wrap32 (n_allmulti d + 1) else n_allmulti d in
    let s := set32 WL236_NET_DEVICE_FLAGS (n_flags d) (s236 sh) in
    let s := set32 WL236_NET_DEVICE_PROMISCUITY (n_promiscuity d) s in
    let s := set32 WL236_NET_DEVICE_ALLMULTI allmulti s in
    snd (blob fn b [] (set_shadow b (with_s236 s sh) w)).

(** The driver wrote the address into the storage its dev_addr points to. *)
Definition wl_tramp_set_mac_address (addr real : Z) (w : world) : Z * world :=
  let b := shadow_of real w in
  let fn := blob_ndo (blob_ops (shadow b w)) WL236_NET_DEVICE_OPS_NDO_SET_MAC_ADDRESS w in
  if fn =? 0 then (- EOPNOTSUPP, w)
  else
    let '(ret, w) := blob fn b [addr] w in
    (ret, if ret =? 0 then set_dev real (dev_addr_set (mac (shadow b w)) (dev real w)) w else w).

Definition wl_tramp_do_ioctl (ifr cmd real : Z) (w : world) : Z * world :=
  let b := shadow_of real w in
  let fn := blob_ndo (blob_ops (shadow b w)) WL236_NET_DEVICE_OPS_NDO_DO_IOCTL w in
  if fn =? 0 then (- EOPNOTSUPP, w) else blob fn b [ifr; cmd] w.

(** ifr_data, [data], goes where the driver looks for it. *)
Definition wl_tramp_siocdevprivate (ifr_data ifr data cmd real : Z) (w : world) : Z * world :=
  let b := shadow_of real w in
  let fn := blob_ndo (blob_ops (shadow b w)) WL236_NET_DEVICE_OPS_NDO_DO_IOCTL w in
  if fn =? 0 then (- EOPNOTSUPP, w)
  else blob fn b [ifr; cmd] (World (store (ifr + ifr_data) data (w_mem w)) (w_shadows w) (wl_netdev_shadows w) (w_devs w) (w_freed w) (wl_xmit_notok w)).

(** [stats_at p]: the statistics the driver keeps at [p]. *)
Definition wl_tramp_get_stats (stats_at : Z -> world -> list Z) (real : Z) (w : world) : list Z * world :=
  let b := shadow_of real w in
  let fn := blob_ndo (blob_ops (shadow b w)) WL236_NET_DEVICE_OPS_NDO_GET_STATS w in
  let w :=
    if fn =? 0 then w
    else
      let '(s, w) := blob fn b [] w in
      if s =? 0 then w
      else set_shadow b (with_stats (take (Z.to_nat WL236_NET_DEVICE_STATS_SIZEOF) (stats_at s w)) (shadow b w)) w in
  (stats (shadow b w), w).

(** What is copied back into the caller's [driver] and [version], given the scratch struct
    the driver filled. *)
Definition wl_tramp_get_drvinfo (filled : Z -> Z -> list Z) (real : Z) (info : list Z * list Z) (w : world) : list Z * list Z :=
  let b := shadow_of real w in
  let fn := blob_ndo (blob_ethtool_ops (shadow b w)) WL236_ETHTOOL_OPS_GET_DRVINFO w in
  if fn =? 0 then info
  else
    let blob_info := filled fn b in
    let driver := take 31 (rd blob_info 4 32) ++ [0] in
    let version := take 31 (rd blob_info 36 32) ++ [0] in
    (strscpy 0 32 driver (fst info), strscpy 0 32 version (snd info)).

End Trampolines.

(** ** The entry points *)

(** The callbacks the driver's table has. *)
Definition ndo_off (k : ndo) : Z :=
  match k with
  | ndo_open => WL236_NET_DEVICE_OPS_NDO_OPEN
  | ndo_stop => WL236_NET_DEVICE_OPS_NDO_STOP
  | ndo_start_xmit => WL236_NET_DEVICE_OPS_NDO_START_XMIT
  | ndo_set_rx_mode => WL236_NET_DEVICE_OPS_NDO_SET_MULTICAST_LIST
  | ndo_set_mac_address => WL236_NET_DEVICE_OPS_NDO_SET_MAC_ADDRESS
  | ndo_get_stats => WL236_NET_DEVICE_OPS_NDO_GET_STATS
  | ndo_do_ioctl | ndo_siocdevprivate => WL236_NET_DEVICE_OPS_NDO_DO_IOCTL
  end.

Definition all_ndos : list ndo :=
  [ndo_open; ndo_stop; ndo_start_xmit; ndo_set_rx_mode; ndo_set_mac_address; ndo_get_stats; ndo_do_ioctl; ndo_siocdevprivate].

(** The real operations: without a table they are only emptied, wherever the device has
    them already. *)
Definition real_ops (ops : Z) (old : option (list ndo)) (w : world) : option (list ndo) :=
  if ops =? 0 then (fun _ => []) <$> old else Some (filter (fun k => blob_ndo ops (ndo_off k) w <> 0) all_ndos).

Definition build_real_ops (b : Z) (w : world) : world :=
  let sh := shadow b w in
  let ops := get32 WL236_NET_DEVICE_NETDEV_OPS (s236 sh) in
  let w := set_shadow b (with_ops ops sh) w in
  let d := dev (sh_real sh) w in
  set_dev (sh_real sh) (with_callbacks (real_ops ops (n_ops d) w) (n_drvinfo d) d) w.

(** [mem]: the memory of the shadow; [made]: the device alloc_netdev_mqs made at [real],
    with ether_setup whatever the driver asked for; 0 for no memory. *)
Definition wl_shim_alloc_netdev_mq (mem real : Z) (made : net_device) (w : world) : Z * world :=
  if mem =? 0 then (0, w)
  else if real =? 0 then (0, w)
  else
    let s := replicate (Z.to_nat nd_size) 0 in
    let s := set32 WL236_NET_DEVICE_DEV_ADDR (mem + mac_off) s in
    let s := set32 WL236_NET_DEVICE__TX (mem + fake_txq_off) s in
    let txq := set32 WL236_NETDEV_QUEUE_DEV mem (replicate (Z.to_nat WL236_NETDEV_QUEUE_SIZEOF) 0) in
    let s := strscpy WL236_NET_DEVICE_NAME IFNAMSIZ (n_name made) s in
    let s := shadow_init_list_head mem WL236_NET_DEVICE_UC s in
    let s := shadow_init_list_head mem WL236_NET_DEVICE_MC s in
    let s := set16 WL236_NET_DEVICE_TYPE (n_type made) s in
    let s := set32 WL236_NET_DEVICE_MTU (n_mtu made) s in
    let s := set32 WL236_NET_DEVICE_FLAGS (n_flags made) s in
    let sh := Shadow s txq (replicate (Z.to_nat MAX_ADDR_LEN) 0) real 0 0 (replicate (Z.to_nat WL236_NET_DEVICE_STATS_SIZEOF) 0) WL_NETDEV_SHADOW_MAGIC in
    (mem, set_list (mem :: wl_netdev_shadows w) (set_shadow mem sh (set_dev real (with_priv mem made) w))).

Section Entry.
(** wl_pci_embedded_dev_real; register_netdev and unregister_netdev of the kernel. *)
Context (wl_pci_embedded_dev_real : Z -> Z) (register_netdev : net_device -> Z * net_device) (unregister_netdev : net_device -> net_device).

(** The name the driver left in its shadow, as a C string. *)
Definition blob_name (s : list Z) : list Z := take (Z.to_nat (IFNAMSIZ - 1)) (c_string (rd s (Z.to_nat WL236_NET_DEVICE_NAME) (Z.to_nat IFNAMSIZ))).

(** What the driver configured, in the real device. *)
Definition push_config (sh : wl_netdev_shadow) (d : net_device) : net_device :=
  let d := dev_addr_set (mac sh) (with_link (n_name d) (get16 WL236_NET_DEVICE_TYPE (s236 sh)) (n_addr d) (n_parent d) d) in
  let parent := get32 (WL236_NET_DEVICE_DEV + WL236_DEVICE_PARENT) (s236 sh) in
  let real_parent := if parent =? 0 then 0 else wl_pci_embedded_dev_real parent in
  let d := if real_parent =? 0 then d else with_link (n_name d) (n_type d) (n_addr d) real_parent d in
  let name := blob_name (s236 sh) in
  match name with
  | [] => d
  | _ => with_link name (n_type d) (n_addr d) (n_parent d) d
  end.

Definition set_ethtool (b : Z) (w : world) : world :=
  let sh := shadow b w in
  let ops := get32 WL236_NET_DEVICE_ETHTOOL_OPS (s236 sh) in
  let w := set_shadow b (with_ethtool ops sh) w in
  if blob_ndo ops WL236_ETHTOOL_OPS_GET_DRVINFO w =? 0 then w
  else let d := dev (sh_real sh) w in set_dev (sh_real sh) (with_callbacks (n_ops d) true d) w.

Definition wl_shim_register_netdev (b : Z) (w : world) : Z * world :=
  match to_shadow b w with
  | None => (- EINVAL, w)
  | Some sh =>
      let real := sh_real sh in
      let w := set_dev real (push_config sh (dev real w)) w in
      let w := set_ethtool b (build_real_ops b w) in
      let '(ret, d) := register_netdev (dev real w) in
      let w := set_dev real d w in
      (ret,
       if ret =? 0 then
         let w := shadow_sync_state b w in
         let sh := shadow b w in
         set_shadow b (with_s236 (strscpy WL236_NET_DEVICE_NAME IFNAMSIZ (n_name (dev real w)) (s236 sh)) sh) w
       else w)
  end.

Definition wl_shim_unregister_netdev (b : Z) (w : world) : Z * world :=
  match to_shadow b w with
  | None => (0, w)
  | Some sh => (0, shadow_sync_state b (set_dev (sh_real sh) (unregister_netdev (dev (sh_real sh) w)) w))
  end.

Definition free_netdev (real : Z) (w : world) : world :=
  World (w_mem w) (w_shadows w) (wl_netdev_shadows w) (delete real (w_devs w)) (w_freed w) (wl_xmit_notok w).

(** The shadow's memory keeps its last content, without the magic. *)
Definition drop_shadow (b : Z) (sh : wl_netdev_shadow) (w : world) : world :=
  set_shadow b (with_magic 0 sh) (free_netdev (sh_real sh) w).

Definition wl_shim_free_netdev (b : Z) (w : world) : world :=
  match to_shadow b w with
  | None => w
  | Some sh => drop_shadow b sh (set_list (filter (fun x => x <> b) (wl_netdev_shadows w)) w)
  end.

(** A bit operation of the driver on the word at [p]: [None] when it is no queue of ours. *)
Definition wl_shadow_netdev_txq_bitop (nr p : Z) (op : bitop) (w : world) : option (bool * world) :=
  b ← find (fun b => p =? b + fake_txq_off + WL236_NETDEV_QUEUE_STATE) (wl_netdev_shadows w);
  let sh := shadow b w in
  let d := dev (sh_real sh) w in
  let '(old, q) := bitop_found nr op (Queue (get32 WL236_NETDEV_QUEUE_STATE (fake_txq sh)) (n_xoff d)) in
  Some (old, set_shadow b (with_txq (set32 WL236_NETDEV_QUEUE_STATE (q_state q) (fake_txq sh)) sh)
          (set_dev (sh_real sh) (with_xoff (q_xoff q) d) w)).

Definition wl_netdev_blob_of (real : Z) (w : world) : Z :=
  if real =? 0 then 0
  else default 0 (find (fun b => sh_real (shadow b w) =? real) (wl_netdev_shadows w)).

Definition wl_netdev_real_of (b : Z) (w : world) : Z :=
  if b =? 0 then 0
  else match find (Z.eqb b) (wl_netdev_shadows w) with
       | Some b => sh_real (shadow b w)
       | None => 0
       end.

Definition wl_shadow_netdev_exit (w : world) : world :=
  fold_left (fun w b =>
    let sh := shadow b w in
    set_shadow b (with_magic 0 sh) (if sh_real sh =? 0 then w else free_netdev (sh_real sh) w))
    (wl_netdev_shadows w) (set_list [] w).

(** ** What the entry points keep

    Who is whose shadow: the device and the magic of a shadow, the owner of a device. *)
Definition ident (b : Z) (w : world) : option (Z * Z) := (fun sh => (sh_real sh, sh_magic sh)) <$> w_shadows w !! b.
Definition owner (real : Z) (w : world) : option Z := n_priv <$> w_devs w !! real.

Record registry (w : world) : Prop := {
  reg_nodup : NoDup (wl_netdev_shadows w);
  reg_listed b : b ∈ wl_netdev_shadows w <-> b <> 0 /\ exists real, ident b w = Some (real, WL_NETDEV_SHADOW_MAGIC);
  reg_owned b real : b ∈ wl_netdev_shadows w -> ident b w = Some (real, WL_NETDEV_SHADOW_MAGIC) -> real <> 0 /\ owner real w = Some b
}.

(** A change of contents only. *)
Definition frame (w w' : world) : Prop :=
  wl_netdev_shadows w' = wl_netdev_shadows w /\ (forall b, ident b w' = ident b w) /\ (forall real, owner real w' = owner real w).

Lemma frame_refl w : frame w w.
Proof. done. Qed.

Lemma frame_trans w1 w2 w3 : frame w1 w2 -> frame w2 w3 -> frame w1 w3.
Proof. intros (H1 & H2 & H3) (H4 & H5 & H6). split; [congruence|]. split; intros ?; [rewrite H5; apply H2|rewrite H6; apply H3]. Qed.

Lemma frame_registry w w' : frame w w' -> registry w -> registry w'.
Proof.
  intros (Hl & Hi & Ho) [H1 H2 H3]. split; rewrite ?Hl; [done|..].
  - intros b. rewrite Hi. apply H2.
  - intros b real. rewrite Hi, Ho. apply H3.
Qed.

(** The shadow at [b] stands for the device at [real]. *)
Definition held (b real : Z) (w : world) : Prop :=
  is_Some (w_shadows w !! b) /\ sh_real (shadow b w) = real /\ is_Some (w_devs w !! real).

Lemma held_frame b real w w' : frame w w' -> held b real w -> held b real w'.
Proof.
  intros (_ & Hi & Ho) ([sh Hb] & Hr & [d Hd]). specialize (Hi b). specialize (Ho real). unfold held, shadow, ident, owner in *.
  rewrite Hb in *. rewrite Hd in Ho. destruct (w_shadows w' !! b) as [sh'|]; [|done]. destruct (w_devs w' !! real); [|done].
  cbn in *. split; [done|]. split; [congruence|done].
Qed.

Lemma frame_shadow b real sh w : held b real w -> sh_real sh = sh_real (shadow b w) -> sh_magic sh = sh_magic (shadow b w) ->
  frame w (set_shadow b sh w).
Proof.
  intros ([sh0 Hb] & _) Hr Hm. split; [done|]. split; [|done]. intros b'. unfold ident, set_shadow, shadow in *. cbn [w_shadows].
  rewrite Hb in Hr, Hm. cbn in Hr, Hm. destruct (decide (b' = b)) as [->|]; [|by rewrite lookup_insert_ne].
  rewrite lookup_insert_eq, Hb. cbn. by rewrite Hr, Hm.
Qed.

Lemma frame_dev b real d w : held b real w -> n_priv d = n_priv (dev real w) -> frame w (set_dev real d w).
Proof.
  intros (_ & _ & [d0 Hd]) Hp. split; [done|]. split; [done|]. intros r. unfold owner, set_dev, dev in *. cbn [w_devs].
  rewrite Hd in Hp. cbn in Hp. destruct (decide (r = real)) as [->|]; [|by rewrite lookup_insert_ne].
  rewrite lookup_insert_eq, Hd. cbn. by rewrite Hp.
Qed.

Lemma frame_sync b real w : held b real w -> frame w (shadow_sync_state b w).
Proof. intros H. by eapply frame_shadow. Qed.

Lemma frame_build b real w : held b real w -> frame w (build_real_ops b w).
Proof.
  intros H. unfold build_real_ops. pose proof (proj1 (proj2 H)) as ->.
  set (w1 := set_shadow b _ w). assert (F : frame w w1) by (by eapply frame_shadow).
  eapply frame_trans; [exact F|]. eapply frame_dev; [by eapply held_frame|]. done.
Qed.

Lemma frame_ethtool b real w : held b real w -> frame w (set_ethtool b w).
Proof.
  intros H. unfold set_ethtool. pose proof (proj1 (proj2 H)) as ->.
  set (w1 := set_shadow b _ w). assert (F : frame w w1) by (by eapply frame_shadow).
  destruct (_ =? 0); [done|]. eapply frame_trans; [exact F|]. eapply frame_dev; [by eapply held_frame|]. done.
Qed.

Lemma push_config_priv sh d : n_priv (push_config sh d) = n_priv d.
Proof. unfold push_config. by destruct (blob_name (s236 sh)), ((if _ : bool then _ else _) =? 0). Qed.

(** The kernel leaves the private area alone. *)
Definition keeps_priv : Prop :=
  (forall d, n_priv (snd (register_netdev d)) = n_priv d) /\ (forall d, n_priv (unregister_netdev d) = n_priv d).

Lemma to_shadow_ident b w sh : to_shadow b w = Some sh ->
  b <> 0 /\ w_shadows w !! b = Some sh /\ ident b w = Some (sh_real sh, WL_NETDEV_SHADOW_MAGIC).
Proof.
  unfold to_shadow, ident. destruct (Z.eqb_spec b 0); [done|]. destruct (w_shadows w !! b) as [sh'|]; [|done]. cbn [mbind option_bind].
  destruct (Z.eqb_spec (sh_magic sh') WL_NETDEV_SHADOW_MAGIC) as [E|]; [|done]. intros [= <-]. cbn. by rewrite E.
Qed.

Lemma to_shadow_held b w sh : registry w -> to_shadow b w = Some sh -> held b (sh_real sh) w /\ b ∈ wl_netdev_shadows w.
Proof.
  intros Hw (Hb & Hs & Hi)%to_shadow_ident. assert (Hl : b ∈ wl_netdev_shadows w) by (apply (reg_listed _ Hw); eauto).
  split; [|done]. destruct (reg_owned _ Hw _ _ Hl Hi) as [_ Ho]. unfold held, shadow. rewrite Hs. split; [done|]. split; [done|].
  unfold owner in Ho. by destruct (w_devs w !! sh_real sh).
Qed.

Lemma frame_register b w : keeps_priv -> registry w -> frame w (snd (wl_shim_register_netdev b w)).
Proof.
  intros [Hk _] Hw. unfold wl_shim_register_netdev. destruct (to_shadow b w) as [sh|] eqn:E; [|done].
  pose proof (proj1 (to_shadow_held _ _ _ Hw E)) as Hh. set (real := sh_real sh) in *.
  set (w1 := set_dev real (push_config sh (dev real w)) w).
  assert (F1 : frame w w1) by (eapply frame_dev; [exact Hh|apply push_config_priv]). pose proof (held_frame _ _ _ _ F1 Hh) as H1.
  pose proof (frame_build _ _ _ H1) as F2. pose proof (held_frame _ _ _ _ F2 H1) as H2.
  pose proof (frame_ethtool _ _ _ H2) as F3. pose proof (held_frame _ _ _ _ F3 H2) as H3.
  assert (F : frame w (set_ethtool b (build_real_ops b w1))) by (eauto using frame_trans).
  revert F H3. generalize (set_ethtool b (build_real_ops b w1)). clear F1 F2 F3 H1 H2 w1. intros w1 F H3.
  specialize (Hk (dev real w1)). destruct (register_netdev (dev real w1)) as [ret d]. cbn [snd] in *.
  assert (F4 : frame w1 (set_dev real d w1)) by (by eapply frame_dev). pose proof (held_frame _ _ _ _ F4 H3) as H4.
  destruct (ret =? 0); [|by eapply frame_trans].
  pose proof (frame_sync _ _ _ H4) as F5. pose proof (held_frame _ _ _ _ F5 H4) as H5.
  eapply frame_trans; [exact F|]. eapply frame_trans; [exact F4|]. eapply frame_trans; [exact F5|]. by eapply frame_shadow.
Qed.

Lemma frame_unregister b w : keeps_priv -> registry w -> frame w (snd (wl_shim_unregister_netdev b w)).
Proof.
  intros [_ Hk] Hw. unfold wl_shim_unregister_netdev. destruct (to_shadow b w) as [sh|] eqn:E; [|done].
  pose proof (proj1 (to_shadow_held _ _ _ Hw E)) as Hh. cbn [snd].
  assert (F : frame w (set_dev (sh_real sh) (unregister_netdev (dev (sh_real sh) w)) w)) by (eapply frame_dev; [exact Hh|apply Hk]).
  eapply frame_trans; [exact F|]. eapply frame_sync. by eapply held_frame.
Qed.

Lemma listed_held b w : registry w -> b ∈ wl_netdev_shadows w -> exists sh, to_shadow b w = Some sh /\ held b (sh_real sh) w.
Proof.
  intros Hw Hb. pose proof (proj1 (reg_listed _ Hw b) Hb) as (Hne & real & Hi). unfold ident in Hi.
  destruct (w_shadows w !! b) as [sh|] eqn:E; [|done]. injection Hi as Hr Hm. exists sh.
  assert (Ht : to_shadow b w = Some sh).
  { unfold to_shadow. rewrite E. destruct (Z.eqb_spec b 0); [done|]. cbn. by rewrite Hm, Z.eqb_refl. }
  split; [exact Ht|]. by apply to_shadow_held.
Qed.

Lemma frame_bitop nr p op w old w' : registry w -> wl_shadow_netdev_txq_bitop nr p op w = Some (old, w') -> frame w w'.
Proof.
  intros Hw H. unfold wl_shadow_netdev_txq_bitop in H. destruct (find _ _) as [b|] eqn:E; [|done]. cbn [mbind option_bind] in H.
  apply find_some in E as [Hb%list_elem_of_In _]. destruct (listed_held _ _ Hw Hb) as (sh & Ht & Hh).
  destruct (bitop_found _ _ _) as [o q]. injection H as <- <-. pose proof (proj1 (proj2 Hh)) as Hr. rewrite Hr.
  assert (F : frame w (set_dev (sh_real sh) (with_xoff (q_xoff q) (dev (sh_real sh) w)) w)) by (by eapply frame_dev).
  eapply frame_trans; [exact F|]. eapply frame_shadow; [by eapply held_frame|done|done].
Qed.

(** The memory given out holds no shadow on the list, and the device is new. *)
Lemma registry_alloc mem real made w : registry w -> ~ mem ∈ wl_netdev_shadows w -> w_devs w !! real = None ->
  registry (snd (wl_shim_alloc_netdev_mq mem real made w)).
Proof.
  intros Hw Hm Hr. unfold wl_shim_alloc_netdev_mq. destruct (Z.eqb_spec mem 0) as [|Hm0]; [done|]. destruct (Z.eqb_spec real 0) as [|Hr0]; [done|].
  cbn [snd]. match goal with |- context [set_shadow mem ?sh _] => set (s := sh) end. destruct Hw as [H1 H2 H3].
  assert (Hi : forall b, ident b (set_list (mem :: wl_netdev_shadows w) (set_shadow mem s (set_dev real (with_priv mem made) w))) =
    if decide (b = mem) then Some (real, WL_NETDEV_SHADOW_MAGIC) else ident b w).
  { intros b. unfold ident. cbn. destruct (decide (b = mem)) as [->|]; [by rewrite lookup_insert_eq|by rewrite lookup_insert_ne]. }
  revert Hi. generalize (eq_refl : wl_netdev_shadows (set_list (mem :: wl_netdev_shadows w) (set_shadow mem s (set_dev real (with_priv mem made) w))) = mem :: wl_netdev_shadows w).
  assert (Hd : forall r, owner r (set_list (mem :: wl_netdev_shadows w) (set_shadow mem s (set_dev real (with_priv mem made) w))) =
    n_priv <$> <[real := with_priv mem made]> (w_devs w) !! r) by done.
  revert Hd. generalize (set_list (mem :: wl_netdev_shadows w) (set_shadow mem s (set_dev real (with_priv mem made) w))).
  intros w' Hd Hl' Hi. split; rewrite ?Hl'.
  - by constructor.
  - intros b. rewrite Hi, elem_of_cons. destruct (decide (b = mem)) as [->|]; [naive_solver|]. rewrite H2. naive_solver.
  - intros b r. rewrite Hi, elem_of_cons, Hd. destruct (decide (b = mem)) as [->|Hne].
    + intros _ [= <-]. by rewrite lookup_insert_eq.
    + intros [?|Hb] Hib; [done|]. destruct (H3 b r Hb Hib) as [Hr1 Ho]. split; [done|]. rewrite lookup_insert_ne; [exact Ho|].
      intros ->. unfold owner in Ho. by rewrite Hr in Ho.
Qed.

Lemma registry_drop b sh w : registry w -> to_shadow b w = Some sh ->
  registry (drop_shadow b sh (set_list (filter (fun x => x <> b) (wl_netdev_shadows w)) w)).
Proof.
  intros Hw Ht. destruct (to_shadow_ident _ _ _ Ht) as (Hb0 & Hs & Hib).
  assert (Hi : forall b', ident b' (drop_shadow b sh (set_list (filter (fun x => x <> b) (wl_netdev_shadows w)) w)) =
    if decide (b' = b) then Some (sh_real sh, 0) else ident b' w).
  { intros b'. unfold ident. cbn. destruct (decide (b' = b)) as [->|]; [by rewrite lookup_insert_eq|by rewrite lookup_insert_ne]. }
  pose proof (to_shadow_held _ _ _ Hw Ht) as [_ Hl]. destruct Hw as [H1 H2 H3].
  assert (Hd : forall r, owner r (drop_shadow b sh (set_list (filter (fun x => x <> b) (wl_netdev_shadows w)) w)) =
    n_priv <$> delete (sh_real sh) (w_devs w) !! r) by done.
  revert Hi Hd. generalize (eq_refl : wl_netdev_shadows (drop_shadow b sh (set_list (filter (fun x => x <> b) (wl_netdev_shadows w)) w)) =
    filter (fun x => x <> b) (wl_netdev_shadows w)).
  generalize (drop_shadow b sh (set_list (filter (fun x => x <> b) (wl_netdev_shadows w)) w)). intros w' Hl' Hi Hd.
  split; rewrite ?Hl'.
  - by apply NoDup_filter.
  - intros b'. rewrite Hi, list_elem_of_filter, H2. destruct (decide (b' = b)) as [->|]; [|naive_solver].
    split; [naive_solver|]. intros (_ & r & [=]).
  - intros b' r. rewrite Hi, list_elem_of_filter. intros [Hne Hb']. rewrite decide_False by done. intros Hr.
    destruct (H3 b' r Hb' Hr) as [Hr0 Ho]. split; [done|]. rewrite Hd, lookup_delete_ne; [exact Ho|].
    intros <-. destruct (H3 b (sh_real sh) Hl Hib) as [_ Ho']. rewrite Ho in Ho'. by injection Ho'.
Qed.

(** A call, or what the driver and the trampolines write in a shadow and its storage, or
    what the kernel does with a device, or anything else that leaves both alone. *)
Inductive nstep (w : world) : world -> Prop :=
| nstep_alloc mem real made : ~ mem ∈ wl_netdev_shadows w -> w_devs w !! real = None ->
    nstep w (snd (wl_shim_alloc_netdev_mq mem real made w))
| nstep_register b : nstep w (snd (wl_shim_register_netdev b w))
| nstep_unregister b : nstep w (snd (wl_shim_unregister_netdev b w))
| nstep_free b : nstep w (wl_shim_free_netdev b w)
| nstep_bitop nr p op old w' : wl_shadow_netdev_txq_bitop nr p op w = Some (old, w') -> nstep w w'
| nstep_shadow b sh sh' : to_shadow b w = Some sh -> sh_real sh' = sh_real sh -> sh_magic sh' = sh_magic sh -> nstep w (set_shadow b sh' w)
| nstep_dev real d d' : w_devs w !! real = Some d -> n_priv d' = n_priv d -> nstep w (set_dev real d' w)
| nstep_mem m : nstep w (World m (w_shadows w) (wl_netdev_shadows w) (w_devs w) (w_freed w) (wl_xmit_notok w))
| nstep_skb f n : nstep w (World (w_mem w) (w_shadows w) (wl_netdev_shadows w) (w_devs w) f n).

Lemma registry_step w w' : keeps_priv -> registry w -> nstep w w' -> registry w'.
Proof.
  intros Hk Hw Hs. destruct Hs as [mem real made Hm Hr|b|b|b|nr p op old w' Hb|b sh sh' Ht Hr Hm|real d d' Hd Hp|m|f n].
  - by apply registry_alloc.
  - eapply frame_registry; [by apply frame_register|done].
  - eapply frame_registry; [by apply frame_unregister|done].
  - unfold wl_shim_free_netdev. destruct (to_shadow b w) as [sh|] eqn:E; [|done]. by apply registry_drop.
  - eapply frame_registry; [by eapply frame_bitop|done].
  - eapply frame_registry; [|exact Hw]. pose proof (to_shadow_held _ _ _ Hw Ht) as [Hh _].
    pose proof (to_shadow_ident _ _ _ Ht) as (_ & Hs & _). eapply frame_shadow; [exact Hh|..]; unfold shadow; by rewrite Hs.
  - eapply frame_registry; [|exact Hw]. split; [done|]. split; [done|]. intros r. unfold owner, set_dev. cbn [w_devs].
    destruct (decide (r = real)) as [->|]; [|by rewrite lookup_insert_ne]. rewrite lookup_insert_eq, Hd. cbn. by rewrite Hp.
  - eapply frame_registry; [|exact Hw]. by split.
  - eapply frame_registry; [|exact Hw]. by split.
Qed.

Lemma registry_steps w w' : keeps_priv -> registry w -> rtc nstep w w' -> registry w'.
Proof. intros Hk Hw Hs. induction Hs; [done|]. eauto using registry_step. Qed.

(** *** Lookups *)

Lemma real_of_listed b w : registry w -> wl_netdev_real_of b w = match to_shadow b w with Some sh => sh_real sh | None => 0 end.
Proof.
  intros Hw. unfold wl_netdev_real_of. destruct (Z.eqb_spec b 0) as [->|Hb]; [done|].
  destruct (find (Z.eqb b) (wl_netdev_shadows w)) as [b'|] eqn:E.
  - apply find_some in E as [Hl%list_elem_of_In ->%Z.eqb_eq]. destruct (listed_held _ _ Hw Hl) as (sh & -> & Hh). apply Hh.
  - destruct (to_shadow b w) as [sh|] eqn:Et; [|done]. pose proof (to_shadow_held _ _ _ Hw Et) as [_ Hl%list_elem_of_In].
    eapply find_none in E; [|exact Hl]. by rewrite Z.eqb_refl in E.
Qed.

Lemma blob_of_listed b real w : registry w -> real <> 0 -> b <> 0 -> wl_netdev_blob_of real w = b <-> wl_netdev_real_of b w = real.
Proof.
  intros Hw Hr Hb. rewrite real_of_listed by done. unfold wl_netdev_blob_of. destruct (Z.eqb_spec real 0); [done|].
  split.
  - destruct (find _ _) as [b'|] eqn:E; cbn; [intros ->|by intros <-].
    apply find_some in E as [Hl%list_elem_of_In Hs%Z.eqb_eq]. destruct (listed_held _ _ Hw Hl) as (sh & -> & Hh).
    destruct Hh as (_ & <- & _). done.
  - destruct (to_shadow b w) as [sh|] eqn:Et; [|by intros <-]. intros <-. pose proof (to_shadow_held _ _ _ Hw Et) as [Hh Hl].
    destruct (to_shadow_ident _ _ _ Et) as (_ & _ & Hib). destruct (reg_owned _ Hw _ _ Hl Hib) as [_ Ho].
    destruct (find _ _) as [b'|] eqn:E; cbn.
    + apply find_some in E as [Hl'%list_elem_of_In Hs%Z.eqb_eq]. destruct (listed_held _ _ Hw Hl') as (sh' & Ht' & Hh').
      destruct (to_shadow_ident _ _ _ Ht') as (_ & _ & Hib'). destruct (reg_owned _ Hw _ _ Hl' Hib') as [_ Ho'].
      destruct Hh' as (_ & Hs' & _). rewrite Hs' in Hs. rewrite Hs in Ho'. rewrite Ho in Ho'. by injection Ho'.
    + apply list_elem_of_In in Hl. eapply find_none in E; [|exact Hl]. destruct Hh as (_ & Hs & _). rewrite Hs in E. by rewrite Z.eqb_refl in E.
Qed.

(** C35: After any sequence of steps the two lookups are inverse on the live shadows and
    find nothing else: a device has a shadow exactly when that shadow has the device, and
    a pointer has a device exactly when it is a live shadow. *)
Theorem netdev_lookups_inverse m w : keeps_priv -> rtc nstep (World m ∅ [] ∅ [] 0) w ->
  (forall b real, real <> 0 -> b <> 0 -> wl_netdev_blob_of real w = b <-> wl_netdev_real_of b w = real) /\
  (forall b, wl_netdev_real_of b w <> 0 <-> is_Some (to_shadow b w)).
Proof.
  intros Hk Hs. assert (Hw : registry w).
  { eapply registry_steps; [done| |exact Hs]. split; cbn; [constructor|..].
    - intros b. unfold ident. cbn. rewrite lookup_empty. split; [by intros ?%not_elem_of_nil|]. by intros (_ & r & [=]).
    - by intros b r ?%not_elem_of_nil. }
  split; [intros b real Hr Hb; by apply blob_of_listed|]. intros b. rewrite real_of_listed by done.
  destruct (to_shadow b w) as [sh|] eqn:E; [|split; [done|by intros [? [=]]]]. split; [done|]. intros _.
  destruct (to_shadow_ident _ _ _ E) as (_ & _ & Hi). pose proof (to_shadow_held _ _ _ Hw E) as [_ Hl].
  exact (proj1 (reg_owned _ Hw _ _ Hl Hi)).
Qed.

(** ** What a registered device has *)

Lemma blob_name_strscpy src s : (Z.to_nat IFNAMSIZ <= length s)%nat ->
  blob_name (strscpy WL236_NET_DEVICE_NAME IFNAMSIZ src s) = take (Z.to_nat (IFNAMSIZ - 1)) (c_string src).
Proof.
  intros Hs. unfold blob_name, strscpy. set (n := take (Z.to_nat (IFNAMSIZ - 1)) (c_string src)).
  assert (Hn : (length n <= Z.to_nat (IFNAMSIZ - 1))%nat) by (unfold n; rewrite length_take; lia).
  assert (Hz : Forall (fun b => b <> 0) n) by (apply Forall_take, c_string_nonzero).
  change (Z.to_nat (IFNAMSIZ - 1)) with 15%nat in *. change (Z.to_nat IFNAMSIZ) with 16%nat in *. change (Z.to_nat WL236_NET_DEVICE_NAME) with 0%nat.
  assert (E : exists r, rd (wr s 0 (n ++ [0])) 0 16 = n ++ 0 :: r).
  { unfold rd, wr. rewrite drop_0, take_0, app_nil_l, take_app_ge by (rewrite length_app; cbn [length]; lia).
    rewrite <- app_assoc. eexists. reflexivity. }
  destruct E as [r ->]. rewrite c_string_app, c_string_id by done. rewrite take_ge; [done|lia].
Qed.

(** The device register_netdev was given. *)
Definition offered (b : Z) (sh : wl_netdev_shadow) (w : world) : net_device :=
  let w := set_dev (sh_real sh) (push_config sh (dev (sh_real sh) w)) w in dev (sh_real sh) (set_ethtool b (build_real_ops b w)).

Lemma shadow_set_eq b sh w : shadow b (set_shadow b sh w) = sh.
Proof. unfold shadow. cbn. by rewrite lookup_insert_eq. Qed.

Lemma dev_set_eq real d w : dev real (set_dev real d w) = d.
Proof. unfold dev. cbn. by rewrite lookup_insert_eq. Qed.

Lemma shadow_set_dev b real d w : shadow b (set_dev real d w) = shadow b w.
Proof. done. Qed.

Lemma dev_set_shadow real b sh w : dev real (set_shadow b sh w) = dev real w.
Proof. done. Qed.

Lemma offered_spec b sh w : shadow b w = sh ->
  let c := push_config sh (dev (sh_real sh) w) in
  let ethtool := get32 WL236_NET_DEVICE_ETHTOOL_OPS (s236 sh) in
  offered b sh w = with_callbacks (real_ops (get32 WL236_NET_DEVICE_NETDEV_OPS (s236 sh)) (n_ops c) w)
    (if blob_ndo ethtool WL236_ETHTOOL_OPS_GET_DRVINFO w =? 0 then n_drvinfo c else true) c.
Proof.
  intros Hs. unfold offered, build_real_ops, set_ethtool. cbn zeta. rewrite !shadow_set_dev, shadow_set_eq, Hs. cbn [s236 sh_real with_ops with_ethtool].
  set (w1 := set_shadow b _ (set_dev _ _ _)).
  change (blob_ndo (get32 WL236_NET_DEVICE_ETHTOOL_OPS (s236 sh)) WL236_ETHTOOL_OPS_GET_DRVINFO w1)
    with (blob_ndo (get32 WL236_NET_DEVICE_ETHTOOL_OPS (s236 sh)) WL236_ETHTOOL_OPS_GET_DRVINFO w).
  match goal with w1 := set_shadow _ _ (set_dev _ ?d _) |- _ => assert (Hd : dev (sh_real sh) w1 = d) by (unfold w1; by rewrite dev_set_shadow, dev_set_eq) end.
  rewrite dev_set_shadow, dev_set_eq in Hd.
  destruct (blob_ndo _ _ w =? 0); rewrite ?dev_set_eq, Hd; done.
Qed.

Lemma build_shadow b w : s236 (shadow b (build_real_ops b w)) = s236 (shadow b w) /\ sh_real (shadow b (build_real_ops b w)) = sh_real (shadow b w).
Proof. unfold build_real_ops. cbn zeta. rewrite shadow_set_dev, shadow_set_eq. done. Qed.

Lemma ethtool_shadow b w : s236 (shadow b (set_ethtool b w)) = s236 (shadow b w) /\ sh_real (shadow b (set_ethtool b w)) = sh_real (shadow b w).
Proof. unfold set_ethtool. cbn zeta. destruct (_ =? 0); rewrite ?shadow_set_dev, shadow_set_eq; done. Qed.

Lemma state_mask_u x : is_u 32 (Z.land x state_mask).
Proof. change state_mask with (Z.ones 3). rewrite Z.land_ones by lia. pose proof (Z.mod_pos_bound x (2 ^ 3)). unfold is_u. lia. Qed.

Lemma elem_of_ndos P `{forall k, Decision (P k)} k : k ∈ filter P all_ndos <-> P k.
Proof. rewrite list_elem_of_filter. split; [by intros []|]. intros Hk. split; [done|]. destruct k; unfold all_ndos; set_solver. Qed.

(** Registering gives the kernel a device with the name, type and address the driver
    left in its shadow and exactly the callbacks of its table; and once the kernel has
    accepted it, the driver's shadow shows the readiness and the name the device got. *)
Theorem netdev_register_spec b sh w ret w' : to_shadow b w = Some sh -> length (s236 sh) = Z.to_nat nd_size ->
  wl_shim_register_netdev b w = (ret, w') ->
  let old := dev (sh_real sh) w in
  let ops := get32 WL236_NET_DEVICE_NETDEV_OPS (s236 sh) in
  exists d0, register_netdev d0 = (ret, dev (sh_real sh) w') /\
    n_name d0 = (if decide (blob_name (s236 sh) = []) then n_name old else blob_name (s236 sh)) /\
    n_type d0 = get16 WL236_NET_DEVICE_TYPE (s236 sh) /\ n_addr d0 = take (Z.to_nat (n_addr_len old)) (mac sh) /\
    (ops <> 0 -> exists l, n_ops d0 = Some l /\ forall k, k ∈ l <-> blob_ndo ops (ndo_off k) w <> 0) /\
    (ret = 0 -> get32 WL236_NET_DEVICE_STATE (s236 (shadow b w')) = Z.land (n_state (dev (sh_real sh) w')) state_mask /\
       blob_name (s236 (shadow b w')) = take (Z.to_nat (IFNAMSIZ - 1)) (c_string (n_name (dev (sh_real sh) w')))).
Proof.
  intros Ht Hlen Hreg old ops. destruct (to_shadow_ident _ _ _ Ht) as (_ & Hs & _).
  assert (Hsh : shadow b w = sh) by (unfold shadow; by rewrite Hs). exists (offered b sh w).
  unfold wl_shim_register_netdev in Hreg. rewrite Ht in Hreg. cbn zeta in Hreg.
  change (dev (sh_real sh) (set_ethtool b (build_real_ops b (set_dev (sh_real sh) (push_config sh (dev (sh_real sh) w)) w))))
    with (offered b sh w) in Hreg.
  pose proof (offered_spec b sh w Hsh) as Ho. cbn zeta in Ho.
  set (w1 := set_ethtool b (build_real_ops b _)) in Hreg.
  assert (Hw1 : s236 (shadow b w1) = s236 sh /\ sh_real (shadow b w1) = sh_real sh).
  { unfold w1. destruct (ethtool_shadow b (build_real_ops b (set_dev (sh_real sh) (push_config sh (dev (sh_real sh) w)) w))) as [-> ->].
    destruct (build_shadow b (set_dev (sh_real sh) (push_config sh (dev (sh_real sh) w)) w)) as [-> ->]. by rewrite shadow_set_dev, Hsh. }
  destruct (register_netdev (offered b sh w)) as [r d] eqn:Er. revert Hw1 Hreg. generalize w1. clear w1. intros w1 [H1 H2] Hreg.
  injection Hreg as -> <-.
  match goal with |- _ = (_, ?x) /\ _ => assert (Hd : x = d) end.
  { destruct (ret =? 0); [|apply dev_set_eq]. unfold shadow_sync_state. by rewrite !dev_set_shadow, dev_set_eq. }
  rewrite Hd. split; [done|]. rewrite Ho. clear Ho. cbn [n_name n_type n_addr n_ops with_callbacks].
  split; [|split; [|split; [|split]]].
  - unfold push_config. cbn zeta. destruct (blob_name (s236 sh)) as [|c l] eqn:En; cbn [n_name with_link]; [|done].
    destruct ((if _ : bool then _ else _) =? 0); done.
  - unfold push_config. cbn zeta. destruct (blob_name (s236 sh)); cbn [n_type with_link];
      (destruct ((if _ : bool then _ else _) =? 0); done).
  - unfold push_config. cbn zeta. destruct (blob_name (s236 sh)); cbn [n_addr with_link];
      (destruct ((if _ : bool then _ else _) =? 0); done).
  - intros Hops%Z.eqb_neq. unfold real_ops. fold ops. rewrite Hops.
    eexists. split; [reflexivity|]. intros k. apply elem_of_ndos.
  - intros ->. cbn [Z.eqb]. unfold shadow_sync_state. rewrite !shadow_set_eq, !dev_set_shadow, !shadow_set_dev, H2, dev_set_eq.
    cbn [s236 with_s236]. rewrite H1.
    set (s := set32 WL236_NET_DEVICE_STATE (Z.land (n_state d) state_mask) (s236 sh)).
    assert (Hl : length s = Z.to_nat nd_size) by (unfold s, set32; size).
    split; [|apply blob_name_strscpy; rewrite Hl; vm_compute; lia].
    unfold get32, strscpy. assert (Hn : (length (take (Z.to_nat (IFNAMSIZ - 1)) (c_string (n_name d)) ++ [0%Z]) <= 16)%nat).
    { rewrite length_app, length_take. change (Z.to_nat (IFNAMSIZ - 1)) with 15%nat. cbn [length]. lia. }
    unfold get_field at 1. change (Z.to_nat WL236_NET_DEVICE_NAME) with 0%nat. change (Z.to_nat WL236_NET_DEVICE_STATE) with 72%nat.
    rewrite rd_wr_disj; [| | |unfold disj; lia]; [|rewrite Hl; change (Z.to_nat nd_size) with 900%nat; lia..].
    pose proof (get_set_eq nd_size WL236_NET_DEVICE_STATE 4 (Z.land (n_state d) state_mask) (s236 sh)) as E.
    apply E; [reflexivity|exact Hlen|apply state_mask_u].
Qed.

(** *** The name the driver writes over the template *)

Lemma strscpy_rd src (s : list Z) : (16 <= length s)%nat -> Forall (fun b => b <> 0) src -> (length src <= 15)%nat ->
  exists r, rd (strscpy WL236_NET_DEVICE_NAME IFNAMSIZ src s) 0 16 = src ++ 0 :: r.
Proof.
  intros Hs Hz Hl. unfold strscpy. change (Z.to_nat (IFNAMSIZ - 1)) with 15%nat. change (Z.to_nat WL236_NET_DEVICE_NAME) with 0%nat.
  rewrite c_string_id, take_ge by (done || lia). unfold rd, wr.
  rewrite drop_0, take_0, app_nil_l, take_app_ge by (rewrite length_app; cbn [length]; lia). rewrite <- app_assoc. eexists. reflexivity.
Qed.

Lemma strscpy_size src (s : list Z) : length s = Z.to_nat nd_size -> length (strscpy WL236_NET_DEVICE_NAME IFNAMSIZ src s) = Z.to_nat nd_size.
Proof.
  intros Hs. unfold strscpy. rewrite wr_length; [done|]. rewrite length_app, length_take, Hs. change (Z.to_nat (IFNAMSIZ - 1)) with 15%nat.
  change (Z.to_nat nd_size) with 900%nat. change (Z.to_nat WL236_NET_DEVICE_NAME) with 0%nat. cbn [length]. lia.
Qed.

(** The first 16 bytes are what they were before a write beyond them. *)
Lemma name_kept off n v (s : list Z) : fits nd_size off n && (16 <=? off) = true -> length s = Z.to_nat nd_size ->
  rd (set_field off n v s) 0 16 = rd s 0 16.
Proof.
  intros [Hf Ho%Z.leb_le]%andb_true_iff Hs. pose proof (fits_le _ _ _ _ Hf Hs). unfold set_field. apply rd_wr_disj.
  - by rewrite le_bytes_length.
  - rewrite Hs. change (Z.to_nat nd_size) with 900%nat. lia.
  - unfold disj. rewrite le_bytes_length. lia.
Qed.

Lemma alloc_name mem real made w : mem <> 0 -> real <> 0 -> Forall (fun b => b <> 0) (n_name made) -> (length (n_name made) <= 15)%nat ->
  let sh := shadow mem (snd (wl_shim_alloc_netdev_mq mem real made w)) in
  length (s236 sh) = Z.to_nat nd_size /\ exists r, rd (s236 sh) 0 16 = n_name made ++ 0 :: r.
Proof.
  intros Hm%Z.eqb_neq Hr%Z.eqb_neq Hz Hl. unfold wl_shim_alloc_netdev_mq. rewrite Hm, Hr. cbn [snd]. unfold shadow at 1 2. cbn [set_list w_shadows set_shadow].
  rewrite lookup_insert_eq. cbn [default s236 id]. unfold shadow_init_list_head, set32, set16.
  match goal with |- context [strscpy _ _ _ ?x] => set (s0 := x) end.
  assert (H0 : length s0 = Z.to_nat nd_size) by (unfold s0; size; by rewrite length_replicate).
  pose proof (strscpy_size (n_name made) s0 H0) as H1.
  assert (H2 : exists r, rd (strscpy WL236_NET_DEVICE_NAME IFNAMSIZ (n_name made) s0) 0 16 = n_name made ++ 0 :: r).
  { apply strscpy_rd; [rewrite H0; change (Z.to_nat nd_size) with 900%nat; lia|done|done]. }
  revert H1 H2. generalize (strscpy WL236_NET_DEVICE_NAME IFNAMSIZ (n_name made) s0). intros s Hs Hn. split; [size|].
  do 7 (rewrite name_kept; [|reflexivity|size]). exact Hn.
Qed.

(** The comment trusts that the shadow's name is zero beyond what the driver writes,
    but it holds the template: a name shorter than the template is registered with the
    rest of the template after it. *)
Theorem netdev_short_name_runs_on mem real made w name :
  mem <> 0 -> real <> 0 -> Forall (fun b => b <> 0) (n_name made) -> (length (n_name made) <= 15)%nat ->
  Forall (fun b => b <> 0) name -> name <> [] -> (length name <= length (n_name made))%nat ->
  let w := snd (wl_shim_alloc_netdev_mq mem real made w) in
  let sh := with_s236 (wr (s236 (shadow mem w)) (Z.to_nat WL236_NET_DEVICE_NAME) name) (shadow mem w) in
  n_name (offered mem sh (set_shadow mem sh w)) = name ++ drop (length name) (n_name made).
Proof.
  intros Hm Hr Hz Hl Hzn Hne Hle. cbn zeta. destruct (alloc_name mem real made w Hm Hr Hz Hl) as [Hlen [r Hrd]].
  set (w1 := snd (wl_shim_alloc_netdev_mq mem real made w)) in *. set (sh := with_s236 _ _).
  rewrite (offered_spec mem sh (set_shadow mem sh w1)) by apply shadow_set_eq. cbn zeta. cbn [n_name with_callbacks].
  assert (Hb : blob_name (s236 sh) = name ++ drop (length name) (n_name made)).
  { unfold sh. cbn [s236 with_s236]. unfold blob_name. change (Z.to_nat IFNAMSIZ) with 16%nat.
    change (Z.to_nat (IFNAMSIZ - 1)) with 15%nat. change (Z.to_nat WL236_NET_DEVICE_NAME) with 0%nat.
    assert (E : rd (wr (s236 (shadow mem w1)) 0 name) 0 16 = name ++ drop (length name) (rd (s236 (shadow mem w1)) 0 16)).
    { unfold rd, wr. rewrite !drop_0, take_0, app_nil_l, take_app_ge by lia. f_equal. by rewrite Nat.add_0_l, skipn_firstn_comm. }
    rewrite E, Hrd, drop_app_le, app_assoc, c_string_app, c_string_id by (try (apply Forall_app_2; [done|by apply Forall_drop]); lia).
    rewrite take_ge; [done|]. rewrite length_app, length_drop. lia. }
  unfold push_config. cbn zeta. rewrite Hb. destruct name as [|c name]; [done|]. cbn [app n_name with_link]. done.
Qed.

End Entry.

(** ** One device: the shadow at 4096 of the device at 77, called eth%d *)

Definition a_template : list Z := [101; 116; 104; 37; 100].
Definition a_device : net_device := NetDevice a_template 1 1500 0x1002 4 6 [] 0 0 0 0 None false false 0.
Definition a_world : world := World {[ 908 := 3000; 916 := 3100 ]} ∅ [] ∅ [] 0.
Definition with_device : world := snd (wl_shim_alloc_netdev_mq 4096 77 a_device a_world).

(** The driver names it wl0.1, with a table of callbacks at 900 that opens and transmits. *)
Definition configured : wl_netdev_shadow :=
  let sh := shadow 4096 with_device in
  with_mac [0; 1; 2; 3; 4; 5] (with_s236 (set32 WL236_NET_DEVICE_NETDEV_OPS 900 (wr (s236 sh) 0 [119; 108; 48; 46; 49])) sh).
Definition accept (d : net_device) : Z * net_device :=
  (0, NetDevice (n_name d) (n_type d) (n_mtu d) (n_flags d) (Z.lor (n_state d) 2) (n_addr_len d) (n_addr d) (n_promiscuity d)
        (n_allmulti d) (n_mc_count d) (n_parent d) (n_ops d) (n_drvinfo d) (n_xoff d) (n_priv d)).
Definition configured_world : world := set_shadow 4096 configured with_device.

Lemma netdev_lookups_inverse_witness :
  wl_netdev_blob_of 77 with_device = 4096 <-> wl_netdev_real_of 4096 with_device = 77.
Proof.
  apply (proj1 (netdev_lookups_inverse (fun p => p) accept (fun d => d) {[ 908 := 3000; 916 := 3100 ]} with_device
    (conj (fun d => eq_refl) (fun d => eq_refl))
    (rtc_once _ _ (nstep_alloc (fun p => p) accept (fun d => d) a_world 4096 77 a_device (not_elem_of_nil 4096) eq_refl)))); lia.
Defined.

Lemma netdev_register_spec_witness : exists d0, accept d0 = (0, dev 77 (snd (wl_shim_register_netdev (fun p => p) accept 4096 configured_world))) /\
  n_name d0 = [119; 108; 48; 46; 49].
Proof.
  destruct (netdev_register_spec (fun p => p) accept 4096 configured configured_world 0
    (snd (wl_shim_register_netdev (fun p => p) accept 4096 configured_world)) ltac:(vm_compute; reflexivity) ltac:(vm_compute; reflexivity)
    ltac:(vm_compute; reflexivity)) as (d0 & H1 & H2 & _).
  exists d0. split; [exact H1|]. rewrite H2. vm_compute. reflexivity.
Defined.

Lemma netdev_short_name_runs_on_witness :
  let w := with_device in
  let sh := with_s236 (wr (s236 (shadow 4096 w)) 0 [119; 108; 49]) (shadow 4096 w) in
  n_name (offered (fun p => p) 4096 sh (set_shadow 4096 sh w)) = [119; 108; 49; 37; 100].
Proof.
  apply (netdev_short_name_runs_on (fun p => p) 4096 77 a_device a_world [119; 108; 49]); try lia; try done;
    [repeat constructor; lia|cbn; lia|repeat constructor; lia|cbn; lia].
Defined.
