(* ===== verification/ShadowPci.v ===== *)
(** The PCI translation of src/wl_shadow_pci.c.  The driver registers a 2.6.36 pci_driver
    with its table of ids; a real pci_driver with a translated table is registered in its
    place, whose probe hands the driver a shadow of the device and the driver's own id. *)
From stdpp Require Import base option list numbers gmap.
From Stdlib Require Import ZArith Lia.
From S2P Require Import Prelude Mem Fields Words.
Local Open Scope Z_scope.

Definition WL236_PCI_DEV_BUS : Z := 8.
Definition WL236_PCI_DEV_DEVFN : Z := 28.
Definition WL236_PCI_DEV_VENDOR : Z := 32.
Definition WL236_PCI_DEV_DEVICE : Z := 34.
Definition WL236_PCI_DEV_DEV : Z := 96.
Definition WL236_PCI_DEV_IRQ : Z := 276.
Definition WL236_PCI_DEV_RESOURCE : Z := 280.
Definition WL236_PCI_DEV_SIZEOF : Z := 856.
Definition WL236_RESOURCE_START : Z := 0.
Definition WL236_RESOURCE_END : Z := 4.
Definition WL236_RESOURCE_FLAGS : Z := 12.
Definition WL236_PCI_DEVICE_ID_SIZEOF : Z := 28.
Definition WL236_PCI_DRIVER_NAME : Z := 8.
Definition WL236_PCI_DRIVER_ID_TABLE : Z := 12.
Definition WL236_PCI_DRIVER_PROBE : Z := 16.
Definition WL236_PCI_DRIVER_REMOVE : Z := 20.
Definition WL236_PCI_DRIVER_SHUTDOWN : Z := 40.
Definition WL_PCI_DEV_SHADOW_MAGIC : Z := 0x57315044.
Definition ENOMEM : Z := 12.
Definition EBUSY : Z := 16.
Definition ENODEV : Z := 19.
Definition EINVAL : Z := 22.

(** ** State *)

(** The fields of a real pci_dev the driver reads. *)
Record pci_dev := PciDev {
  d_bus : Z; d_devfn : Z; d_vendor : Z; d_device : Z; d_irq : Z; d_start : Z; d_end : Z; d_flags : Z
}.

Record wl_pci_dev_shadow := Shadow { s236 : list Z; sh_real : Z; sh_magic : Z }.

(** An entry of the translated table: the words of the driver's entry and one more. *)
Abbreviation id_words := 8%nat.

(** wl_pci, with the memory the driver's structs are in, the devices, what is in their
    driver data and the shadows. *)
Record wl_pci := Pci {
  p_mem : words; blob_drv : Z; real_name : Z; real_id_table : option (list (list Z)); real_shutdown : bool;
  ids : option (list (list Z)); nids : Z;
  p_devs : gmap Z pci_dev; p_drvdata : gmap Z Z; p_shadows : gmap Z wl_pci_dev_shadow
}.

Definition set_driver (drv name : Z) (table : option (list (list Z))) (shutdown : bool) (i : option (list (list Z))) (n : Z) (w : wl_pci) : wl_pci :=
  Pci (p_mem w) drv name table shutdown i n (p_devs w) (p_drvdata w) (p_shadows w).
Definition bind (r b : Z) (sh : wl_pci_dev_shadow) (w : wl_pci) : wl_pci :=
  Pci (p_mem w) (blob_drv w) (real_name w) (real_id_table w) (real_shutdown w) (ids w) (nids w) (p_devs w)
    (<[r := b]> (p_drvdata w)) (<[b := sh]> (p_shadows w)).
Definition unbind (r b : Z) (w : wl_pci) : wl_pci :=
  Pci (p_mem w) (blob_drv w) (real_name w) (real_id_table w) (real_shutdown w) (ids w) (nids w) (p_devs w)
    (delete r (p_drvdata w)) (delete b (p_shadows w)).

Definition bdrv (off : Z) (w : wl_pci) : Z := load (p_mem w) (blob_drv w + off).

(** ** The shadows of devices *)

Definition pdev_shadow_of (b : Z) (w : wl_pci) : option wl_pci_dev_shadow :=
  if b =? 0 then None
  else sh ← p_shadows w !! b; if sh_magic sh =? WL_PCI_DEV_SHADOW_MAGIC then Some sh else None.

Definition wl_pci_dev_real (b : Z) (w : wl_pci) : option Z := sh_real <$> pdev_shadow_of b w.

(** The device whose embedded struct device the driver means. *)
Definition wl_pci_embedded_dev_real (p : Z) (w : wl_pci) : option Z :=
  if p =? 0 then None else sh_real <$> pdev_shadow_of (p - WL236_PCI_DEV_DEV) w.

Definition pdev_shadow_new (r : Z) (d : pci_dev) : wl_pci_dev_shadow :=
  let s := replicate (Z.to_nat WL236_PCI_DEV_SIZEOF) 0 in
  let s := set32 WL236_PCI_DEV_BUS (d_bus d) s in
  let s := set32 WL236_PCI_DEV_DEVFN (d_devfn d) s in
  let s := set16 WL236_PCI_DEV_VENDOR (d_vendor d) s in
  let s := set16 WL236_PCI_DEV_DEVICE (d_device d) s in
  let s := set32 WL236_PCI_DEV_IRQ (d_irq d) s in
  let s := set32 (WL236_PCI_DEV_RESOURCE + WL236_RESOURCE_START) (wrap32 (d_start d)) s in
  let s := set32 (WL236_PCI_DEV_RESOURCE + WL236_RESOURCE_END) (wrap32 (d_end d)) s in
  let s := set32 (WL236_PCI_DEV_RESOURCE + WL236_RESOURCE_FLAGS) (d_flags d) s in
  Shadow s r WL_PCI_DEV_SHADOW_MAGIC.

(** ** The table of ids *)

Definition id_entry (m : words) (tbl : Z) (i : nat) : list Z :=
  map (fun j => load m (tbl + Z.of_nat i * WL236_PCI_DEVICE_ID_SIZEOF + Z.of_nat j * 4)) (seq 0 (Z.to_nat (WL236_PCI_DEVICE_ID_SIZEOF / 4))).

Definition is_zero_entry (e : list Z) : bool := forallb (fun w => w =? 0) e.

(** The number of entries before the terminator, from the [n]th on: [None] past 256. *)
Fixpoint count_ids (fuel : nat) (m : words) (tbl : Z) (n : nat) : option nat :=
  match fuel with
  | O => None
  | S fuel => if is_zero_entry (id_entry m tbl n) then Some n else if (256 <? S n)%nat then None else count_ids fuel m tbl (S n)
  end.

(** [got]: whether there was memory for the table. *)
Definition build_id_table (got : bool) (tbl : Z) (w : wl_pci) : Z * wl_pci :=
  if tbl =? 0 then (- EINVAL, w)
  else match count_ids 257 (p_mem w) tbl 0 with
       | None => (- EINVAL, w)
       | Some n =>
           if negb got then (- ENOMEM, w)
           else
             let zero := replicate id_words 0 in
             let table := map (fun i => wr zero 0 (id_entry (p_mem w) tbl i)) (seq 0 n) ++ [zero] in
             (0, set_driver (blob_drv w) (real_name w) (real_id_table w) (real_shutdown w) (Some table) (Z.of_nat n) w)
       end.

(** ** The trampolines *)

(** The driver's probe, with its arguments: the shadow and the id. *)
Definition blob_id (id : option Z) (w : wl_pci) : Z :=
  match id, ids w with
  | Some i, Some _ => if i <? nids w then bdrv WL236_PCI_DRIVER_ID_TABLE w + i * WL236_PCI_DEVICE_ID_SIZEOF else 0
  | _, _ => 0
  end.

(** [id] is the index of the entry the core matched in the translated table, taken modulo
    2^32 where it is not in the table at all; [mem] the memory for the shadow. *)
Definition wl_pci_probe_tramp (fn : Z -> Z -> Z -> Z) (mem r : Z) (id : option Z) (w : wl_pci) : Z * wl_pci :=
  let f := bdrv WL236_PCI_DRIVER_PROBE w in
  if f =? 0 then (- ENODEV, w)
  else if mem =? 0 then (- ENOMEM, w)
  else match p_devs w !! r with
       | None => (- ENODEV, w)
       | Some d =>
           let bid := blob_id id w in
           let w := bind r mem (pdev_shadow_new r d) w in
           let ret := fn f mem bid in
           (ret, if ret =? 0 then w else unbind r mem w)
       end.

(** The call the driver gets, if any. *)
Definition wl_pci_remove_tramp (r : Z) (w : wl_pci) : option (Z * Z) * wl_pci :=
  let f := bdrv WL236_PCI_DRIVER_REMOVE w in
  match p_drvdata w !! r with
  | None => (None, w)
  | Some b => (if f =? 0 then None else Some (f, b), unbind r b w)
  end.

Definition wl_pci_shutdown_tramp (r : Z) (w : wl_pci) : option (Z * Z) :=
  let f := bdrv WL236_PCI_DRIVER_SHUTDOWN w in
  b ← p_drvdata w !! r; if f =? 0 then None else Some (f, b).

(** ** The entry points *)

(** [err]: what the kernel's __pci_register_driver answers; it probes after that. *)
Definition wl_shim___pci_register_driver (got : bool) (err drv : Z) (w : wl_pci) : Z * wl_pci :=
  if negb (blob_drv w =? 0) then (- EBUSY, w)
  else if drv =? 0 then (- EINVAL, w)
  else
    let w := set_driver drv (real_name w) (real_id_table w) (real_shutdown w) (ids w) (nids w) w in
    let '(e, w) := build_id_table got (bdrv WL236_PCI_DRIVER_ID_TABLE w) w in
    if negb (e =? 0) then (e, set_driver 0 (real_name w) (real_id_table w) (real_shutdown w) (ids w) (nids w) w)
    else
      let shutdown := if bdrv WL236_PCI_DRIVER_SHUTDOWN w =? 0 then real_shutdown w else true in
      let w := set_driver drv (bdrv WL236_PCI_DRIVER_NAME w) (ids w) shutdown (ids w) (nids w) w in
      (err, if err =? 0 then w else set_driver 0 (real_name w) (real_id_table w) shutdown None (nids w) w).

(** The kernel's pci_unregister_driver removes the driver from its devices first. *)
Definition pci_unregister_driver (w : wl_pci) : wl_pci :=
  fold_left (fun w r => snd (wl_pci_remove_tramp r w)) (fst <$> map_to_list (p_drvdata w)) w.

Definition wl_shim_pci_unregister_driver (w : wl_pci) : wl_pci :=
  if blob_drv w =? 0 then w
  else
    let w := pci_unregister_driver w in
    set_driver 0 (real_name w) (real_id_table w) (real_shutdown w) None 0 w.

(** pci_enable_device, pci_disable_device and pci_set_master of the device, or not. *)
Definition wl_shim_pci_enable_device (pci_enable_device : Z -> Z) (b : Z) (w : wl_pci) : Z :=
  match wl_pci_dev_real b w with Some r => pci_enable_device r | None => - ENODEV end.
Definition wl_shim_pci_disable_device (b : Z) (w : wl_pci) : option Z := wl_pci_dev_real b w.
Definition wl_shim_pci_set_master (b : Z) (w : wl_pci) : option Z := wl_pci_dev_real b w.

Definition wl_shadow_pci_exit (w : wl_pci) : wl_pci :=
  set_driver 0 (real_name w) (real_id_table w) (real_shutdown w) None (nids w) w.

(** ** The translated table *)

Lemma count_ids_spec fuel m tbl n k : count_ids fuel m tbl n = Some k -> (n <= 256)%nat ->
  (n <= k <= 256)%nat /\ is_zero_entry (id_entry m tbl k) = true /\ forall i, (n <= i < k)%nat -> is_zero_entry (id_entry m tbl i) = false.
Proof.
  revert n. induction fuel as [|fuel IH]; intros n H Hn; [done|]. cbn [count_ids] in H.
  destruct (is_zero_entry (id_entry m tbl n)) eqn:E; [injection H as <-; split; [lia|]; split; [done|intros; lia]|].
  destruct (Nat.ltb_spec 256 (S n)); [done|]. destruct (IH (S n) H ltac:(lia)) as (H1 & H2 & H3). split; [lia|]. split; [done|].
  intros i Hi. destruct (decide (i = n)) as [->|]; [done|apply H3; lia].
Qed.

(** The fuel suffices: a terminator within the first 257 entries is found. *)
Lemma count_ids_finds fuel m tbl n k : (n <= k <= 256)%nat -> (257 <= n + fuel)%nat -> is_zero_entry (id_entry m tbl k) = true ->
  is_Some (count_ids fuel m tbl n).
Proof.
  revert n. induction fuel as [|fuel IH]; intros n Hk Hf Hz; [lia|]. cbn [count_ids].
  destruct (is_zero_entry (id_entry m tbl n)) eqn:E; [done|]. destruct (decide (n = k)) as [->|]; [congruence|].
  destruct (Nat.ltb_spec 256 (S n)); [lia|]. apply IH; [lia|lia|done].
Qed.

(** The words of an entry, as the kernel finds them in the wider slot. *)
Lemma id_slot e : length e = 7%nat -> take 7 (wr (replicate id_words 0) 0 e) = e /\ length (wr (replicate id_words 0) 0 e) = id_words.
Proof. intros He. do 7 (destruct e as [|? e]; [done|]). by destruct e. Qed.

(** A successful registration gives the kernel the driver's ids up to its terminator,
    each in its wider slot and closed by a terminator, and a probe for the [i]th hands the
    driver its own [i]th entry; an id that is not of the table hands it none; a
    terminator within 257 entries is all it takes; and a registration that fails
    leaves no driver. *)
Theorem pci_register_spec got err drv w : blob_drv w = 0 -> drv <> 0 ->
  let '(ret, w') := wl_shim___pci_register_driver got err drv w in
  let tbl := load (p_mem w) (drv + WL236_PCI_DRIVER_ID_TABLE) in
  let entry := id_entry (p_mem w) tbl in
  (ret <> 0 -> blob_drv w' = 0) /\
  (ret = 0 -> exists n table, blob_drv w' = drv /\ real_id_table w' = Some table /\ length table = S n /\
     (forall i, (i < n)%nat -> is_zero_entry (entry i) = false /\ (exists e, table !! i = Some e /\ take 7 e = entry i) /\
        blob_id (Some (Z.of_nat i)) w' = tbl + Z.of_nat i * WL236_PCI_DEVICE_ID_SIZEOF) /\
     is_zero_entry (entry n) = true /\ table !! n = Some (replicate id_words 0) /\
     (forall i, Z.of_nat n <= i -> blob_id (Some i) w' = 0)) /\
  (got = true -> err = 0 -> tbl <> 0 -> (exists k, (k <= 256)%nat /\ is_zero_entry (entry k) = true) -> ret = 0).
Proof.
  intros Hw Hd. unfold wl_shim___pci_register_driver. rewrite Hw. cbn [negb Z.eqb]. destruct (Z.eqb_spec drv 0) as [|_]; [done|]. cbn zeta.
  unfold build_id_table, bdrv. cbn [set_driver p_mem blob_drv]. set (tbl := load (p_mem w) (drv + WL236_PCI_DRIVER_ID_TABLE)).
  destruct (Z.eqb_spec tbl 0) as [|Htbl]; [cbn [Z.opp EINVAL Z.eqb negb]; split; [done|split; [done|done]]|]. destruct (count_ids 257 (p_mem w) tbl 0) as [n|] eqn:Ec.
  2: { cbn [Z.opp EINVAL Z.eqb negb]. split; [done|]. split; [done|]. intros _ _ _ (k & Hk & Hz).
       destruct (count_ids_finds 257 (p_mem w) tbl 0 k ltac:(lia) ltac:(lia) Hz) as [? E]. congruence. }
  destruct got; cbn [negb]; [|cbn [Z.opp ENOMEM Z.eqb negb]; split; [done|split; [done|done]]]. cbn [Z.eqb negb set_driver p_mem blob_drv real_name real_id_table real_shutdown ids nids].
  destruct (count_ids_spec _ _ _ _ _ Ec ltac:(lia)) as (Hn & Hz & Hnz).
  set (table := map (fun i => wr (replicate id_words 0) 0 (id_entry (p_mem w) tbl i)) (seq 0 n) ++ [replicate id_words 0]).
  split; [|split].
  - intros He. destruct (Z.eqb_spec err 0); [done|]. reflexivity.
  - intros ->. cbn [Z.eqb]. exists n, table. cbn [set_driver blob_drv real_id_table]. split; [done|]. split; [done|].
    assert (Hl : length (map (fun i => wr (replicate id_words 0) 0 (id_entry (p_mem w) tbl i)) (seq 0 n)) = n) by (by rewrite length_map, length_seq).
    split; [unfold table; rewrite length_app, Hl; cbn [length]; lia|]. split; [|split; [done|split]].
    + intros i Hi. split; [apply Hnz; lia|]. split.
      * eexists. split.
        -- unfold table. rewrite lookup_app_l by (rewrite Hl; lia). rewrite list_lookup_fmap, lookup_seq_lt by lia. reflexivity.
        -- apply id_slot. reflexivity.
      * unfold blob_id, bdrv. cbn [ids nids p_mem blob_drv set_driver]. destruct (Z.ltb_spec (Z.of_nat i) (Z.of_nat n)); [done|lia].
    + unfold table. rewrite lookup_app_r by (rewrite Hl; lia). by rewrite Hl, Nat.sub_diag.
    + intros i Hi. unfold blob_id. cbn [ids nids set_driver]. destruct (Z.ltb_spec i (Z.of_nat n)); [lia|done].
  - intros _ He _ _. exact He.
Qed.

(** ** One shadow for each device the driver has *)

Inductive pstep (w : wl_pci) : wl_pci -> Prop :=
| pstep_register got err drv : pstep w (snd (wl_shim___pci_register_driver got err drv w))
| pstep_probe fn mem r id : p_drvdata w !! r = None -> p_shadows w !! mem = None -> pstep w (snd (wl_pci_probe_tramp fn mem r id w))
| pstep_remove r : pstep w (snd (wl_pci_remove_tramp r w))
| pstep_unregister : pstep w (wl_shim_pci_unregister_driver w)
| pstep_exit : pstep w (wl_shadow_pci_exit w)
| pstep_write b sh sh' : p_shadows w !! b = Some sh -> sh_real sh' = sh_real sh -> sh_magic sh' = sh_magic sh ->
    pstep w (Pci (p_mem w) (blob_drv w) (real_name w) (real_id_table w) (real_shutdown w) (ids w) (nids w) (p_devs w) (p_drvdata w) (<[b := sh']> (p_shadows w))).

Record bound (w : wl_pci) : Prop := {
  bound_shadow r b : p_drvdata w !! r = Some b -> b <> 0 /\ exists sh, p_shadows w !! b = Some sh /\ sh_real sh = r /\ sh_magic sh = WL_PCI_DEV_SHADOW_MAGIC;
  bound_device b sh : p_shadows w !! b = Some sh -> p_drvdata w !! sh_real sh = Some b
}.

Lemma bound_remove r w : bound w -> bound (snd (wl_pci_remove_tramp r w)).
Proof.
  intros [H1 H2]. unfold wl_pci_remove_tramp. destruct (p_drvdata w !! r) as [b|] eqn:E; [|done].
  destruct (H1 r b E) as (_ & sh & Hs & Hr & _). split; cbn.
  - intros r' b' [Hne Hb]%lookup_delete_Some. destruct (H1 r' b' Hb) as (? & sh' & Hs' & Hr' & ?). split; [done|]. exists sh'.
    split; [|done]. rewrite lookup_delete_ne; [done|]. intros <-. rewrite Hs in Hs'. injection Hs' as <-. congruence.
  - intros b' sh' [Hne Hb]%lookup_delete_Some. pose proof (H2 _ _ Hb) as Hd. rewrite lookup_delete_ne; [done|]. intros E'. congruence.
Qed.

Lemma bound_same w w' : p_drvdata w' = p_drvdata w -> p_shadows w' = p_shadows w -> bound w -> bound w'.
Proof. intros E1 E2 [H1 H2]. split; intros *; rewrite ?E1, ?E2; [apply H1|apply H2]. Qed.

Lemma build_same got tbl w : p_drvdata (snd (build_id_table got tbl w)) = p_drvdata w /\ p_shadows (snd (build_id_table got tbl w)) = p_shadows w.
Proof. unfold build_id_table. destruct (tbl =? 0); [done|]. destruct (count_ids _ _ _ _); [|done]. by destruct got. Qed.

Lemma bound_fold l w : bound w -> bound (fold_left (fun w r => snd (wl_pci_remove_tramp r w)) l w).
Proof. revert w. induction l as [|r l IH]; intros w Hw; [done|]. cbn [fold_left]. apply IH. by apply bound_remove. Qed.

Lemma bound_step w w' : bound w -> pstep w w' -> bound w'.
Proof.
  intros Hw Hs. destruct Hs as [got err drv|fn mem r id Hr Hm|r| | |b sh sh' Hb Hr Hm].
  - unfold wl_shim___pci_register_driver. destruct (negb (blob_drv w =? 0)); [done|]. destruct (drv =? 0); [done|]. cbn zeta.
    set (w1 := set_driver drv _ _ _ _ _ w). pose proof (build_same got (bdrv WL236_PCI_DRIVER_ID_TABLE w1) w1) as [Hd Hs].
    destruct (build_id_table _ _ w1) as [e w2]. cbn [snd] in *.
    destruct (negb (e =? 0)); [|cbn zeta; destruct (err =? 0)]; (apply (bound_same w); [exact Hd|exact Hs|exact Hw]).
  - unfold wl_pci_probe_tramp. destruct (_ =? 0); [done|]. destruct (Z.eqb_spec mem 0); [done|]. destruct (p_devs w !! r) as [d|]; [|done].
    assert (Hb : bound (bind r mem (pdev_shadow_new r d) w)).
    { destruct Hw as [H1 H2]. split; cbn.
      - intros r' b' [[<- <-]|[Hne Hb]]%lookup_insert_Some.
        + split; [done|]. exists (pdev_shadow_new r d). by rewrite lookup_insert_eq.
        + destruct (H1 r' b' Hb) as (? & sh & Hs & ?). split; [done|]. exists sh. split; [|done]. rewrite lookup_insert_ne; [done|]. intros <-. congruence.
      - intros b' sh' [[<- <-]|[Hne Hb]]%lookup_insert_Some; [by rewrite lookup_insert_eq|].
        pose proof (H2 _ _ Hb) as Hd. rewrite lookup_insert_ne; [done|]. intros E. congruence. }
    cbn zeta. cbn [snd]. destruct (fn _ _ _ =? 0); [done|].
    pose proof (bound_remove r _ Hb) as Hr'. unfold wl_pci_remove_tramp in Hr'. cbn [bind p_drvdata] in Hr'. by rewrite lookup_insert_eq in Hr'.
  - by apply bound_remove.
  - unfold wl_shim_pci_unregister_driver. destruct (_ =? 0); [done|]. eapply bound_same; [..|apply bound_fold, Hw]; done.
  - by eapply bound_same; [..|exact Hw].
  - destruct Hw as [H1 H2]. split; cbn.
    + intros r' b' E. destruct (H1 r' b' E) as (? & sh0 & Hs & Hr0 & Hm0). split; [done|]. destruct (decide (b = b')) as [->|].
      * exists sh'. rewrite lookup_insert_eq. split; [done|]. rewrite Hb in Hs. injection Hs as <-. split; congruence.
      * exists sh0. by rewrite lookup_insert_ne.
    + intros b' s [[<- <-]|[Hne Hb']]%lookup_insert_Some; [rewrite Hr; by apply H2|by apply H2].
Qed.

Lemma removed_all l w : (forall r, is_Some (p_drvdata w !! r) -> r ∈ l) ->
  p_drvdata (fold_left (fun w r => snd (wl_pci_remove_tramp r w)) l w) = ∅.
Proof.
  revert w. induction l as [|r l IH]; intros w Hl; cbn [fold_left].
  - apply map_empty. intros r. destruct (p_drvdata w !! r) as [b|] eqn:E; [|done]. by pose proof (Hl r (mk_is_Some _ _ E)) as ?%not_elem_of_nil.
  - apply IH. intros r' [b Hb]. unfold wl_pci_remove_tramp in Hb. destruct (p_drvdata w !! r) eqn:E; cbn in Hb.
    + apply lookup_delete_Some in Hb as [Hne Hb]. specialize (Hl r' (mk_is_Some _ _ Hb)). apply elem_of_cons in Hl as [|]; congruence.
    + specialize (Hl r' (mk_is_Some _ _ Hb)). apply elem_of_cons in Hl as [->|]; [congruence|done].
Qed.

(** In every reachable state each device with driver data has exactly one shadow, which
    is its own and which the entry points lead back to it, and each shadow belongs to such
    a device: a probe that fails, a removal and an unregistration leave no shadow behind
    and none dangling. *)
Theorem pci_shadows_bound m devs w : rtc pstep (Pci m 0 0 None false None 0 devs ∅ ∅) w ->
  (forall r b, p_drvdata w !! r = Some b <-> wl_pci_dev_real b w = Some r) /\
  (forall b, is_Some (p_shadows w !! b) -> is_Some (wl_pci_dev_real b w)) /\
  (blob_drv w <> 0 -> p_drvdata (wl_shim_pci_unregister_driver w) = ∅ /\ p_shadows (wl_shim_pci_unregister_driver w) = ∅).
Proof.
  intros Hs. assert (Hw : bound w).
  { apply rtc_ind_r with (P := fun w => bound w) in Hs; [exact Hs| |intros; eauto using bound_step].
    split; cbn; intros *; by rewrite lookup_empty. }
  assert (Hreal : forall b sh, p_shadows w !! b = Some sh -> wl_pci_dev_real b w = Some (sh_real sh)).
  { intros b sh Hb. destruct (bound_shadow _ Hw _ _ (bound_device _ Hw _ _ Hb)) as (Hb0 & sh' & Hb' & _ & Hm).
    rewrite Hb in Hb'. injection Hb' as <-. unfold wl_pci_dev_real, pdev_shadow_of. destruct (Z.eqb_spec b 0); [done|]. rewrite Hb. cbn. by rewrite Hm. }
  split; [|split].
  - intros r b. split.
    + intros (Hb & sh & Hsh & <- & _)%(bound_shadow _ Hw). by apply Hreal.
    + unfold wl_pci_dev_real, pdev_shadow_of. destruct (b =? 0); [done|]. destruct (p_shadows w !! b) as [sh|] eqn:E; [|done]. cbn.
      destruct (_ =? _); [|done]. intros [= <-]. by apply (bound_device _ Hw).
  - intros b [sh Hb]. rewrite (Hreal _ _ Hb). done.
  - intros Hd%Z.eqb_neq. unfold wl_shim_pci_unregister_driver. rewrite Hd. cbn [set_driver p_drvdata p_shadows].
    assert (Hn : p_drvdata (pci_unregister_driver w) = ∅).
    { apply removed_all. intros r [b Hb]. apply list_elem_of_fmap. exists (r, b). split; [done|]. by apply elem_of_map_to_list. }
    split; [exact Hn|]. assert (Hb : bound (pci_unregister_driver w)) by (by apply bound_fold). apply map_empty. intros b.
    destruct (p_shadows _ !! b) as [sh|] eqn:E; [|done]. apply (bound_device _ Hb) in E. by rewrite Hn in E.
Qed.

(** ** A driver with two ids *)

(** The pci_driver at 100, its table of two ids at 500. *)
Definition a_driver : words := {[ 112 := 500; 116 := 7000; 120 := 7100; 500 := 0x14e4; 504 := 0x4331; 528 := 0x14e4; 532 := 0x43a0 ]}.
Definition pci_0 : wl_pci := Pci a_driver 0 0 None false None 0 {[ 9 := PciDev 1 0 0x14e4 0x43a0 163 0x8000000 0x8007fff 0x200 ]} ∅ ∅.
Definition pci_1 : wl_pci := snd (wl_shim___pci_register_driver true 0 100 pci_0).
Definition pci_2 : wl_pci := snd (wl_pci_probe_tramp (fun _ _ _ => 0) 4096 9 (Some 1) pci_1).

Lemma pci_register_spec_witness : blob_drv pci_0 = 0 /\ fst (wl_shim___pci_register_driver true 0 100 pci_0) = 0.
Proof.
  split; [reflexivity|]. pose proof (pci_register_spec true 0 100 pci_0 eq_refl ltac:(lia)) as H. fold pci_1 in H.
  destruct (wl_shim___pci_register_driver true 0 100 pci_0) as [ret w']. apply H; [done|done|vm_compute; lia|].
  exists 2%nat. split; [lia|reflexivity].
Defined.

Lemma pci_shadows_bound_witness : p_drvdata pci_2 !! 9 = Some 4096 <-> wl_pci_dev_real 4096 pci_2 = Some 9.
Proof.
  apply (pci_shadows_bound a_driver (p_devs pci_0) pci_2).
  eapply rtc_l; [apply (pstep_register pci_0 true 0 100)|]. fold pci_1.
  eapply rtc_l; [apply (pstep_probe pci_1 (fun _ _ _ => 0) 4096 9 (Some 1)); reflexivity|]. apply rtc_refl.
Defined.
