(* ===== verification/EapdState.v ===== *)
(** The state of the EAP dispatcher (src/userspace/eapd/src/eapd.h): its station cache,
    its sockets to the driver, the three applications it serves (nas, the setup monitor
    and ses) with the interfaces each runs on, and the packet buffer every handler works
    in.  As for nas, a handler is a computation over the state and the log of the calls
    made, newest first, and an environment [EEnv] answers those calls.  The lists of
    interface names are strings that functions of libshared search and edit; what is
    relied on is the class [NameList] with its laws. *)
From stdpp Require Import base option list numbers.
From Stdlib Require Import ZArith Lia.
From S2P Require Import Prelude Monad.
Local Open Scope Z_scope.

(** ** Constants *)

Definition IFNAMSIZ : nat := 16.
Definition BCM_MSG_IFNAME_MAX : nat := 16.
Definition ETHER_HDR_LEN : nat := 14.
Definition EAPD_WKSP_FLAG_SHUTDOWN : Z := 1.
Definition EAPD_WKSP_FLAG_DUMP : Z := 2.
Definition EAPD_WKSP_RECV_DATA_MAX_LEN : nat := 4096.
Definition EAPD_WKSP_MAX_NO_BRIDGE : nat := 256.
Definition EAPD_WKSP_MAX_NO_BRCM : nat := 58.
Definition EAPD_WKSP_MAX_NO_IFNAMES : nat := 66.
Definition EAPD_WKSP_MAX_SUPPLICANTS : nat := 128.
Definition WL_EVENTING_MASK_LEN : nat := 17.
Definition IFNAMES_SIZE : nat := IFNAMSIZ * EAPD_WKSP_MAX_NO_IFNAMES.

Definition EAPD_CAP_SES : Z := 1.
Definition EAPD_CAP_NAS : Z := 2.
Definition EAPD_CAP_WPS : Z := 4.

Definition ETHER_TYPE_802_1X : Z := 0x888e.
Definition ETHER_TYPE_802_1X_PREAUTH : Z := 0x88c7.
Definition ETHER_TYPE_BRCM : Z := 0x886c.

(** ** Structures *)

Inductive eapd_sta_mode_t :=
| EAPD_STA_MODE_UNKNOW | EAPD_STA_MODE_WPS | EAPD_STA_MODE_WPS_ENR | EAPD_STA_MODE_SES
| EAPD_STA_MODE_NAS | EAPD_STA_MODE_NAS_PSK | EAPD_STA_MODE_WAI.
#[export] Instance eapd_sta_mode_eq : EqDecision eapd_sta_mode_t.
Proof. solve_decision. Defined.

Inductive eapd_app_mode_t :=
| EAPD_APP_UNKNOW | EAPD_APP_WPS | EAPD_APP_SES | EAPD_APP_NAS | EAPD_APP_WAI | EAPD_APP_DCS
| EAPD_APP_MEVENT | EAPD_APP_BSD.
#[export] Instance eapd_app_mode_eq : EqDecision eapd_app_mode_t.
Proof. solve_decision. Defined.

Inductive eapd_pae_state_t := EAPD_INITIALIZE | EAPD_IDENTITY.
#[export] Instance eapd_pae_state_eq : EqDecision eapd_pae_state_t.
Proof. solve_decision. Defined.

Inductive eapd_lookup_mode_t := EAPD_SEARCH_ONLY | EAPD_SEARCH_ENTER.

(** A station.  A pointer to a station is its index in the cache; the interface name is
    the 16 bytes of the array. *)
Record eapd_sta_t := ESta {
  es_used : bool;
  es_last_use : Z;
  es_next : option nat;
  es_ea : list Z;
  es_bssid : list Z;
  es_ifname : list Z;
  es_pae_state : eapd_pae_state_t;
  es_pae_id : Z;
  es_mode : eapd_sta_mode_t;
  es_eapol_version : Z
}.
#[export] Instance eta_eapd_sta_t : Settable eapd_sta_t := fun r =>
  ESta (es_used r) (es_last_use r) (es_next r) (es_ea r) (es_bssid r) (es_ifname r) (es_pae_state r)
    (es_pae_id r) (es_mode r) (es_eapol_version r).

(** A socket.  Names that are always terminated in their arrays are kept as strings,
    without the terminator. *)
Record eapd_socket := ESocket {
  so_ifname : list Z;
  so_drvSocket : Z;
  so_ifindex : Z;
  so_inuseCount : Z;
  so_flag : Z
}.
#[export] Instance eta_eapd_socket : Settable eapd_socket := fun r =>
  ESocket (so_ifname r) (so_drvSocket r) (so_ifindex r) (so_inuseCount r) (so_flag r).

(** An interface an application runs on; [cb_brcmSocket] is an index. *)
Record eapd_cb_t := ECb {
  cb_ifname : list Z;
  cb_flags : Z;
  cb_brcmSocket : option nat;
  cb_preauthSocket : eapd_socket
}.
#[export] Instance eta_eapd_cb_t : Settable eapd_cb_t := fun r =>
  ECb (cb_ifname r) (cb_flags r) (cb_brcmSocket r) (cb_preauthSocket r).

(** An application; the linked list of its interfaces is a list. *)
Record eapd_app_t := EApp {
  ap_ifnames : list Z;
  ap_appSocket : Z;
  ap_bitvec : list Z;
  ap_cb : list eapd_cb_t
}.
#[export] Instance eta_eapd_app_t : Settable eapd_app_t := fun r =>
  EApp (ap_ifnames r) (ap_appSocket r) (ap_bitvec r) (ap_cb r).

Record eapd_wksp_t := EWksp {
  ew_packet : list Z;
  ew_brcmSocketCount : nat;
  ew_brcmSocket : list eapd_socket;
  ew_sta : list eapd_sta_t;
  ew_sta_hashed : list (option nat);
  ew_wps : eapd_app_t;
  ew_nas : eapd_app_t;
  ew_ses : eapd_app_t;
  ew_flags : Z;
  ew_fdset : list Z;
  ew_fdmax : Z;
  ew_difSocket : Z
}.
#[export] Instance eta_eapd_wksp_t : Settable eapd_wksp_t := fun r =>
  EWksp (ew_packet r) (ew_brcmSocketCount r) (ew_brcmSocket r) (ew_sta r) (ew_sta_hashed r) (ew_wps r)
    (ew_nas r) (ew_ses r) (ew_flags r) (ew_fdset r) (ew_fdmax r) (ew_difSocket r).

(** What memset to 0 leaves. *)
Definition esta_zero : eapd_sta_t :=
  ESta false 0 None (replicate 6 0) (replicate 6 0) (replicate IFNAMSIZ 0) EAPD_INITIALIZE 0 EAPD_STA_MODE_UNKNOW 0.
Definition socket_zero : eapd_socket := ESocket [] 0 0 0 0.
Definition cb_zero : eapd_cb_t := ECb [] 0 None socket_zero.
Definition app_zero : eapd_app_t := EApp [] 0 (replicate WL_EVENTING_MASK_LEN 0) [].

Definition eapd_wksp_alloc_workspace : eapd_wksp_t :=
  EWksp (replicate EAPD_WKSP_RECV_DATA_MAX_LEN 0) 0 (replicate EAPD_WKSP_MAX_NO_BRCM socket_zero)
    (replicate EAPD_WKSP_MAX_SUPPLICANTS esta_zero) (replicate EAPD_WKSP_MAX_SUPPLICANTS None)
    (app_zero <| ap_appSocket := -1 |>) (app_zero <| ap_appSocket := -1 |>) (app_zero <| ap_appSocket := -1 |>)
    0 [] (-1) (-1).

(** ** Calls out of the dispatcher

    A loopback port is named by the application it serves, [EAPD_APP_UNKNOW] being the
    port on which dynamic interfaces are announced. *)

Inductive sock_kind := SK_BRCM | SK_PREAUTH | SK_UDP.

Inductive ecall :=
| ETime
| EIsPsta (ifname : list Z)
| ESendApp (app : eapd_app_mode_t) (fd : Z) (data : list Z)
| ESendDrv (fd : Z) (data : list Z)
| ESocketOpen (k : sock_kind)
| ESetReuse (fd : Z)
| EIfIndex (fd : Z) (ifname : list Z)
| EBindIf (fd ifindex : Z)
| EBindPort (fd : Z) (app : eapd_app_mode_t)
| EClose (fd : Z)
| EOsName (nvname : list Z)
| ENvName (osname : list Z)
| EProbe (osname : list Z)
| EInstance (osname : list Z)
| EHwaddr (osname : list Z)
| EIfByMac (mac ifname : list Z)
| EConf (name : list Z)
| EMalloc
| EGetEventMsgs (osname : list Z)
| ESetEventMsgs (osname bitvec : list Z)
| EWlconf (ifname : list Z)
| EPstaAllowJoin (ifname : list Z)
| EDaemon
| ESelect (fds : list Z)
| ERecv (fd : Z).

(** What the callees answer, given the calls so far (the current one first): an integer
    result, a string or buffer, if any, and the set of descriptors select leaves. *)
Class EEnv := {
  ee_ret : list ecall -> Z;
  ee_buf : list ecall -> option (list Z);
  ee_ready : list ecall -> list Z
}.

(** The lists of names of libshared, and its bounded concatenation. *)
Class NameList := {
  strlcat_r : list Z -> list Z -> nat -> list Z;
  find_in_list : list Z -> list Z -> bool;
  add_to_list : list Z -> list Z -> nat -> list Z;
  remove_from_list : list Z -> list Z -> nat -> list Z;
  foreach : list Z -> list (list Z)
}.

(** Names: no separator, no terminator, not empty. *)
Definition name_ok (n : list Z) : Prop := n <> [] /\ Forall (fun c => c <> 0 /\ c <> 32) n.

Class NameListLaws `{NL : NameList} : Prop := {
  find_empty n : find_in_list [] n = false;
  find_add n l m sz : name_ok n -> (length l + length n + 2 <= sz)%nat ->
    find_in_list (add_to_list n l sz) m = bool_decide (m = n) || find_in_list l m;
  find_remove n l m sz : m <> n -> find_in_list (remove_from_list n l sz) m = find_in_list l m
}.

Record eworld := EWorld { ew : eapd_wksp_t; ew_log : list ecall }.
#[export] Instance eta_eworld : Settable eworld := fun r => EWorld (ew r) (ew_log r).

Definition D (A : Type) : Type := M eworld A.

Definition elog (c : ecall) : D unit := modify (fun w => w <| ew_log ::= cons c |>).
Definition wk {A} (f : eapd_wksp_t -> A) : D A := get (fun w => f (ew w)).
Definition set_wk (f : eapd_wksp_t -> eapd_wksp_t) : D unit := modify (fun w => w <| ew ::= f |>).

Definition esta_at (k : eapd_wksp_t) (i : nat) : eapd_sta_t := nth i (ew_sta k) esta_zero.
Definition esta {A} (i : nat) (f : eapd_sta_t -> A) : D A := wk (fun k => f (esta_at k i)).
Definition upd_esta (k : eapd_wksp_t) (i : nat) (f : eapd_sta_t -> eapd_sta_t) : eapd_wksp_t := k <| ew_sta ::= alter f i |>.
Definition set_esta (i : nat) (f : eapd_sta_t -> eapd_sta_t) : D unit := set_wk (fun k => upd_esta k i f).

Definition brcm_at (k : eapd_wksp_t) (i : nat) : eapd_socket := nth i (ew_brcmSocket k) socket_zero.
Definition brcm {A} (i : nat) (f : eapd_socket -> A) : D A := wk (fun k => f (brcm_at k i)).
Definition set_brcm (i : nat) (f : eapd_socket -> eapd_socket) : D unit := set_wk (fun k => k <| ew_brcmSocket ::= alter f i |>).

(** ** The packet buffer *)

(** memcpy out of it and into it. *)
Definition rd_pkt (o n : nat) : D (list Z) :=
  p ← wk ew_packet;
  within (Nat.leb (o + n) (length p)) ;;
  mret (take n (drop o p)).

Definition splice (l : list Z) (o : nat) (d : list Z) : list Z := take o l ++ d ++ drop (o + length d) l.

Definition wr_pkt (o : nat) (d : list Z) : D unit :=
  p ← wk ew_packet;
  within (Nat.leb (o + length d) (length p)) ;;
  set_wk (fun k => k <| ew_packet := splice p o d |>).

Definition rd8 (o : nat) : D Z := b ← rd_pkt o 1; mret (idx b 0).

(** ntohs and ntohl of unaligned fields. *)
Definition ntoh16_at (o : nat) : D Z := b ← rd_pkt o 2; mret (2 ^ 8 * idx b 0 + idx b 1).
Definition ntoh32_at (o : nat) : D Z :=
  b ← rd_pkt o 4; mret (2 ^ 24 * idx b 0 + 2 ^ 16 * idx b 1 + 2 ^ 8 * idx b 2 + idx b 3).

(** The bytes from a pointer to the end of the buffer. *)
Definition rest_pkt (o : nat) : D (list Z) := wk (fun k => drop o (ew_packet k)).

(** An unsigned 32-bit value read as an int. *)
Definition to_int (x : Z) : Z := if x <? 2 ^ 31 then x else x - 2 ^ 32.

(** strcmp(a, b) == 0 on the bytes from two pointers to the ends of their objects;
    [None] when it runs past one of them. *)
Fixpoint strcmp_eq (a b : list Z) : option bool :=
  match a, b with
  | x :: a, y :: b => if x =? y then (if x =? 0 then Some true else strcmp_eq a b) else Some false
  | _, _ => None
  end.

Definition may_oob {A} (o : option A) : D A := match o with Some a => mret a | None => oob end.

Section Calls.
Context `{E : EEnv}.

Definition ereply {A} (f : list ecall -> A) : D A := get (fun w => f (ew_log w)).

(** Calls by the kind of their answer. *)
Definition ecall_int (c : ecall) : D Z := elog c ;; ereply ee_ret.
Definition ecall_buf (c : ecall) : D (option (list Z)) := elog c ;; ereply ee_buf.

Definition etime : D Z := ecall_int ETime.
Definition wl_wlif_is_psta (ifname : list Z) : D bool := r ← ecall_int (EIsPsta ifname); mret (negb (r =? 0)).

(** sendto and sendmsg of [len] bytes from the buffer. *)
Definition eapd_message_send (fd : Z) (o : nat) (len : Z) : D unit :=
  within (0 <=? len) ;;
  d ← rd_pkt o (Z.to_nat len);
  elog (ESendDrv fd d).

End Calls.

(** ** Stepping through a handler *)

Section Steps.
Context `{E : EEnv} {P : Prop}.
Implicit Types w : eworld.

Lemma wp_wk {A} (f : eapd_wksp_t -> A) Q w : Q (f (ew w)) w -> wpx P (wk f) Q w.
Proof. done. Qed.
Lemma wp_esta {A} i (f : eapd_sta_t -> A) Q w : Q (f (esta_at (ew w) i)) w -> wpx P (esta i f) Q w.
Proof. done. Qed.
Lemma wp_brcm {A} i (f : eapd_socket -> A) Q w : Q (f (brcm_at (ew w) i)) w -> wpx P (brcm i f) Q w.
Proof. done. Qed.
Lemma wp_elog c Q w : Q tt (EWorld (ew w) (c :: ew_log w)) -> wpx P (elog c) Q w.
Proof. done. Qed.
Lemma wp_ereply {A} (f : list ecall -> A) Q w : Q (f (ew_log w)) w -> wpx P (ereply f) Q w.
Proof. done. Qed.
Lemma wp_ecall_int c Q w : Q (ee_ret (c :: ew_log w)) (EWorld (ew w) (c :: ew_log w)) -> wpx P (ecall_int c) Q w.
Proof. done. Qed.
Lemma wp_ecall_buf c Q w : Q (ee_buf (c :: ew_log w)) (EWorld (ew w) (c :: ew_log w)) -> wpx P (ecall_buf c) Q w.
Proof. done. Qed.
Lemma wp_set_wk f Q w : Q tt (EWorld (f (ew w)) (ew_log w)) -> wpx P (set_wk f) Q w.
Proof. done. Qed.
Lemma wp_set_esta i f Q w : Q tt (EWorld (upd_esta (ew w) i f) (ew_log w)) -> wpx P (set_esta i f) Q w.
Proof. done. Qed.
Lemma wp_set_brcm i f Q w :
  Q tt (EWorld ((ew w) <| ew_brcmSocket ::= alter f i |>) (ew_log w)) -> wpx P (set_brcm i f) Q w.
Proof. done. Qed.
Lemma wp_rest_pkt o Q w : Q (drop o (ew_packet (ew w))) w -> wpx P (rest_pkt o) Q w.
Proof. done. Qed.
Lemma wp_wl_wlif_is_psta n Q w :
  Q (negb (ee_ret (EIsPsta n :: ew_log w) =? 0)) (EWorld (ew w) (EIsPsta n :: ew_log w)) -> wpx P (wl_wlif_is_psta n) Q w.
Proof. done. Qed.

Lemma wp_rd_pkt o n Q w :
  ((o + n <= length (ew_packet (ew w)))%nat -> Q (take n (drop o (ew_packet (ew w)))) w) ->
  ((length (ew_packet (ew w)) < o + n)%nat -> P) -> wpx P (rd_pkt o n) Q w.
Proof.
  intros H1 H2. unfold rd_pkt. apply wp_bind, wp_wk, wp_bind, wp_within; intros H; [|apply Nat.leb_gt in H; auto].
  apply wp_ret. apply Nat.leb_le in H. auto.
Qed.

Lemma wp_wr_pkt o d Q w :
  ((o + length d <= length (ew_packet (ew w)))%nat ->
    Q tt (EWorld ((ew w) <| ew_packet := splice (ew_packet (ew w)) o d |>) (ew_log w))) ->
  ((length (ew_packet (ew w)) < o + length d)%nat -> P) -> wpx P (wr_pkt o d) Q w.
Proof.
  intros H1 H2. unfold wr_pkt. apply wp_bind, wp_wk, wp_bind, wp_within; intros H; [|apply Nat.leb_gt in H; auto].
  apply wp_set_wk. apply Nat.leb_le in H. auto.
Qed.

Lemma wp_may_oob {A} (o : option A) Q w : (forall a, o = Some a -> Q a w) -> (o = None -> P) -> wpx P (may_oob o) Q w.
Proof. destruct o; unfold wpx; cbn; auto. Qed.
End Steps.

Ltac eapd_step :=
  match goal with
  | |- wpx _ (wk _) _ _ => apply wp_wk
  | |- wpx _ (esta _ _) _ _ => apply wp_esta
  | |- wpx _ (brcm _ _) _ _ => apply wp_brcm
  | |- wpx _ (elog _) _ _ => apply wp_elog
  | |- wpx _ (ereply _) _ _ => apply wp_ereply
  | |- wpx _ (ecall_int _) _ _ => apply wp_ecall_int
  | |- wpx _ (ecall_buf _) _ _ => apply wp_ecall_buf
  | |- wpx _ etime _ _ => apply wp_ecall_int
  | |- wpx _ (wl_wlif_is_psta _) _ _ => apply wp_wl_wlif_is_psta
  | |- wpx _ (set_wk _) _ _ => apply wp_set_wk
  | |- wpx _ (set_esta _ _) _ _ => apply wp_set_esta
  | |- wpx _ (set_brcm _ _) _ _ => apply wp_set_brcm
  | |- wpx _ (rest_pkt _) _ _ => apply wp_rest_pkt
  | |- wpx _ (rd_pkt _ _) _ _ => apply wp_rd_pkt; [intros ?|intros ?; try exact I]
  | |- wpx _ (wr_pkt _ _) _ _ => apply wp_wr_pkt; [intros ?|intros ?; try exact I]
  | |- wpx _ (may_oob _) _ _ => apply wp_may_oob; [intros ? ?|intros ?; try exact I]
  | _ => wp_step
  end.

Ltac eapd_steps := repeat (eapd_step; cbn [ew ew_log]).

(** ** The buffer *)

Lemma splice_length l o d : (o + length d <= length l)%nat -> length (splice l o d) = length l.
Proof. intros. unfold splice. rewrite !length_app, length_take, length_drop. lia. Qed.

(** Reading a range that a write covers, and one it does not touch. *)
Lemma splice_read l o d : (o + length d <= length l)%nat -> take (length d) (drop o (splice l o d)) = d.
Proof.
  intros. unfold splice. rewrite drop_app_ge by (rewrite length_take; lia).
  rewrite length_take, Nat.min_l by lia. replace (o - o)%nat with 0%nat by lia. rewrite drop_0.
  by rewrite take_app_length.
Qed.

Lemma splice_lookup l o d i : (o + length d <= length l)%nat ->
  splice l o d !! i = if decide (o <= i < o + length d)%nat then d !! (i - o)%nat else l !! i.
Proof.
  intros. unfold splice. destruct (decide (i < o)%nat).
  - rewrite decide_False by lia. rewrite lookup_app_l by (rewrite length_take; lia). by rewrite lookup_take_lt.
  - rewrite lookup_app_r by (rewrite length_take; lia). rewrite length_take, Nat.min_l by lia.
    destruct (decide _) as [Hi|Hi].
    + by rewrite lookup_app_l by lia.
    + rewrite lookup_app_r by lia. rewrite lookup_drop. f_equal. lia.
Qed.

Lemma splice_other l o d o' n : (o + length d <= length l)%nat -> (o' + n <= o \/ o + length d <= o')%nat ->
  take n (drop o' (splice l o d)) = take n (drop o' l).
Proof.
  intros Hl Ho. apply list_eq. intros i. destruct (decide (i < n)%nat) as [Hi|Hi].
  - rewrite !lookup_take_lt, !lookup_drop, splice_lookup by done. by rewrite decide_False by lia.
  - by rewrite !lookup_take_ge by lia.
Qed.

(** Strings that end inside their objects compare by their contents. *)
Lemma strcmp_eq_spec a b : 0 ∉ a -> 0 ∉ b -> forall ra rb,
  strcmp_eq (a ++ 0 :: ra) (b ++ 0 :: rb) = Some (bool_decide (a = b)).
Proof.
  revert b. induction a as [|x a IH]; intros [|y b] Ha Hb ra rb; cbn -[Z.eqb].
  - rewrite Z.eqb_refl. by rewrite bool_decide_eq_true_2.
  - destruct (Z.eqb_spec 0 y) as [<-|]; [by destruct Hb; apply list_elem_of_here|]. by rewrite bool_decide_eq_false_2.
  - destruct (Z.eqb_spec x 0) as [->|]; [by destruct Ha; apply list_elem_of_here|]. by rewrite bool_decide_eq_false_2.
  - apply not_elem_of_cons in Ha as [Hx Ha], Hb as [Hy Hb]. destruct (Z.eqb_spec x y) as [->|Hne].
    + destruct (Z.eqb_spec y 0) as [->|]; [done|]. rewrite IH by done. f_equal. apply bool_decide_ext. naive_solver.
    + rewrite bool_decide_eq_false_2; [done|]. naive_solver.
Qed.

(** ** A list of names separated by spaces *)

Fixpoint words_go (cur l : list Z) : list (list Z) :=
  match l with
  | [] => if bool_decide (cur = []) then [] else [cur]
  | c :: l => if c =? 32 then (if bool_decide (cur = []) then words_go [] l else cur :: words_go [] l)
              else words_go (cur ++ [c]) l
  end.

Definition join_words (l : list (list Z)) : list Z :=
  match l with
  | [] => []
  | x :: l => foldl (fun acc y => acc ++ 32 :: y) x l
  end.

Definition names_words : NameList := {|
  strlcat_r a b n := take (n - 1) (a ++ b);
  find_in_list l n := bool_decide (n ∈ words_go [] l);
  add_to_list n l sz := if Nat.leb (length l + length n + 2) sz then (if bool_decide (l = []) then n else l ++ 32 :: n) else l;
  remove_from_list n l sz := join_words (List.filter (fun m => negb (bool_decide (m = n))) (words_go [] l));
  foreach l := words_go [] l
|}.

Lemma words_go_sep cur l r : words_go cur (l ++ 32 :: r) = words_go cur l ++ words_go [] r.
Proof.
  revert cur. induction l as [|c l IH]; intros cur; cbn -[Z.eqb].
  - rewrite Z.eqb_refl. by destruct (bool_decide (cur = [])).
  - destruct (c =? 32); [|apply IH]. destruct (bool_decide (cur = [])); [apply IH|]. cbn. by rewrite IH.
Qed.

Lemma words_go_word cur n : Forall (fun c => c <> 32) n -> words_go cur n = if bool_decide (cur ++ n = []) then [] else [cur ++ n].
Proof.
  revert cur. induction n as [|c n IH]; intros cur Hn; cbn -[Z.eqb bool_decide]; [by rewrite app_nil_r|].
  inversion Hn as [|? ? Hc Hn']; subst. destruct (Z.eqb_spec c 32); [done|]. rewrite IH by done. by rewrite <- app_assoc.
Qed.

Definition word_ok (n : list Z) : Prop := n <> [] /\ Forall (fun c => c <> 32) n.

Lemma words_go_ok cur l : Forall (fun c => c <> 32) cur -> Forall word_ok (words_go cur l).
Proof.
  revert cur. induction l as [|c l IH]; intros cur Hc; cbn -[Z.eqb bool_decide].
  - case_bool_decide; repeat constructor; done.
  - destruct (Z.eqb_spec c 32).
    + case_bool_decide; [by apply IH|]. constructor; [done|]. by apply IH.
    + apply IH. apply Forall_app. by repeat constructor.
Qed.

Lemma words_join l : Forall word_ok l -> words_go [] (join_words l) = l.
Proof.
  intros Hl. destruct l as [|x l]; [done|]. cbn [join_words]. inversion Hl as [|? ? [Hx Hx'] Hl']; subst.
  assert (H : forall pre acc, words_go [] acc = pre -> words_go [] (foldl (fun acc y => acc ++ 32 :: y) acc l) = pre ++ l).
  { clear Hl. induction l as [|y l IH]; intros pre acc Hacc; cbn [foldl]; [by rewrite app_nil_r|].
    inversion Hl' as [|? ? [Hy Hy'] Hl'']; subst. rewrite (IH Hl'' (words_go [] acc ++ [y])); [by rewrite <- app_assoc|].
    rewrite words_go_sep, (words_go_word [] y) by done. cbn [app]. by rewrite bool_decide_eq_false_2. }
  apply (H [x]). rewrite words_go_word by done. cbn [app]. by rewrite bool_decide_eq_false_2.
Qed.

#[export] Instance names_words_laws : NameListLaws (NL := names_words).
Proof.
  split; cbn [find_in_list add_to_list remove_from_list names_words].
  - intros n. apply bool_decide_eq_false_2. cbn. apply not_elem_of_nil.
  - intros n l m sz [Hn Hc] Hsz. rewrite (proj2 (Nat.leb_le _ _) Hsz).
    assert (Hw : words_go [] n = [n]).
    { rewrite words_go_word by (eapply list.Forall_impl; [exact Hc|]; naive_solver). cbn [app]. by rewrite bool_decide_eq_false_2. }
    destruct (bool_decide (l = [])) eqn:Hl.
    + apply bool_decide_eq_true in Hl as ->. rewrite Hw. cbn [words_go].
      rewrite (bool_decide_eq_false_2 (m ∈ if bool_decide _ then [] else [_])) by (rewrite bool_decide_eq_true_2 by done; apply not_elem_of_nil).
      rewrite orb_false_r. apply bool_decide_ext. by rewrite list_elem_of_singleton.
    + rewrite words_go_sep, Hw. rewrite <- (bool_decide_or (m = n)). apply bool_decide_ext.
      rewrite elem_of_app, list_elem_of_singleton. tauto.
  - intros n l m sz Hne. rewrite words_join.
    + apply bool_decide_ext. rewrite !list_elem_of_In, filter_In. split; [tauto|]. intros H. split; [done|].
      by rewrite bool_decide_eq_false_2.
    + apply List.Forall_forall. intros x [Hx _]%filter_In. eapply List.Forall_forall in Hx; [exact Hx|]. apply words_go_ok. constructor.
Qed.
