(* ===== verification/EapdSta.v ===== *)
(** The station cache of src/userspace/eapd/src/eapd.c: sta_lookup finds a station or
    enters it, evicting the one unused for longest from a full cache, and forgets what it
    knew of a station that moved to another interface; sta_remove unlinks one.  The cache
    is laid out as the station table of nas, so its invariant and its lemmas are those of
    [NasSta], through the projection [skel] that keeps the links, addresses and times. *)
From stdpp Require Import base option list numbers sets.
From Stdlib Require Import ZArith Lia.
From S2P Require Import Prelude Monad NasState NasSta EapdState.
Local Open Scope Z_scope.

(** ** Definitions *)

Definition EAPD_PAE_HASH (ea : list Z) : nat :=
  Z.to_nat (Z.land (Z.lxor (Z.lxor (idx ea 3) (idx ea 4)) (idx ea 5)) (Z.of_nat EAPD_WKSP_MAX_SUPPLICANTS - 1)).

Definition ehashed (k : eapd_wksp_t) (h : nat) : option nat := nth h (ew_sta_hashed k) None.
Definition set_ehashed (h : nat) (p : option nat) : D unit := set_wk (fun k => k <| ew_sta_hashed ::= <[h := p]> |>).

(** Walking a chain: a walk longer than the cache is a cycle, in which the loop of the
    code does not end. *)
Fixpoint echain_find (fuel : nat) (k : eapd_wksp_t) (stop : nat -> bool) (p : option nat) : option (option nat) :=
  match p with
  | None => Some None
  | Some j =>
      if stop j then Some (Some j)
      else match fuel with
           | O => None
           | S fuel => echain_find fuel k stop (es_next (esta_at k j))
           end
  end.

Definition ewalk (stop : eapd_wksp_t -> nat -> bool) (p : option nat) : D (option nat) :=
  k ← wk (fun k => k);
  match echain_find EAPD_WKSP_MAX_SUPPLICANTS k (stop k) p with
  | Some r => mret r
  | None => halt
  end.

Definition sta_remove (i : nat) : D unit :=
  ea ← esta i es_ea;
  let hash := EAPD_PAE_HASH ea in
  sta_list ← wk (fun k => ehashed k hash);
  next ← esta i es_next;
  (if bool_decide (sta_list = Some i) then set_ehashed hash next
   else
     r ← ewalk (fun k j => bool_decide (es_next (esta_at k j) = Some i)) sta_list;
     match r with
     | None => mret tt
     | Some j => set_esta j (fun s => s <| es_next := next |>)
     end) ;;
  set_esta i (fun s => s <| es_used := false |>).

(** The search for a slot: the first unused one, or the index of the oldest before
    [oldest]. *)
Fixpoint efind_slot (l : list eapd_sta_t) (i : nat) (oldest : Z) (old_idx : option nat) : option nat * option nat :=
  match l with
  | [] => (None, old_idx)
  | s :: l =>
      if negb (es_used s) then (Some i, old_idx)
      else if es_last_use s <? oldest then efind_slot l (S i) (es_last_use s) (Some i)
      else efind_slot l (S i) oldest old_idx
  end.

Definition WPA_EAPOL_VERSION : Z := 1.

(** The entry after memset and the assignments that follow. *)
Definition new_esta (ea bssid ifname : list Z) (next : option nat) : eapd_sta_t :=
  esta_zero <| es_ea := ea |> <| es_bssid := bssid |> <| es_ifname := take IFNAMSIZ ifname |> <| es_used := true |>
    <| es_eapol_version := WPA_EAPOL_VERSION |> <| es_pae_state := EAPD_INITIALIZE |>
    <| es_mode := EAPD_STA_MODE_UNKNOW |> <| es_next := next |>.

Section Table.
Context `{E : EEnv}.

(** The condition under which a known station has come from somewhere else. *)
Definition sta_moved (i : nat) (bssid_ea ifname : list Z) : D bool :=
  s ← esta i (fun s => s);
  p1 ← wl_wlif_is_psta (c_string (es_ifname s));
  if p1 : bool then mret false
  else
    p2 ← wl_wlif_is_psta (c_string ifname);
    if p2 : bool then mret false
    else if negb (ea_eqb (es_bssid s) bssid_ea) then mret true
    else
      same ← may_oob (strcmp_eq (es_ifname s) ifname);
      mret (negb same).

(** [ifname] is the memory from the caller's pointer on, of which 16 bytes are copied. *)
Definition sta_lookup (sta_ea : list Z) (bssid_ea : option (list Z)) (ifname : list Z) (mode : eapd_lookup_mode_t) : D (option nat) :=
  let hash := EAPD_PAE_HASH sta_ea in
  head ← wk (fun k => ehashed k hash);
  found ← ewalk (fun k j => ea_eqb (es_ea (esta_at k j)) sta_ea) head;
  now ← etime;
  match found with
  | None =>
      match mode with
      | EAPD_SEARCH_ONLY => mret None
      | EAPD_SEARCH_ENTER =>
          tbl ← wk ew_sta;
          slot ← (match efind_slot tbl 0 now None with
                  | (Some i, _) => mret (Some i)
                  | (None, None) => mret None
                  | (None, Some i) => sta_remove i ;; mret (Some i)
                  end);
          match slot with
          | None => mret None
          | Some i =>
              bssid ← may_oob bssid_ea;
              within (Nat.leb IFNAMSIZ (length ifname)) ;;
              head ← wk (fun k => ehashed k hash);
              set_esta i (fun _ => new_esta sta_ea bssid ifname head) ;;
              set_ehashed hash (Some i) ;;
              set_esta i (fun s => s <| es_last_use := now |>) ;;
              mret (Some i)
          end
      end
  | Some i =>
      match bssid_ea with
      | None => mret tt
      | Some bssid =>
          moved ← sta_moved i bssid ifname;
          when moved
            (within (Nat.leb IFNAMSIZ (length ifname)) ;;
             set_esta i (fun s => s <| es_bssid := bssid |> <| es_ifname := take IFNAMSIZ ifname |>
               <| es_pae_state := EAPD_INITIALIZE |> <| es_mode := EAPD_STA_MODE_UNKNOW |>))
      end ;;
      set_esta i (fun s => s <| es_last_use := now |>) ;;
      mret (Some i)
  end.

End Table.

(** ** The cache as a station table *)

Definition skel_sta (s : eapd_sta_t) : nas_sta_t :=
  sta_zero <| st_used := es_used s |> <| st_last_use := es_last_use s |> <| st_ea := es_ea s |> <| st_next := es_next s |>.

Definition nas_zero : nas_t := nas_demo 0 0 true.

Definition skel (k : eapd_wksp_t) : nas_t :=
  nas_zero <| na_sta := map skel_sta (ew_sta k) |> <| na_sta_hashed := ew_sta_hashed k |>.

(** The invariant of the cache and its contents: a partial map from addresses to slots. *)
Definition cache_ok (k : eapd_wksp_t) : Prop := table_ok (skel k).
Definition cache_slot (k : eapd_wksp_t) (ea : list Z) : option nat := view (skel k) ea.

Lemma skel_at k i : sta_at (skel k) i = skel_sta (esta_at k i).
Proof. unfold sta_at, esta_at. change sta_zero with (skel_sta esta_zero). apply map_nth. Qed.

Lemma skel_upd k i f g : (forall s, skel_sta (f s) = g (skel_sta s)) -> skel (upd_esta k i f) = upd_sta (skel k) i g.
Proof.
  intros Hfg. unfold skel, upd_sta, upd. cbn. f_equal. unfold upd_esta, upd. cbn.
  apply list_eq. intros j. rewrite !(list_lookup_fmap skel_sta).
  destruct (decide (i = j)) as [<-|Hn].
  - rewrite !list_lookup_alter_eq, (list_lookup_fmap skel_sta). destruct (ew_sta k !! i); cbn; [|done]. by rewrite Hfg.
  - by rewrite !list_lookup_alter_ne, (list_lookup_fmap skel_sta).
Qed.

(** Only the cache differs. *)
Definition cache_only (k k' : eapd_wksp_t) : Prop :=
  k' = k <| ew_sta := ew_sta k' |> <| ew_sta_hashed := ew_sta_hashed k' |>.

#[export] Instance cache_only_preorder : PreOrder cache_only.
Proof.
  split.
  - intros k. by destruct k.
  - unfold cache_only. intros k1 k2 k3 H1 H2. rewrite H2, H1. done.
Qed.

Lemma cache_only_upd k i f : cache_only k (upd_esta k i f).
Proof. by destruct k. Qed.

Lemma esta_at_upd k i j f : (i < length (ew_sta k))%nat ->
  esta_at (upd_esta k i f) j = if decide (i = j) then f (esta_at k j) else esta_at k j.
Proof.
  intros Hi. unfold esta_at. change (ew_sta (upd_esta k i f)) with (alter f i (ew_sta k)).
  rewrite !nth_lookup. destruct (decide (i = j)) as [<-|Hn].
  - rewrite list_lookup_alter_eq. by destruct (lookup_lt_is_Some_2 _ _ Hi) as [s ->].
  - by rewrite list_lookup_alter_ne.
Qed.

Lemma cache_len k : cache_ok k -> length (ew_sta k) = MAX_SUPPLICANTS.
Proof. intros H. rewrite <- (t_len _ H). symmetry. apply (length_map skel_sta (ew_sta k)). Qed.

(** Writing fields of a station that the cache does not link by. *)
Lemma cache_upd k i f : (forall s, links (skel_sta (f s)) = links (skel_sta s)) -> cache_ok k ->
  cache_ok (upd_esta k i f) /\ (forall a, cache_slot (upd_esta k i f) a = cache_slot k a).
Proof.
  intros Hf Hk. assert (Hs : same_table (skel k) (skel (upd_esta k i f))).
  { split_and!.
    - change (length (map skel_sta (alter f i (ew_sta k))) = length (map skel_sta (ew_sta k))).
      by rewrite !length_map, length_alter.
    - done.
    - intros j. rewrite !skel_at. destruct (decide (i < length (ew_sta k))%nat) as [Hi|Hi].
      + rewrite esta_at_upd by done. by destruct (decide (i = j)).
      + unfold esta_at. change (ew_sta (upd_esta k i f)) with (alter f i (ew_sta k)).
        destruct (decide (i = j)) as [<-|Hn]; [by rewrite !nth_overflow by (rewrite ?length_alter; lia)|].
        by rewrite !nth_lookup, list_lookup_alter_ne. }
  split; [unfold cache_ok; by rewrite <- Hs|]. intros a. by apply view_same.
Qed.

Lemma echain_find_skel fuel k stop p : echain_find fuel k stop p = chain_find fuel (skel k) stop p.
Proof.
  revert p. induction fuel as [|fuel IH]; intros [j|]; cbn [echain_find chain_find]; [done|done| |done].
  rewrite skel_at. change (st_next (skel_sta (esta_at k j))) with (es_next (esta_at k j)). by rewrite IH.
Qed.

Lemma ewalk_spec stop p c w : chain (skel (ew w)) p c -> (length c <= MAX_SUPPLICANTS)%nat ->
  twp (ewalk stop p) (fun r w' => r = List.find (stop (ew w)) c /\ w' = w) w.
Proof.
  intros Hc Hl. unfold ewalk. change EAPD_WKSP_MAX_SUPPLICANTS with MAX_SUPPLICANTS.
  eapd_steps; rewrite echain_find_skel, (chain_find_spec _ _ _ _ c) in Heqo by done; by simplify_eq.
Qed.

(** What removing station [i] leaves. *)
Definition removed (i : nat) (k k' : eapd_wksp_t) : Prop :=
  cache_ok k' /\ cache_only k k' /\ es_used (esta_at k' i) = false /\
  (forall a, cache_slot k' a = if decide (cache_slot k a = Some i) then None else cache_slot k a) /\
  (forall j, j <> i -> esta_at k' j = (esta_at k j) <| es_next := es_next (esta_at k' j) |>) /\
  esta_at k' i = (esta_at k i) <| es_next := es_next (esta_at k' i) |> <| es_used := false |>.

Lemma esta_eta s : s <| es_next := es_next s |> = s.
Proof. by destruct s. Qed.

Lemma removed_intro i k k' : cache_ok k -> cache_ok k' -> rest_same (skel k) (skel k') -> cache_only k k' ->
  sta_at (skel k') i = (sta_at (skel k) i) <| st_used := false |> ->
  (forall j, j <> i -> esta_at k' j = (esta_at k j) <| es_next := es_next (esta_at k' j) |>) ->
  esta_at k' i = (esta_at k i) <| es_next := es_next (esta_at k' i) |> <| es_used := false |> -> removed i k k'.
Proof.
  intros Hk Hk' Hr Hc Hi Ho He. split_and!; [done|done| | |done|done].
  - apply (f_equal st_used) in Hi. by rewrite skel_at in Hi.
  - intros a. apply tossed_view; [done|]. split_and!; [done|done|by rewrite Hi| |].
    + rewrite Hi. by rewrite !skel_at.
    + intros j Hj. rewrite !skel_at, (Ho j Hj). done.
Qed.

Lemma skel_used k i : skel (upd_esta k i (fun s => s <| es_used := false |>)) = upd_sta (skel k) i (fun s => s <| st_used := false |>).
Proof. by apply skel_upd. Qed.

Lemma skel_next k i p : skel (upd_esta k i (fun s => s <| es_next := p |>)) = upd_sta (skel k) i (fun s => s <| st_next := p |>).
Proof. by apply skel_upd. Qed.

Lemma find_ext {A} (f g : A -> bool) l : (forall x, f x = g x) -> List.find f l = List.find g l.
Proof. intros H. induction l as [|x l IH]; cbn [List.find]; [done|]. by rewrite H, IH. Qed.

Section Remove.
Context `{E : EEnv}.

Lemma sta_remove_spec i w : cache_ok (ew w) -> (i < MAX_SUPPLICANTS)%nat ->
  twp (sta_remove i) (fun _ w' => removed i (ew w) (ew w') /\ ew_log w' = ew_log w) w.
Proof.
  intros Hk Hi. pose proof (cache_len _ Hk) as Hl. unfold sta_remove. set (k := ew w) in *.
  destruct (table_chain _ _ Hk (pae_hash_lt (st_ea (sta_at (skel k) i)))) as (c & Hc & Hlc & _).
  assert (Hea : st_ea (sta_at (skel k) i) = es_ea (esta_at k i)) by by rewrite skel_at.
  assert (Hnx : st_next (sta_at (skel k) i) = es_next (esta_at k i)) by by rewrite skel_at.
  rewrite Hea in Hc. do 6 eapd_step. fold k. eapd_step; eapd_step.
  - apply bool_decide_eq_true in H. unfold set_ehashed. eapd_steps. fold k. split; [|done].
    pose proof (tossed_head (skel k) i Hk Hi) as Ht. rewrite Hea, Hnx in Ht. destruct (Ht H) as (H1 & H2 & H3 & H4).
    set (k' := upd_esta _ i _).
    assert (Hs : skel k' = upd_sta ((skel k) <| na_sta_hashed ::= <[pae_hash (es_ea (esta_at k i)) := es_next (esta_at k i)]> |>) i (fun s => s <| st_used := false |>)) by
      exact (skel_used (k <| ew_sta_hashed ::= <[EAPD_PAE_HASH (es_ea (esta_at k i)) := es_next (esta_at k i)]> |>) i).
    assert (Hat : forall j, esta_at k' j = if decide (i = j) then (esta_at k j) <| es_used := false |> else esta_at k j)
      by (intros j; unfold k'; by rewrite esta_at_upd by (change (i < length (ew_sta k))%nat; lia)).
    rewrite <- Hs in H1, H2, H3. apply removed_intro; [done|done|done|by destruct k|done| |].
    + intros j Hj. rewrite Hat, decide_False by done. by rewrite esta_eta.
    + rewrite Hat, decide_True by done. by destruct (esta_at k i).
  - apply bool_decide_eq_false in H.
    pose proof (ewalk_spec (fun k j => bool_decide (es_next (esta_at k j) = Some i)) _ c w Hc Hlc) as Hw.
    eapd_step. eapply wp_mono; [exact Hw|]. intros r w1 [Hr ->]. fold k in Hr.
    rewrite (find_ext _ (fun j => bool_decide (st_next (sta_at (skel k) j) = Some i))) in Hr by (intros x; by rewrite skel_at).
    destruct r as [j|]; eapd_steps; fold k; (split; [|done]).
    + symmetry in Hr. apply find_some in Hr as [Hj Hnj]. apply bool_decide_eq_true in Hnj. apply list_elem_of_In in Hj.
      rewrite <- Hea in Hc. destruct (tossed_mid (skel k) i j c Hk Hi Hc Hj Hnj) as (H1 & H2 & H3 & _).
      rewrite Hnx, <- skel_next, <- skel_used in H1, H2, H3.
      assert (Hjl : (j < length (ew_sta k))%nat).
      { assert (Hju : in_use (skel k) j) by (destruct (table_chain _ _ Hk (pae_hash_lt (st_ea (sta_at (skel k) i)))) as (c' & Hc' & _ & Hin);
          rewrite (chain_det _ _ _ _ Hc Hc') in Hj; by apply Hin in Hj as [? _]).
        destruct Hju as [? _]. lia. }
      set (k1 := upd_esta k j _).
      assert (Hat : forall x, esta_at (upd_esta k1 i (fun s => s <| es_used := false |>)) x =
        if decide (i = x) then (esta_at k1 x) <| es_used := false |> else esta_at k1 x).
      { intros x. rewrite esta_at_upd; [done|]. change (i < length (alter (fun s => s <| es_next := es_next (esta_at k i) |>) j (ew_sta k)))%nat.
        rewrite length_alter. lia. }
      apply removed_intro; [done|done|done|by destruct k|done| |].
      * intros x Hx. rewrite Hat, decide_False by done. unfold k1. rewrite esta_at_upd by done.
        destruct (decide (j = x)); [done|]. by rewrite esta_eta.
      * rewrite Hat, decide_True by done. unfold k1. rewrite esta_at_upd by done.
        destruct (decide (j = i)); by destruct (esta_at k i).
    + rewrite <- Hea in Hc, H. destruct (tossed_none (skel k) i c Hk Hi Hc H (eq_sym Hr)) as (H1 & H2 & H3 & _).
      rewrite <- skel_used in H1, H2, H3. apply removed_intro; [done|done|done|by destruct k|done| |].
      * intros x Hx. rewrite esta_at_upd, decide_False by (done || lia). by rewrite esta_eta.
      * rewrite esta_at_upd, decide_True by (done || lia). by destruct (esta_at k i).
Qed.

End Remove.

(** ** Finding and entering *)

(** The calls made since: all of a kind. *)
Definition calls_only (P : ecall -> Prop) (w w' : eworld) : Prop :=
  exists l, ew_log w' = l ++ ew_log w /\ Forall P l.

#[export] Instance calls_only_preorder P : PreOrder (calls_only P).
Proof.
  split.
  - intros w. by exists [].
  - intros w1 w2 w3 (l1 & H1 & F1) (l2 & H2 & F2). exists (l2 ++ l1). rewrite H2, H1, app_assoc. split; [done|].
    by apply Forall_app.
Qed.

(** A question that has no effect: the time, or what an interface is. *)
Definition asks (c : ecall) : Prop := match c with ETime | EIsPsta _ => True | _ => False end.

(** 16 bytes with a terminator. *)
Definition name16 (n : list Z) : Prop := length n = IFNAMSIZ /\ 0 ∈ n.

Definition cache_names (k : eapd_wksp_t) : Prop := forall i, name16 (es_ifname (esta_at k i)).

(** The invariant of the cache. *)
Definition cache_wf (k : eapd_wksp_t) : Prop := cache_ok k /\ cache_names k.

Lemma strcmp_eq_term a b : 0 ∈ a -> 0 ∈ b -> exists r, strcmp_eq a b = Some r.
Proof.
  revert b. induction a as [|x a IH]; intros [|y b] Ha Hb; try by apply not_elem_of_nil in Ha || apply not_elem_of_nil in Hb.
  cbn -[Z.eqb]. destruct (Z.eqb_spec x y) as [->|]; [|by eexists]. destruct (Z.eqb_spec y 0); [by eexists|].
  apply IH; by apply elem_of_cons in Ha as [?|?], Hb as [?|?].
Qed.

Lemma elem_of_take_l {A} (x : A) n l : x ∈ take n l -> x ∈ l.
Proof. intros H. rewrite <- (take_drop n l). apply elem_of_app. by left. Qed.

(** A station forgotten because it came from elsewhere. *)
Definition reset_sta (bssid ifname : list Z) (s : eapd_sta_t) : eapd_sta_t :=
  s <| es_bssid := bssid |> <| es_ifname := take IFNAMSIZ ifname |>
    <| es_pae_state := EAPD_INITIALIZE |> <| es_mode := EAPD_STA_MODE_UNKNOW |>.

Lemma cache_names_upd k i f : (forall s, name16 (es_ifname s) -> name16 (es_ifname (f s))) ->
  cache_names k -> cache_names (upd_esta k i f).
Proof.
  intros Hf Hk j. destruct (decide (i < length (ew_sta k))%nat) as [Hi|Hi].
  - rewrite esta_at_upd by done. destruct (decide (i = j)); auto.
  - unfold esta_at. change (ew_sta (upd_esta k i f)) with (alter f i (ew_sta k)). destruct (decide (i = j)) as [<-|Hn].
    + rewrite nth_overflow by (rewrite length_alter; lia). specialize (Hk i). unfold esta_at in Hk.
      by rewrite nth_overflow in Hk by lia.
    + rewrite nth_lookup, list_lookup_alter_ne, <- nth_lookup by done. apply Hk.
Qed.

Lemma removed_names i k k' : removed i k k' -> cache_names k -> cache_names k'.
Proof.
  intros (_ & _ & _ & _ & Ho & Hi) Hk j. destruct (decide (j = i)) as [->|Hj]; [rewrite Hi|rewrite (Ho j Hj)]; apply Hk.
Qed.

(** The scan for a slot is that of nas on the projection. *)
Lemma efind_slot_skel l i oldest o : efind_slot l i oldest o = find_slot (map skel_sta l) i oldest o.
Proof.
  revert i oldest o. induction l as [|s l IH]; intros i oldest o; cbn [efind_slot find_slot map]; [done|].
  change (st_used (skel_sta s)) with (es_used s). change (st_last_use (skel_sta s)) with (es_last_use s).
  destruct (negb (es_used s)); [done|]. destruct (es_last_use s <? oldest); apply IH.
Qed.

(** Linking a fresh entry. *)
Lemma cache_link k i ea bssid ifname : cache_ok k -> (i < MAX_SUPPLICANTS)%nat -> es_used (esta_at k i) = false ->
  cache_slot k ea = None ->
  let s := new_esta ea bssid ifname (ehashed k (EAPD_PAE_HASH ea)) in
  let k' := (upd_esta k i (fun _ => s)) <| ew_sta_hashed ::= <[EAPD_PAE_HASH ea := Some i]> |> in
  cache_ok k' /\ cache_slot k' ea = Some i /\ (forall a, a <> ea -> cache_slot k' a = cache_slot k a).
Proof.
  intros Hk Hi Hu Hv s k'. pose proof (skel_upd k i (fun _ => s) (fun _ => skel_sta s) ltac:(done)) as Hs.
  destruct (table_link (skel k) i (skel_sta s)) as (H1 & H2 & H3); [done|done|by rewrite skel_at|done|done|done|].
  rewrite <- Hs in H1, H2, H3. split_and!; [exact H1|exact H2|exact H3].
Qed.

Section Lookup.
Context `{E : EEnv}.

Lemma sta_moved_spec i bssid ifname w : name16 (es_ifname (esta_at (ew w) i)) -> 0 ∈ ifname ->
  twp (sta_moved i bssid ifname) (fun r w' => ew w' = ew w /\ calls_only asks w w' /\
    (es_bssid (esta_at (ew w) i) = bssid -> strcmp_eq (es_ifname (esta_at (ew w) i)) ifname = Some true -> r = false)) w.
Proof.
  intros [_ Hn] Hi. unfold sta_moved. destruct (strcmp_eq_term _ _ Hn Hi) as [b Hb].
  eapd_steps; try (rewrite Hb in *; simplify_eq);
    (split_and!; [done|by (eexists [_]; split; [done|repeat constructor]) || (eexists [_; _]; split; [done|repeat constructor])|]);
    intros He Hs; try done.
  - apply ea_eqb_spec in He. by rewrite He in H1.
  - by injection Hs as ->.
Qed.

(** What a lookup of [ea] leaves, when the clock shows [now]. *)
Definition others_same (i : nat) (k k' : eapd_wksp_t) : Prop :=
  forall j, j <> i -> esta_at k' j = (esta_at k j) <| es_next := es_next (esta_at k' j) |>.

Definition looked_up (ea : list Z) (bssid : option (list Z)) (ifname : list Z) (mode : eapd_lookup_mode_t) (now : Z)
    (k k' : eapd_wksp_t) (r : option nat) : Prop :=
  cache_wf k' /\ cache_only k k' /\
  match cache_slot k ea, r with
  | Some i, _ => r = Some i /\ (forall a, cache_slot k' a = cache_slot k a) /\ others_same i k k' /\
      exists moved : bool,
        esta_at k' i = (match bssid with Some b => if moved then reset_sta b ifname (esta_at k i) else esta_at k i | None => esta_at k i end)
          <| es_last_use := now |> /\
        (bssid = Some (es_bssid (esta_at k i)) -> strcmp_eq (es_ifname (esta_at k i)) ifname = Some true -> moved = false)
  | None, Some i => mode = EAPD_SEARCH_ENTER /\ cache_slot k' ea = Some i /\ others_same i k k' /\
      (forall a, a <> ea -> cache_slot k' a = if decide (cache_slot k a = Some i) then None else cache_slot k a) /\
      (es_used (esta_at k i) = true -> forall j, (j < EAPD_WKSP_MAX_SUPPLICANTS)%nat ->
         es_used (esta_at k j) = true /\ es_last_use (esta_at k i) <= es_last_use (esta_at k j)) /\
      exists b next, bssid = Some b /\ esta_at k' i = (new_esta ea b ifname next) <| es_last_use := now |>
  | None, None => k' = k /\ (mode = EAPD_SEARCH_ONLY \/
      forall j, (j < EAPD_WKSP_MAX_SUPPLICANTS)%nat -> es_used (esta_at k j) = true /\ now <= es_last_use (esta_at k j))
  end.

Lemma others_same_upd i f k : others_same i k (upd_esta k i f).
Proof.
  intros j Hj. unfold esta_at. change (ew_sta (upd_esta k i f)) with (alter f i (ew_sta k)).
  rewrite !nth_lookup, list_lookup_alter_ne by done. by destruct (default esta_zero (ew_sta k !! j)).
Qed.

Lemma others_same_trans i k1 k2 k3 : others_same i k1 k2 -> others_same i k2 k3 -> others_same i k1 k3.
Proof. intros H1 H2 j Hj. rewrite (H2 j Hj) at 1. by rewrite (H1 j Hj). Qed.

Lemma skel_lookup k i s : na_sta (skel k) !! i = Some s -> s = skel_sta (esta_at k i) /\ (i < length (ew_sta k))%nat.
Proof.
  intros H. apply sta_at_lookup in H as [<- Hl]. split; [apply skel_at|].
  change (na_sta (skel k)) with (map skel_sta (ew_sta k)) in Hl. by rewrite length_map in Hl.
Qed.

Lemma skel_all_used k (P : eapd_sta_t -> Prop) (Q : nas_sta_t -> Prop) : cache_ok k -> (forall s, Q (skel_sta s) -> P s) ->
  Forall (fun s => st_used s = true) (na_sta (skel k)) -> Forall Q (na_sta (skel k)) ->
  forall j, (j < EAPD_WKSP_MAX_SUPPLICANTS)%nat -> es_used (esta_at k j) = true /\ P (esta_at k j).
Proof.
  intros Hk HPQ Hu HQ j Hj. destruct (all_used (skel k) Q (t_len _ Hk) Hu HQ j Hj) as [[_ H1] H2].
  rewrite skel_at in H1, H2. split; [done|auto].
Qed.

(** Entering [ea] in a free slot. *)
Lemma enter_esta_spec i ea b ifname now w : cache_wf (ew w) -> (i < MAX_SUPPLICANTS)%nat -> es_used (esta_at (ew w) i) = false ->
  cache_slot (ew w) ea = None -> 0 ∈ take IFNAMSIZ ifname -> (IFNAMSIZ <= length ifname)%nat ->
  twp (bssid ← may_oob (Some b);
       within (Nat.leb IFNAMSIZ (length ifname)) ;;
       head ← wk (fun k => ehashed k (EAPD_PAE_HASH ea));
       set_esta i (fun _ => new_esta ea bssid ifname head) ;;
       set_ehashed (EAPD_PAE_HASH ea) (Some i) ;;
       set_esta i (fun s => s <| es_last_use := now |>) ;;
       mret (Some i))
    (fun r w' => r = Some i /\ ew_log w' = ew_log w /\ cache_wf (ew w') /\ cache_only (ew w) (ew w') /\
      cache_slot (ew w') ea = Some i /\ (forall a, a <> ea -> cache_slot (ew w') a = cache_slot (ew w) a) /\
      others_same i (ew w) (ew w') /\
      exists next, esta_at (ew w') i = (new_esta ea b ifname next) <| es_last_use := now |>) w.
Proof.
  intros [Hk Hn] Hi Hu Hv Ht Hl. pose proof (cache_len _ Hk) as Hlen. unfold set_ehashed. eapd_steps; [|apply Nat.leb_gt in H0; lia|done].
  injection H as <-. set (k := ew w) in *. set (s := new_esta ea b ifname (ehashed k (EAPD_PAE_HASH ea))).
  destruct (cache_link k i ea b ifname Hk Hi Hu Hv) as (H1 & H2 & H3). fold s in H1, H2, H3.
  set (k1 := (upd_esta k i (fun _ => s)) <| ew_sta_hashed ::= <[EAPD_PAE_HASH ea := Some i]> |>) in *.
  destruct (cache_upd k1 i (fun s => s <| es_last_use := now |>) ltac:(done) H1) as [H4 H5].
  assert (Hn1 : cache_names k1).
  { apply (cache_names_upd k i (fun _ => s)); [|done]. intros _ _. split; [|done]. unfold s, new_esta. cbn [es_ifname].
    change (length (take IFNAMSIZ ifname) = IFNAMSIZ). rewrite length_take. lia. }
  split_and!; [done|done| |by destruct k| | | |].
  - split; [done|]. by apply cache_names_upd.
  - by rewrite H5.
  - intros a Ha. rewrite H5. by apply H3.
  - apply (others_same_trans _ _ k1); [|apply others_same_upd]. apply (others_same_upd i (fun _ => s) k).
  - exists (ehashed k (EAPD_PAE_HASH ea)). rewrite esta_at_upd.
    2: { change (i < length (alter (fun _ => s) i (ew_sta k)))%nat. rewrite length_alter. lia. }
    rewrite decide_True by done. change (esta_at k1 i) with (esta_at (upd_esta k i (fun _ => s)) i).
    rewrite esta_at_upd by lia. by rewrite decide_True.
Qed.

(** The end of a lookup that found station [i], after [f] was done to it. *)
Lemma touch_esta_spec i f now k w : cache_wf k -> (i < MAX_SUPPLICANTS)%nat -> ew w = upd_esta k i f ->
  (forall s, links (skel_sta (f s)) = links (skel_sta s)) -> (forall s, name16 (es_ifname s) -> name16 (es_ifname (f s))) ->
  twp (set_esta i (fun s => s <| es_last_use := now |>) ;; mret (Some i))
    (fun r w' => cache_wf (ew w') /\ cache_only k (ew w') /\ r = Some i /\
       (forall a, cache_slot (ew w') a = cache_slot k a) /\ others_same i k (ew w') /\
       esta_at (ew w') i = (f (esta_at k i)) <| es_last_use := now |> /\ ew_log w' = ew_log w) w.
Proof.
  intros [Hk Hn] Hi Hw Hf1 Hf2. pose proof (cache_len _ Hk) as Hlen. eapd_steps. rewrite Hw.
  destruct (cache_upd k i f Hf1 Hk) as [H1 H2].
  destruct (cache_upd (upd_esta k i f) i (fun s => s <| es_last_use := now |>) ltac:(done) H1) as [H3 H4].
  split_and!; [split; [done|]|by destruct k|done| | | |done].
  - apply cache_names_upd; [done|]. by apply cache_names_upd.
  - intros a. by rewrite H4, H2.
  - eapply others_same_trans; apply others_same_upd.
  - rewrite esta_at_upd by (change (i < length (alter f i (ew_sta k)))%nat; rewrite length_alter; lia).
    rewrite decide_True by done. rewrite esta_at_upd by lia. by rewrite decide_True.
Qed.

Lemma upd_esta_id k i : k = upd_esta k i (fun s => s).
Proof. unfold upd_esta, upd. destruct k. cbn. f_equal. symmetry. by apply list_alter_id. Qed.

Lemma calls_only_log P w w1 w2 : calls_only P w w1 -> ew_log w2 = ew_log w1 -> calls_only P w w2.
Proof. intros (l & Hl & Hp) He. exists l. by rewrite He. Qed.

Lemma sta_lookup_ok ea bssid ifname mode w : cache_wf (ew w) -> 0 ∈ take IFNAMSIZ ifname -> (IFNAMSIZ <= length ifname)%nat ->
  (mode = EAPD_SEARCH_ENTER -> is_Some bssid) ->
  twp (sta_lookup ea bssid ifname mode) (fun r w' =>
    looked_up ea bssid ifname mode (ee_ret (ETime :: ew_log w)) (ew w) (ew w') r /\ calls_only asks w w') w.
Proof.
  intros [Hk Hn] Ht Hl Hb. pose proof (cache_len _ Hk) as Hlen. unfold sta_lookup. set (k := ew w) in *. do 2 eapd_step.
  destruct (table_chain (skel k) _ Hk (pae_hash_lt ea)) as (c & Hc & Hlc & _).
  eapd_step. eapply wp_mono; [by apply (ewalk_spec _ _ c)|]. intros r w0 [Hr ->]. fold k in Hr.
  rewrite (find_ext _ (fun j => ea_eqb (st_ea (sta_at (skel k) j)) ea)) in Hr by (intros x; by rewrite skel_at).
  rewrite (find_view (skel k) ea c Hk Hc) in Hr. subst r. do 2 eapd_step. set (now := ee_ret _).
  assert (Hask : calls_only asks w (EWorld k (ETime :: ew_log w))) by (eexists [_]; split; [done|repeat constructor]).
  unfold looked_up, cache_slot. destruct (view (skel k) ea) as [i|] eqn:Hv.
  - (* known *)
    assert (Hi : (i < MAX_SUPPLICANTS)%nat) by (apply view_Some in Hv as [[? _] _]; done).
    destruct bssid as [b|]; eapd_step.
    + eapd_step. eapply wp_mono; [apply sta_moved_spec; [apply Hn|by eapply elem_of_take_l]|].
      intros moved w1 (Hw1 & Hc1 & Hm). cbn [ew] in *. assert (Hc2 : calls_only asks w w1) by by etransitivity. eapd_step.
      * unfold when. subst moved. eapd_step. eapd_step; [|apply Nat.leb_gt in H; lia]. eapd_step.
        eapply wp_mono; [apply (touch_esta_spec i (reset_sta b ifname) now k); [done|done|cbn [ew]; by rewrite Hw1|done|]|].
        -- intros s _. split; [|done]. change (length (take IFNAMSIZ ifname) = IFNAMSIZ). rewrite length_take. lia.
        -- intros r w' (H1 & H2 & H3 & H4 & H5 & H6 & H7). split; [|by eapply calls_only_log].
           split_and!; try done. exists true. split; [done|]. intros [= ->] Hs. by specialize (Hm eq_refl Hs).
      * eapply wp_mono; [apply (touch_esta_spec i (fun s => s) now k); [done|done|rewrite Hw1; apply upd_esta_id|done|done]|].
        intros r w' (H1 & H2 & H3 & H4 & H5 & H6 & H7). split; [|by eapply calls_only_log].
        split_and!; try done. by exists false.
    + eapd_step. eapply wp_mono; [apply (touch_esta_spec i (fun s => s) now k); [done|done|apply upd_esta_id|done|done]|].
      intros r w' (H1 & H2 & H3 & H4 & H5 & H6 & H7). split; [|by eapply calls_only_log].
      split_and!; try done. by exists false.
  - destruct mode; [eapd_step; cbn [ew]; split_and!; try done; by left|]. destruct (Hb eq_refl) as [b ->]. do 2 eapd_step. cbn [ew].
    pose proof (find_slot_spec (na_sta (skel k)) 0 now None) as Hf. rewrite efind_slot_skel.
    change (map skel_sta (ew_sta k)) with (na_sta (skel k)). destruct (find_slot _ _ _ _) as [[i|] [o|]].
    1,2: destruct Hf as (s & _ & Hs & Hu); rewrite Nat.sub_0_r in Hs; apply skel_lookup in Hs as [-> Hlt];
      do 2 eapd_step; eapply wp_mono; [apply enter_esta_spec; [split; done|lia|done|done|done|done]|];
      intros r w' (-> & H0 & H1 & H2 & H3 & H4 & H5 & next & H6); cbn [ew ew_log] in *;
      (split; [split_and!; try done|by eapply calls_only_log]);
      [intros a Ha; pose proof (H4 a Ha) as Hq; unfold cache_slot in Hq; rewrite Hq; destruct (decide _) as [Hva|]; [|done]; apply view_Some in Hva as [[_ Hva] _]; [|done];
         rewrite skel_at in Hva; congruence
      |intros Hu'; change (es_used (esta_at k i) = false) in Hu; congruence
      |by exists b, next].
    + destruct Hf as [Hall [[? _]|(k' & s & [= <-] & _ & Hs & _ & Hmin)]]; [done|]. rewrite Nat.sub_0_r in Hs.
      apply skel_lookup in Hs as [-> Hlt]. do 2 eapd_step.
      eapply wp_mono; [apply sta_remove_spec; cbn [ew]; [done|lia]|]. intros [] w1 [Hrm Hlog]. cbn [ew ew_log] in *. eapd_step.
      pose proof Hrm as (R1 & R2 & R3 & R4 & R5 & R6).
      eapply wp_mono; [apply enter_esta_spec; [split; [done|by eapply removed_names]|lia|done| |done|done]|].
      { rewrite R4. change (cache_slot (ew w) ea) with (view (skel k) ea). rewrite Hv. by destruct (decide _). }
      intros r w' (-> & H0 & H1 & H2 & H3 & H4 & H5 & next & H6). split; [split_and!; try done|].
      * by etransitivity.
      * by apply (others_same_trans _ _ (ew w1)).
      * intros a Ha. pose proof (H4 a Ha) as Hq. rewrite R4 in Hq. exact Hq.
      * intros _. by apply (skel_all_used k (fun s => es_last_use (esta_at k o) <= es_last_use s) (fun s' => st_last_use (skel_sta (esta_at k o)) <= st_last_use s') Hk).
      * by exists b, next.
      * eapply calls_only_log; [exact Hask|]. by rewrite H0, Hlog.
    + destruct Hf as [Hall [[_ Hge]|(? & ? & ? & _)]]; [|done]. do 3 eapd_step. cbn [ew]. split_and!; try done. right.
      by apply (skel_all_used k (fun s => now <= es_last_use s) (fun s => now <= st_last_use s)).
Qed.
End Lookup.
