(* ===== verification/EapdIe.v ===== *)
(** How eapd reads the information elements of an association request
    (src/userspace/eapd/src/nas_eap.c): the search for an element, for the WPA element
    and the WPS element among the vendor ones, and nas_app_parse_ie, which decides
    whether the station uses a pre-shared key.  The elements are read through a pointer
    into the packet buffer; as in [WpaIe], the model keeps the bytes from that pointer to
    the end of the buffer and tells apart a refused element from a read past that end. *)
From stdpp Require Import base option list numbers.
From Stdlib Require Import ZArith Lia.
From S2P Require Import Prelude Monad NasState WpaIe.
Local Open Scope Z_scope.

(** ** Definitions *)

Definition NAS_APP_WPA_CIPHER2WSEC (cipher : Z) : Z :=
  if cipher =? WPA_CIPHER_WEP_40 then WEP_ENABLED
  else if cipher =? WPA_CIPHER_WEP_104 then WEP_ENABLED
  else if cipher =? WPA_CIPHER_TKIP then TKIP_ENABLED
  else if cipher =? WPA_CIPHER_AES_CCM then AES_ENABLED
  else 0.

Definition nas_app_wpa_akm2auth (akm : Z) : Z :=
  if akm =? RSN_AKM_PSK then WPA_AUTH_PSK
  else if akm =? RSN_AKM_UNSPECIFIED then WPA_AUTH_UNSPECIFIED
  else WPA_AUTH_NONE.

Definition nas_app_wpa2_akm2auth (akm : Z) : Z :=
  if akm =? RSN_AKM_PSK then WPA2_AUTH_PSK
  else if akm =? RSN_AKM_UNSPECIFIED then WPA2_AUTH_UNSPECIFIED
  else WPA_AUTH_NONE.

Definition nas_app_wpa_auth2mode (auth : Z) : Z :=
  if auth =? WPA_AUTH_PSK then WPA_PSK
  else if auth =? WPA_AUTH_UNSPECIFIED then WPA
  else if auth =? WPA2_AUTH_PSK then WPA2_PSK
  else if auth =? WPA2_AUTH_UNSPECIFIED then WPA2
  else RADIUS.

(** The element with id [key] from offset [o], of the [totlen] bytes there.  Each round
    takes at least two bytes, so [totlen] is fuel enough. *)
Fixpoint parse_tlvs_go (fuel : nat) (buf : list Z) (o totlen key : Z) : ie_res (option Z) :=
  match fuel with
  | O => IeOk None
  | S fuel =>
      if 2 <=? totlen then
        let* len := rd_byte buf (o + 1) in
        let* id := rd_byte buf o in
        if (id =? key) && (len + 2 <=? totlen) then IeOk (Some o)
        else parse_tlvs_go fuel buf (o + (len + 2)) (totlen - (len + 2)) key
      else IeOk None
  end.

Definition nas_app_parse_tlvs (buf : list Z) (o buflen key : Z) : ie_res (option Z) :=
  parse_tlvs_go (Z.to_nat buflen) buf o buflen key.

(** The vendor element at [ie] has the type wanted (nas_app_is_wpa_ie for 1,
    nas_app_is_wps_ie for 4); else the start and the length of what follows it, in the
    buffer that starts at [tlvs]. *)
Definition nas_app_is_ie (type : Z) (buf : list Z) (ie tlvs tlvs_len : Z) : ie_res (option (Z * Z)) :=
  let* l := rd_byte buf (ie + 1) in
  let* is_ie := (if 4 <? l then let* b := rd_bytes buf (ie + 2) 4 in IeOk (bool_decide (b = WPA_OUI ++ [type])) else IeOk false) in
  if is_ie : bool then IeOk None
  else let ie := ie + (l + 2) in IeOk (Some (ie, wrap32 (tlvs_len - (ie - tlvs)))).

(** nas_app_find_wpaie and nas_app_find_wpsie: the first vendor element of the type. *)
Fixpoint find_ie_go (fuel : nat) (type : Z) (buf : list Z) (parse len : Z) : ie_res (option Z) :=
  match fuel with
  | O => IeOk None
  | S fuel =>
      let* r := nas_app_parse_tlvs buf parse len DOT11_MNG_WPA_ID in
      match r with
      | None => IeOk None
      | Some ie =>
          let* n := nas_app_is_ie type buf ie parse len in
          match n with
          | None => IeOk (Some ie)
          | Some (parse, len) => find_ie_go fuel type buf parse len
          end
      end
  end.

Definition nas_app_find_wpaie (buf : list Z) (len : Z) : ie_res (option Z) := find_ie_go (S (Z.to_nat len)) 1 buf 0 len.
Definition nas_app_find_wpsie (buf : list Z) (len : Z) : ie_res (option Z) := find_ie_go (S (Z.to_nat len)) 4 buf 0 len.

(** The type-specific header of the element at [o]: whether it is an RSN element, the
    offset of the multicast suite, and the length the code believes is left, which it
    computes from the length of the whole buffer. *)
Definition app_ie_header (buf : list Z) (o ie_len : Z) : ie_res (bool * Z * Z) :=
  let* tag := rd_byte buf o in
  let* l := rd_byte buf (o + 1) in
  if tag =? DOT11_MNG_RSN_ID then
    if l <? 2 then IeFail
    else let* ver := rd_le16 buf (o + 2) in
         if negb (ver =? 1) then IeFail else IeOk (true, o + 4, ie_len - 4)
  else if tag =? DOT11_MNG_WPA_ID then
    if l <? 6 then IeFail
    else let* b := rd_bytes buf (o + 2) 4 in
         if negb (bool_decide (b = WPA_OUI ++ [1])) then IeFail
         else let* ver := rd_le16 buf (o + 6) in
              if negb (ver =? 1) then IeFail else IeOk (false, o + 8, ie_len - 8)
  else IeFail.

(** The suites from offset [mcast] on: the ciphers and the mode. *)
Definition app_ie_suites (buf : list Z) (rsn : bool) (mcast len : Z) : ie_res (Z * Z) :=
  let* (wsec, len) :=
    (if 4 <=? len then
       let* t := suite_type buf rsn mcast in
       IeOk (match t with Some t => NAS_APP_WPA_CIPHER2WSEC t | None => 0 end, len - 4)
     else IeOk (0, len)) in
  let* (wsec, len, ucast) :=
    (if 2 <=? len then
       let* count := rd_le16 buf (mcast + 4) in
       if negb (count =? 1) then IeFail
       else let* t := suite_type buf rsn (mcast + 4 + 2) in
            IeOk (match t with Some t => Z.lor wsec (NAS_APP_WPA_CIPHER2WSEC t) | None => wsec end, len - 2 - 4, true)
     else IeOk (wsec, len, false)) in
  let* mode :=
    (if 2 <=? len then
       if negb ucast then IeOob
       else
         let mgmt := mcast + 4 + 2 + 4 in
         let* count := rd_le16 buf mgmt in
         if negb (count =? 1) then IeFail
         else let* t := suite_type buf rsn (mgmt + 2) in
              IeOk (match t with
                    | Some t => nas_app_wpa_auth2mode ((if rsn then nas_app_wpa2_akm2auth else nas_app_wpa_akm2auth) t)
                    | None => 0
                    end)
     else IeOk 0) in
  IeOk (wsec, mode).

Definition nas_app_parse_ie (ie : list Z) (ie_len : Z) : ie_res (Z * Z) :=
  let* w := nas_app_find_wpaie ie ie_len in
  let* wpaie := (match w with
                 | Some o => IeOk (Some o)
                 | None => nas_app_parse_tlvs ie 0 ie_len DOT11_MNG_RSN_ID
                 end) in
  match wpaie with
  | None => IeFail
  | Some o =>
      let* (rsn, mcast, len) := app_ie_header ie o ie_len in
      app_ie_suites ie rsn mcast len
  end.

Lemma nas_app_same t rsn : NAS_APP_WPA_CIPHER2WSEC t = WPA_CIPHER2WSEC t /\
  nas_app_wpa_auth2mode ((if rsn : bool then nas_app_wpa2_akm2auth else nas_app_wpa_akm2auth) t) =
    wpa_auth2mode ((if rsn then wpa2_akm2auth else wpa_akm2auth) t).
Proof. by destruct rsn. Qed.

(** ** The search *)

Section Bounds.
Context (buf : list Z) (buf_ok : bytes_ok buf).

(** The search stays inside the bytes it is given, and so does what it finds. *)
Lemma parse_tlvs_post fuel o totlen key : 0 <= o -> o + totlen <= Z.of_nat (length buf) ->
  ie_post (parse_tlvs_go fuel buf o totlen key) (fun r => match r with
    | Some e => o <= e /\ exists l, rd_byte buf (e + 1) = IeOk l /\ rd_byte buf e = IeOk key /\ 0 <= l < 256 /\ e + l + 2 <= o + totlen
    | None => True
    end).
Proof using buf_ok.
  revert o totlen. induction fuel as [|fuel IH]; intros o totlen Ho Hl; [done|]. cbn [parse_tlvs_go].
  destruct (Z.leb_spec 2 totlen) as [H2|H2]; [|done].
  pose proof (post_rd_byte buf buf_ok (o + 1) (fun b => 0 <= b < 256) ltac:(lia) ltac:(lia) ltac:(auto)) as Hb.
  destruct (rd_byte buf (o + 1)) as [l| |] eqn:El; [|done..]. cbn [ie_post] in Hb. cbn [ie_bind].
  pose proof (post_rd_byte buf buf_ok o (fun b => 0 <= b < 256) ltac:(lia) ltac:(lia) ltac:(auto)) as Hi.
  destruct (rd_byte buf o) as [id| |] eqn:Ei; [|done..]. cbn [ie_post] in Hi. cbn [ie_bind].
  destruct (Z.eqb_spec id key) as [->|Hk]; cbn [andb]; [destruct (Z.leb_spec (l + 2) totlen)|].
  - cbn [ie_post]. split; [lia|]. exists l. split_and!; try done; lia.
  - destruct fuel as [|fuel]; [done|]. cbn [parse_tlvs_go]. by rewrite (proj2 (Z.leb_gt _ _)) by lia.
  - destruct (Z.leb_spec 2 (totlen - (l + 2))) as [H3|H3].
    + eapply post_mono; [apply IH; lia|]. intros [e|]; [|done]. intros (He & l' & H). split; [lia|]. exists l'. split_and!; try tauto. lia.
    + destruct fuel as [|fuel]; [done|]. cbn [parse_tlvs_go]. by rewrite (proj2 (Z.leb_gt _ _)) by lia.
Qed.

Lemma find_ie_post fuel type o len : 0 <= o -> 0 <= len < 2 ^ 32 -> o + len <= Z.of_nat (length buf) ->
  ie_post (find_ie_go fuel type buf o len) (fun r => match r with
    | Some e => o <= e /\ exists l, rd_byte buf (e + 1) = IeOk l /\ rd_byte buf e = IeOk DOT11_MNG_WPA_ID /\ 4 < l < 256 /\ e + l + 2 <= o + len
    | None => True
    end).
Proof using buf_ok.
  revert o len. induction fuel as [|fuel IH]; intros o len Ho Hr Hl; [done|]. cbn [find_ie_go].
  pose proof (parse_tlvs_post (Z.to_nat len) o len DOT11_MNG_WPA_ID Ho Hl) as Hp. unfold nas_app_parse_tlvs.
  destruct (parse_tlvs_go _ buf o len _) as [[e|]| |]; [|done..]. cbn [ie_post] in Hp. cbn [ie_bind].
  destruct Hp as (He & l & Hlen & Hid & Hl8 & Hend). unfold nas_app_is_ie. rewrite Hlen. cbn [ie_bind].
  assert (Hnext : ie_post (find_ie_go fuel type buf (e + (l + 2)) (wrap32 (len - (e + (l + 2) - o)))) (fun r => match r with
    | Some e => o <= e /\ exists l, rd_byte buf (e + 1) = IeOk l /\ rd_byte buf e = IeOk DOT11_MNG_WPA_ID /\ 4 < l < 256 /\ e + l + 2 <= o + len
    | None => True
    end)).
  { rewrite wrap32_id by (unfold is_u; lia). eapply post_mono; [apply IH; lia|]. intros [e'|]; [|done].
    intros (He' & l' & H). split; [lia|]. exists l'. split_and!; try tauto; lia. }
  destruct (Z.ltb_spec 4 l); [|cbn [ie_bind]; exact Hnext].
  pose proof (post_rd_bytes buf buf_ok (e + 2) 4 (fun _ => True) ltac:(lia) ltac:(lia) (fun _ _ _ => I)) as Hb.
  destruct (rd_bytes buf (e + 2) 4) as [b| |]; [|done..]. cbn [ie_bind].
  destruct (bool_decide _); cbn [ie_bind]; [|exact Hnext]. cbn [ie_post]. split; [lia|]. exists l. split_and!; try done; lia.
Qed.

(** The element parsed, and how far past the end of the bytes given it reads. *)
Lemma app_ie_header_post o ie_len l : 0 <= o -> rd_byte buf (o + 1) = IeOk l -> o + l + 2 <= ie_len -> ie_len <= Z.of_nat (length buf) ->
  ie_post (app_ie_header buf o ie_len) (fun '(_, mcast, len) => o + 4 <= mcast /\ mcast + len = o + ie_len /\ 0 <= len).
Proof using buf_ok.
  intros Ho Hlen He Hl. unfold app_ie_header.
  pose proof (post_rd_byte buf buf_ok (o + 1) (fun b => 0 <= b < 256)) as Hb. rewrite Hlen in Hb. cbn [ie_post] in Hb.
  destruct (Z.leb_spec (o + 1 + 1) (Z.of_nat (length buf))) as [H1|H1].
  2: { unfold rd_byte, rd_bytes in Hlen. rewrite (proj2 (Z.leb_gt (o + 1 + Z.of_nat 1) (Z.of_nat (length buf)))), andb_false_r in Hlen by lia. done. }
  specialize (Hb ltac:(lia) H1 ltac:(auto)).
  apply post_bind, post_rd_byte; [done|lia|lia|]. intros t _. rewrite Hlen. cbn [ie_bind].
  destruct (t =? DOT11_MNG_RSN_ID).
  - destruct (Z.ltb_spec l 2); [done|]. apply post_bind, post_rd_le16; [done|lia|lia|]. intros v.
    destruct (negb (v =? 1)); [done|]. cbn. lia.
  - destruct (t =? DOT11_MNG_WPA_ID); [|done]. destruct (Z.ltb_spec l 6); [done|].
    apply post_bind, post_rd_bytes; [done|lia|lia|]. intros b _ _. destruct (negb (bool_decide _)); [done|].
    apply post_bind, post_rd_le16; [done|lia|lia|]. intros v. destruct (negb (v =? 1)); [done|]. cbn. lia.
Qed.

Lemma app_ie_suites_post rsn mcast len : 0 <= mcast -> 0 <= len -> mcast + len + 8 <= Z.of_nat (length buf) ->
  ie_post (app_ie_suites buf rsn mcast len) (fun _ => True).
Proof using buf_ok.
  intros Hm Hp Hl. unfold app_ie_suites. apply post_bind.
  apply post_mono with (Q := fun '(_, len') => len' = len - 4 /\ 4 <= len \/ len' = len /\ len < 4).
  { destruct (Z.leb_spec 4 len); [|cbn; lia]. apply post_bind, post_suite_type; [done|lia|lia|]. intros t. cbn. lia. }
  intros [wsec len1] H1. apply post_bind.
  apply post_mono with (Q := fun '(_, len', u) => if u : bool then len' = len1 - 6 /\ 2 <= len1 else len' = len1 /\ len1 < 2).
  { destruct (Z.leb_spec 2 len1); [|cbn; lia]. apply post_bind, post_rd_le16; [done|lia|lia|]. intros c.
    destruct (negb _); [done|]. apply post_bind, post_suite_type; [done|lia|lia|]. intros t. cbn. lia. }
  intros [[wsec' len2] u] H2. apply post_bind.
  apply post_mono with (Q := fun _ => True); [|done].
  destruct (Z.leb_spec 2 len2); [|done]. destruct u; [|lia]. cbn [negb]. apply post_bind, post_rd_le16; [done|lia|lia|]. intros c.
  destruct (negb _); [done|]. apply post_bind, post_suite_type; [done|lia|lia|]. done.
Qed.

Lemma app_parse_ie_safe ie_len : 0 <= ie_len < 2 ^ 32 -> 2 * ie_len + 6 <= Z.of_nat (length buf) ->
  ie_post (nas_app_parse_ie buf ie_len) (fun _ => True).
Proof using buf_ok.
  intros Hr Hl. unfold nas_app_parse_ie, nas_app_find_wpaie. apply post_bind.
  eapply post_mono; [apply find_ie_post; lia|]. intros w Hw. apply post_bind.
  apply post_mono with (Q := fun r => match r with
    | Some e => 0 <= e /\ exists l, rd_byte buf (e + 1) = IeOk l /\ 0 <= l /\ e + l + 2 <= ie_len | None => True end).
  - destruct w as [e|]; [destruct Hw as (He & l & H1 & H2 & H3 & H4); split; [done|]; exists l; split_and!; [done|lia|lia]|].
    eapply post_mono; [apply parse_tlvs_post; lia|]. intros [e|]; [|done]. intros (He & l & H1 & H2 & H3 & H4).
    split; [done|]. exists l. split_and!; [done|lia|lia].
  - intros [e|]; [|done]. intros (He & l & H1 & H2 & H3). apply post_bind.
    eapply post_mono; [by apply (app_ie_header_post e ie_len l); [| |lia|lia]|]. intros [[rsn mcast] len] (Hm1 & Hm2 & Hm3).
    apply app_ie_suites_post; lia.
Qed.
End Bounds.

(** ** What the search finds *)

(** A sequence of elements: identifiers and bodies. *)
Definition enc_tlv (t : Z * list Z) : list Z := t.1 :: Z.of_nat (length t.2) :: t.2.
Definition tlvs (l : list (Z * list Z)) : list Z := concat (map enc_tlv l).
Definition tlv_ok (t : Z * list Z) : Prop := (length t.2 < 256)%nat.

(** The offset of the first element that [f] accepts, counted from [o]. *)
Fixpoint find_tlv (f : Z * list Z -> bool) (l : list (Z * list Z)) (o : Z) : option Z :=
  match l with
  | [] => None
  | t :: l => if f t then Some o else find_tlv f l (o + (Z.of_nat (length t.2) + 2))
  end.

Definition has_id (key : Z) (t : Z * list Z) : bool := t.1 =? key.
Definition is_vendor_ie (type : Z) (t : Z * list Z) : bool :=
  (t.1 =? DOT11_MNG_WPA_ID) && (4 <? Z.of_nat (length t.2)) && bool_decide (take 4 t.2 = WPA_OUI ++ [type]).

Lemma rd_bytes_at pre b post : rd_bytes (pre ++ b ++ post) (Z.of_nat (length pre)) (length b) = IeOk b.
Proof.
  unfold rd_bytes. rewrite !length_app, (proj2 (Z.leb_le _ _)), (proj2 (Z.leb_le _ _)) by lia. cbn [andb].
  rewrite Nat2Z.id, drop_app_length, take_app_length. done.
Qed.

(** Reading behind a prefix. *)
Lemma rd_bytes_shift pre buf o n : 0 <= o -> rd_bytes (pre ++ buf) (Z.of_nat (length pre) + o) n = rd_bytes buf o n.
Proof.
  intros Ho. unfold rd_bytes. rewrite length_app.
  assert ((0 <=? Z.of_nat (length pre) + o) = true) as -> by (apply Z.leb_le; lia). rewrite (proj2 (Z.leb_le 0 o) Ho). cbn [andb].
  replace (Z.of_nat (length pre) + o + Z.of_nat n <=? Z.of_nat (length pre + length buf)) with (o + Z.of_nat n <=? Z.of_nat (length buf))
    by (destruct (Z.leb_spec (o + Z.of_nat n) (Z.of_nat (length buf))), (Z.leb_spec (Z.of_nat (length pre) + o + Z.of_nat n) (Z.of_nat (length pre + length buf))); first [done|lia]).
  rewrite Z2Nat.inj_add, Nat2Z.id by lia. rewrite drop_app_ge by lia. by replace (length pre + Z.to_nat o - length pre)%nat with (Z.to_nat o) by lia.
Qed.

Lemma rd_byte_shift pre buf o : 0 <= o -> rd_byte (pre ++ buf) (Z.of_nat (length pre) + o) = rd_byte buf o.
Proof. intros Ho. unfold rd_byte. by rewrite rd_bytes_shift. Qed.

Lemma rd_le16_shift pre buf o : 0 <= o -> rd_le16 (pre ++ buf) (Z.of_nat (length pre) + o) = rd_le16 buf o.
Proof. intros Ho. unfold rd_le16. by rewrite rd_bytes_shift. Qed.

Lemma suite_type_shift pre buf rsn o : 0 <= o -> suite_type (pre ++ buf) rsn (Z.of_nat (length pre) + o) = suite_type buf rsn o.
Proof.
  intros Ho. unfold suite_type. rewrite rd_bytes_shift by done. destruct (rd_bytes buf o 3); [|done..]. cbn [ie_bind].
  destruct (bool_decide _); [|done]. by rewrite <- Z.add_assoc, rd_byte_shift by lia.
Qed.

Lemma enc_tlv_header id b r : rd_byte (enc_tlv (id, b) ++ r) 0 = IeOk id /\ rd_byte (enc_tlv (id, b) ++ r) 1 = IeOk (Z.of_nat (length b)).
Proof.
  unfold rd_byte, rd_bytes, enc_tlv. cbn [fst snd app length]. rewrite !(proj2 (Z.leb_le _ _)) by lia. done.
Qed.

Lemma enc_tlv_length t : length (enc_tlv t) = (length t.2 + 2)%nat.
Proof. unfold enc_tlv. cbn [length]. lia. Qed.

Lemma tlvs_cons t l : tlvs (t :: l) = enc_tlv t ++ tlvs l.
Proof. done. Qed.

Lemma parse_tlvs_go_spec fuel pre l post key : (length (tlvs l) <= fuel)%nat ->
  parse_tlvs_go fuel (pre ++ tlvs l ++ post) (Z.of_nat (length pre)) (Z.of_nat (length (tlvs l))) key =
    IeOk (find_tlv (has_id key) l (Z.of_nat (length pre))).
Proof.
  revert fuel pre. induction l as [|[id b] l IH]; intros fuel pre Hf.
  - destruct fuel; done.
  - rewrite tlvs_cons, length_app, enc_tlv_length in *. destruct fuel as [|fuel]; [cbn [snd] in Hf; lia|]. cbn [parse_tlvs_go find_tlv snd] in *.
    rewrite (proj2 (Z.leb_le _ _)) by lia. rewrite <- app_assoc.
    destruct (enc_tlv_header id b (tlvs l ++ post)) as [H0 H1].
    rewrite rd_byte_shift, H1 by lia. cbn [ie_bind].
    replace (Z.of_nat (length pre)) with (Z.of_nat (length pre) + 0) at 1 by lia. rewrite rd_byte_shift, H0 by lia. cbn [ie_bind].
    unfold has_id at 1. cbn [fst]. destruct (id =? key); cbn [andb].
    + by rewrite (proj2 (Z.leb_le _ _)) by lia.
    + specialize (IH fuel (pre ++ enc_tlv (id, b))). rewrite length_app, enc_tlv_length in IH. cbn [snd] in IH.
      rewrite <- app_assoc in IH. replace (Z.of_nat (length pre + (length b + 2))) with (Z.of_nat (length pre) + (Z.of_nat (length b) + 2)) in IH by lia.
      replace (Z.of_nat (length b + 2 + length (tlvs l)) - (Z.of_nat (length b) + 2)) with (Z.of_nat (length (tlvs l))) by lia.
      apply IH. lia.
Qed.

Lemma find_tlv_Some f l o e : find_tlv f l o = Some e -> exists l1 t l2, l = l1 ++ t :: l2 /\ e = o + Z.of_nat (length (tlvs l1)) /\ f t = true /\
  Forall (fun t => f t = false) l1.
Proof.
  revert o. induction l as [|t l IH]; intros o; cbn [find_tlv]; [done|]. destruct (f t) eqn:Hf.
  - intros [= <-]. exists [], t, l. split_and!; [done|cbn; lia|done|constructor].
  - intros (l1 & t' & l2 & -> & -> & Ht & Hall)%IH. exists (t :: l1), t', l2. rewrite tlvs_cons, length_app, enc_tlv_length.
    split_and!; [done|lia|done|by constructor].
Qed.

Lemma find_tlv_None f l o : find_tlv f l o = None -> Forall (fun t => f t = false) l.
Proof. revert o. induction l as [|t l IH]; intros o; cbn [find_tlv]; [constructor|]. destruct (f t) eqn:Hf; [done|]. intros H. constructor; eauto. Qed.

Lemma find_tlv_skip f l1 l2 o : Forall (fun t => f t = false) l1 -> find_tlv f (l1 ++ l2) o = find_tlv f l2 (o + Z.of_nat (length (tlvs l1))).
Proof.
  revert o. induction l1 as [|t l1 IH]; intros o H; cbn [app find_tlv]; [by rewrite Z.add_0_r|]. inversion H as [|? ? Ht H']; subst.
  rewrite Ht, IH by done. rewrite tlvs_cons, length_app, enc_tlv_length. f_equal. lia.
Qed.

Lemma tlvs_app l1 l2 : tlvs (l1 ++ l2) = tlvs l1 ++ tlvs l2.
Proof. unfold tlvs. by rewrite map_app, concat_app. Qed.

Lemma find_ie_go_spec fuel type pre l post : (length (tlvs l) < fuel)%nat -> Z.of_nat (length (tlvs l)) < 2 ^ 32 ->
  find_ie_go fuel type (pre ++ tlvs l ++ post) (Z.of_nat (length pre)) (Z.of_nat (length (tlvs l))) =
    IeOk (find_tlv (is_vendor_ie type) l (Z.of_nat (length pre))).
Proof.
  revert pre l. induction fuel as [|fuel IH]; intros pre l Hf Hl; [lia|]. cbn [find_ie_go]. unfold nas_app_parse_tlvs.
  rewrite parse_tlvs_go_spec by lia. cbn [ie_bind]. destruct (find_tlv (has_id _) l _) as [e|] eqn:He.
  - apply find_tlv_Some in He as (l1 & [id b] & l2 & -> & -> & Hid & Hall). unfold has_id in Hid. cbn [fst] in Hid. apply Z.eqb_eq in Hid as ->.
    rewrite tlvs_app, tlvs_cons in *. rewrite !length_app, enc_tlv_length in *. cbn [snd] in *.
    rewrite find_tlv_skip by (eapply list.Forall_impl; [exact Hall|]; intros t Ht; unfold is_vendor_ie, has_id in *; by rewrite Ht).
    cbn [find_tlv]. unfold nas_app_is_ie.
    set (bp := pre ++ tlvs l1).
    replace (pre ++ (tlvs l1 ++ enc_tlv (DOT11_MNG_WPA_ID, b) ++ tlvs l2) ++ post) with (bp ++ enc_tlv (DOT11_MNG_WPA_ID, b) ++ (tlvs l2 ++ post))
      by (unfold bp; by rewrite <- !app_assoc).
    assert (Hbp : Z.of_nat (length pre) + Z.of_nat (length (tlvs l1)) = Z.of_nat (length bp)) by (unfold bp; rewrite length_app; lia).
    rewrite Hbp. destruct (enc_tlv_header DOT11_MNG_WPA_ID b (tlvs l2 ++ post)) as [H0 H1].
    rewrite rd_byte_shift, H1 by lia. cbn [ie_bind]. unfold is_vendor_ie at 1. cbn [fst snd].
    rewrite Z.eqb_refl. cbn [andb].
    assert (Hnext : find_ie_go fuel type (bp ++ enc_tlv (DOT11_MNG_WPA_ID, b) ++ tlvs l2 ++ post) (Z.of_nat (length bp) + (Z.of_nat (length b) + 2))
        (wrap32 (Z.of_nat (length (tlvs l1) + (length b + 2 + length (tlvs l2))) - (Z.of_nat (length bp) + (Z.of_nat (length b) + 2) - Z.of_nat (length pre)))) =
      IeOk (find_tlv (is_vendor_ie type) l2 (Z.of_nat (length bp) + (Z.of_nat (length b) + 2)))).
    { rewrite wrap32_id by (unfold is_u; lia). specialize (IH (bp ++ enc_tlv (DOT11_MNG_WPA_ID, b)) l2). rewrite length_app, enc_tlv_length, <- app_assoc in IH. cbn [snd] in IH.
      replace (Z.of_nat (length bp + (length b + 2))) with (Z.of_nat (length bp) + (Z.of_nat (length b) + 2)) in IH by lia.
      rewrite <- IH by lia. f_equal. lia. }
    destruct (Z.ltb_spec 4 (Z.of_nat (length b))) as [H4|H4]; cbn [andb ie_bind]; [|exact Hnext].
    rewrite rd_bytes_shift by lia.
    assert (Hb : rd_bytes (enc_tlv (DOT11_MNG_WPA_ID, b) ++ tlvs l2 ++ post) 2 4 = IeOk (take 4 b)).
    { unfold rd_bytes. rewrite length_app, enc_tlv_length. cbn [snd]. rewrite !(proj2 (Z.leb_le _ _)) by lia. cbn [andb].
      unfold enc_tlv. cbn [fst snd app]. change (drop (Z.to_nat 2) (?a :: ?c :: ?d)) with d. f_equal. rewrite take_app_le by lia. done. }
    rewrite Hb. cbn [ie_bind]. destruct (bool_decide _); cbn [ie_bind]; [done|exact Hnext].
  - apply find_tlv_None in He. symmetry. f_equal. destruct (find_tlv _ l _) as [e|] eqn:Hx; [|done].
    apply find_tlv_Some in Hx as (l1 & t & l2 & -> & _ & Ht & _). apply list.Forall_app in He as [_ He]. inversion He as [|? ? Hn _]; subst.
    unfold is_vendor_ie, has_id in *. by rewrite Hn in Ht.
Qed.

(** ** Agreement with the parser of nas *)

(** Reading an element inside a buffer: behind [pre], before [post]. *)
Lemma rd_le16_in pre ie post o v : 0 <= o -> rd_le16 ie o = IeOk v -> rd_le16 (pre ++ ie ++ post) (Z.of_nat (length pre) + o) = IeOk v.
Proof. intros Ho H. rewrite rd_le16_shift by done. by rewrite (mono_rd_le16 o ie post), H by (by rewrite H). Qed.

Lemma rd_byte_in pre ie post o v : 0 <= o -> rd_byte ie o = IeOk v -> rd_byte (pre ++ ie ++ post) (Z.of_nat (length pre) + o) = IeOk v.
Proof. intros Ho H. rewrite rd_byte_shift by done. by rewrite (mono_rd_byte o ie post), H by (by rewrite H). Qed.

Lemma rd_bytes_in pre ie post o n v : 0 <= o -> rd_bytes ie o n = IeOk v -> rd_bytes (pre ++ ie ++ post) (Z.of_nat (length pre) + o) n = IeOk v.
Proof. intros Ho H. rewrite rd_bytes_shift by done. by rewrite (mono_rd_bytes o n ie post), H by (by rewrite H). Qed.

Lemma suite_type_in pre ie post rsn o t : 0 <= o -> suite_type ie rsn o = IeOk t ->
  suite_type (pre ++ ie ++ post) rsn (Z.of_nat (length pre) + o) = IeOk t.
Proof. intros Ho H. rewrite suite_type_shift by done. by rewrite (mono_suite_type rsn o ie post), H by (by rewrite H). Qed.

Lemma ie_bind_Ok {A B} (m : ie_res A) (k : A -> ie_res B) b : ie_bind m k = IeOk b -> exists a, m = IeOk a /\ k a = IeOk b.
Proof. destruct m; [eauto|done..]. Qed.

Ltac ie_inv H x E := apply ie_bind_Ok in H as (x & E & H).

Lemma suites_agree pre ie post rsn mcast lenN lenA wsec len1 wsec' len2 u m ka len3 g : 0 <= mcast -> lenN <= lenA ->
  parse_mcast ie rsn mcast lenN = IeOk (wsec, len1) -> parse_ucast ie rsn (mcast + 4) len1 wsec = IeOk (wsec', len2, u) ->
  parse_mgmt ie rsn u len2 = IeOk (m, Some ka, len3, g) ->
  app_ie_suites (pre ++ ie ++ post) rsn (Z.of_nat (length pre) + mcast) lenA = IeOk (wsec', m).
Proof.
  intros Hm Hl. unfold parse_mcast, parse_ucast, parse_mgmt, app_ie_suites.
  destruct (Z.leb_spec 2 len2) as [H2|]; [|done]. destruct (Z.leb_spec 2 len1) as [H1|]; [|intros _ [= <- <- <-]; done].
  intros Hmc Huc. ie_inv Huc c1 Ec1. destruct (negb (c1 =? 1)) eqn:Hc1; [done|]. ie_inv Huc t1 Et1. injection Huc as <- <- <-.
  intros Hmg. ie_inv Hmg c2 Ec2. destruct (negb (c2 =? 1)) eqn:Hc2; [done|]. ie_inv Hmg t2 Et2. destruct t2 as [t2|]; [|done].
  injection Hmg as <- _ _ _. destruct (Z.leb_spec 4 lenN) as [H4|]; [|injection Hmc as <- <-; lia]. ie_inv Hmc t0 Et0. injection Hmc as <- <-.
  rewrite (proj2 (Z.leb_le 4 lenA)) by lia. rewrite (suite_type_in _ _ _ _ _ _ Hm Et0). cbn [ie_bind].
  rewrite (proj2 (Z.leb_le 2 (lenA - 4))) by lia. rewrite <- !Z.add_assoc.
  rewrite (rd_le16_in _ _ _ (mcast + 4) c1) by (done || lia). cbn [ie_bind]. rewrite Hc1.
  rewrite (suite_type_in _ _ _ _ (mcast + (4 + 2)) t1) by first [lia|by rewrite Z.add_assoc]. cbn [ie_bind].
  rewrite (proj2 (Z.leb_le 2 (lenA - 4 - 2 - 4))) by lia. cbn [negb].
  rewrite (rd_le16_in _ _ _ (mcast + (4 + (2 + 4))) c2) by first [lia|by rewrite !Z.add_assoc]. cbn [ie_bind]. rewrite Hc2.
  rewrite (suite_type_in _ _ _ _ (mcast + (4 + (2 + (4 + 2)))) (Some t2)) by first [lia|by rewrite !Z.add_assoc]. cbn [ie_bind].
  by destruct t1, t0.
Qed.

Lemma header_agree pre ie post lenN lenA rsn mcast len : ie_header ie lenN = IeOk (rsn, mcast, len) -> lenN <= lenA ->
  exists len', app_ie_header (pre ++ ie ++ post) (Z.of_nat (length pre)) lenA = IeOk (rsn, Z.of_nat (length pre) + mcast, len') /\ len <= len' /\ 0 <= mcast.
Proof.
  unfold ie_header, app_ie_header. intros H Hl. ie_inv H v Ev. destruct (negb v); [done|]. ie_inv H t Et. ie_inv H l El.
  pose proof (rd_byte_in pre ie post 0 t ltac:(lia) Et) as Et'. rewrite Z.add_0_r in Et'. rewrite Et'. cbn [ie_bind]. rewrite (rd_byte_in _ _ _ 1 _ ltac:(lia) El). cbn [ie_bind].
  destruct (t =? DOT11_MNG_RSN_ID).
  - destruct (l <? 2); [done|]. ie_inv H b Eb. rewrite (rd_le16_in _ _ _ 2 _ ltac:(lia) Eb). cbn [ie_bind].
    destruct (negb _); [done|]. injection H as <- <- <-. eexists. split_and!; [done|lia|lia].
  - destruct (t =? DOT11_MNG_WPA_ID); [|done]. destruct (l <? 6); [done|]. ie_inv H b Eb.
    rewrite (rd_bytes_in _ _ _ 2 _ _ ltac:(lia) Eb). cbn [ie_bind]. destruct (negb (bool_decide _)); [done|]. ie_inv H c Ec.
    rewrite (rd_le16_in _ _ _ 6 _ ltac:(lia) Ec). cbn [ie_bind].
    destruct (negb _); [done|]. injection H as <- <- <-. eexists. split_and!; [done|lia|lia].
Qed.

(** The element eapd picks: the first WPA element, else the first RSN element. *)
Definition picked (l1 : list (Z * list Z)) (t : Z * list Z) (l2 : list (Z * list Z)) : Prop :=
  if is_vendor_ie 1 t then Forall (fun t => is_vendor_ie 1 t = false) l1
  else Forall (fun t => is_vendor_ie 1 t = false) (l1 ++ t :: l2) /\ t.1 = DOT11_MNG_RSN_ID /\
       Forall (fun t => has_id DOT11_MNG_RSN_ID t = false) l1.



(** C26: nas_app_parse_ie does not read past twice the length it is given plus six
    bytes, and it can read past that length: an RSN element behind another one makes it
    look for the suites after the end of the request, because the length left is taken
    from the whole request and not from the element. *)
Theorem app_parse_ie_bounds buf ie_len : bytes_ok buf -> 0 <= ie_len < 2 ^ 32 -> 2 * ie_len + 6 <= Z.of_nat (length buf) ->
  nas_app_parse_ie buf ie_len <> IeOob /\
  nas_app_parse_ie (tlvs [(0, [0x61; 0x70]); (DOT11_MNG_RSN_ID, [1; 0; 0; 0x0f; 0xac; 4])]) 12 = IeOob.
Proof.
  intros Hok Hr Hl. split; [|reflexivity]. pose proof (app_parse_ie_safe buf Hok ie_len Hr Hl) as H. by intros E; rewrite E in H.
Qed.

Lemma app_parse_ie_bounds_witness :
  nas_app_parse_ie (tlvs [(0, [0x61; 0x70]); (DOT11_MNG_RSN_ID, [1; 0; 0; 0x0f; 0xac; 4])] ++ repeat 0 18) 12 <> IeOob.
Proof.
  apply (app_parse_ie_bounds (tlvs [(0, [0x61; 0x70]); (DOT11_MNG_RSN_ID, [1; 0; 0; 0x0f; 0xac; 4])] ++ repeat 0 18) 12);
    [by_compute|done|by vm_compute].
Defined.
