(* ===== verification/EapdSock.v ===== *)
(** The sockets of eapd.  An application's interfaces share the raw sockets to the driver,
    one per interface name, counted by use (eapd_find_brcm, eapd_add_brcm, eapd_del_brcm
    of eapd.c, the open functions of eapd_linux.c); nas also has a preauthentication
    socket per interface.  Start-up and shut-down of the applications (nas_eap.c,
    wps_eap.c, ses_eap.c), and the sockets of an interface that comes and goes. *)
From stdpp Require Import base option list numbers sets.
From Stdlib Require Import ZArith Lia.
From S2P Require Import Prelude Monad EapdState.
Local Open Scope Z_scope.

(** ** Definitions *)

Definition app_of (k : eapd_wksp_t) (m : eapd_app_mode_t) : eapd_app_t :=
  match m with
  | EAPD_APP_WPS => ew_wps k
  | EAPD_APP_SES => ew_ses k
  | _ => ew_nas k
  end.

Definition upd_app (k : eapd_wksp_t) (m : eapd_app_mode_t) (f : eapd_app_t -> eapd_app_t) : eapd_wksp_t :=
  match m with
  | EAPD_APP_WPS => k <| ew_wps ::= f |>
  | EAPD_APP_SES => k <| ew_ses ::= f |>
  | _ => k <| ew_nas ::= f |>
  end.

Definition set_app (m : eapd_app_mode_t) (f : eapd_app_t -> eapd_app_t) : D unit := set_wk (fun k => upd_app k m f).
Definition app {A} (m : eapd_app_mode_t) (f : eapd_app_t -> A) : D A := wk (fun k => f (app_of k m)).

Definition cb_at (k : eapd_wksp_t) (m : eapd_app_mode_t) (j : nat) : eapd_cb_t := nth j (ap_cb (app_of k m)) cb_zero.
Definition set_cb (m : eapd_app_mode_t) (j : nat) (f : eapd_cb_t -> eapd_cb_t) : D unit := set_app m (fun a => a <| ap_cb ::= alter f j |>).

(** The first socket in use with the name, among those counted. *)
Fixpoint find_brcm_go (l : list eapd_socket) (i : nat) (ifname : list Z) : option nat :=
  match l with
  | [] => None
  | s :: l => if (0 <? so_inuseCount s) && bool_decide (so_ifname s = ifname) then Some i else find_brcm_go l (S i) ifname
  end.

Definition sockets (k : eapd_wksp_t) : list eapd_socket := take (ew_brcmSocketCount k) (ew_brcmSocket k).

Definition eapd_find_brcm (ifname : list Z) : D (option nat) := wk (fun k => find_brcm_go (sockets k) 0 ifname).

(** The first socket whose count is zero; their number when there is none. *)
Fixpoint find_unused (l : list eapd_socket) : nat :=
  match l with
  | [] => 0
  | s :: l => if so_inuseCount s =? 0 then 0 else S (find_unused l)
  end.

Section Sockets.
Context `{E : EEnv}.

(** The integer a call stored through a pointer. *)
Definition out_int : D Z := ereply (fun l => idx (default [] (ee_buf l)) 0).

(** eapd_brcm_open and eapd_preauth_open: the socket afterwards, and the result. *)
Definition eapd_raw_open (kind : sock_kind) (sock : eapd_socket) : D (eapd_socket * Z) :=
  fd ← ecall_int (ESocketOpen kind);
  let sock := sock <| so_drvSocket := fd |> in
  if fd <? 0 then mret (sock, -1)
  else
    r ← ecall_int (EIfIndex fd (so_ifname sock));
    if negb (r =? 0) then elog (EClose fd) ;; mret (sock <| so_drvSocket := -1 |>, -1)
    else
      ifindex ← out_int;
      let sock := sock <| so_ifindex := ifindex |> in
      r ← ecall_int (EBindIf fd ifindex);
      if r <? 0 then elog (EClose fd) ;; mret (sock <| so_drvSocket := -1 |>, -1)
      else mret (sock <| so_inuseCount := 1 |>, 0).

Definition eapd_brcm_open (i : nat) : D Z :=
  s ← brcm i (fun s => s);
  r ← eapd_raw_open SK_BRCM s;
  let '(s, ret) := r in
  set_brcm i (fun _ => s) ;;
  mret ret.

Definition eapd_add_brcm (ifname : list Z) : D (option nat) :=
  r ← eapd_find_brcm ifname;
  match r with
  | Some i => set_brcm i (fun s => s <| so_inuseCount ::= Z.add 1 |>) ;; mret (Some i)
  | None =>
      count ← wk ew_brcmSocketCount;
      i ← wk (fun k => find_unused (sockets k));
      if Nat.eqb i count && Nat.leb EAPD_WKSP_MAX_NO_BRCM count then mret None
      else
        when (Nat.eqb i count) (set_wk (fun k => k <| ew_brcmSocketCount := S count |>)) ;;
        within (Nat.ltb (length ifname) IFNAMSIZ) ;;
        set_brcm i (fun _ => socket_zero <| so_ifname := ifname |>) ;;
        ret ← eapd_brcm_open i;
        mret (if ret <? 0 then None else Some i)
  end.

(** The socket [sock] is found again by its name. *)
Definition eapd_del_brcm (sock : nat) : D Z :=
  name ← brcm sock so_ifname;
  r ← eapd_find_brcm name;
  match r with
  | None => mret (-1)
  | Some i =>
      set_brcm i (fun s => s <| so_inuseCount ::= Z.pred |>) ;;
      s ← brcm i (fun s => s);
      when (so_inuseCount s =? 0)
        (elog (EClose (so_drvSocket s)) ;; set_brcm i (fun s => s <| so_drvSocket := -1 |>)) ;;
      mret 0
  end.

Definition eapd_preauth_open (m : eapd_app_mode_t) (j : nat) : D unit :=
  name ← wk (fun k => cb_ifname (cb_at k m j));
  r ← eapd_raw_open SK_PREAUTH (socket_zero <| so_ifname := name |>);
  let '(s, ret) := r in
  set_cb m j (fun c => c <| cb_preauthSocket := if ret <? 0 then s <| so_drvSocket := -1 |> else s |>).

(** A loopback socket: the descriptor, or a negative number. *)
Definition udp_open (app : eapd_app_mode_t) : D Z :=
  fd ← ecall_int (ESocketOpen SK_UDP);
  if fd <? 0 then mret fd
  else
    r ← ecall_int (ESetReuse fd);
    if r <? 0 then elog (EClose fd) ;; mret (-1)
    else
      r ← ecall_int (EBindPort fd app);
      if r <? 0 then elog (EClose fd) ;; mret (-1)
      else mret fd.

Definition cap_of (m : eapd_app_mode_t) : Z :=
  match m with
  | EAPD_APP_WPS => EAPD_CAP_WPS
  | EAPD_APP_SES => EAPD_CAP_SES
  | _ => EAPD_CAP_NAS
  end.

(** The socket of interface [j], marked with the application's capability. *)
Definition open_cb (m : eapd_app_mode_t) (j : nat) : D Z :=
  name ← wk (fun k => cb_ifname (cb_at k m j));
  b ← eapd_add_brcm name;
  set_cb m j (fun c => c <| cb_brcmSocket := b |>) ;;
  match b : option nat with
  | None => mret (-1)
  | Some b => set_brcm b (fun s => s <| so_flag ::= Z.lor (cap_of m) |>) ;; mret 0
  end.

(** The loop over the interfaces; [n] are left, from [j] on. *)
Fixpoint open_cbs (m : eapd_app_mode_t) (preauth : bool) (n j : nat) : D Z :=
  match n with
  | O => mret 0
  | S n =>
      r ← open_cb m j;
      if r <? 0 then mret (-1)
      else when preauth (eapd_preauth_open m j) ;; open_cbs m preauth n (S j)
  end.

(** wps_app_init, nas_app_init and ses_app_init. *)
Definition app_init (m : eapd_app_mode_t) (preauth : bool) : D Z :=
  set_app m (fun a => a <| ap_appSocket := -1 |>) ;;
  n ← app m (fun a => length (ap_cb a));
  if Nat.eqb n 0 then mret 0
  else
    r ← open_cbs m preauth n 0;
    if r <? 0 then mret (-1)
    else
      fd ← udp_open m;
      set_app m (fun a => a <| ap_appSocket := fd |>) ;;
      mret (if fd <? 0 then -1 else 0).

Definition wps_app_init : D Z := app_init EAPD_APP_WPS false.
Definition nas_app_init : D Z := app_init EAPD_APP_NAS true.
Definition ses_app_init : D Z := app_init EAPD_APP_SES false.

Definition close_brcm (m : eapd_app_mode_t) (j : nat) : D unit :=
  b ← wk (fun k => cb_brcmSocket (cb_at k m j));
  match b : option nat with
  | Some b => eapd_del_brcm b ;; mret tt
  | None => mret tt
  end.

Definition close_preauth (m : eapd_app_mode_t) (j : nat) : D unit :=
  fd ← wk (fun k => so_drvSocket (cb_preauthSocket (cb_at k m j)));
  when (0 <=? fd)
    (elog (EClose fd) ;; set_cb m j (fun c => c <| cb_preauthSocket ::= fun s => s <| so_drvSocket := -1 |> |>)).

(** The interfaces are closed and freed from the head of the list on. *)
Fixpoint close_cbs (m : eapd_app_mode_t) (preauth : bool) (n : nat) : D unit :=
  match n with
  | O => mret tt
  | S n =>
      close_brcm m 0 ;;
      when preauth (close_preauth m 0) ;;
      set_app m (fun a => a <| ap_cb ::= tail |>) ;;
      close_cbs m preauth n
  end.

(** wps_app_deinit, nas_app_deinit and ses_app_deinit. *)
Definition app_deinit (m : eapd_app_mode_t) (preauth : bool) : D unit :=
  n ← app m (fun a => length (ap_cb a));
  close_cbs m preauth n ;;
  fd ← app m ap_appSocket;
  when (0 <=? fd) (elog (EClose fd) ;; set_app m (fun a => a <| ap_appSocket := -1 |>)).

Definition wps_app_deinit : D unit := app_deinit EAPD_APP_WPS false.
Definition nas_app_deinit : D unit := app_deinit EAPD_APP_NAS true.
Definition ses_app_deinit : D unit := app_deinit EAPD_APP_SES false.

(** The sockets of a dynamic interface of nas, as built without BCMWPA2: the
    preauthentication socket is neither opened nor closed. *)
Definition nas_open_dif_sockets (j : nat) : D Z := open_cb EAPD_APP_NAS j.
Definition nas_close_dif_sockets (j : nat) : D unit := close_brcm EAPD_APP_NAS j.

End Sockets.
