(* ===== verification/EapdSockInv.v ===== *)
(** The sockets of eapd, counted.  The raw sockets of EapdSock.v are shared by name: each is
    counted at least as often as interfaces hold it, an interface holds the one of its
    own name, no two in use have one name; opening and closing an application's
    interfaces keep that. *)
From stdpp Require Import base option list numbers sets.
From Stdlib Require Import ZArith Lia.
From S2P Require Import Prelude Monad EapdState EapdSock.
Local Open Scope Z_scope.

(** ** The invariant *)

Definition all_cbs (k : eapd_wksp_t) : list eapd_cb_t := ap_cb (ew_wps k) ++ ap_cb (ew_nas k) ++ ap_cb (ew_ses k).

(** How many of the interfaces hold socket [i]. *)
Definition holds (i : nat) (c : eapd_cb_t) : bool := bool_decide (cb_brcmSocket c = Some i).
Definition users (i : nat) (l : list eapd_cb_t) : Z := Z.of_nat (length (List.filter (holds i) l)).

Record socks_ok (k : eapd_wksp_t) : Prop := {
  so_len : length (ew_brcmSocket k) = EAPD_WKSP_MAX_NO_BRCM;
  so_cnt : (ew_brcmSocketCount k <= EAPD_WKSP_MAX_NO_BRCM)%nat;
  so_users : forall i, (i < ew_brcmSocketCount k)%nat -> users i (all_cbs k) <= so_inuseCount (brcm_at k i);
  so_held : forall c i, c ∈ all_cbs k -> cb_brcmSocket c = Some i ->
    (i < ew_brcmSocketCount k)%nat /\ so_ifname (brcm_at k i) = cb_ifname c;
  so_uniq : forall i j, (i < ew_brcmSocketCount k)%nat -> (j < ew_brcmSocketCount k)%nat ->
    0 < so_inuseCount (brcm_at k i) -> 0 < so_inuseCount (brcm_at k j) ->
    so_ifname (brcm_at k i) = so_ifname (brcm_at k j) -> i = j;
  so_names : forall c, c ∈ all_cbs k -> (length (cb_ifname c) < IFNAMSIZ)%nat
}.

(** Every use is counted once. *)
Definition socks_exact (k : eapd_wksp_t) : Prop :=
  forall i, (i < ew_brcmSocketCount k)%nat -> so_inuseCount (brcm_at k i) = users i (all_cbs k).

Lemma users_app i l1 l2 : users i (l1 ++ l2) = users i l1 + users i l2.
Proof. unfold users. rewrite List.filter_app, length_app. lia. Qed.

Lemma users_cons i c l : users i (c :: l) = (if holds i c then 1 else 0) + users i l.
Proof. unfold users. cbn [List.filter]. destruct (holds i c); cbn [length]; lia. Qed.

Lemma users_nonneg i l : 0 <= users i l.
Proof. unfold users. lia. Qed.

Lemma users_elem i c l : c ∈ l -> cb_brcmSocket c = Some i -> 0 < users i l.
Proof.
  intros Hc Hi. apply list_elem_of_split in Hc as (l1 & l2 & ->). rewrite users_app, users_cons. unfold holds.
  rewrite bool_decide_eq_true_2 by done. pose proof (users_nonneg i l1). pose proof (users_nonneg i l2). lia.
Qed.

(** Replacing an interface, and removing one. *)
Lemma users_alter i f j l c : l !! j = Some c ->
  users i (alter f j l) = users i l - (if holds i c then 1 else 0) + (if holds i (f c) then 1 else 0).
Proof.
  revert j. induction l as [|x l IH]; intros [|j] Hj; try done.
  - injection Hj as ->. change (alter f 0%nat (c :: l)) with (f c :: l). rewrite !users_cons. lia.
  - change (alter f (S j) (x :: l)) with (x :: alter f j l). rewrite !users_cons, (IH j Hj). lia.
Qed.

Lemma users_delete i j l c : l !! j = Some c -> users i (delete j l) = users i l - (if holds i c then 1 else 0).
Proof.
  revert j. induction l as [|x l IH]; intros [|j] Hj; try done.
  - injection Hj as ->. change (delete 0%nat (c :: l)) with l. rewrite users_cons. lia.
  - change (delete (S j) (x :: l)) with (x :: delete j l). rewrite !users_cons, (IH j Hj). lia.
Qed.

(** The interfaces when those of one application change. *)
Definition cbs_of (k : eapd_wksp_t) (m : eapd_app_mode_t) : list eapd_cb_t := ap_cb (app_of k m).
Definition with_cbs (k : eapd_wksp_t) (m : eapd_app_mode_t) (l : list eapd_cb_t) : eapd_wksp_t :=
  upd_app k m (fun a => a <| ap_cb := l |>).

Lemma all_cbs_split k m : exists pre post, all_cbs k = pre ++ cbs_of k m ++ post /\
  forall l, all_cbs (with_cbs k m l) = pre ++ l ++ post.
Proof.
  unfold all_cbs, cbs_of, app_of, with_cbs, upd_app. destruct m;
    first [by exists [], (ap_cb (ew_nas k) ++ ap_cb (ew_ses k))
          |exists (ap_cb (ew_wps k) ++ ap_cb (ew_nas k)), []; rewrite !app_nil_r, app_assoc; split; [done|]; intros l; cbn; by rewrite app_nil_r, app_assoc
          |exists (ap_cb (ew_wps k)), (ap_cb (ew_ses k)); done].
Qed.

(** A new list for one application: what has to be checked. *)
Lemma socks_ok_cbs k m l : socks_ok k -> (forall i, users i l <= users i (cbs_of k m)) ->
  (forall c, c ∈ l -> (exists c', c' ∈ cbs_of k m /\ cb_ifname c = cb_ifname c' /\ cb_brcmSocket c = cb_brcmSocket c') \/
    (cb_brcmSocket c = None /\ (length (cb_ifname c) < IFNAMSIZ)%nat)) ->
  socks_ok (with_cbs k m l).
Proof.
  intros [H1 H2 H3 H4 H5 H6] Hu Hc. destruct (all_cbs_split k m) as (pre & post & Ha & Hb). rewrite Ha in *.
  assert (Hbr : forall i, brcm_at (with_cbs k m l) i = brcm_at k i) by (intros; by destruct m).
  assert (Hcnt : ew_brcmSocketCount (with_cbs k m l) = ew_brcmSocketCount k) by by destruct m.
  assert (Hin : forall c, c ∈ pre ++ l ++ post ->
    (exists c', c' ∈ pre ++ cbs_of k m ++ post /\ cb_ifname c = cb_ifname c' /\ cb_brcmSocket c = cb_brcmSocket c') \/
    (cb_brcmSocket c = None /\ (length (cb_ifname c) < IFNAMSIZ)%nat)).
  { intros c. rewrite !elem_of_app. intros [?|[Hc'|?]]; [left; exists c; set_solver| |left; exists c; set_solver].
    apply Hc in Hc' as [(c' & H & ?)|?]; [|by right]. left. exists c'. set_solver. }
  split; rewrite ?Hcnt, ?Hb; [by destruct m|done|..].
  - intros i Hi. rewrite Hbr. specialize (H3 i Hi). specialize (Hu i). rewrite !users_app in *. lia.
  - intros c i Hc' Hi. rewrite Hbr. apply Hin in Hc' as [(c' & Hc' & Hn & Hs)|[Hn _]]; [|congruence].
    rewrite Hn. apply H4; [done|congruence].
  - intros i j. rewrite !Hbr. apply H5.
  - intros c Hc'. apply Hin in Hc' as [(c' & Hc' & Hn & _)|[_ Hn]]; [|done]. rewrite Hn. by apply H6.
Qed.

(** The invariants depend on an interface's name and socket only. *)
Lemma set_cb_ok k m j f : (forall c, cb_ifname (f c) = cb_ifname c /\ cb_brcmSocket (f c) = cb_brcmSocket c) ->
  (socks_ok k -> socks_ok (with_cbs k m (alter f j (cbs_of k m)))) /\
  (socks_exact k -> socks_exact (with_cbs k m (alter f j (cbs_of k m)))).
Proof.
  intros Hf. assert (Hu : forall i, users i (alter f j (cbs_of k m)) = users i (cbs_of k m)).
  { intros i. destruct (cbs_of k m !! j) as [c|] eqn:Hj.
    - rewrite (users_alter i f j _ c) by done. unfold holds. rewrite (proj2 (Hf c)). lia.
    - f_equal. apply list_eq. intros i'. destruct (decide (j = i')) as [<-|Hn]; [|by rewrite list_lookup_alter_ne].
      by rewrite list_lookup_alter_eq, Hj. }
  split; intros H.
  - apply socks_ok_cbs; [done|intros; by rewrite Hu|]. intros c (i & Hi)%list_elem_of_lookup. left.
    destruct (decide (j = i)) as [<-|Hn].
    + rewrite list_lookup_alter_eq in Hi. destruct (cbs_of k m !! j) as [c'|] eqn:Hj; [|done]. injection Hi as <-.
      exists c'. rewrite (proj1 (Hf c')), (proj2 (Hf c')). split; [by eapply list_elem_of_lookup_2|done].
    + rewrite list_lookup_alter_ne in Hi by done. exists c. split; [by eapply list_elem_of_lookup_2|done].
  - destruct (all_cbs_split k m) as (pre & post & Ha & Hb). intros i Hi.
    assert (Hcnt : ew_brcmSocketCount (with_cbs k m (alter f j (cbs_of k m))) = ew_brcmSocketCount k) by by destruct m.
    rewrite Hcnt in Hi. rewrite Hb, !users_app, Hu, <- !users_app, <- Ha, <- (H i Hi). by destruct m.
Qed.

Lemma nth_take_lt {A} (l : list A) n i d : (i < n)%nat -> nth i (take n l) d = nth i l d.
Proof. intros H. by rewrite !nth_lookup, lookup_take_lt. Qed.

(** Searching by name. *)
Lemma find_brcm_go_spec l i0 name :
  match find_brcm_go l i0 name with
  | Some i => exists s, (i0 <= i)%nat /\ l !! (i - i0)%nat = Some s /\ 0 < so_inuseCount s /\ so_ifname s = name
  | None => forall s, s ∈ l -> 0 < so_inuseCount s -> so_ifname s <> name
  end.
Proof.
  revert i0. induction l as [|s l IH]; intros i0; cbn [find_brcm_go]; [intros s H; by apply not_elem_of_nil in H|].
  destruct ((0 <? so_inuseCount s) && bool_decide (so_ifname s = name)) eqn:Hs.
  - apply andb_prop in Hs as [H1%Z.ltb_lt H2%bool_decide_eq_true]. exists s. rewrite Nat.sub_diag. done.
  - specialize (IH (S i0)). destruct (find_brcm_go l (S i0) name) as [i|].
    + destruct IH as (s' & Hi & Hl & H). exists s'. split_and!; [lia| |tauto|tauto]. replace (i - i0)%nat with (S (i - S i0)) by lia. done.
    + intros s' [->|Hs']%elem_of_cons Hp Hn; [|by eapply IH]. apply andb_false_iff in Hs as [Hs|Hs]; [by apply Z.ltb_ge in Hs; lia|].
      by apply bool_decide_eq_false in Hs.
Qed.

Lemma find_unused_spec l : (find_unused l <= length l)%nat /\
  (forall s, l !! find_unused l = Some s -> so_inuseCount s = 0).
Proof.
  induction l as [|s l [IH1 IH2]]; cbn [find_unused length]; [done|]. destruct (Z.eqb_spec (so_inuseCount s) 0).
  - split; [lia|]. by intros ? [= <-].
  - split; [lia|]. apply IH2.
Qed.

Lemma socket_lookup k i : socks_ok k -> (i < ew_brcmSocketCount k)%nat -> sockets k !! i = Some (brcm_at k i).
Proof.
  intros Hk Hi. unfold sockets, brcm_at. rewrite lookup_take_lt by done. pose proof (so_len k Hk). pose proof (so_cnt k Hk).
  destruct (lookup_lt_is_Some_2 (ew_brcmSocket k) i ltac:(lia)) as [s Hs]. by rewrite nth_lookup, Hs.
Qed.

Lemma sockets_length k : socks_ok k -> length (sockets k) = ew_brcmSocketCount k.
Proof. intros Hk. unfold sockets. rewrite length_take, (so_len k Hk). pose proof (so_cnt k Hk). lia. Qed.

(** The socket found is the one of the name. *)
Lemma find_brcm_Some k name i : socks_ok k -> find_brcm_go (sockets k) 0 name = Some i ->
  (i < ew_brcmSocketCount k)%nat /\ 0 < so_inuseCount (brcm_at k i) /\ so_ifname (brcm_at k i) = name.
Proof.
  intros Hk H. pose proof (find_brcm_go_spec (sockets k) 0 name) as Hf. rewrite H in Hf. destruct Hf as (s & _ & Hs & Hp & Hn).
  rewrite Nat.sub_0_r in Hs. assert (Hi : (i < ew_brcmSocketCount k)%nat).
  { apply lookup_lt_Some in Hs. by rewrite sockets_length in Hs. }
  rewrite socket_lookup in Hs by done. by injection Hs as <-.
Qed.

Lemma find_brcm_None k name i : socks_ok k -> find_brcm_go (sockets k) 0 name = None -> (i < ew_brcmSocketCount k)%nat ->
  0 < so_inuseCount (brcm_at k i) -> so_ifname (brcm_at k i) <> name.
Proof.
  intros Hk H Hi Hp. pose proof (find_brcm_go_spec (sockets k) 0 name) as Hf. rewrite H in Hf. apply Hf; [|done].
  apply list_elem_of_lookup. exists i. by apply socket_lookup.
Qed.

(** An interface's own socket is found by the interface's name. *)
Lemma find_brcm_held k c i : socks_ok k -> c ∈ all_cbs k -> cb_brcmSocket c = Some i -> find_brcm_go (sockets k) 0 (cb_ifname c) = Some i.
Proof.
  intros Hk Hc Hi. destruct (so_held k Hk c i Hc Hi) as [Hlt Hn]. pose proof (so_users k Hk i Hlt) as Hu.
  pose proof (users_elem i c _ Hc Hi) as Hp. destruct (find_brcm_go (sockets k) 0 (cb_ifname c)) as [j|] eqn:Hf.
  - apply find_brcm_Some in Hf as (Hj & Hjp & Hjn); [|done]. f_equal. apply (so_uniq k Hk); [done|done|done|lia|congruence].
  - exfalso. by apply (find_brcm_None k (cb_ifname c) i Hk Hf Hlt); [lia|].
Qed.

(** ** Opening *)

Lemma brcm_at_upd k i f j : (i < length (ew_brcmSocket k))%nat ->
  brcm_at (k <| ew_brcmSocket ::= alter f i |>) j = if decide (i = j) then f (brcm_at k j) else brcm_at k j.
Proof.
  intros Hi. unfold brcm_at. change (ew_brcmSocket (k <| ew_brcmSocket ::= alter f i |>)) with (alter f i (ew_brcmSocket k)).
  rewrite !nth_lookup. destruct (decide (i = j)) as [<-|Hn].
  - rewrite list_lookup_alter_eq. by destruct (lookup_lt_is_Some_2 _ _ Hi) as [s ->].
  - by rewrite list_lookup_alter_ne.
Qed.

(** Only the sockets to the driver differ. *)
Definition brcm_only (k k' : eapd_wksp_t) : Prop :=
  k' = k <| ew_brcmSocket := ew_brcmSocket k' |> <| ew_brcmSocketCount := ew_brcmSocketCount k' |>.

#[export] Instance brcm_only_preorder : PreOrder brcm_only.
Proof.
  split.
  - intros k. by destruct k.
  - unfold brcm_only. intros k1 k2 k3 H1 H2. rewrite H2, H1. done.
Qed.

Lemma brcm_only_apps k k' : brcm_only k k' -> ew_wps k' = ew_wps k /\ ew_nas k' = ew_nas k /\ ew_ses k' = ew_ses k.
Proof. by intros ->. Qed.

Lemma brcm_only_cbs k k' m : brcm_only k k' -> all_cbs k' = all_cbs k /\ cbs_of k' m = cbs_of k m.
Proof. intros (H1 & H2 & H3)%brcm_only_apps. unfold all_cbs, cbs_of, app_of. rewrite H1, H2, H3. by destruct m; rewrite ?H1, ?H2, ?H3. Qed.

(** The use count of a socket that may not have been counted yet. *)
Definition in_use (k : eapd_wksp_t) (i : nat) : Z := if Nat.ltb i (ew_brcmSocketCount k) then so_inuseCount (brcm_at k i) else 0.

(** Socket [i] is taken for [name] [delta] more times. *)
Record taken (i : nat) (name : list Z) (delta : Z) (k k' : eapd_wksp_t) : Prop := {
  tk_only : brcm_only k k';
  tk_len : length (ew_brcmSocket k') = EAPD_WKSP_MAX_NO_BRCM;
  tk_cnt : (i < ew_brcmSocketCount k')%nat /\ ew_brcmSocketCount k' = Nat.max (ew_brcmSocketCount k) (S i) /\
    (i <= ew_brcmSocketCount k)%nat /\ (ew_brcmSocketCount k' <= EAPD_WKSP_MAX_NO_BRCM)%nat;
  tk_other : forall j, j <> i -> brcm_at k' j = brcm_at k j;
  tk_use : so_inuseCount (brcm_at k' i) = in_use k i + delta;
  tk_name : so_ifname (brcm_at k' i) = name;
  tk_old : 0 < in_use k i -> so_ifname (brcm_at k i) = name;
  tk_nonneg : 0 <= in_use k i /\ (delta = 0 \/ delta = 1);
  tk_free : in_use k i = 0 -> forall j, (j < ew_brcmSocketCount k)%nat -> 0 < so_inuseCount (brcm_at k j) -> so_ifname (brcm_at k j) <> name
}.

Section Open.
Context `{E : EEnv}.

Lemma raw_open_spec kind sock w : twp (eapd_raw_open kind sock) (fun r w' => ew w' = ew w /\
  so_ifname (r.1) = so_ifname sock /\ so_flag (r.1) = so_flag sock /\
  (r.2 = -1 /\ so_inuseCount (r.1) = so_inuseCount sock \/ r.2 = 0 /\ so_inuseCount (r.1) = 1)) w.
Proof. unfold eapd_raw_open, out_int. eapd_steps; cbn [fst snd]; (split_and!; [done|done|done|]); first [by left|by right]. Qed.

Lemma socks_pos k i : socks_ok k -> (i < ew_brcmSocketCount k)%nat -> 0 <= so_inuseCount (brcm_at k i).
Proof. intros Hk Hi. pose proof (so_users k Hk i Hi). pose proof (users_nonneg i (all_cbs k)). lia. Qed.

Lemma add_brcm_spec name w : socks_ok (ew w) -> (length name < IFNAMSIZ)%nat ->
  twp (eapd_add_brcm name) (fun r w' => match r with
    | Some i => taken i name 1 (ew w) (ew w')
    | None => find_brcm_go (sockets (ew w)) 0 name = None /\ (ew w' = ew w \/ exists i, taken i name 0 (ew w) (ew w'))
    end) w.
Proof.
  intros Hk Hname. pose proof (so_len _ Hk) as Hlen. pose proof (so_cnt _ Hk) as Hcnt. unfold eapd_add_brcm, eapd_find_brcm.
  set (k := ew w) in *. eapd_step. eapd_step. fold k. destruct (find_brcm_go (sockets k) 0 name) as [i|] eqn:Hf.
  - apply find_brcm_Some in Hf as (Hi & Hp & Hn); [|done]. eapd_steps. fold k.
    assert (Hu : in_use k i = so_inuseCount (brcm_at k i)) by (unfold in_use; by rewrite (proj2 (Nat.ltb_lt _ _) Hi)).
    split.
    + by destruct k.
    + change (length (alter (fun s => s <| so_inuseCount ::= Z.add 1 |>) i (ew_brcmSocket k)) = EAPD_WKSP_MAX_NO_BRCM). by rewrite length_alter.
    + change (ew_brcmSocketCount (k <| ew_brcmSocket ::= _ |>)) with (ew_brcmSocketCount k). lia.
    + intros j Hj. rewrite brcm_at_upd by lia. by rewrite decide_False.
    + rewrite brcm_at_upd, decide_True by (done || lia). rewrite Hu. apply Z.add_comm.
    + by rewrite brcm_at_upd, decide_True by (done || lia).
    + done.
    + lia.
    + rewrite Hu. lia.
  - eapd_step. eapd_step. eapd_step. eapd_step. fold k. destruct (find_unused_spec (sockets k)) as [Hle Hun]. rewrite sockets_length in Hle by done.
    set (i := find_unused (sockets k)) in *. set (n := ew_brcmSocketCount k) in *.
    assert (Hu : in_use k i = 0).
    { unfold in_use. destruct (Nat.ltb_spec i (ew_brcmSocketCount k)) as [Hi|]; [|done]. apply Hun. by apply socket_lookup. }
    destruct (Nat.eqb i n && Nat.leb EAPD_WKSP_MAX_NO_BRCM n) eqn:Hfull; [apply wp_ret; split; [done|by left]|].
    assert (Hi : (i < EAPD_WKSP_MAX_NO_BRCM)%nat).
    { apply andb_false_iff in Hfull as [H%Nat.eqb_neq|H%Nat.leb_gt]; lia. }
    set (k1 := if Nat.eqb i n then k <| ew_brcmSocketCount := S n |> else k).
    assert (Hk1 : brcm_only k k1 /\ ew_brcmSocket k1 = ew_brcmSocket k /\ ew_brcmSocketCount k1 = Nat.max n (S i)).
    { unfold k1. destruct (Nat.eqb_spec i n) as [->|Hne]; (split; [by destruct k|]); (split; [done|]).
      - change (S n = Nat.max n (S n)). lia.
      - fold n. lia. }
    destruct Hk1 as (Ho1 & Hb1 & Hc1).
    eapd_step. apply (wp_mono _ (fun _ w' => ew w' = k1)); [unfold when, k1; destruct (Nat.eqb i n); [by eapd_step|by apply wp_ret]|].
    intros [] w1 Hw1. eapd_step. eapd_step; [|apply Nat.ltb_ge in H; lia]. eapd_step. eapd_step. rewrite Hw1.
    unfold eapd_brcm_open. eapd_step. eapd_step. eapd_step. cbn [ew]. set (k2 := k1 <| ew_brcmSocket ::= _ |>).
    assert (Hl2 : length (ew_brcmSocket k2) = EAPD_WKSP_MAX_NO_BRCM).
    { change (length (alter (fun _ => socket_zero <| so_ifname := name |>) i (ew_brcmSocket k1)) = EAPD_WKSP_MAX_NO_BRCM). by rewrite length_alter, Hb1. }
    assert (Hat2 : brcm_at k2 i = socket_zero <| so_ifname := name |>) by (unfold k2; rewrite brcm_at_upd, decide_True by (done || rewrite Hb1; lia); done).
    rewrite Hat2. eapd_step. eapply wp_mono; [apply raw_open_spec|]. intros [s ret] w2 (Hw2 & Hsn & _ & Hret). cbn [fst snd] in Hsn, Hret.
    eapd_steps. rewrite Hw2.
    assert (Ht : forall d, so_inuseCount s = d -> d = 0 \/ d = 1 -> taken i name d k (k2 <| ew_brcmSocket ::= alter (fun _ => s) i |>)).
    { intros d Hd Hd'. split.
      - etransitivity; [exact Ho1|]. by destruct k1.
      - change (length (alter (fun _ => s) i (ew_brcmSocket k2)) = EAPD_WKSP_MAX_NO_BRCM). by rewrite length_alter.
      - change (ew_brcmSocketCount (k2 <| ew_brcmSocket ::= _ |>)) with (ew_brcmSocketCount k1). rewrite Hc1. fold n. lia.
      - intros j Hj. rewrite brcm_at_upd, decide_False by (done || lia). unfold k2. rewrite brcm_at_upd, decide_False by (done || rewrite Hb1; lia).
        unfold brcm_at. by rewrite Hb1.
      - rewrite brcm_at_upd, decide_True by (done || lia). rewrite Hu. exact Hd.
      - rewrite brcm_at_upd, decide_True by (done || lia). exact Hsn.
      - lia.
      - lia.
      - intros _ j Hj Hp. by apply (find_brcm_None k name j Hk Hf). }
    destruct Hret as [[-> Hc]|[-> Hc]].
    + split; [done|]. right. exists i. apply Ht; [exact Hc|by left].
    + apply Ht; [exact Hc|by right].
Qed.

End Open.

(** A socket that was taken stays the only one in use for its name. *)
Lemma taken_uniq i name d k k' : socks_ok k -> taken i name d k k' ->
  forall x y, (x < ew_brcmSocketCount k')%nat -> (y < ew_brcmSocketCount k')%nat -> 0 < so_inuseCount (brcm_at k' x) ->
    0 < so_inuseCount (brcm_at k' y) -> so_ifname (brcm_at k' x) = so_ifname (brcm_at k' y) -> x = y.
Proof.
  intros Hk [T1 T2 T3 T4 T5 T6 T7 T8 T9] x y Hx Hy Hpx Hpy Hn.
  assert (Huse : forall x, x <> i -> (x < ew_brcmSocketCount k')%nat -> (x < ew_brcmSocketCount k)%nat) by (intros; lia).
  assert (Hsym : forall z, z <> i -> (z < ew_brcmSocketCount k')%nat -> 0 < so_inuseCount (brcm_at k' z) -> so_ifname (brcm_at k' z) = name -> False).
  { intros z Hz' Hzc Hpz Hzn. rewrite T4 in Hpz, Hzn by done. destruct (Z.eq_dec (in_use k i) 0) as [H0|H0].
    - by apply (T9 H0 z); [by apply Huse| |].
    - apply Hz'. assert (Hpos : 0 < in_use k i) by lia. specialize (T7 Hpos). unfold in_use in Hpos.
      destruct (Nat.ltb_spec i (ew_brcmSocketCount k)) as [Hi|]; [|lia]. apply (so_uniq k Hk); [by apply Huse|done|done|lia|congruence]. }
  destruct (decide (x = i)) as [->|Hxi], (decide (y = i)) as [->|Hyi]; [done| | |].
  - exfalso. apply (Hsym y); [done..|by rewrite <- Hn].
  - exfalso. apply (Hsym x); [done..|by rewrite Hn].
  - rewrite !T4 in * by done. apply (so_uniq k Hk); auto.
Qed.

(** Who holds a socket still does, under its name. *)
Lemma taken_held i name d k k' : socks_ok k -> taken i name d k k' -> forall c x, c ∈ all_cbs k -> cb_brcmSocket c = Some x ->
  (x < ew_brcmSocketCount k')%nat /\ so_ifname (brcm_at k' x) = cb_ifname c.
Proof.
  intros Hk [T1 T2 T3 T4 T5 T6 T7 T8 T9] c x Hin Hx. destruct (so_held k Hk c x Hin Hx) as [Hlt Hn].
  destruct (decide (x = i)) as [->|Hne]; [|rewrite T4 by done; lia || (split; [lia|done])].
  split; [lia|]. rewrite T6, <- Hn. symmetry. apply T7. pose proof (users_elem i c _ Hin Hx). pose proof (so_users k Hk i Hlt).
  unfold in_use. rewrite (proj2 (Nat.ltb_lt _ _) Hlt). lia.
Qed.

(** No interface holds a socket that is not counted. *)
Lemma users_fresh k x : socks_ok k -> (ew_brcmSocketCount k <= x)%nat -> users x (all_cbs k) = 0.
Proof.
  intros Hk Hx. unfold users. destruct (List.filter (holds x) (all_cbs k)) as [|c' l'] eqn:Hf; [done|]. exfalso.
  assert (Hin : In c' (List.filter (holds x) (all_cbs k))) by (rewrite Hf; by left). apply filter_In in Hin as [Hin Hh%bool_decide_eq_true].
  apply list_elem_of_In in Hin. destruct (so_held k Hk c' x Hin Hh). lia.
Qed.

(** A socket taken for no interface. *)
Lemma taken_ok i name d k k' : socks_ok k -> taken i name d k k' -> socks_ok k'.
Proof.
  intros Hk Ht. pose proof Ht as [T1 T2 T3 T4 T5 T6 T7 T8 T9]. destruct (brcm_only_cbs k k' EAPD_APP_NAS T1) as [Hall _].
  split; rewrite ?Hall; [done|lia| |by apply (taken_held i name d)|by apply (taken_uniq i name d k)|apply (so_names k Hk)].
  intros x Hx. destruct (Nat.lt_ge_cases x (ew_brcmSocketCount k)) as [Hlt|Hge].
  - pose proof (so_users k Hk x Hlt) as Hu. destruct (decide (x = i)) as [->|Hne]; [|by rewrite T4].
    rewrite T5. unfold in_use. rewrite (proj2 (Nat.ltb_lt _ _) Hlt). lia.
  - rewrite (users_fresh k x) by done. destruct (decide (x = i)) as [->|Hne]; [rewrite T5; lia|lia].
Qed.

(** ** The interfaces *)

(** Interface [c] now holds socket [b], which was taken for it. *)
Definition linked (k k' : eapd_wksp_t) (m : eapd_app_mode_t) (j : nat) (b : option nat) : eapd_wksp_t :=
  with_cbs k' m (alter (fun c => c <| cb_brcmSocket := b |>) j (cbs_of k m)).

Lemma holds_set i b c : holds i (c <| cb_brcmSocket := b |>) = bool_decide (b = Some i).
Proof. done. Qed.

Lemma elem_of_alter {A} (f : A -> A) (j : nat) (l : list A) (x : A) : x ∈ alter f j l -> x ∈ l \/ exists y, l !! j = Some y /\ x = f y.
Proof.
  intros (i & Hi)%list_elem_of_lookup. destruct (decide (j = i)) as [<-|Hn].
  - rewrite list_lookup_alter_eq in Hi. destruct (l !! j) as [y|]; [|done]. injection Hi as <-. right. by exists y.
  - rewrite list_lookup_alter_ne in Hi by done. left. by eapply list_elem_of_lookup_2.
Qed.

Lemma alter_fixed {A} (f : A -> A) (j : nat) (l : list A) : (forall x, l !! j = Some x -> f x = x) -> alter f j l = l.
Proof.
  intros H. apply list_eq. intros i. destruct (decide (j = i)) as [<-|Hn]; [|by rewrite list_lookup_alter_ne].
  rewrite list_lookup_alter_eq. destruct (l !! j) as [x|] eqn:Hj; [|done]. cbn. by rewrite H.
Qed.

(** A socket taken for interface [j], linked to it when that succeeded. *)
Lemma linked_ok i delta k k' m j c : socks_ok k -> cbs_of k m !! j = Some c -> taken i (cb_ifname c) delta k k' ->
  let b := if delta =? 1 then Some i else None in
  (delta = 0 -> cb_brcmSocket c = None) ->
  socks_ok (linked k k' m j b) /\ (cb_brcmSocket c = None -> socks_exact k -> socks_exact (linked k k' m j b)).
Proof.
  intros Hk Hj Ht b Hz. pose proof Ht as [T1 T2 T3 T4 T5 T6 T7 T8 T9].
  destruct (all_cbs_split k' m) as (pre' & post' & Ha' & Hb'). destruct (brcm_only_cbs k k' m T1) as [Hall Hcm].
  set (l := alter (fun c => c <| cb_brcmSocket := b |>) j (cbs_of k m)). set (k2 := linked k k' m j b).
  assert (Hbr : forall x, brcm_at k2 x = brcm_at k' x) by (intros; by destruct m).
  assert (Hcnt : ew_brcmSocketCount k2 = ew_brcmSocketCount k') by by destruct m.
  assert (Hc2 : all_cbs k2 = pre' ++ l ++ post') by apply Hb'.
  assert (Hc1 : all_cbs k = pre' ++ cbs_of k m ++ post') by (by rewrite <- Hall, Ha', Hcm).
  assert (Hcin : c ∈ all_cbs k) by (rewrite Hc1, !elem_of_app; right; left; by eapply list_elem_of_lookup_2).
  assert (Hin : forall c', c' ∈ all_cbs k2 -> c' ∈ all_cbs k \/ c' = c <| cb_brcmSocket := b |>).
  { intros c'. rewrite Hc2, Hc1, !elem_of_app. intros [?|[Hc'|?]]; [tauto| |tauto].
    apply elem_of_alter in Hc' as [?|(c0 & Hc0 & ->)]; [tauto|]. rewrite Hj in Hc0. injection Hc0 as <-. by right. }
  assert (Hu : forall x, users x (all_cbs k2) = users x (all_cbs k) - (if holds x c then 1 else 0) + (if (delta =? 1) && Nat.eqb x i then 1 else 0)).
  { intros x. rewrite Hc2, Hc1, !users_app. unfold l. rewrite (users_alter x _ j _ c) by done. rewrite holds_set.
    assert (bool_decide (b = Some x) = (delta =? 1) && Nat.eqb x i) as ->; [|lia]. unfold b. destruct (delta =? 1); cbn [andb]; [|by rewrite bool_decide_eq_false_2].
    destruct (Nat.eqb_spec x i) as [->|Hne]; [by rewrite bool_decide_eq_true_2|]. rewrite bool_decide_eq_false_2; [done|]. congruence. }
  assert (Huse : forall x, x <> i -> (x < ew_brcmSocketCount k')%nat -> (x < ew_brcmSocketCount k)%nat) by (intros; lia).
  split; [split|].
  - unfold k2, linked, with_cbs. by destruct m.
  - lia.
  - intros x. rewrite Hcnt, Hbr, Hu. intros Hx. destruct (decide (x = i)) as [->|Hne].
    + assert (users i (all_cbs k) <= in_use k i).
      { unfold in_use. destruct (Nat.ltb_spec i (ew_brcmSocketCount k)) as [Hi|Hi]; [by apply so_users|]. by rewrite users_fresh. }
      rewrite Nat.eqb_refl, T5, andb_true_r. destruct (holds i c), (Z.eqb_spec delta 1); lia.
    + rewrite (T4 x Hne). pose proof (so_users k Hk x (Huse x Hne Hx)). rewrite (proj2 (Nat.eqb_neq x i) Hne), andb_false_r. destruct (holds x c); lia.
  - intros c' x Hc' Hx. rewrite Hcnt, Hbr. apply Hin in Hc' as [Hc'| ->]; [by apply (taken_held i (cb_ifname c) delta k k' Hk Ht)|].
    change (b = Some x) in Hx. unfold b in Hx. destruct (delta =? 1); [|done]. injection Hx as <-. split; [lia|]. done.
  - intros x y. rewrite Hcnt, !Hbr. by apply (taken_uniq i (cb_ifname c) delta k).
  - intros c' [Hc'| ->]%Hin; [by apply (so_names k Hk)|]. by apply (so_names k Hk c).
  - intros Hcn He x. rewrite Hcnt, Hbr, Hu. intros Hx. unfold holds. rewrite Hcn. change (bool_decide (None = Some x)) with false.
    destruct (decide (x = i)) as [->|Hne].
    + rewrite Nat.eqb_refl, T5, andb_true_r. assert (in_use k i = users i (all_cbs k)) as ->.
      { unfold in_use. destruct (Nat.ltb_spec i (ew_brcmSocketCount k)) as [Hi|Hi]; [by apply He|]. by rewrite users_fresh. }
      destruct (Z.eqb_spec delta 1); lia.
    + rewrite (T4 x Hne), (He x (Huse x Hne Hx)). rewrite (proj2 (Nat.eqb_neq x i) Hne), andb_false_r. lia.
Qed.

(** ** Starting and stopping an application *)

(** The station cache and the packet are not concerned. *)
Definition kept (k k' : eapd_wksp_t) : Prop :=
  ew_sta k' = ew_sta k /\ ew_sta_hashed k' = ew_sta_hashed k /\ ew_packet k' = ew_packet k.

#[export] Instance kept_preorder : PreOrder kept.
Proof. split; [by intros k|]. intros k1 k2 k3 (H1 & H2 & H3) (H4 & H5 & H6). split_and!; congruence. Qed.

Lemma brcm_only_kept k k' : brcm_only k k' -> kept k k'.
Proof. by intros ->. Qed.

Lemma with_cbs_kept k m l : kept k (with_cbs k m l).
Proof. by destruct m. Qed.

Lemma with_cbs_of k m l : cbs_of (with_cbs k m l) m = l.
Proof. by destruct m. Qed.

Lemma with_cbs_id k m : with_cbs k m (cbs_of k m) = k.
Proof. destruct k as [? ? ? ? ? [] [] [] ? ? ? ?]. by destruct m. Qed.

(** The invariants, when sockets keep their names and counts. *)
Lemma same_sockets k k' : brcm_only k k' -> length (ew_brcmSocket k') = length (ew_brcmSocket k) ->
  ew_brcmSocketCount k' = ew_brcmSocketCount k ->
  (forall i, so_inuseCount (brcm_at k' i) = so_inuseCount (brcm_at k i) /\ so_ifname (brcm_at k' i) = so_ifname (brcm_at k i)) ->
  (socks_ok k -> socks_ok k') /\ (socks_exact k -> socks_exact k').
Proof.
  intros Ho Hl Hc Hs. destruct (brcm_only_cbs k k' EAPD_APP_NAS Ho) as [Hall _].
  split; [intros [H1 H2 H3 H4 H5 H6]; split; rewrite ?Hc, ?Hall, ?Hl; auto|].
  - intros i Hi. rewrite (proj1 (Hs i)). auto.
  - intros c i Hci Hi. rewrite (proj2 (Hs i)). auto.
  - intros i j. rewrite (proj1 (Hs i)), (proj2 (Hs i)), (proj1 (Hs j)), (proj2 (Hs j)). auto.
  - intros He i. rewrite Hc, Hall, (proj1 (Hs i)). apply He.
Qed.

Lemma flag_ok k i f : (i < length (ew_brcmSocket k))%nat ->
  let k' := k <| ew_brcmSocket ::= alter (fun s => s <| so_flag ::= f |>) i |> in
  (socks_ok k -> socks_ok k') /\ (socks_exact k -> socks_exact k').
Proof.
  intros Hi k'. apply same_sockets; [by destruct k| |done|].
  - change (length (alter (fun s => s <| so_flag ::= f |>) i (ew_brcmSocket k)) = length (ew_brcmSocket k)). by rewrite length_alter.
  - intros j. unfold k'. rewrite brcm_at_upd by done. by destruct (decide _).
Qed.

Section Start.
Context `{E : EEnv}.

Lemma open_cb_spec m j c w : socks_ok (ew w) -> cbs_of (ew w) m !! j = Some c ->
  twp (open_cb m j) (fun r w' => kept (ew w) (ew w') /\ socks_ok (ew w') /\
    (cb_brcmSocket c = None -> socks_exact (ew w) -> socks_exact (ew w')) /\
    exists b, cbs_of (ew w') m = alter (fun c => c <| cb_brcmSocket := b |>) j (cbs_of (ew w) m)) w.
Proof.
  intros Hk Hj. assert (Hc : c ∈ all_cbs (ew w)).
  { destruct (all_cbs_split (ew w) m) as (pre & post & -> & _). rewrite !elem_of_app. right. left. by eapply list_elem_of_lookup_2. }
  assert (Hcb : cb_at (ew w) m j = c) by (unfold cb_at; change (ap_cb (app_of (ew w) m)) with (cbs_of (ew w) m); by rewrite nth_lookup, Hj).
  unfold open_cb. eapd_step. eapd_step. rewrite Hcb. eapd_step.
  eapply wp_mono; [apply add_brcm_spec; [done|by apply (so_names _ Hk)]|]. intros b w1 Hb.
  assert (H : kept (ew w) (ew w1) /\ let k2 := with_cbs (ew w1) m (alter (fun c => c <| cb_brcmSocket := b |>) j (cbs_of (ew w) m)) in
    socks_ok k2 /\ (cb_brcmSocket c = None -> socks_exact (ew w) -> socks_exact k2) /\ cbs_of (ew w1) m = cbs_of (ew w) m /\
    (forall i, b = Some i -> (i < length (ew_brcmSocket k2))%nat)).
  { assert (Ht : forall i d, taken i (cb_ifname c) d (ew w) (ew w1) -> kept (ew w) (ew w1) /\ cbs_of (ew w1) m = cbs_of (ew w) m /\
      (i < length (ew_brcmSocket (ew w1)))%nat).
    { intros i d []. split_and!; [by apply brcm_only_kept|by apply brcm_only_cbs|lia]. }
    destruct b as [i|].
    - destruct (Ht i 1 Hb) as (Ha1 & Ha2 & Ha3). destruct (linked_ok i 1 (ew w) (ew w1) m j c Hk Hj Hb) as [H1 H2]; [done|].
      split; [done|]. split_and!; [done|done|done|]. intros ? [= <-]. by destruct m.
    - assert (Hn : cb_brcmSocket c = None).
      { destruct (cb_brcmSocket c) as [i|] eqn:Hi; [|done]. rewrite (find_brcm_held _ c i Hk Hc Hi) in Hb. by destruct Hb. }
      destruct Hb as [_ [Heq|[i Hb]]].
      + rewrite Heq. assert (Hid : alter (fun c => c <| cb_brcmSocket := None |>) j (cbs_of (ew w) m) = cbs_of (ew w) m).
        { apply alter_fixed. intros c' Hc'. rewrite Hj in Hc'. injection Hc' as <-. by destruct c; cbn in Hn; subst. }
        cbv zeta. rewrite Hid, with_cbs_id. done.
      + destruct (Ht i 0 Hb) as (Ha1 & Ha2 & Ha3). destruct (linked_ok i 0 (ew w) (ew w1) m j c Hk Hj Hb) as [H1 H2]; [done|]. done. }
  destruct H as (Hkp & Hok & Hex & Hcbs & Hlen). eapd_step. unfold set_cb, set_app. eapd_step. cbn [ew].
  set (k2 := with_cbs (ew w1) m _) in *.
  assert (Hup : upd_app (ew w1) m (fun a => a <| ap_cb ::= alter (fun c => c <| cb_brcmSocket := b |>) j |>) = k2).
  { unfold k2. rewrite <- Hcbs. by destruct m. }
  rewrite Hup. assert (Hk2 : kept (ew w) k2) by (etransitivity; [exact Hkp|apply with_cbs_kept]).
  destruct b as [i|]; [|apply wp_ret; cbn [ew]; split_and!; [done|done|done|]; exists None; apply with_cbs_of].
  eapd_step. eapd_step. eapd_step. cbn [ew]. destruct (flag_ok k2 i (Z.lor (cap_of m)) (Hlen i eq_refl)) as [H1 H2].
  split_and!; [by destruct Hk2 as (? & ? & ?)|auto|auto|]. exists (Some i).
  destruct (brcm_only_cbs k2 (k2 <| ew_brcmSocket ::= alter (fun s => s <| so_flag ::= Z.lor (cap_of m) |>) i |>) m) as [_ ->]; [by destruct k2|].
  apply with_cbs_of.
Qed.

(** ... for an index past the interfaces. *)
Lemma open_cb_out m j w : socks_ok (ew w) -> cbs_of (ew w) m !! j = None ->
  twp (open_cb m j) (fun r w' => kept (ew w) (ew w') /\ socks_ok (ew w')) w.
Proof.
  intros Hk Hj. assert (Hcb : cb_at (ew w) m j = cb_zero).
  { unfold cb_at. change (ap_cb (app_of (ew w) m)) with (cbs_of (ew w) m). by rewrite nth_lookup, Hj. }
  unfold open_cb. eapd_step. eapd_step. rewrite Hcb. eapd_step.
  eapply wp_mono; [apply add_brcm_spec; [done|cbn; unfold IFNAMSIZ; lia]|]. intros b w1 Hb.
  assert (Hw1 : kept (ew w) (ew w1) /\ socks_ok (ew w1) /\ cbs_of (ew w1) m = cbs_of (ew w) m /\
    forall i, b = Some i -> (i < length (ew_brcmSocket (ew w1)))%nat).
  { assert (Ht : forall i d, taken i [] d (ew w) (ew w1) -> kept (ew w) (ew w1) /\ socks_ok (ew w1) /\ cbs_of (ew w1) m = cbs_of (ew w) m /\
      (i < length (ew_brcmSocket (ew w1)))%nat).
    { intros i d H. pose proof H as []. split_and!; [by apply brcm_only_kept|by eapply taken_ok|by apply brcm_only_cbs|lia]. }
    destruct b as [i|]; [destruct (Ht i 1 Hb) as (?&?&?&?); split_and!; [done..|]; by intros ? [= <-]|].
    destruct Hb as [_ [Heq|[i Hb]]]; [by rewrite Heq|]. destruct (Ht i 0 Hb) as (?&?&?&?). done. }
  destruct Hw1 as (Hkp & Hok & Hcbs & Hlen). eapd_step. unfold set_cb, set_app. eapd_step. cbn [ew].
  assert (Hup : upd_app (ew w1) m (fun a => a <| ap_cb ::= alter (fun c => c <| cb_brcmSocket := b |>) j |>) = ew w1).
  { rewrite <- (with_cbs_id (ew w1) m) at 2. rewrite Hcbs, <- (alter_fixed (fun c => c <| cb_brcmSocket := b |>) j (cbs_of (ew w) m)), <- Hcbs.
    - by destruct m.
    - intros x. by rewrite Hj. }
  rewrite Hup. destruct b as [i|]; [|by apply wp_ret]. eapd_step. eapd_step. eapd_step. cbn [ew].
  destruct (flag_ok (ew w1) i (Z.lor (cap_of m)) (Hlen i eq_refl)) as [H1 _]. split; [by destruct Hkp as (?&?&?)|auto].
Qed.

(** What opening sockets does to the rest of the state. *)
Definition opening (k k' : eapd_wksp_t) : Prop := kept k k' /\ socks_ok k' /\ (socks_exact k -> socks_exact k').

Definition opening_if_ok (k k' : eapd_wksp_t) : Prop := kept k k' /\ (socks_ok k -> socks_ok k') /\ (socks_exact k -> socks_exact k').

Lemma opening_trans k1 k2 k3 : opening k1 k2 -> opening k2 k3 -> opening k1 k3.
Proof. intros (H1 & H2 & H3) (H4 & H5 & H6). split_and!; [by etransitivity|done|auto]. Qed.

Definition closed_from (k : eapd_wksp_t) (m : eapd_app_mode_t) (j : nat) : Prop :=
  forall j' c, (j <= j')%nat -> cbs_of k m !! j' = Some c -> cb_brcmSocket c = None.

Lemma preauth_open_spec m j w : socks_ok (ew w) ->
  twp (eapd_preauth_open m j) (fun _ w' => opening (ew w) (ew w') /\
    exists p, cbs_of (ew w') m = alter (fun c => c <| cb_preauthSocket := p |>) j (cbs_of (ew w) m)) w.
Proof.
  intros Hk. unfold eapd_preauth_open. eapd_step. eapd_step. eapd_step. eapply wp_mono; [apply raw_open_spec|].
  intros [s r] w1 (Hw1 & _). unfold set_cb, set_app. eapd_step. cbn [ew]. rewrite Hw1. set (p := if r <? 0 then _ else s).
  assert (Hup : upd_app (ew w) m (fun a => a <| ap_cb ::= alter (fun c => c <| cb_preauthSocket := p |>) j |>) =
    with_cbs (ew w) m (alter (fun c => c <| cb_preauthSocket := p |>) j (cbs_of (ew w) m))) by by destruct m.
  rewrite Hup. destruct (set_cb_ok (ew w) m j (fun c => c <| cb_preauthSocket := p |>)) as [H1 H2]; [done|].
  split; [split_and!; [apply with_cbs_kept|auto|auto]|]. exists p. apply with_cbs_of.
Qed.

Lemma closed_alter k k' m j f : cbs_of k' m = alter f j (cbs_of k m) -> closed_from k m j -> closed_from k' m (S j).
Proof. intros He H j' c Hj'. rewrite He, list_lookup_alter_ne by lia. apply H. lia. Qed.

Lemma open_cbs_spec m pre n : forall j w, socks_ok (ew w) -> closed_from (ew w) m j -> length (cbs_of (ew w) m) = (n + j)%nat ->
  twp (open_cbs m pre n j) (fun _ w' => opening (ew w) (ew w')) w.
Proof.
  induction n as [|n IH]; intros j w Hk Hcl Hn; cbn [open_cbs]; [apply wp_ret; by split_and!|].
  destruct (lookup_lt_is_Some_2 (cbs_of (ew w) m) j ltac:(lia)) as [c Hj]. eapd_step.
  eapply wp_mono; [by apply (open_cb_spec m j c)|]. intros r w1 (K1 & O1 & X1 & b & C1).
  assert (H1 : opening (ew w) (ew w1)) by (split_and!; [done|done|apply X1; by apply (Hcl j c)]).
  destruct (r <? 0); [by apply wp_ret|].
  assert (Hcl1 : closed_from (ew w1) m (S j)) by by eapply closed_alter.
  assert (Hn1 : length (cbs_of (ew w1) m) = (n + S j)%nat) by (rewrite C1, length_alter; lia).
  eapd_step. destruct pre.
  - eapply wp_mono; [by apply preauth_open_spec|]. intros [] w2 (H2 & p & C2). cbn [when].
    assert (H12 : opening (ew w) (ew w2)) by by eapply opening_trans.
    eapply wp_mono; [apply IH|].
    + apply H2.
    + intros j' c' Hj'. rewrite C2. intros Hc'. destruct (decide (j = j')) as [<-|Hne]; [lia|].
      rewrite list_lookup_alter_ne in Hc' by done. by apply (Hcl1 j').
    + by rewrite C2, length_alter.
    + intros ? w3 H3. by eapply opening_trans.
  - apply wp_ret. eapply wp_mono; [by apply IH|]. intros ? w3 H3. by eapply opening_trans.
Qed.

Lemma set_app_other m f k : (forall a, ap_cb (f a) = ap_cb a) ->
  opening_if_ok k (upd_app k m f) /\ (forall m', cbs_of (upd_app k m f) m' = cbs_of k m').
Proof.
  intros Hf. assert (Hcb : forall m', cbs_of (upd_app k m f) m' = cbs_of k m') by (intros m'; unfold cbs_of, app_of, upd_app; destruct m, m'; first [done|apply Hf]).
  assert (Hall : all_cbs (upd_app k m f) = all_cbs k).
  { unfold all_cbs. pose proof (Hcb EAPD_APP_WPS) as H1. pose proof (Hcb EAPD_APP_NAS) as H2. pose proof (Hcb EAPD_APP_SES) as H3.
    unfold cbs_of, app_of in H1, H2, H3. by rewrite H1, H2, H3. }
  assert (Hbr : forall i, brcm_at (upd_app k m f) i = brcm_at k i) by (intros; by destruct m).
  assert (Hcnt : ew_brcmSocketCount (upd_app k m f) = ew_brcmSocketCount k) by by destruct m.
  split; [|done]. split_and!.
  - by destruct m.
  - intros [H1 H2 H3 H4 H5 H6]. split; rewrite ?Hall, ?Hcnt; auto.
    + by destruct m.
    + intros i. rewrite Hbr. apply H3.
    + intros c i. rewrite Hbr. apply H4.
    + intros i j. rewrite !Hbr. apply H5.
  - intros H i. rewrite Hcnt, Hbr, Hall. apply H.
Qed.

Lemma udp_open_spec m w : twp (udp_open m) (fun _ w' => ew w' = ew w) w.
Proof. unfold udp_open. eapd_steps. all: done. Qed.

(** An application started with its interfaces closed. *)
Lemma app_init_spec m pre w : socks_ok (ew w) -> closed_from (ew w) m 0 ->
  twp (app_init m pre) (fun _ w' => opening (ew w) (ew w')) w.
Proof.
  intros Hk Hcl. unfold app_init, set_app. eapd_step. eapd_step.
  set (w1 := EWorld _ _). destruct (set_app_other m (fun a => a <| ap_appSocket := -1 |>) (ew w)) as [(K1 & O1 & X1) C1]; [done|].
  assert (H1 : opening (ew w) (ew w1)) by (split_and!; auto).
  unfold app. eapd_step. eapd_step. destruct (Nat.eqb _ 0); [by apply wp_ret|]. eapd_step.
  eapply wp_mono; [apply open_cbs_spec|].
  - apply H1.
  - intros j c Hj. cbn [ew w1]. rewrite C1. by apply Hcl.
  - by rewrite Nat.add_0_r.
  - intros r w2 H2. assert (H12 : opening (ew w) (ew w2)) by by eapply opening_trans.
    destruct (r <? 0); [by apply wp_ret|]. eapd_step. eapply wp_mono; [apply udp_open_spec|]. intros fd w3 H3.
    eapd_step. unfold set_app. eapd_step. apply wp_ret. cbn [ew]. rewrite H3.
    destruct (set_app_other m (fun a => a <| ap_appSocket := fd |>) (ew w2)) as [(K3 & O3 & X3) _]; [done|].
    eapply opening_trans; [exact H12|]. destruct H12 as (_ & ? & _). split_and!; auto.
Qed.

End Start.

(** ** Closing *)

(** A use of socket [b] is given back. *)
Record released (b : nat) (k k' : eapd_wksp_t) : Prop := {
  re_only : brcm_only k k';
  re_len : length (ew_brcmSocket k') = length (ew_brcmSocket k);
  re_cnt : ew_brcmSocketCount k' = ew_brcmSocketCount k;
  re_name : forall i, so_ifname (brcm_at k' i) = so_ifname (brcm_at k i);
  re_use : forall i, so_inuseCount (brcm_at k' i) = so_inuseCount (brcm_at k i) - (if Nat.eqb i b then 1 else 0)
}.

Section Close.
Context `{E : EEnv}.

Lemma del_brcm_spec m j c b w : socks_ok (ew w) -> cbs_of (ew w) m !! j = Some c -> cb_brcmSocket c = Some b ->
  twp (eapd_del_brcm b) (fun r w' => r = 0 /\ released b (ew w) (ew w') /\
    (so_inuseCount (brcm_at (ew w) b) = 1 -> so_drvSocket (brcm_at (ew w') b) = -1)) w.
Proof.
  intros Hk Hj Hb. assert (Hc : c ∈ all_cbs (ew w)).
  { destruct (all_cbs_split (ew w) m) as (pre & post & -> & _). rewrite !elem_of_app. right. left. by eapply list_elem_of_lookup_2. }
  destruct (so_held _ Hk c b Hc Hb) as [Hlt Hn]. pose proof (so_len _ Hk) as Hlen. pose proof (so_cnt _ Hk) as Hcnt.
  unfold eapd_del_brcm, eapd_find_brcm. eapd_step. eapd_step. eapd_step. eapd_step. rewrite Hn, (find_brcm_held _ c b Hk Hc Hb).
  assert (Hs : forall i, brcm_at ((ew w) <| ew_brcmSocket ::= alter (fun s => s <| so_inuseCount ::= Z.pred |>) b |>) i =
    if decide (b = i) then (brcm_at (ew w) i) <| so_inuseCount ::= Z.pred |> else brcm_at (ew w) i) by (intros; apply brcm_at_upd; lia).
  assert (Hr : released b (ew w) ((ew w) <| ew_brcmSocket ::= alter (fun s => s <| so_inuseCount ::= Z.pred |>) b |>)).
  { split; [by destruct (ew w)| |done|..].
    - change (length (alter (fun s => s <| so_inuseCount ::= Z.pred |>) b (ew_brcmSocket (ew w))) = length (ew_brcmSocket (ew w))). by rewrite length_alter.
    - intros i. rewrite Hs. by destruct (decide (b = i)).
    - intros i. rewrite Hs. destruct (decide (b = i)) as [->|Hne].
      + rewrite Nat.eqb_refl. change (Z.pred (so_inuseCount (brcm_at (ew w) i)) = so_inuseCount (brcm_at (ew w) i) - 1). lia.
      + rewrite (proj2 (Nat.eqb_neq i b)) by done. lia. }
  set (k1 := (ew w) <| ew_brcmSocket ::= _ |>) in *. eapd_step. eapd_step. fold k1. eapd_step. eapd_step. cbn [ew].
  assert (Hu : so_inuseCount (brcm_at k1 b) = so_inuseCount (brcm_at (ew w) b) - 1) by (rewrite (re_use _ _ _ Hr), Nat.eqb_refl; done).
  eapd_step. destruct (Z.eqb_spec (so_inuseCount (brcm_at k1 b)) 0) as [Hz|Hz]; cbn [when].
  - eapd_step. eapd_step. eapd_step. cbn [ew]. apply wp_ret. cbn [ew].
    assert (Hd : forall i, brcm_at (k1 <| ew_brcmSocket ::= alter (fun s => s <| so_drvSocket := -1 |>) b |>) i =
      if decide (b = i) then (brcm_at k1 i) <| so_drvSocket := -1 |> else brcm_at k1 i).
    { intros. apply brcm_at_upd. rewrite (re_len _ _ _ Hr). lia. }
    split; [done|]. split; [|intros _; rewrite Hd; by rewrite decide_True]. destruct Hr as [R1 R2 R3 R4 R5]. split.
    + etransitivity; [exact R1|]. by destruct k1.
    + rewrite <- R2. change (length (alter (fun s => s <| so_drvSocket := -1 |>) b (ew_brcmSocket k1)) = length (ew_brcmSocket k1)). by rewrite length_alter.
    + done.
    + intros i. rewrite Hd. rewrite <- R4. by destruct (decide (b = i)).
    + intros i. rewrite Hd. rewrite <- R5. by destruct (decide (b = i)).
  - apply wp_ret, wp_ret. cbn [ew]. split_and!; [done|done|]. intros H. lia.
Qed.

(** Interface [j] gives its socket back and is taken off the list. *)
Lemma unlinked_ok k k' m j c : socks_ok k -> cbs_of k m !! j = Some c ->
  match cb_brcmSocket c with Some b => released b k k' | None => k' = k end ->
  let k2 := with_cbs k' m (delete j (cbs_of k m)) in socks_ok k2 /\ (socks_exact k -> socks_exact k2).
Proof.
  intros Hk Hj Hr k2. destruct (all_cbs_split k m) as (pre & post & Ha & _). destruct (all_cbs_split k' m) as (pre' & post' & Ha' & Hb').
  assert (H : brcm_only k k' /\ length (ew_brcmSocket k') = length (ew_brcmSocket k) /\ ew_brcmSocketCount k' = ew_brcmSocketCount k /\
    (forall i, so_ifname (brcm_at k' i) = so_ifname (brcm_at k i)) /\
    (forall i, so_inuseCount (brcm_at k' i) = so_inuseCount (brcm_at k i) - (if holds i c then 1 else 0))).
  { unfold holds. destruct (cb_brcmSocket c) as [b|].
    - destruct Hr as [R1 R2 R3 R4 R5]. split_and!; [done..|]. intros i. rewrite R5. destruct (Nat.eqb_spec i b) as [->|Hne].
      + by rewrite bool_decide_eq_true_2.
      + rewrite bool_decide_eq_false_2; [done|congruence].
    - subst k'. split_and!; [done..|]. intros i. rewrite bool_decide_eq_false_2; [lia|done]. }
  destruct H as (Ho & Hl & Hc & Hn & Hu). destruct (brcm_only_cbs k k' m Ho) as [Hall Hcm].
  assert (Hc1 : all_cbs k = pre' ++ cbs_of k m ++ post') by (by rewrite <- Hall, Ha', Hcm).
  assert (Hc2 : all_cbs k2 = pre' ++ delete j (cbs_of k m) ++ post') by apply Hb'.
  assert (Hus : forall i, users i (all_cbs k2) = users i (all_cbs k) - (if holds i c then 1 else 0)).
  { intros i. rewrite Hc2, Hc1, !users_app, (users_delete i j _ c) by done. lia. }
  assert (Hin : forall x, x ∈ all_cbs k2 -> x ∈ all_cbs k).
  { intros x. rewrite Hc2, Hc1, !elem_of_app. intros [?|[Hx|?]]; [tauto| |tauto]. right. left.
    by apply list_elem_of_delete_inv in Hx. }
  assert (Hbr : forall x, brcm_at k2 x = brcm_at k' x) by (intros; by destruct m).
  assert (Hcnt : ew_brcmSocketCount k2 = ew_brcmSocketCount k) by (rewrite <- Hc; by destruct m).
  split; [destruct Hk as [H1 H2 H3 H4 H5 H6]; split; rewrite ?Hcnt|].
  - assert (ew_brcmSocket k2 = ew_brcmSocket k') as -> by by destruct m. by rewrite Hl.
  - done.
  - intros i Hi. rewrite Hbr, Hus, Hu. specialize (H3 i Hi). destruct (holds i c); lia.
  - intros x i Hx Hi. rewrite Hbr, Hn. apply H4; auto.
  - intros i i'. rewrite !Hbr, !Hn, !Hu. intros Hi Hi'. destruct (holds i c), (holds i' c); intros Hp Hp'; apply H5; try done; lia.
  - auto.
  - intros He i. rewrite Hcnt, Hbr, Hus, Hu. intros Hi. by rewrite (He i Hi).
Qed.

Lemma cb_at_lookup k m j c : cbs_of k m !! j = Some c -> cb_at k m j = c.
Proof. intros Hj. unfold cb_at. change (ap_cb (app_of k m)) with (cbs_of k m). by rewrite nth_lookup, Hj. Qed.

Lemma close_brcm_spec m j c w : socks_ok (ew w) -> cbs_of (ew w) m !! j = Some c ->
  twp (close_brcm m j) (fun _ w' => match cb_brcmSocket c with Some b => released b (ew w) (ew w') | None => ew w' = ew w end) w.
Proof.
  intros Hk Hj. unfold close_brcm. eapd_step. eapd_step. rewrite (cb_at_lookup _ _ _ _ Hj). destruct (cb_brcmSocket c) as [b|] eqn:Hb.
  - eapd_step. eapply wp_mono; [by apply (del_brcm_spec m j c b)|]. intros r w1 (_ & Hr & _). by apply wp_ret.
  - by apply wp_ret.
Qed.



Lemma closed_unlinked m j c k k' : socks_ok k -> cbs_of k m !! j = Some c ->
  match cb_brcmSocket c with Some b => released b k k' | None => k' = k end ->
  forall f, opening_if_ok k (with_cbs k' m (delete j (alter f j (cbs_of k m)))).
Proof.
  intros Hk Hj Hr f. assert (Hd : delete j (alter f j (cbs_of k m)) = delete j (cbs_of k m)).
  { generalize (cbs_of k m) as l. revert j Hj. clear. intros j _ l. revert l. induction j as [|j IH]; intros [|x l]; try done.
    change (x :: delete j (alter f j l) = x :: delete j l). by rewrite IH. }
  rewrite Hd. destruct (unlinked_ok k k' m j c Hk Hj Hr) as [H1 H2]. split_and!; [|auto|auto].
  etransitivity; [|apply with_cbs_kept]. destruct (cb_brcmSocket c); [by apply brcm_only_kept, Hr|by subst].
Qed.

Lemma close_cbs_spec m pre n : forall w, socks_ok (ew w) -> length (cbs_of (ew w) m) = n ->
  twp (close_cbs m pre n) (fun _ w' => opening (ew w) (ew w') /\ cbs_of (ew w') m = []) w.
Proof.
  induction n as [|n IH]; intros w Hk Hn; cbn [close_cbs].
  - apply wp_ret. split; [by split_and!|]. by apply nil_length_inv.
  - destruct (lookup_lt_is_Some_2 (cbs_of (ew w) m) 0 ltac:(lia)) as [c Hj]. eapd_step.
    eapply wp_mono; [by apply (close_brcm_spec m 0 c)|]. intros [] w1 H1. eapd_step.
    assert (Hc1 : cbs_of (ew w1) m = cbs_of (ew w) m).
    { destruct (cb_brcmSocket c); [apply brcm_only_cbs, H1|by rewrite H1]. }
    assert (Hgo : forall w2 f, upd_app (ew w2) m (fun a => a <| ap_cb ::= tail |>) = with_cbs (ew w1) m (delete 0%nat (alter f 0%nat (cbs_of (ew w) m))) ->
      twp (set_app m (fun a => a <| ap_cb ::= tail |>) ;; close_cbs m pre n) (fun _ w' => opening (ew w) (ew w') /\ cbs_of (ew w') m = []) w2).
    { intros w2 f Hw2. unfold set_app. eapd_step. eapd_step. rewrite Hw2.
      destruct (closed_unlinked m 0 c _ _ Hk Hj H1 f) as (K & O & X).
      eapply wp_mono; [apply IH|].
      + auto.
      + cbn [ew]. rewrite with_cbs_of. destruct (cbs_of (ew w) m); [done|]. cbn in Hn |- *. lia.
      + intros [] w3 (Hop & Hnil). split; [|done]. eapply opening_trans; [|exact Hop]. split_and!; auto. }
    assert (Htl : forall k l, cbs_of k m = l -> upd_app k m (fun a => a <| ap_cb ::= tail |>) = with_cbs k m (tail l)).
    { intros k l <-. by destruct m. }
    assert (Hdrop : delete 0%nat (cbs_of (ew w) m) = tail (cbs_of (ew w) m)) by by destruct (cbs_of (ew w) m).
    assert (Hid : alter id 0%nat (cbs_of (ew w) m) = cbs_of (ew w) m) by by apply list_alter_id.
    destruct pre; cbn [when].
    + unfold close_preauth. eapd_step. eapd_step. destruct (0 <=? _); cbn [when].
      * eapd_step. eapd_step. unfold set_cb, set_app at 1. eapd_step. apply (Hgo _ id). cbn [ew].
        rewrite Hid, Hdrop. set (g := fun c : eapd_cb_t => c <| cb_preauthSocket ::= fun s => s <| so_drvSocket := -1 |> |>).
        assert (Hc2 : cbs_of (upd_app (ew w1) m (fun a => a <| ap_cb ::= alter g 0%nat |>)) m = alter g 0%nat (cbs_of (ew w) m)).
        { rewrite <- Hc1. by destruct m. }
        rewrite (Htl _ _ Hc2). destruct (cbs_of (ew w) m); by destruct m.
      * apply wp_ret. apply (Hgo _ id). by rewrite Hid, Hdrop, (Htl _ _ Hc1).
    + apply wp_ret. apply (Hgo _ id). by rewrite Hid, Hdrop, (Htl _ _ Hc1).
Qed.

Lemma app_deinit_spec m pre w : socks_ok (ew w) -> twp (app_deinit m pre) (fun _ w' => opening (ew w) (ew w') /\ cbs_of (ew w') m = []) w.
Proof.
  intros Hk. unfold app_deinit, app. eapd_step. eapd_step. eapd_step. eapply wp_mono; [by apply close_cbs_spec|].
  intros [] w1 (H1 & C1). eapd_step. eapd_step. destruct (0 <=? _); cbn [when]; [|by apply wp_ret].
  eapd_step. eapd_step. unfold set_app. eapd_step. cbn [ew].
  destruct (set_app_other m (fun a => a <| ap_appSocket := -1 |>) (ew w1)) as [(K & O & X) C]; [done|].
  split; [|by rewrite C]. eapply opening_trans; [exact H1|]. destruct H1 as (_ & ? & _). split_and!; auto.
Qed.

End Close.
