(* ===== verification/EapdDispatch.v ===== *)
(** The frames and events that pass through eapd: eapd.c's handlers of what the driver
    reports (eapd_brcm_recv_handler, eapd_eapol_dispatch, eapd_brcm_dispatch,
    eapd_preauth_recv_handler), and for each application the messages passed up to it,
    its event handler and its handler of what it sends (nas_eap.c, wps_eap.c, ses_eap.c).
    Frames are rebuilt in place in the packet buffer; a pointer into it is an offset. *)
From stdpp Require Import base option list numbers.
From Stdlib Require Import ZArith Lia.
From S2P Require Import Prelude Monad NasState NasSta WpaIe WpaKey EapdState EapdSta EapdIe.
Local Open Scope Z_scope.

(** ** Constants *)

Definition EAPOL_HEADER_LEN : Z := 18.
Definition EAP_HEADER_LEN : Z := 4.
Definition EAP_PACKET : Z := 0.
Definition EAPOL_START : Z := 1.
Definition EAPOL_LOGOFF : Z := 2.
Definition EAPOL_KEY : Z := 3.
Definition EAP_REQUEST : Z := 1.
Definition EAP_RESPONSE : Z := 2.
Definition EAP_SUCCESS : Z := 3.
Definition EAP_FAILURE : Z := 4.
Definition EAP_IDENTITY : Z := 1.
Definition EAP_EXPANDED : Z := 254.
Definition EAP_TYPE_WSC : Z := EAP_EXPANDED.
Definition BCM_SMI_ID : Z := 0x113d.
Definition BCMILCP_BCM_SUBTYPE_EVENT : Z := 1.

Definition WLC_E_DEAUTH_IND : Z := 6.
Definition WLC_E_ASSOC_IND : Z := 8.
Definition WLC_E_REASSOC_IND : Z := 10.
Definition WLC_E_DISASSOC_IND : Z := 12.
Definition WLC_E_LINK : Z := 16.
Definition WLC_E_MIC_ERROR : Z := 17.
Definition WLC_E_EAPOL_MSG : Z := 25.
Definition WLC_E_PROBREQ_MSG : Z := 44.

(** Offsets in a bcm_event_t and in an eapol_header_t. *)
Definition off_usr_subtype : nat := 22.
Definition off_event_type : nat := 28.
Definition off_datalen : nat := 44.
Definition off_addr : nat := 48.
Definition off_ifname : nat := 54.
Definition sizeof_bcm_event_t : nat := 72.
Definition off_shost : nat := 6.
Definition off_type : nat := 15.
Definition off_length : nat := 16.
Definition off_body : nat := 18.

Section Dispatch.
Context `{E : EEnv} {NL : NameList}.

(** ** Messages to the applications *)

Definition sendup (proj : eapd_wksp_t -> eapd_app_t) (app : eapd_app_mode_t) (pData : nat) (pLen : Z) : D unit :=
  fd ← wk (fun k => ap_appSocket (proj k));
  when (0 <=? fd)
    (within (0 <=? pLen) ;;
     d ← rd_pkt pData (Z.to_nat pLen);
     elog (ESendApp app fd d)).

Definition nas_app_sendup : nat -> Z -> D unit := sendup ew_nas EAPD_APP_NAS.
Definition wps_app_monitor_sendup : nat -> Z -> D unit := sendup ew_wps EAPD_APP_WPS.
Definition ses_app_sendup : nat -> Z -> D unit := sendup ew_ses EAPD_APP_SES.

(** ** EAPOL frames from the driver *)

(** The identities of Wi-Fi protected setup, compared with as many bytes of the frame. *)
Definition eapdispuserlist : list (list Z * Z) :=
  [([0x57; 0x46; 0x41; 0x2d; 0x53; 0x69; 0x6d; 0x70; 0x6c; 0x65; 0x43; 0x6f; 0x6e; 0x66; 0x69; 0x67; 0x2d;
     0x45; 0x6e; 0x72; 0x6f; 0x6c; 0x6c; 0x65; 0x65; 0x2d; 0x31; 0x2d; 0x30], EAP_TYPE_WSC);
   ([0x57; 0x46; 0x41; 0x2d; 0x53; 0x69; 0x6d; 0x70; 0x6c; 0x65; 0x43; 0x6f; 0x6e; 0x66; 0x69; 0x67; 0x2d;
     0x52; 0x65; 0x67; 0x69; 0x73; 0x74; 0x72; 0x61; 0x72; 0x2d; 0x31; 0x2d; 0x30], EAP_TYPE_WSC)].

Fixpoint get_method_go (l : list (list Z * Z)) (user : nat) : D Z :=
  match l with
  | [] => mret 0
  | (identity, method) :: l =>
      b ← rd_pkt user (length identity);
      if bool_decide (b = identity) then mret method else get_method_go l user
  end.

Definition eapd_get_method (user : nat) : D Z := get_method_go eapdispuserlist user.

(** The frame and the header of the canned request, with the type when it is not 0. *)
Definition canned_frame (sta : eapd_sta_t) (code type : Z) : list Z :=
  let len := if type =? 0 then EAP_HEADER_LEN else EAP_HEADER_LEN + 1 in
  es_ea sta ++ es_bssid sta ++ be16 ETHER_TYPE_802_1X ++ [wrap8 (es_eapol_version sta); EAP_PACKET] ++ be16 len ++
  take (Z.to_nat len) ([wrap8 code; wrap8 (es_pae_id sta)] ++ be16 len ++ [wrap8 type]).

Definition eapd_eapol_canned_send (socket sta : nat) (code type : Z) : D unit :=
  s ← esta sta (fun s => s);
  fd ← brcm socket so_drvSocket;
  elog (ESendDrv fd (canned_frame s code type)).

Definition eapd_valid_eapol_start (from ifname : nat) : D bool :=
  name ← rest_pkt ifname;
  nv ← ecall_buf (ENvName (c_string name));
  match nv with
  | None => mret false
  | Some nv_name =>
      flag ← brcm from so_flag;
      if has flag (Z.lor EAPD_CAP_NAS EAPD_CAP_WPS) then
        nas ← wk (fun k => ap_ifnames (ew_nas k));
        wps ← wk (fun k => ap_ifnames (ew_wps k));
        mret (find_in_list nas nv_name || find_in_list wps nv_name)
      else mret false
  end.

Definition set_mode (i : nat) (m : eapd_sta_mode_t) : D unit := set_esta i (fun s => s <| es_mode := m |>).
Definition set_pae (i : nat) (p : eapd_pae_state_t) : D unit := set_esta i (fun s => s <| es_pae_state := p |>).

Definition is_mode (m : eapd_sta_mode_t) (s : eapd_sta_t) : bool := bool_decide (es_mode s = m).

(** An EAP packet of a setup station that already identified itself. *)
Definition eapd_wps_packet (i : nat) (s : eapd_sta_t) (code : Z) (pData : nat) (pLen : Z) : D unit :=
  if (code =? EAP_REQUEST) || (code =? EAP_FAILURE) then
    if is_mode EAPD_STA_MODE_WPS_ENR s then
      when ((code =? EAP_FAILURE) || (code =? EAP_SUCCESS)) (sta_remove i) ;;
      wps_app_monitor_sendup pData pLen
    else mret tt
  else if code =? EAP_RESPONSE then
    when (is_mode EAPD_STA_MODE_WPS s) (wps_app_monitor_sendup pData pLen)
  else mret tt.

(** The interface and the address the frame came to. *)
Definition sta_from (i pData eapol : nat) : D unit :=
  dhost ← rd_pkt eapol ETHER_ADDR_LEN;
  set_esta i (fun s => s <| es_bssid := dhost |>) ;;
  ifname ← rd_pkt pData IFNAMSIZ;
  set_esta i (fun s => s <| es_ifname := ifname |>).

Definition eapd_eap_packet (i : nat) (pData eapol : nat) (pLen : Z) : D unit :=
  length ← ntoh16_at (eapol + off_length);
  when (EAP_HEADER_LEN + 1 <=? length)
    (etype ← rd8 (eapol + off_body + 4);
     if etype =? EAP_IDENTITY then
       sta_from i pData eapol ;;
       method ← eapd_get_method (eapol + off_body + 5);
       (if method =? EAP_TYPE_WSC then
          wps_app_monitor_sendup pData pLen ;; set_mode i EAPD_STA_MODE_WPS
        else
          enr ← esta i (is_mode EAPD_STA_MODE_WPS_ENR);
          if enr : bool then wps_app_monitor_sendup pData pLen
          else nas_app_sendup pData pLen ;; set_mode i EAPD_STA_MODE_NAS) ;;
       set_pae i EAPD_IDENTITY
     else nas_app_sendup pData pLen ;; set_mode i EAPD_STA_MODE_UNKNOW).

Definition eapd_eapol_start (from i pData eapol : nat) : D unit :=
  set_esta i (fun s => s <| es_pae_id := 0 |>) ;;
  sta_from i pData eapol ;;
  valid ← eapd_valid_eapol_start from pData;
  if negb valid then mret tt
  else
    psk ← esta i (is_mode EAPD_STA_MODE_NAS_PSK);
    if psk : bool then mret tt
    else eapd_eapol_canned_send from i EAP_REQUEST EAP_IDENTITY ;; set_mode i EAPD_STA_MODE_UNKNOW.

Definition eapd_eapol_logoff (i pData : nat) (pLen : Z) : D unit :=
  m ← esta i es_mode;
  match m : eapd_sta_mode_t with
  | EAPD_STA_MODE_WPS | EAPD_STA_MODE_WPS_ENR => wps_app_monitor_sendup pData pLen
  | EAPD_STA_MODE_NAS | EAPD_STA_MODE_NAS_PSK => nas_app_sendup pData pLen
  | _ => mret tt
  end.

(** [pData] points to the interface name in front of the frame. *)
Definition eapd_eapol_dispatch (from pData : nat) (pLen : Z) : D unit :=
  let eapol := (pData + IFNAMSIZ)%nat in
  let eap := (eapol + off_body)%nat in
  shost ← rd_pkt (eapol + off_shost) ETHER_ADDR_LEN;
  dhost ← rd_pkt eapol ETHER_ADDR_LEN;
  ifname ← rest_pkt pData;
  r ← sta_lookup shost (Some dhost) ifname EAPD_SEARCH_ENTER;
  match r with
  | None => mret tt
  | Some i =>
      s ← esta i (fun s => s);
      type ← rd8 (eapol + off_type);
      code ← rd8 eap;
      etype ← rd8 (eap + 4);
      smi ← rd_pkt (eap + 5) 3;
      if bool_decide (es_pae_state s = EAPD_IDENTITY) && (is_mode EAPD_STA_MODE_WPS s || is_mode EAPD_STA_MODE_WPS_ENR s) &&
         (type =? EAP_PACKET) && ((etype =? EAP_EXPANDED) || (code =? EAP_FAILURE)) then
        eapd_wps_packet i s code pData pLen
      else if (type =? EAP_PACKET) && (etype =? EAP_EXPANDED) &&
         bool_decide (smi = [Z.shiftr (Z.land BCM_SMI_ID 0xff000) 16; Z.shiftr (Z.land BCM_SMI_ID 0xff00) 8; Z.land BCM_SMI_ID 0xff]) then
        ses_app_sendup pData pLen ;;
        set_mode i EAPD_STA_MODE_SES ;;
        set_pae i EAPD_IDENTITY
      else if type =? EAP_PACKET then eapd_eap_packet i pData eapol pLen
      else if type =? EAPOL_START then eapd_eapol_start from i pData eapol
      else if type =? EAPOL_LOGOFF then eapd_eapol_logoff i pData pLen
      else nas_app_sendup pData pLen
  end.

(** ** Events *)

(** isset(bitvec, type) for the int [type]; [None] outside the array. *)
Definition isset (bitvec : list Z) (type : Z) : option bool :=
  if 0 <=? type then (fun b => Z.testbit b (type mod 8)) <$> bitvec !! Z.to_nat (type / 8) else None.

(** The first interface of the application that has the event and the name. *)
Fixpoint find_listener (bitvec : list Z) (type : Z) (from : list Z) (cbs : list eapd_cb_t) : option bool :=
  match cbs with
  | [] => Some false
  | cb :: cbs =>
      b ← isset bitvec type;
      if b && bool_decide (cb_ifname cb = from) then Some true else find_listener bitvec type from cbs
  end.

(** The interface name goes into the 16 bytes in front of the event. *)
Definition prepend_ifname (pData : nat) : D unit :=
  ifname ← rd_pkt (pData + off_ifname) IFNAMSIZ;
  within (Nat.leb IFNAMSIZ pData) ;;
  wr_pkt (pData - IFNAMSIZ) ifname.

Definition is_assoc (type : Z) : bool := (type =? WLC_E_ASSOC_IND) || (type =? WLC_E_REASSOC_IND).
Definition is_disassoc (type : Z) : bool := (type =? WLC_E_DISASSOC_IND) || (type =? WLC_E_DEAUTH_IND).

Definition lift_app_ie {A} (r : ie_res A) : D (option A) :=
  match r with
  | IeOk a => mret (Some a)
  | IeFail => mret None
  | IeOob => oob
  end.

(** What an association or its end says of the station; false when nas is not to know. *)
Definition nas_app_sta_event (pData : nat) (type : Z) : D bool :=
  if is_assoc type || is_disassoc type then
    addr ← rd_pkt (pData + off_addr) ETHER_ADDR_LEN;
    dhost ← rd_pkt pData ETHER_ADDR_LEN;
    ifname ← rest_pkt (pData + off_ifname);
    r ← sta_lookup addr (Some dhost) ifname EAPD_SEARCH_ENTER;
    match r with
    | None => mret false
    | Some i =>
        if is_disassoc type then set_mode i EAPD_STA_MODE_UNKNOW ;; mret true
        else
          datalen ← ntoh32_at (pData + off_datalen);
          let len := wrap16 datalen in
          data ← rest_pkt (pData + sizeof_bcm_event_t);
          wps ← lift_app_ie (nas_app_find_wpsie data len);
          match wps with
          | Some (Some _) => set_mode i EAPD_STA_MODE_UNKNOW ;; mret false
          | _ =>
              r ← lift_app_ie (nas_app_parse_ie data len);
              match r with
              | Some (wsec, mode) => when (CHECK_PSK mode) (set_mode i EAPD_STA_MODE_NAS_PSK)
              | None => mret tt
              end ;;
              mret true
          end
    end
  else mret true.

Definition nas_app_handle_event (pData : nat) (Len : Z) (from : list Z) : D unit :=
  type32 ← ntoh32_at (pData + off_event_type);
  let type := to_int type32 in
  nas ← wk ew_nas;
  found ← may_oob (find_listener (ap_bitvec nas) type from (ap_cb nas));
  when found
    (up ← nas_app_sta_event pData type;
     when up
       (prepend_ifname pData ;;
        nas_app_sendup (pData - IFNAMSIZ) (Len + Z.of_nat IFNAMSIZ))).

Definition wps_app_handle_event (pData : nat) (Len : Z) (from : list Z) : D unit :=
  type32 ← ntoh32_at (pData + off_event_type);
  wps ← wk ew_wps;
  found ← may_oob (find_listener (ap_bitvec wps) (to_int type32) from (ap_cb wps));
  when found
    (prepend_ifname pData ;;
     wps_app_monitor_sendup (pData - IFNAMSIZ) (Len + Z.of_nat IFNAMSIZ)).

Definition ses_app_handle_event (pData : nat) (Len : Z) (from : list Z) : D unit :=
  type32 ← ntoh32_at (pData + off_event_type);
  ses ← wk ew_ses;
  found ← may_oob (find_listener (ap_bitvec ses) (to_int type32) from (ap_cb ses));
  when found
    (prepend_ifname pData ;;
     ses_app_sendup (pData - IFNAMSIZ) (Len + Z.of_nat IFNAMSIZ)).

Definition eapd_brcm_dispatch (from pData : nat) (Len : Z) : D unit :=
  name ← brcm from so_ifname;
  nas_app_handle_event pData Len name ;;
  wps_app_handle_event pData Len name ;;
  ses_app_handle_event pData Len name.

(** Whatever the driver reports on a socket: the EAPOL frame inside an event is rebuilt
    in front of its own payload, with the interface name before it. *)
Definition eapd_brcm_recv_handler (from pData : nat) (pLen : Z) : D unit :=
  sub ← ntoh16_at (pData + off_usr_subtype);
  if sub =? BCMILCP_BCM_SUBTYPE_EVENT then
    type ← ntoh32_at (pData + off_event_type);
    if type =? WLC_E_EAPOL_MSG then
      len ← ntoh32_at (pData + off_datalen);
      let eapol := (pData + sizeof_bcm_event_t - ETHER_HDR_LEN)%nat in
      let ifname := (eapol - BCM_MSG_IFNAME_MAX)%nat in
      ifname_tmp ← rd_pkt (pData + off_ifname) BCM_MSG_IFNAME_MAX;
      hdr ← rd_pkt pData ETHER_HDR_LEN;
      wr_pkt eapol hdr ;;
      wr_pkt (eapol + 12) (be16 ETHER_TYPE_802_1X) ;;
      addr ← rd_pkt (pData + off_addr) ETHER_ADDR_LEN;
      wr_pkt (eapol + off_shost) addr ;;
      wr_pkt ifname ifname_tmp ;;
      let len := wrap32 (len + Z.of_nat ETHER_HDR_LEN + Z.of_nat BCM_MSG_IFNAME_MAX) in
      eapd_eapol_dispatch from ifname (to_int len)
    else eapd_brcm_dispatch from pData pLen
  else mret tt.

(** A preauthentication frame from interface [from]. *)
Definition eapd_preauth_recv_handler (from : list Z) (pData : nat) (pLen : Z) : D unit :=
  within (Nat.leb IFNAMSIZ pData) ;;
  wr_pkt (pData - IFNAMSIZ) (take IFNAMSIZ (from ++ replicate IFNAMSIZ 0)) ;;
  nas_app_sendup (pData - IFNAMSIZ) (pLen + Z.of_nat IFNAMSIZ).

(** ** Messages from the applications *)

Definition eap_ends (type code : Z) : bool := (type =? EAP_PACKET) && ((code =? EAP_FAILURE) || (code =? EAP_SUCCESS)).

(** The station the frame at [pData] goes to. *)
Definition dest_sta (wlifname pData : nat) : D (option nat) :=
  sta_ea ← rd_pkt pData ETHER_ADDR_LEN;
  ifname ← rest_pkt wlifname;
  sta_lookup sta_ea None ifname EAPD_SEARCH_ONLY.

(** A station whose exchange the frame ends is forgotten. *)
Definition monitor_eapol (sta : option nat) (pData : nat) : D unit :=
  type ← rd8 (pData + off_type);
  code ← rd8 (pData + off_body);
  match sta with
  | Some i => when (eap_ends type code) (sta_remove i)
  | None => mret tt
  end.

Definition nas_app_recv_handler (wlifname : nat) (from : eapd_cb_t) (pData : nat) (pLen : Z) : D unit :=
  if pLen <? EAPOL_HEADER_LEN then mret tt
  else
    ether_type ← ntoh16_at (pData + 12);
    fd ← (if (ether_type =? ETHER_TYPE_802_1X) || (ether_type =? ETHER_TYPE_BRCM) then
            match cb_brcmSocket from with
            | Some b => fd ← brcm b so_drvSocket; mret (Some fd)
            | None => mret None
            end
          else if ether_type =? ETHER_TYPE_802_1X_PREAUTH then mret (Some (so_drvSocket (cb_preauthSocket from)))
          else mret None);
    sta ← dest_sta wlifname pData;
    monitor_eapol sta pData ;;
    match fd : option Z with
    | Some fd => eapd_message_send fd pData pLen
    | None => mret tt
    end.

Definition wps_app_recv_handler (wlifname : nat) (from : eapd_cb_t) (pData : nat) (pLen : Z) (ap_ea : nat) : D unit :=
  if pLen <? EAPOL_HEADER_LEN then mret tt
  else
    sta ← dest_sta wlifname pData;
    type ← rd8 (pData + off_type);
    (if type =? EAPOL_START then
       match sta with Some i => sta_remove i | None => mret tt end ;;
       sta_ea ← rd_pkt pData ETHER_ADDR_LEN;
       ap ← rd_pkt ap_ea ETHER_ADDR_LEN;
       ifname ← rest_pkt wlifname;
       sta ← sta_lookup sta_ea (Some ap) ifname EAPD_SEARCH_ENTER;
       match sta with
       | Some i => set_mode i EAPD_STA_MODE_WPS_ENR
       | None => mret tt
       end
     else monitor_eapol sta pData) ;;
    match cb_brcmSocket from with
    | Some b => fd ← brcm b so_drvSocket; eapd_message_send fd pData pLen
    | None => oob
    end.

Definition ses_app_recv_handler (wlifname : nat) (from : eapd_cb_t) (pData : nat) (pLen : Z) : D unit :=
  if pLen <? EAPOL_HEADER_LEN then mret tt
  else
    sta ← dest_sta wlifname pData;
    monitor_eapol sta pData ;;
    match cb_brcmSocket from with
    | Some b => fd ← brcm b so_drvSocket; eapd_message_send fd pData pLen
    | None => oob
    end.

(** The masks the applications ask the driver for. *)
Definition setbit (bitvec : list Z) (i : Z) : list Z := alter (fun b => Z.lor b (Z.shiftl 1 (i mod 8))) (Z.to_nat (i / 8)) bitvec.
Definition eventmask (l : list Z) : list Z := foldl setbit (replicate WL_EVENTING_MASK_LEN 0) l.

Definition nas_app_set_eventmask (app : eapd_app_t) : eapd_app_t :=
  app <| ap_bitvec := eventmask [WLC_E_EAPOL_MSG; WLC_E_LINK; WLC_E_ASSOC_IND; WLC_E_REASSOC_IND; WLC_E_DISASSOC_IND;
                                 WLC_E_DEAUTH_IND; WLC_E_MIC_ERROR] |>.
Definition wps_app_set_eventmask (app : eapd_app_t) : eapd_app_t := app <| ap_bitvec := eventmask [WLC_E_EAPOL_MSG; WLC_E_PROBREQ_MSG] |>.
Definition ses_app_set_eventmask (app : eapd_app_t) : eapd_app_t := app <| ap_bitvec := eventmask [WLC_E_EAPOL_MSG] |>.

End Dispatch.
