(* ===== verification/EapdRoute.v ===== *)
(** Where eapd sends an EAPOL frame: the decision as a table over the station's mode and
    the frame ([route]), which eapd_eapol_dispatch implements, and the consequences for
    the driver's reports, whose frames reach at most one application, unchanged. *)
From stdpp Require Import base option list numbers.
From Stdlib Require Import ZArith Lia.
From S2P Require Import Prelude Monad NasState NasSta WpaIe WpaKey EapdState EapdSta EapdIe EapdSock EapdDispatch.
Local Open Scope Z_scope.

(** ** The table *)

Inductive dest := DApp (app : eapd_app_mode_t) | DStation | DNone.

(** What of a frame decides: its type, and of an EAP packet the code, the type and the
    length, whether it is for ses and whether it is an identity of protected setup. *)
Record frame_kind := FrameKind {
  fk_type : Z; fk_code : Z; fk_etype : Z; fk_length : Z; fk_ses : bool; fk_wsc : bool
}.

(** The destination of the frame and the mode the station is in afterwards. *)
Definition route (valid : bool) (s : eapd_sta_t) (f : frame_kind) : dest * eapd_sta_mode_t :=
  let m := es_mode s in
  if fk_type f =? EAP_PACKET then
    if bool_decide (es_pae_state s = EAPD_IDENTITY) && bool_decide (m = EAPD_STA_MODE_WPS \/ m = EAPD_STA_MODE_WPS_ENR) &&
       ((fk_etype f =? EAP_EXPANDED) || (fk_code f =? EAP_FAILURE)) then
      let ours := match m with
                  | EAPD_STA_MODE_WPS_ENR => (fk_code f =? EAP_REQUEST) || (fk_code f =? EAP_FAILURE)
                  | _ => fk_code f =? EAP_RESPONSE
                  end in
      (if ours then DApp EAPD_APP_WPS else DNone, m)
    else if (fk_etype f =? EAP_EXPANDED) && fk_ses f then (DApp EAPD_APP_SES, EAPD_STA_MODE_SES)
    else if fk_length f <? EAP_HEADER_LEN + 1 then (DNone, m)
    else if fk_etype f =? EAP_IDENTITY then
      if fk_wsc f then (DApp EAPD_APP_WPS, EAPD_STA_MODE_WPS)
      else if is_mode EAPD_STA_MODE_WPS_ENR s then (DApp EAPD_APP_WPS, m)
      else (DApp EAPD_APP_NAS, EAPD_STA_MODE_NAS)
    else (DApp EAPD_APP_NAS, EAPD_STA_MODE_UNKNOW)
  else if fk_type f =? EAPOL_START then
    if valid && negb (is_mode EAPD_STA_MODE_NAS_PSK s) then (DStation, EAPD_STA_MODE_UNKNOW) else (DNone, m)
  else if fk_type f =? EAPOL_LOGOFF then
    (match m with
     | EAPD_STA_MODE_WPS | EAPD_STA_MODE_WPS_ENR => DApp EAPD_APP_WPS
     | EAPD_STA_MODE_NAS | EAPD_STA_MODE_NAS_PSK => DApp EAPD_APP_NAS
     | _ => DNone
     end, m)
  else (DApp EAPD_APP_NAS, m).

(** The messages among the calls. *)
Definition is_send (c : ecall) : bool := match c with ESendApp _ _ _ | ESendDrv _ _ => true | _ => false end.
Definition sends_of (l : list ecall) : list ecall := List.filter is_send l.

(** The messages sent between two states. *)
Definition sent (w w' : eworld) (l : list ecall) : Prop := exists calls, ew_log w' = calls ++ ew_log w /\ sends_of calls = l.

Lemma sent_refl w : sent w w [].
Proof. by exists []. Qed.

Lemma sent_trans w1 w2 w3 l1 l2 : sent w1 w2 l1 -> sent w2 w3 l2 -> sent w1 w3 (l2 ++ l1).
Proof.
  intros (c1 & H1 & <-) (c2 & H2 & <-). exists (c2 ++ c1). rewrite H2, H1, app_assoc. split; [done|].
  unfold sends_of. by rewrite List.filter_app.
Qed.

Lemma sent_log w w1 w2 l : sent w w1 l -> ew_log w2 = ew_log w1 -> sent w w2 l.
Proof. intros (c & H & Hc) He. exists c. by rewrite He. Qed.

Lemma calls_only_sent w w' : calls_only asks w w' -> sent w w' [].
Proof.
  intros (l & Hl & Hp). exists l. split; [done|]. clear Hl. induction Hp as [|c l Hc Hp IH]; [done|].
  unfold sends_of in *. cbn [List.filter]. by destruct c.
Qed.

Lemma sent_elog w c : sent w (EWorld (ew w) (c :: ew_log w)) (if is_send c then [c] else []).
Proof. exists [c]. split; [done|]. unfold sends_of. cbn. by destruct (is_send c). Qed.

(** ** The parts *)

(** A message to an application, if it has a socket. *)
Definition up_msg (k : eapd_wksp_t) (m : eapd_app_mode_t) (d : list Z) : list ecall :=
  let fd := ap_appSocket (app_of k m) in if 0 <=? fd then [ESendApp m fd d] else [].

Definition in_pkt (k : eapd_wksp_t) (o : nat) (len : Z) : Prop :=
  0 <= len /\ Z.of_nat o + len <= Z.of_nat (length (ew_packet k)).

Definition pkt_at (k : eapd_wksp_t) (o : nat) (len : Z) : list Z := take (Z.to_nat len) (drop o (ew_packet k)).

Section Parts.
Context `{E : EEnv} {NL : NameList}.

Lemma sendup_spec m pData pLen w : in_pkt (ew w) pData pLen -> m = EAPD_APP_WPS \/ m = EAPD_APP_SES \/ m = EAPD_APP_NAS ->
  twp (sendup (fun k => app_of k m) m pData pLen) (fun _ w' => ew w' = ew w /\ ew_log w' = up_msg (ew w) m (pkt_at (ew w) pData pLen) ++ ew_log w) w.
Proof.
  intros [H0 H1] Hm. unfold sendup, up_msg. do 2 eapd_step. destruct (0 <=? ap_appSocket _); [|by apply wp_ret].
  cbn [when]. eapd_steps; [done|lia|]. apply Z.leb_gt in H. lia.
Qed.

Lemma sent_up k m d l : sends_of (up_msg k m d ++ l) = up_msg k m d ++ sends_of l.
Proof. unfold up_msg. by destruct (0 <=? _). Qed.

(** The identity of the frame is one of those of protected setup. *)
Definition wsc_identity (pkt : list Z) (user : nat) : bool :=
  existsb (fun p => bool_decide (take (length (p : list Z * Z).1) (drop user pkt) = p.1)) eapdispuserlist.

Lemma eapd_get_method_spec user w : (user + 30 <= length (ew_packet (ew w)))%nat ->
  twp (eapd_get_method user) (fun r w' => w' = w /\ (r =? EAP_TYPE_WSC) = wsc_identity (ew_packet (ew w)) user) w.
Proof.
  intros Hu. unfold eapd_get_method, wsc_identity, eapdispuserlist.
  cbn [get_method_go existsb fst]. set (l1 := [87; _; _; _; _; _; _; _; _; _; _; _; _; _; _; _; _; 69; _; _; _; _; _; _; _; _; _; _; _]).
  set (l2 := [87; _; _; _; _; _; _; _; _; _; _; _; _; _; _; _; _; 82; _; _; _; _; _; _; _; _; _; _; _; _]).
  assert (length l1 = 29%nat) as H1 by done. assert (length l2 = 30%nat) as H2 by done. clearbody l1 l2.
  rewrite H1, H2. eapd_step. eapd_step; [|lia]. destruct (bool_decide (_ = l1)); [by apply wp_ret|].
  eapd_step. eapd_step; [|lia]. destruct (bool_decide (_ = l2)); by apply wp_ret.
Qed.

Lemma valid_eapol_start_spec from ifname w :
  twp (eapd_valid_eapol_start from ifname) (fun r w' => ew w' = ew w /\ sent w w' [] /\
    (r = true -> has (so_flag (brcm_at (ew w) from)) (Z.lor EAPD_CAP_NAS EAPD_CAP_WPS) = true /\
      exists n, find_in_list (ap_ifnames (ew_nas (ew w))) n || find_in_list (ap_ifnames (ew_wps (ew w))) n = true)) w.
Proof.
  unfold eapd_valid_eapol_start. eapd_steps; (split_and!; [done|by eexists [_]|]); try done.
  intros Hf. split; [done|]. by eexists.
Qed.

(** Writing fields of a station keeps the cache. *)
Lemma cache_wf_upd k i f : (forall s, links (skel_sta (f s)) = links (skel_sta s)) ->
  (forall s, name16 (es_ifname s) -> name16 (es_ifname (f s))) -> cache_wf k -> cache_wf (upd_esta k i f).
Proof.
  intros Hf Hn [Hk Hk']. split; [by apply cache_upd|by apply cache_names_upd].
Qed.

Lemma cache_wf_len k : cache_wf k -> length (ew_sta k) = MAX_SUPPLICANTS.
Proof. intros [Hk _]. by apply cache_len. Qed.

Lemma cache_slot_lt k ea i : cache_ok k -> cache_slot k ea = Some i -> (i < MAX_SUPPLICANTS)%nat.
Proof. intros Hk H. apply (view_Some (skel k) ea i Hk) in H. destruct H as [[Hi _] _]. exact Hi. Qed.

Lemma esta_at_upd_same k i f : cache_wf k -> (i < MAX_SUPPLICANTS)%nat -> esta_at (upd_esta k i f) i = f (esta_at k i).
Proof. intros Hk Hi. apply cache_wf_len in Hk. rewrite esta_at_upd by lia. by rewrite decide_True. Qed.

Lemma cache_slot_ea k ea i : cache_ok k -> cache_slot k ea = Some i -> es_ea (esta_at k i) = ea.
Proof. intros Hk H. apply (view_Some (skel k) ea i Hk) in H. destruct H as [_ H]. by rewrite skel_at in H. Qed.

(** What a part of the dispatch leaves: only the cache has changed, station [i] is in
    mode [m], and [l] was sent. *)
Definition left_by (i : nat) (l : list ecall) (m : eapd_sta_mode_t) (w w' : eworld) : Prop :=
  cache_wf (ew w') /\ cache_only (ew w) (ew w') /\ sent w w' l /\ es_mode (esta_at (ew w') i) = m.

(** The frame handled: in the buffer at [pData], behind the 16 bytes of a name. *)
Definition frame_in (k : eapd_wksp_t) (pData : nat) (pLen : Z) : Prop :=
  length (ew_packet k) = EAPD_WKSP_RECV_DATA_MAX_LEN /\ (pData <= 2048)%nat /\ in_pkt k pData pLen /\ 0 ∈ take IFNAMSIZ (drop pData (ew_packet k)).

Lemma cache_only_packet k k' : cache_only k k' -> ew_packet k' = ew_packet k /\ ew_nas k' = ew_nas k /\ ew_wps k' = ew_wps k /\
  ew_ses k' = ew_ses k /\ ew_brcmSocket k' = ew_brcmSocket k /\ ew_brcmSocketCount k' = ew_brcmSocketCount k.
Proof. intros ->. done. Qed.

Lemma cache_only_app k k' m : cache_only k k' -> app_of k' m = app_of k m.
Proof. intros (_ & H1 & H2 & H3 & _)%cache_only_packet. unfold app_of. destruct m; congruence. Qed.

Lemma cache_only_up k k' m d : cache_only k k' -> up_msg k' m d = up_msg k m d.
Proof. intros H. unfold up_msg. by rewrite (cache_only_app k k'). Qed.

Lemma frame_in_only k k' pData pLen : cache_only k k' -> frame_in k pData pLen -> frame_in k' pData pLen.
Proof. intros H%cache_only_packet. destruct H as (Hp & _). unfold frame_in, in_pkt. by rewrite Hp. Qed.

Lemma name_in_frame k pData pLen : frame_in k pData pLen -> name16 (take IFNAMSIZ (drop pData (ew_packet k))).
Proof.
  intros (Hl & Hp & _ & H0). split; [|done]. rewrite length_take, length_drop, Hl. unfold IFNAMSIZ, EAPD_WKSP_RECV_DATA_MAX_LEN. lia.
Qed.

(** Passing the frame up, followed by writes to the station. *)
Lemma sent_up_log w w' k m d : ew_log w' = up_msg k m d ++ ew_log w -> sent w w' (up_msg k m d).
Proof.
  intros H. exists (up_msg k m d). split; [done|]. pose proof (sent_up k m d []) as Hs. rewrite !app_nil_r in Hs. exact Hs.
Qed.

End Parts.

(** The parts of a frame. *)
Definition byte_at (k : eapd_wksp_t) (o : nat) : Z := idx (take 1 (drop o (ew_packet k))) 0.
Definition kind_at (k : eapd_wksp_t) (eapol : nat) : frame_kind :=
  let lb := take 2 (drop (eapol + off_length) (ew_packet k)) in
  FrameKind (byte_at k (eapol + off_type)) (byte_at k (eapol + off_body)) (byte_at k (eapol + off_body + 4))
    (2 ^ 8 * idx lb 0 + idx lb 1)
    (bool_decide (take 3 (drop (eapol + off_body + 5) (ew_packet k)) = [0; 0x11; 0x3d]))
    (wsc_identity (ew_packet k) (eapol + off_body + 5)).

(** What is sent, by the destination. *)
Definition outcome (k : eapd_wksp_t) (from i : nat) (dhost frame : list Z) (d : dest) : list ecall :=
  match d with
  | DApp a => up_msg k a frame
  | DStation => [ESendDrv (so_drvSocket (brcm_at k from))
      (canned_frame ((esta_at k i) <| es_pae_id := 0 |> <| es_bssid := dhost |>) EAP_REQUEST EAP_IDENTITY)]
  | DNone => []
  end.

Section Route.
Context `{E : EEnv} {NL : NameList}.
Implicit Types w : eworld.

(** The station is of the cache, and the frame in the buffer. *)
Definition handling (i pData : nat) (pLen : Z) (w : eworld) : Prop :=
  cache_wf (ew w) /\ (i < MAX_SUPPLICANTS)%nat /\ frame_in (ew w) pData pLen.

Lemma wps_packet_spec i code pData pLen w : handling i pData pLen w -> let s := esta_at (ew w) i in
  (es_mode s = EAPD_STA_MODE_WPS \/ es_mode s = EAPD_STA_MODE_WPS_ENR) ->
  twp (eapd_wps_packet i s code pData pLen) (fun _ w' => left_by i
    (if (match es_mode s with EAPD_STA_MODE_WPS_ENR => (code =? EAP_REQUEST) || (code =? EAP_FAILURE) | _ => code =? EAP_RESPONSE end)
     then up_msg (ew w) EAPD_APP_WPS (pkt_at (ew w) pData pLen) else []) (es_mode s) w w') w.
Proof.
  intros (Hw & Hi & Hf) s Hm. unfold eapd_wps_packet. unfold is_mode.
  assert (Hnop : left_by i [] (es_mode s) w w) by (split_and!; [done|reflexivity|apply sent_refl|done]).
  assert (Hup : forall w1, cache_wf (ew w1) -> cache_only (ew w) (ew w1) -> ew_log w1 = ew_log w -> es_mode (esta_at (ew w1) i) = es_mode s ->
    twp (wps_app_monitor_sendup pData pLen) (fun _ w' => left_by i (up_msg (ew w) EAPD_APP_WPS (pkt_at (ew w) pData pLen)) (es_mode s) w w') w1).
  { intros w1 H1 H2 H3 H4. unfold wps_app_monitor_sendup. eapply wp_mono; [apply (sendup_spec EAPD_APP_WPS); [by apply (frame_in_only _ _ _ _ H2)|auto]|].
    intros [] w2 [He Hl]. rewrite (cache_only_up _ _ _ _ H2) in Hl. unfold pkt_at in Hl. rewrite (proj1 (cache_only_packet _ _ H2)) in Hl.
    rewrite H3 in Hl. split_and!; [by rewrite He|by rewrite He|by apply sent_up_log|by rewrite He]. }
  destruct Hm as [Hm|Hm]; rewrite Hm; cbn [bool_decide].
  - rewrite bool_decide_eq_false_2 by done. rewrite bool_decide_eq_true_2 by done.
    destruct (Z.eqb_spec code EAP_RESPONSE) as [->|Hc]; cbn [orb when].
    + rewrite <- Hm. by apply Hup.
    + rewrite <- Hm. destruct (_ || _); by apply wp_ret.
  - rewrite bool_decide_eq_true_2, bool_decide_eq_false_2 by done.
    destruct ((code =? EAP_REQUEST) || (code =? EAP_FAILURE)) eqn:Hc; [|rewrite <- Hm; destruct (code =? EAP_RESPONSE); by apply wp_ret].
    eapd_step. eapd_step.
    + eapply wp_mono; [by apply sta_remove_spec; [apply Hw|]|]. intros [] w1 [Hr Hlog]. rewrite <- Hm.
      pose proof Hr as (R1 & R2 & _ & _ & _ & R6). apply Hup; [|done|done|by rewrite R6].
      split; [done|]. by eapply removed_names; [|apply Hw].
    + rewrite <- Hm. by apply Hup.
Qed.

(** Passing the frame up and then setting the mode and the state. *)
Lemma up_spec m i pData pLen (w0 w : eworld) : handling i pData pLen w -> cache_only (ew w0) (ew w) ->
  m = EAPD_APP_WPS \/ m = EAPD_APP_SES \/ m = EAPD_APP_NAS ->
  twp (sendup (fun k => app_of k m) m pData pLen) (fun _ w' => ew w' = ew w /\
    ew_log w' = up_msg (ew w0) m (pkt_at (ew w0) pData pLen) ++ ew_log w) w.
Proof.
  intros (Hw & Hi & Hf) Hc Hm. eapply wp_mono; [apply (sendup_spec m); [apply Hf|done]|]. intros [] w2 [He Hl]. split; [done|].
  rewrite Hl, (cache_only_up _ _ _ _ Hc). unfold pkt_at. by rewrite (proj1 (cache_only_packet _ _ Hc)).
Qed.

(** The interface and the address of the frame, written to the station. *)
Definition from_sta (k : eapd_wksp_t) (pData eapol : nat) (s : eapd_sta_t) : eapd_sta_t :=
  s <| es_bssid := take 6 (drop eapol (ew_packet k)) |> <| es_ifname := take IFNAMSIZ (drop pData (ew_packet k)) |>.

Lemma sta_from_spec i pData pLen w : handling i pData pLen w -> let eapol := (pData + IFNAMSIZ)%nat in
  twp (sta_from i pData eapol) (fun _ w' => handling i pData pLen w' /\ cache_only (ew w) (ew w') /\ ew_log w' = ew_log w /\
    esta_at (ew w') i = from_sta (ew w) pData eapol (esta_at (ew w) i)) w.
Proof.
  intros (Hw & Hi & Hf) eapol. pose proof Hf as (Hl & Hp & _ & _). pose proof (name_in_frame _ _ _ Hf) as Hn.
  unfold sta_from. unfold EAPD_WKSP_RECV_DATA_MAX_LEN in Hl. eapd_steps.
  2, 3: lazymatch goal with H : (length (ew_packet ?k) < _)%nat |- _ =>
    change (length (ew_packet k)) with (length (ew_packet (ew w))) in H; unfold eapol, IFNAMSIZ, ETHER_ADDR_LEN in *; lia end.
  set (f := fun s => s <| es_bssid := _ |>). set (k1 := upd_esta (ew w) i f).
  assert (Hk1 : cache_wf k1) by by apply cache_wf_upd.
  assert (Hc : cache_only (ew w) (upd_esta k1 i (fun s => s <| es_ifname := take IFNAMSIZ (drop pData (ew_packet k1)) |>)))
    by (etransitivity; apply cache_only_upd).
  split_and!; [split_and!|done|done|].
  - apply cache_wf_upd; [done| |done]. intros s _. exact Hn.
  - done.
  - by eapply frame_in_only.
  - rewrite esta_at_upd_same by done. unfold k1. rewrite esta_at_upd_same by done. done.
Qed.

Lemma handling_upd i pData pLen w f : handling i pData pLen w -> (forall s, links (skel_sta (f s)) = links (skel_sta s)) ->
  (forall s, name16 (es_ifname s) -> name16 (es_ifname (f s))) -> forall l, handling i pData pLen (EWorld (upd_esta (ew w) i f) l).
Proof.
  intros (Hw & Hi & Hf) H1 H2 l. split_and!; [by apply cache_wf_upd|done|]. eapply frame_in_only; [|done]. apply cache_only_upd.
Qed.

Lemma eap_packet_spec i pData pLen w : handling i pData pLen w -> let eapol := (pData + IFNAMSIZ)%nat in
  let s := esta_at (ew w) i in let f := kind_at (ew w) eapol in
  twp (eapd_eap_packet i pData eapol pLen) (fun _ w' =>
    let '(d, m) := if fk_length f <? EAP_HEADER_LEN + 1 then (DNone, es_mode s)
      else if fk_etype f =? EAP_IDENTITY then
        if fk_wsc f then (DApp EAPD_APP_WPS, EAPD_STA_MODE_WPS)
        else if is_mode EAPD_STA_MODE_WPS_ENR s then (DApp EAPD_APP_WPS, es_mode s)
        else (DApp EAPD_APP_NAS, EAPD_STA_MODE_NAS)
      else (DApp EAPD_APP_NAS, EAPD_STA_MODE_UNKNOW) in
    left_by i (match d with DApp a => up_msg (ew w) a (pkt_at (ew w) pData pLen) | _ => [] end) m w w') w.
Proof.
  intros Hh eapol s f. pose proof Hh as (Hw & Hi & Hf). pose proof Hf as (Hl & Hp & _ & _). unfold EAPD_WKSP_RECV_DATA_MAX_LEN in Hl.
  unfold eapd_eap_packet, ntoh16_at. eapd_step. eapd_step. eapd_step.
  2: { unfold eapol, off_length, IFNAMSIZ in *. lia. }
  eapd_step. change (2 ^ 8 * _ + _) with (fk_length f).
  destruct (Z.ltb_spec (fk_length f) (EAP_HEADER_LEN + 1)) as [Hlen|Hlen].
  { rewrite (proj2 (Z.leb_gt _ _)) by lia. apply wp_ret. split_and!; [done|reflexivity|apply sent_refl|done]. }
  rewrite (proj2 (Z.leb_le _ _)) by lia. cbn [when]. unfold rd8. eapd_step. eapd_step. eapd_step.
  2: { unfold eapol, off_body, IFNAMSIZ in *. lia. }
  eapd_step. change (idx _ 0) with (fk_etype f).
  assert (Hset : forall m l w1, handling i pData pLen w1 -> cache_only (ew w) (ew w1) -> sent w w1 l ->
    twp (set_mode i m) (fun _ w' => left_by i l m w w') w1).
  { intros m l w1 (H1 & _ & _) H2 H3. unfold set_mode. eapd_step. split_and!; [by apply cache_wf_upd|etransitivity; [done|apply cache_only_upd]|by eapply sent_log|].
    cbn [ew]. by rewrite esta_at_upd_same. }
  assert (Hpae : forall m l w1, left_by i l m w w1 -> twp (set_pae i EAPD_IDENTITY) (fun _ w' => left_by i l m w w') w1).
  { intros m l w1 (H1 & H2 & H3 & H4). unfold set_pae. eapd_step. split_and!; [by apply cache_wf_upd|etransitivity; [done|apply cache_only_upd]|by eapply sent_log|].
    cbn [ew]. by rewrite esta_at_upd_same. }
  destruct (fk_etype f =? EAP_IDENTITY).
  - eapd_step. eapply wp_mono; [by apply (sta_from_spec i pData pLen)|]. intros [] w1 (H1 & H2 & H3 & H4).
    eapd_step. eapply wp_mono; [apply eapd_get_method_spec; rewrite (proj1 (cache_only_packet _ _ H2)); unfold eapol, off_body, IFNAMSIZ; lia|].
    intros meth w1' [-> Hmeth]. rewrite (proj1 (cache_only_packet _ _ H2)) in Hmeth. change (wsc_identity _ _) with (fk_wsc f) in Hmeth.
    rewrite Hmeth. assert (Hlog : forall w2 l, ew w2 = ew w1 -> ew_log w2 = l ++ ew_log w1 -> handling i pData pLen w2 /\ cache_only (ew w) (ew w2) /\ ew_log w2 = l ++ ew_log w).
    { intros w2 l He Hlg. unfold handling. rewrite He, Hlg, H3. done. }
    eapd_step. destruct (fk_wsc f).
    + eapd_step. eapply wp_mono; [by apply (up_spec EAPD_APP_WPS i pData pLen w); auto|]. intros [] w2 [He Hlg].
      destruct (Hlog _ _ He Hlg) as (Q1 & Q2 & Q3). eapply wp_mono; [apply Hset; [done|done|by apply sent_up_log]|]. intros [] w3 Hw3. by apply Hpae.
    + eapd_step. eapd_step. rewrite H4. change (is_mode EAPD_STA_MODE_WPS_ENR (from_sta _ _ _ _)) with (is_mode EAPD_STA_MODE_WPS_ENR s).
      destruct (is_mode EAPD_STA_MODE_WPS_ENR s) eqn:Hm.
      * eapply wp_mono; [by apply (up_spec EAPD_APP_WPS i pData pLen w); auto|]. intros [] w2 [He Hlg].
        destruct (Hlog _ _ He Hlg) as (Q1 & Q2 & Q3). apply Hpae. split_and!; [apply Q1|done|by apply sent_up_log|by rewrite He, H4].
      * eapd_step. eapply wp_mono; [by apply (up_spec EAPD_APP_NAS i pData pLen w); auto|]. intros [] w2 [He Hlg].
        destruct (Hlog _ _ He Hlg) as (Q1 & Q2 & Q3). eapply wp_mono; [apply Hset; [done|done|by apply sent_up_log]|]. intros [] w3 Hw3. by apply Hpae.
  - eapd_step. eapply wp_mono; [by apply (up_spec EAPD_APP_NAS i pData pLen w); auto|]. intros [] w2 [He Hlg].
    apply Hset; [unfold handling; by rewrite He|by rewrite He|by apply sent_up_log].
Qed.

Lemma eapol_start_spec from i pData pLen w : handling i pData pLen w -> let eapol := (pData + IFNAMSIZ)%nat in
  let s := esta_at (ew w) i in
  twp (eapd_eapol_start from i pData eapol) (fun _ w' => exists valid : bool,
    (valid = true -> has (so_flag (brcm_at (ew w) from)) (Z.lor EAPD_CAP_NAS EAPD_CAP_WPS) = true) /\
    let answered := valid && negb (is_mode EAPD_STA_MODE_NAS_PSK s) in
    left_by i (outcome (ew w) from i (take 6 (drop eapol (ew_packet (ew w)))) [] (if answered then DStation else DNone))
      (if answered then EAPD_STA_MODE_UNKNOW else es_mode s) w w') w.
Proof.
  intros Hh eapol s. pose proof Hh as (Hw & Hi & Hf). unfold eapd_eapol_start. eapd_step. eapd_step. eapd_step.
  set (w1 := EWorld (upd_esta (ew w) i (fun s => s <| es_pae_id := 0 |>)) (ew_log w)).
  assert (Hh1 : handling i pData pLen w1) by (by apply handling_upd). assert (Hc1 : cache_only (ew w) (ew w1)) by apply cache_only_upd.
  eapply wp_mono; [by apply (sta_from_spec i pData pLen)|]. intros [] w2 (H1 & H2 & H3 & H4).
  assert (Hc2 : cache_only (ew w) (ew w2)) by by etransitivity.
  assert (Hs2 : esta_at (ew w2) i = from_sta (ew w) pData eapol (s <| es_pae_id := 0 |>)) by (rewrite H4; unfold w1; cbn [ew]; by rewrite esta_at_upd_same).
  eapd_step. eapply wp_mono; [apply valid_eapol_start_spec|]. intros valid w3 (H5 & H6 & H7).
  assert (Hsent : sent w w3 []) by (destruct H6 as (c & Hc & Hc'); exists c; rewrite Hc, H3; done).
  assert (Hbr : brcm_at (ew w2) from = brcm_at (ew w) from) by (unfold brcm_at; by destruct (cache_only_packet _ _ Hc2) as (_ & _ & _ & _ & -> & _)).
  eapd_step.
  - apply negb_true_iff in H as ->. apply wp_ret. exists false. split; [done|]. cbn [andb].
    split_and!; rewrite ?H5; [apply H1|done|done|by rewrite Hs2].
  - apply negb_false_iff in H as ->. eapd_step. eapd_step. rewrite H5, Hs2.
    change (is_mode EAPD_STA_MODE_NAS_PSK (from_sta _ _ _ _)) with (is_mode EAPD_STA_MODE_NAS_PSK s).
    destruct (is_mode EAPD_STA_MODE_NAS_PSK s) eqn:Hpsk.
    + apply wp_ret. exists true. split; [intros _; rewrite <- Hbr; by apply H7|]. cbn [andb negb].
      split_and!; rewrite ?H5; [apply H1|done|done|by rewrite Hs2].
    + unfold eapd_eapol_canned_send, set_mode. eapd_steps. exists true. split; [intros _; rewrite <- Hbr; by apply H7|]. cbn [andb negb].
      rewrite H5, Hbr, Hs2. split_and!; cbn [ew].
      * apply cache_wf_upd; [done|done|]. apply H1.
      * etransitivity; [done|apply cache_only_upd].
      * destruct Hsent as (c & Hc & Hc'). eexists (_ :: c). split; [cbn [ew_log]; by rewrite Hc|]. unfold sends_of in *. cbn [List.filter is_send]. rewrite Hc'. done.
      * rewrite esta_at_upd_same; [done|apply H1|done].
Qed.

Lemma eapol_logoff_spec i pData pLen w : handling i pData pLen w -> let s := esta_at (ew w) i in
  twp (eapd_eapol_logoff i pData pLen) (fun _ w' =>
    left_by i (match es_mode s with
      | EAPD_STA_MODE_WPS | EAPD_STA_MODE_WPS_ENR => up_msg (ew w) EAPD_APP_WPS (pkt_at (ew w) pData pLen)
      | EAPD_STA_MODE_NAS | EAPD_STA_MODE_NAS_PSK => up_msg (ew w) EAPD_APP_NAS (pkt_at (ew w) pData pLen)
      | _ => [] end) (es_mode s) w w') w.
Proof.
  intros Hh s. unfold eapd_eapol_logoff. eapd_step. eapd_step. fold s.
  assert (Hup : forall a, a = EAPD_APP_WPS \/ a = EAPD_APP_SES \/ a = EAPD_APP_NAS -> twp (sendup (fun k => app_of k a) a pData pLen)
    (fun _ w' => left_by i (up_msg (ew w) a (pkt_at (ew w) pData pLen)) (es_mode s) w w') w).
  { intros a Ha. eapply wp_mono; [by apply (up_spec a i pData pLen w)|]. intros [] w2 [He Hl].
    split_and!; [rewrite He; apply Hh|by rewrite He|by apply sent_up_log|by rewrite He]. }
  assert (Hno : left_by i [] (es_mode s) w w) by (split_and!; [apply Hh|reflexivity|apply sent_refl|done]).
  destruct (es_mode s); try (by apply wp_ret); first [apply (Hup EAPD_APP_WPS); auto | apply (Hup EAPD_APP_NAS); auto].
Qed.

(** The decisions of the dispatch, from the station on. *)
Definition route_frame (from i pData : nat) (pLen : Z) (s : eapd_sta_t) (f : frame_kind) : D unit :=
  let eapol := (pData + IFNAMSIZ)%nat in
  if bool_decide (es_pae_state s = EAPD_IDENTITY) && (is_mode EAPD_STA_MODE_WPS s || is_mode EAPD_STA_MODE_WPS_ENR s) &&
     (fk_type f =? EAP_PACKET) && ((fk_etype f =? EAP_EXPANDED) || (fk_code f =? EAP_FAILURE)) then
    eapd_wps_packet i s (fk_code f) pData pLen
  else if (fk_type f =? EAP_PACKET) && (fk_etype f =? EAP_EXPANDED) && fk_ses f then
    ses_app_sendup pData pLen ;; set_mode i EAPD_STA_MODE_SES ;; set_pae i EAPD_IDENTITY
  else if fk_type f =? EAP_PACKET then eapd_eap_packet i pData eapol pLen
  else if fk_type f =? EAPOL_START then eapd_eapol_start from i pData eapol
  else if fk_type f =? EAPOL_LOGOFF then eapd_eapol_logoff i pData pLen
  else nas_app_sendup pData pLen.

Lemma is_mode_spec m s : is_mode m s = true <-> es_mode s = m.
Proof. apply bool_decide_eq_true. Qed.

Lemma wps_mode s : is_mode EAPD_STA_MODE_WPS s || is_mode EAPD_STA_MODE_WPS_ENR s =
  bool_decide (es_mode s = EAPD_STA_MODE_WPS \/ es_mode s = EAPD_STA_MODE_WPS_ENR).
Proof. unfold is_mode. by rewrite bool_decide_or. Qed.

Lemma route_frame_ok from i pData pLen w : handling i pData pLen w -> let eapol := (pData + IFNAMSIZ)%nat in
  let s := esta_at (ew w) i in let f := kind_at (ew w) eapol in
  twp (route_frame from i pData pLen s f) (fun _ w' => exists valid : bool,
    (valid = true -> has (so_flag (brcm_at (ew w) from)) (Z.lor EAPD_CAP_NAS EAPD_CAP_WPS) = true) /\
    let '(d, m) := route valid s f in
    left_by i (outcome (ew w) from i (take 6 (drop eapol (ew_packet (ew w)))) (pkt_at (ew w) pData pLen) d) m w w') w.
Proof.
  intros Hh eapol s f. unfold route_frame, route. fold eapol. rewrite wps_mode.
  destruct (Z.eqb_spec (fk_type f) EAP_PACKET) as [Ht|Ht]; cbn [andb].
  - rewrite andb_true_r. destruct (bool_decide (es_pae_state s = EAPD_IDENTITY)); cbn [andb].
    1: destruct (bool_decide (es_mode s = _ \/ _)) eqn:Hm; cbn [andb].
    1: destruct ((fk_etype f =? EAP_EXPANDED) || (fk_code f =? EAP_FAILURE)).
    1: { apply bool_decide_eq_true in Hm. eapply wp_mono; [by apply (wps_packet_spec i (fk_code f) pData pLen)|].
         intros [] w' H. exists false. split; [done|]. fold s in H. destruct Hm as [Hm|Hm]; rewrite Hm in *; [destruct (_ =? EAP_RESPONSE)|destruct (_ || _)]; exact H. }
    all: destruct ((fk_etype f =? EAP_EXPANDED) && fk_ses f).
    1, 3, 5: eapd_step; eapply wp_mono; [by apply (up_spec EAPD_APP_SES i pData pLen w); auto|];
       intros [] w1 [He Hl]; unfold set_mode, set_pae; eapd_steps; exists false; split; [done|]; destruct Hh as (Hw & Hi & _); cbn [ew];
       (split_and!; cbn [ew]; rewrite ?He;
        [by apply cache_wf_upd; [| |apply cache_wf_upd]|etransitivity; apply cache_only_upd|by eapply sent_log; [apply sent_up_log|]
        |by rewrite !esta_at_upd_same by first [done|apply cache_wf_upd; done]]).
    all: eapply wp_mono; [by apply (eap_packet_spec i pData pLen w)|]; intros [] w' H; exists false; split; [done|];
      fold eapol s f in H; destruct (fk_length f <? _); [exact H|]; destruct (fk_etype f =? EAP_IDENTITY); [|exact H];
      destruct (fk_wsc f); [exact H|]; destruct (is_mode EAPD_STA_MODE_WPS_ENR s); exact H.
  - rewrite !andb_false_r. cbn [andb]. destruct (fk_type f =? EAPOL_START).
    + eapply wp_mono; [by apply (eapol_start_spec from i pData pLen)|]. intros [] w' (valid & Hv & H). exists valid. split; [done|].
      fold s eapol in H. by destruct (valid && _).
    + destruct (fk_type f =? EAPOL_LOGOFF).
      * eapply wp_mono; [by apply (eapol_logoff_spec i pData pLen)|]. intros [] w' H. exists false. split; [done|]. fold s in H.
        by destruct (es_mode s).
      * eapply wp_mono; [by apply (up_spec EAPD_APP_NAS i pData pLen w); auto|]. intros [] w' [He Hl]. exists false. split; [done|].
        split_and!; [rewrite He; apply Hh|by rewrite He|by apply sent_up_log|by rewrite He].
Qed.

(** What a dispatched frame leaves: the station is looked up, and the frame goes where
    the table says, from the state after the lookup. *)
Definition dispatched (from pData : nat) (pLen : Z) (w w' : eworld) : Prop :=
  let eapol := (pData + IFNAMSIZ)%nat in
  let k := ew w in
  let dhost := take 6 (drop eapol (ew_packet k)) in
  exists r w1, looked_up (take 6 (drop (eapol + off_shost) (ew_packet k))) (Some dhost) (drop pData (ew_packet k)) EAPD_SEARCH_ENTER
      (ee_ret (ETime :: ew_log w)) k (ew w1) r /\ sent w w1 [] /\
    match r with
    | None => w' = w1
    | Some i => exists valid : bool, (valid = true -> has (so_flag (brcm_at k from)) (Z.lor EAPD_CAP_NAS EAPD_CAP_WPS) = true) /\
        let '(d, m) := route valid (esta_at (ew w1) i) (kind_at k eapol) in
        left_by i (outcome (ew w1) from i dhost (pkt_at k pData pLen) d) m w1 w'
    end.

Lemma looked_up_lt ea b n m now k k' i : looked_up ea b n m now k k' (Some i) -> cache_ok k -> (i < MAX_SUPPLICANTS)%nat.
Proof.
  intros (Hw & _ & H) Hk. destruct (cache_slot k ea) as [j|] eqn:Hj.
  - destruct H as [[= <-] _]. by eapply cache_slot_lt.
  - destruct H as (_ & H & _). eapply cache_slot_lt; [apply Hw|done].
Qed.

Lemma eapol_dispatch_ok from pData pLen w : cache_wf (ew w) -> frame_in (ew w) pData pLen ->
  twp (eapd_eapol_dispatch from pData pLen) (fun _ w' => dispatched from pData pLen w w') w.
Proof.
  intros Hw Hf. pose proof Hf as (Hl & Hp & _ & _). pose proof (name_in_frame _ _ _ Hf) as [Hn1 Hn2].
  unfold EAPD_WKSP_RECV_DATA_MAX_LEN in Hl. unfold eapd_eapol_dispatch. set (eapol := (pData + IFNAMSIZ)%nat).
  assert (Hroom : forall o n, (o + n <= 64)%nat -> (length (ew_packet (ew w)) < eapol + o + n)%nat -> False)
    by (intros o n ?; unfold eapol, IFNAMSIZ; lia).
  eapd_step. eapd_step; [|by apply (Hroom off_shost ETHER_ADDR_LEN) in H; unfold off_shost, ETHER_ADDR_LEN in *; lia].
  eapd_step. eapd_step; [|apply (Hroom 0%nat ETHER_ADDR_LEN); unfold ETHER_ADDR_LEN in *; lia]. eapd_step. eapd_step. eapd_step.
  eapply wp_mono.
  { apply sta_lookup_ok; [done|done| |by eexists]. rewrite length_drop, Hl. unfold IFNAMSIZ. lia. }
  intros r w1 [Hlk Hc]. apply calls_only_sent in Hc. pose proof Hlk as (Hw1 & Hc1 & _).
  destruct r as [i|]; [|apply wp_ret; exists None, w1; done].
  assert (Hi : (i < MAX_SUPPLICANTS)%nat) by (eapply looked_up_lt; [done|apply Hw]).
  assert (Hh : handling i pData pLen w1) by (split_and!; [done|done|by eapply frame_in_only]).
  destruct (cache_only_packet _ _ Hc1) as (Hpk & _ & _ & _ & Hbr & _).
  assert (Hkind : kind_at (ew w1) eapol = kind_at (ew w) eapol) by (unfold kind_at, byte_at; by rewrite Hpk).
  eapd_step. eapd_step. unfold rd8. eapd_step. eapd_step. eapd_step; [|rewrite Hpk in *; apply (Hroom off_type 1%nat); unfold off_type in *; lia].
  eapd_step. eapd_step. eapd_step. eapd_step; [|rewrite Hpk in *; apply (Hroom off_body 1%nat); unfold off_body in *; lia].
  eapd_step. eapd_step. eapd_step. eapd_step; [|rewrite Hpk in *; apply (Hroom (off_body + 4)%nat 1%nat); unfold off_body in *; lia].
  eapd_step. eapd_step. eapd_step; [|rewrite Hpk in *; apply (Hroom (off_body + 5)%nat 3%nat); unfold off_body in *; lia].
  rewrite Hpk. set (s := esta_at (ew w1) i). set (f := kind_at (ew w) eapol).
  change (idx (take 1 (drop (eapol + off_type) _)) 0) with (fk_type f).
  change (idx (take 1 (drop (eapol + off_body) _)) 0) with (fk_code f).
  change (idx (take 1 (drop (eapol + off_body + 4) _)) 0) with (fk_etype f).
  change (bool_decide (take 3 _ = _)) with (fk_ses f).
  change (twp (route_frame from i pData pLen s f) (fun _ w' => dispatched from pData pLen w w') w1).
  unfold f. rewrite <- Hkind. eapply wp_mono; [by apply (route_frame_ok from i pData pLen w1)|]. intros [] w' (valid & Hv & Hleft).
  exists (Some i), w1. split; [done|]. split; [done|]. exists valid. split; [unfold brcm_at; by rewrite <- Hbr|].
  fold eapol s in Hleft. rewrite Hkind in Hleft. fold eapol. unfold pkt_at in *. rewrite Hpk in Hleft. exact Hleft.
Qed.

End Route.
