(* ===== verification/EapdRecv.v ===== *)
(** What becomes of the messages of the driver and of the applications: EAPOL frames are
    rebuilt and routed ([EapdRoute]), other events are passed to the applications that
    asked for them, and messages of the applications go out on the socket of their
    interface. *)
From stdpp Require Import base option list numbers.
From Stdlib Require Import ZArith Lia.
From S2P Require Import Prelude Monad NasState NasSta WpaIe WpaKey EapdState EapdSta EapdIe EapdSock EapdDispatch EapdRoute.
Local Open Scope Z_scope.

(** ** The frame inside an event *)

Lemma drop_splice l o d : (o + length d <= length l)%nat -> drop o (splice l o d) = d ++ drop (o + length d) l.
Proof.
  intros H. unfold splice. rewrite drop_app_ge by (rewrite length_take; lia). rewrite length_take, Nat.min_l by lia.
  by replace (o - o)%nat with 0%nat by lia.
Qed.

Lemma drop_splice_after l o d o' : (o + length d <= length l)%nat -> (o + length d <= o')%nat -> drop o' (splice l o d) = drop o' l.
Proof.
  intros H Ho. apply list_eq. intros i. rewrite !lookup_drop, splice_lookup by done. by rewrite decide_False by lia.
Qed.

(** Bytes [o] to [o + n] of the message the driver left at offset 16. *)
Definition msg (k : eapd_wksp_t) (o n : nat) : list Z := take n (drop (IFNAMSIZ + o) (ew_packet k)).

(** Big-endian numbers of the message. *)
Definition be_value (l : list Z) : Z := foldl (fun a b => 2 ^ 8 * a + b) 0 l.

(** The interface name and the frame eapd passes on: the addresses are those of the
    event's Ethernet header and of the station it reports. *)
Definition rebuilt (k : eapd_wksp_t) (len : nat) : list Z :=
  msg k off_ifname BCM_MSG_IFNAME_MAX ++ msg k 0 ETHER_ADDR_LEN ++ msg k off_addr ETHER_ADDR_LEN ++ [0x88; 0x8e] ++
  msg k sizeof_bcm_event_t len.

Definition rewritten (k : eapd_wksp_t) : list Z :=
  let p := ew_packet k in
  let p := splice p 74 (take 14 (drop 16 p)) in
  let p := splice p 86 [0x88; 0x8e] in
  let p := splice p 80 (take 6 (drop 64 p)) in
  splice p 58 (take 16 (drop 70 (ew_packet k))).

Lemma take_len (p : list Z) o n : (o + n <= length p)%nat -> length (take n (drop o p)) = n.
Proof. intros. rewrite length_take, length_drop. lia. Qed.

Lemma rewritten_frame k len : length (ew_packet k) = EAPD_WKSP_RECV_DATA_MAX_LEN -> (88 + len <= EAPD_WKSP_RECV_DATA_MAX_LEN)%nat ->
  length (rewritten k) = EAPD_WKSP_RECV_DATA_MAX_LEN /\ take (30 + len) (drop 58 (rewritten k)) = rebuilt k len.
Proof.
  unfold rewritten, rebuilt, msg, EAPD_WKSP_RECV_DATA_MAX_LEN. set (p := ew_packet k). clearbody p. intros Hp Hl.
  set (hdr := take 14 (drop 16 p)). assert (Hh : length hdr = 14%nat) by (apply take_len; lia).
  set (p1 := splice p 74 hdr). assert (H1 : length p1 = 4096%nat) by (unfold p1; rewrite splice_length; lia).
  set (p2 := splice p1 86 [0x88; 0x8e]). assert (H2 : length p2 = 4096%nat) by (unfold p2; rewrite splice_length; cbn [length]; lia).
  set (addr := take 6 (drop 64 p2)). assert (Ha : length addr = 6%nat) by (apply take_len; lia).
  set (p3 := splice p2 80 addr). assert (H3 : length p3 = 4096%nat) by (unfold p3; rewrite splice_length; lia).
  set (ifn := take 16 (drop 70 p)). assert (Hi : length ifn = 16%nat) by (apply take_len; lia).
  split; [rewrite splice_length; lia|].
  rewrite drop_splice by lia. rewrite Hi. change (58 + 16)%nat with 74%nat.
  assert (Hd : drop 74 p3 = take 6 hdr ++ addr ++ [0x88; 0x8e] ++ drop 88 p).
  { rewrite <- (take_drop 6 (drop 74 p3)), drop_drop. change (74 + 6)%nat with 80%nat. f_equal.
    - unfold p3. rewrite splice_other by lia. unfold p2. rewrite splice_other by (cbn [length]; lia). unfold p1. rewrite drop_splice by lia. rewrite take_app_le by lia. done.
    - unfold p3 at 1. rewrite drop_splice by lia. f_equal. rewrite Ha. change (80 + 6)%nat with 86%nat. unfold p2. rewrite drop_splice by (cbn [length]; lia).
      f_equal. cbn [length]. unfold p1. by rewrite drop_splice_after by lia. }
  rewrite Hd. assert (Haddr : addr = take 6 (drop 64 p)).
  { unfold addr, p2. rewrite splice_other by (cbn [length]; lia). unfold p1. by rewrite splice_other by lia. }
  rewrite Haddr. unfold hdr. rewrite take_take. change (6 `min` 14)%nat with 6%nat.
  assert (Hlen : (30 + len)%nat = (length ifn + (length (take 6 (drop 16 p)) + (length (take 6 (drop 64 p)) + (2 + len))))%nat)
    by (rewrite Hi, !take_len by lia; lia).
  rewrite Hlen, !take_app_add. done.
Qed.

Lemma wp_bind_assoc {S A B C} {P : Prop} (m : M S A) (k : A -> M S B) (l : B -> M S C) Q s :
  wpx P (b ← (a ← m; k a); l b) Q s -> wpx P (a ← m; b ← k a; l b) Q s.
Proof. unfold wpx, mbind, M_bind. by destruct (m s). Qed.

Section Recv.
Context `{E : EEnv} {NL : NameList}.
Implicit Types w : eworld.

Lemma ntoh16_spec o w : (o + 2 <= length (ew_packet (ew w)))%nat ->
  twp (ntoh16_at o) (fun r w' => w' = w /\ r = be_value (take 2 (drop o (ew_packet (ew w))))) w.
Proof.
  intros Ho. unfold ntoh16_at. eapd_steps; [|lia]. split; [done|].
  assert (Hl : length (take 2 (drop o (ew_packet (ew w)))) = 2%nat) by (apply take_len; lia).
  destruct (take 2 _) as [|a [|b [|? ?]]]; try done.
Qed.

Lemma ntoh32_spec o w : (o + 4 <= length (ew_packet (ew w)))%nat ->
  twp (ntoh32_at o) (fun r w' => w' = w /\ r = be_value (take 4 (drop o (ew_packet (ew w))))) w.
Proof.
  intros Ho. unfold ntoh32_at. eapd_steps; [|lia]. split; [done|].
  assert (Hl : length (take 4 (drop o (ew_packet (ew w)))) = 4%nat) by (apply take_len; lia).
  destruct (take 4 _) as [|a [|b [|c [|d [|? ?]]]]]; try done. unfold be_value, idx. cbn [foldl].
  change (Z.to_nat 0) with 0%nat. change (Z.to_nat 1) with 1%nat. change (Z.to_nat 2) with 2%nat. change (Z.to_nat 3) with 3%nat. cbn [nth]. lia.
Qed.

(** The same state with the buffer [p]. *)
Definition pk (w : eworld) (p : list Z) : eworld := EWorld ((ew w) <| ew_packet := p |>) (ew_log w).

Lemma pk_id w : w = pk w (ew_packet (ew w)).
Proof. by destruct w as [[]]. Qed.

Lemma pk_wr w p o d (Q : unit -> eworld -> Prop) : (o + length d <= length p)%nat -> Q tt (pk w (splice p o d)) -> twp (wr_pkt o d) Q (pk w p).
Proof. intros H HQ. apply wp_wr_pkt; intros Hl; [exact HQ|]. change (ew_packet (ew (pk w p))) with p in Hl. lia. Qed.

Lemma pk_rd w p o n (Q : list Z -> eworld -> Prop) : (o + n <= length p)%nat -> Q (take n (drop o p)) (pk w p) -> twp (rd_pkt o n) Q (pk w p).
Proof. intros H HQ. apply wp_rd_pkt; intros Hl; [exact HQ|]. change (ew_packet (ew (pk w p))) with p in Hl. lia. Qed.

(** An event with a frame in it, as the driver makes them: the length is that of what
    follows, and the interface name is terminated. *)
Record eapol_event (k : eapd_wksp_t) (len : nat) : Prop := {
  ev_buffer : length (ew_packet k) = EAPD_WKSP_RECV_DATA_MAX_LEN;
  ev_subtype : be_value (msg k off_usr_subtype 2) = BCMILCP_BCM_SUBTYPE_EVENT;
  ev_type : be_value (msg k off_event_type 4) = WLC_E_EAPOL_MSG;
  ev_datalen : be_value (msg k off_datalen 4) = Z.of_nat len;
  ev_fits : (88 + len <= EAPD_WKSP_RECV_DATA_MAX_LEN)%nat;
  ev_ifname : 0 ∈ msg k off_ifname BCM_MSG_IFNAME_MAX
}.

(** The buffer with the frame in it. *)
Definition with_frame (w : eworld) : eworld := EWorld ((ew w) <| ew_packet := rewritten (ew w) |>) (ew_log w).

Lemma brcm_recv_eapol_ok from pLen len w : cache_wf (ew w) -> eapol_event (ew w) len ->
  twp (eapd_brcm_recv_handler from IFNAMSIZ pLen) (fun _ w' => dispatched from 58 (Z.of_nat (30 + len)) (with_frame w) w') w /\
  pkt_at (ew (with_frame w)) 58 (Z.of_nat (30 + len)) = rebuilt (ew w) len /\
  frame_in (ew (with_frame w)) 58 (Z.of_nat (30 + len)).
Proof.
  intros Hw [Hl Hsub Htype Hdl Hfit Hname]. destruct (rewritten_frame (ew w) len Hl Hfit) as [Hrl Hr].
  assert (Hframe : frame_in (ew (with_frame w)) 58 (Z.of_nat (30 + len))).
  { split_and!; [done|lia| |].
    - split; [lia|]. change (ew_packet (ew (with_frame w))) with (rewritten (ew w)). rewrite Hrl. unfold EAPD_WKSP_RECV_DATA_MAX_LEN in *. lia.
    - change (ew_packet (ew (with_frame w))) with (rewritten (ew w)).
      replace (take IFNAMSIZ (drop 58 (rewritten (ew w)))) with (take 16 (take (30 + len) (drop 58 (rewritten (ew w)))))
        by (rewrite take_take, Nat.min_l by lia; done).
      rewrite Hr. unfold rebuilt. rewrite take_app_le; [by rewrite take_ge; [|unfold msg; rewrite length_take; unfold BCM_MSG_IFNAME_MAX; lia]|].
      unfold msg. rewrite take_len; [unfold BCM_MSG_IFNAME_MAX; lia|]. rewrite Hl.
      unfold EAPD_WKSP_RECV_DATA_MAX_LEN, IFNAMSIZ, off_ifname, BCM_MSG_IFNAME_MAX. lia. }
  split_and!; [|unfold pkt_at; by rewrite Nat2Z.id|done].
  unfold eapd_brcm_recv_handler. unfold EAPD_WKSP_RECV_DATA_MAX_LEN in *. unfold msg in *.
  eapd_step. eapply wp_mono; [apply ntoh16_spec; rewrite Hl; unfold IFNAMSIZ, off_usr_subtype; lia|]. intros sub w0 [-> ->].
  rewrite Hsub, Z.eqb_refl. eapd_step. eapply wp_mono; [apply ntoh32_spec; rewrite Hl; unfold IFNAMSIZ, off_event_type; lia|]. intros type w0 [-> ->].
  rewrite Htype, Z.eqb_refl. eapd_step. eapply wp_mono; [apply ntoh32_spec; rewrite Hl; unfold IFNAMSIZ, off_datalen; lia|]. intros dl w0 [-> ->].
  rewrite Hdl. change (IFNAMSIZ + sizeof_bcm_event_t - ETHER_HDR_LEN)%nat with 74%nat. change (74 - BCM_MSG_IFNAME_MAX)%nat with 58%nat.
  change (IFNAMSIZ + off_ifname)%nat with 70%nat. change (IFNAMSIZ + off_addr)%nat with 64%nat. change (74 + off_shost)%nat with 80%nat. change (74 + 12)%nat with 86%nat.
  rewrite wrap32_id by (unfold is_u, ETHER_HDR_LEN, BCM_MSG_IFNAME_MAX; lia).
  unfold IFNAMSIZ, ETHER_HDR_LEN, BCM_MSG_IFNAME_MAX, ETHER_ADDR_LEN in *.
  set (p := ew_packet (ew w)) in *.
  assert (H14 : length (take 14 (drop 16 p)) = 14%nat) by (apply take_len; lia).
  assert (H16 : length (take 16 (drop 70 p)) = 16%nat) by (apply take_len; lia).
  rewrite (pk_id w) at 1. fold p. eapd_step. apply pk_rd; [lia|]. eapd_step. apply pk_rd; [lia|]. eapd_step. apply pk_wr; [lia|].
  change (be16 ETHER_TYPE_802_1X) with [0x88; 0x8e].
  set (p1 := splice p 74 _). assert (Hp1 : length p1 = 4096%nat) by (unfold p1; rewrite splice_length; lia).
  eapd_step. apply pk_wr; [cbn [length]; lia|]. set (p2 := splice p1 86 _).
  assert (Hp2 : length p2 = 4096%nat) by (unfold p2; rewrite splice_length; [done|cbn [length]; lia]).
  assert (Ha : length (take 6 (drop 64 p2)) = 6%nat) by (apply take_len; lia).
  eapd_step. apply pk_rd; [lia|]. eapd_step. apply pk_wr; [lia|].
  set (p3 := splice p2 80 _). assert (Hp3 : length p3 = 4096%nat) by (unfold p3; rewrite splice_length; lia).
  eapd_step. apply pk_wr; [lia|].
  change (pk w (splice p3 58 (take 16 (drop 70 p)))) with (with_frame w).
  assert (Hti : to_int (Z.of_nat len + Z.of_nat 14 + Z.of_nat 16) = Z.of_nat (30 + len)).
  { unfold to_int. rewrite (proj2 (Z.ltb_lt _ _)) by lia. lia. }
  rewrite Hti. by apply eapol_dispatch_ok.
Qed.

(** ** Other events *)

Definition bit_set (bitvec : list Z) (type : Z) : bool := Z.testbit (idx bitvec (type / 8)) (type mod 8).

(** The application asked for events of the type and runs on the interface. *)
Definition listens (app : eapd_app_t) (type : Z) (name : list Z) : bool :=
  existsb (fun cb => bit_set (ap_bitvec app) type && bool_decide (cb_ifname cb = name)) (ap_cb app).

Lemma isset_ok bitvec type : length bitvec = WL_EVENTING_MASK_LEN -> 0 <= type < 136 -> isset bitvec type = Some (bit_set bitvec type).
Proof.
  intros Hl Ht. unfold isset, bit_set, idx. rewrite (proj2 (Z.leb_le _ _)) by lia.
  assert (Hb : 0 <= type / 8 < 17) by (split; [apply Z.div_pos|apply Z.div_lt_upper_bound]; lia).
  destruct (lookup_lt_is_Some_2 bitvec (Z.to_nat (type / 8))) as [b Hb']; [rewrite Hl; unfold WL_EVENTING_MASK_LEN; lia|].
  by rewrite nth_lookup, Hb'.
Qed.

Lemma find_listener_ok bitvec type from cbs : length bitvec = WL_EVENTING_MASK_LEN -> 0 <= type < 136 ->
  find_listener bitvec type from cbs = Some (existsb (fun cb => bit_set bitvec type && bool_decide (cb_ifname cb = from)) cbs).
Proof.
  intros Hl Ht. induction cbs as [|cb cbs IH]; [done|]. cbn [find_listener existsb]. rewrite isset_ok by done. cbn [mbind option_bind].
  destruct (bit_set bitvec type && _); [done|]. by rewrite IH.
Qed.

(** The event with the name of its interface in front. *)
Definition event_msg (k : eapd_wksp_t) (pLen : Z) : list Z := msg k off_ifname IFNAMSIZ ++ msg k 0 (Z.to_nat pLen).

(** All that an event may change: the cache, and the 16 bytes in front of it. *)
Definition event_same (k k' : eapd_wksp_t) : Prop :=
  cache_only (k <| ew_packet := ew_packet k' |>) k' /\ length (ew_packet k') = length (ew_packet k) /\
  drop IFNAMSIZ (ew_packet k') = drop IFNAMSIZ (ew_packet k) /\ (bytes_ok (ew_packet k) -> bytes_ok (ew_packet k')).

#[export] Instance event_same_preorder : PreOrder event_same.
Proof.
  split.
  - intros k. split_and!; [by destruct k|done|done|done].
  - intros k1 k2 k3 (A1 & A2 & A3 & A4) (B1 & B2 & B3 & B4). split_and!; [|congruence|congruence|auto].
    unfold cache_only in *. rewrite B1, A1. done.
Qed.

Lemma event_same_msg k k' o n : event_same k k' -> msg k' o n = msg k o n.
Proof. intros (_ & _ & H & _). unfold msg. rewrite <- !drop_drop. by rewrite H. Qed.

Lemma event_same_app k k' m : event_same k k' -> app_of k' m = app_of k m.
Proof. intros (H & _). by rewrite (cache_only_app _ _ _ H). Qed.

Lemma cache_event_same k k' : cache_only k k' -> event_same k k'.
Proof. intros H. pose proof (cache_only_packet _ _ H) as (Hp & _). split_and!; [|by rewrite Hp|by rewrite Hp|by rewrite Hp]. rewrite Hp. by destruct k. Qed.

(** The event is passed up with its interface name in front. *)
Lemma pass_up_spec m pLen w : m = EAPD_APP_WPS \/ m = EAPD_APP_SES \/ m = EAPD_APP_NAS ->
  length (ew_packet (ew w)) = EAPD_WKSP_RECV_DATA_MAX_LEN -> 0 <= pLen <= 4080 ->
  twp (prepend_ifname IFNAMSIZ ;; sendup (fun k => app_of k m) m (IFNAMSIZ - IFNAMSIZ) (pLen + Z.of_nat IFNAMSIZ))
    (fun _ w' => event_same (ew w) (ew w') /\ ew_sta (ew w') = ew_sta (ew w) /\ ew_sta_hashed (ew w') = ew_sta_hashed (ew w) /\
       sent w w' (up_msg (ew w) m (event_msg (ew w) pLen))) w.
Proof.
  intros Hm Hl Hp. unfold EAPD_WKSP_RECV_DATA_MAX_LEN in Hl. set (p := ew_packet (ew w)) in *.
  assert (Hn : length (take 16 (drop 70 p)) = 16%nat) by (apply take_len; lia).
  rewrite (pk_id w) at 1. fold p. unfold prepend_ifname. eapd_step. eapd_step. apply pk_rd; [unfold IFNAMSIZ, off_ifname; lia|].
  change (IFNAMSIZ + off_ifname)%nat with 70%nat. change (take IFNAMSIZ) with (take (A := Z) 16).
  eapd_step. eapd_step; [|done]. change (IFNAMSIZ - IFNAMSIZ)%nat with 0%nat. apply pk_wr; [lia|].
  set (p1 := splice p 0 _). assert (Hp1 : length p1 = 4096%nat) by (unfold p1; rewrite splice_length; lia).
  eapply wp_mono; [apply (sendup_spec m); [|done]|].
  { split; [unfold IFNAMSIZ; lia|]. change (ew_packet (ew (pk w p1))) with p1. rewrite Hp1. unfold IFNAMSIZ. lia. }
  intros [] w' [He Hlog]. rewrite He. split_and!; [split_and!|done|done|].
  - by destruct w as [[]].
  - change (length p1 = length p). by rewrite Hp1.
  - change (drop IFNAMSIZ p1 = drop IFNAMSIZ p). unfold p1. rewrite drop_splice_after by (unfold IFNAMSIZ; lia). done.
  - intros Hb. change (bytes_ok p1). unfold p1, splice. repeat apply Forall_app_2; [done|by apply Forall_take, Forall_drop|by apply Forall_drop].
  - assert (Hd : pkt_at (ew (pk w p1)) 0 (pLen + Z.of_nat IFNAMSIZ) = event_msg (ew w) pLen).
    { unfold pkt_at, event_msg, msg. change (ew_packet (ew (pk w p1))) with p1. unfold p1. rewrite drop_splice by lia. rewrite Hn.
      replace (Z.to_nat (pLen + Z.of_nat IFNAMSIZ)) with (length (take 16 (drop 70 p)) + Z.to_nat pLen)%nat by (rewrite Hn; unfold IFNAMSIZ; lia).
      rewrite take_app_add. done. }
    rewrite Hd in Hlog. change (up_msg (ew (pk w p1))) with (up_msg (ew w)) in Hlog. by apply sent_up_log.
Qed.

(** What the event says of the station's mode, and whether nas is told. *)
Definition event_mode (type : Z) (data : list Z) (len : Z) (m : eapd_sta_mode_t) : eapd_sta_mode_t * bool :=
  if is_disassoc type then (EAPD_STA_MODE_UNKNOW, true)
  else match nas_app_find_wpsie data len with
       | IeOk (Some _) => (EAPD_STA_MODE_UNKNOW, false)
       | _ => match nas_app_parse_ie data len with
              | IeOk (_, mode) => (if CHECK_PSK mode then EAPD_STA_MODE_NAS_PSK else m, true)
              | _ => (m, true)
              end
       end.

Definition event_len (k : eapd_wksp_t) : Z := wrap16 (be_value (msg k off_datalen 4)).
Definition event_data (k : eapd_wksp_t) : list Z := drop (IFNAMSIZ + sizeof_bcm_event_t) (ew_packet k).

(** The event is in the buffer; an association's elements leave room for the parser. *)
Record sta_event (k : eapd_wksp_t) (type : Z) : Prop := {
  se_buffer : length (ew_packet k) = EAPD_WKSP_RECV_DATA_MAX_LEN;
  se_bytes : bytes_ok (ew_packet k);
  se_ifname : 0 ∈ msg k off_ifname IFNAMSIZ;
  se_elements : is_assoc type = true -> 2 * event_len k + 6 <= 4008
}.

Definition sta_event_post (type : Z) (w w' : eworld) (up : bool) : Prop :=
  if is_assoc type || is_disassoc type then
    exists r w1, looked_up (msg (ew w) off_addr ETHER_ADDR_LEN) (Some (msg (ew w) 0 ETHER_ADDR_LEN)) (drop (IFNAMSIZ + off_ifname) (ew_packet (ew w)))
        EAPD_SEARCH_ENTER (ee_ret (ETime :: ew_log w)) (ew w) (ew w1) r /\ sent w w1 [] /\
      match r with
      | None => up = false /\ w' = w1
      | Some i => let '(m, b) := event_mode type (event_data (ew w)) (event_len (ew w)) (es_mode (esta_at (ew w1) i)) in
          up = b /\ left_by i [] m w1 w'
      end
  else up = true /\ w' = w.

Lemma set_mode_left i m w : cache_wf (ew w) -> (i < MAX_SUPPLICANTS)%nat -> twp (set_mode i m) (fun _ w' => left_by i [] m w w') w.
Proof.
  intros Hw Hi. unfold set_mode. eapd_step. split_and!; cbn [ew]; [by apply cache_wf_upd|apply cache_only_upd|by exists []|by rewrite esta_at_upd_same].
Qed.

Lemma wp_lift_app_ie {A} (r : ie_res A) (Q0 : A -> Prop) (Q : option A -> eworld -> Prop) w : ie_post r Q0 ->
  Q (match r with IeOk a => Some a | _ => None end) w -> twp (lift_app_ie r) Q w.
Proof. by destruct r. Qed.

Lemma sta_event_ok type w : cache_wf (ew w) -> sta_event (ew w) type ->
  twp (nas_app_sta_event IFNAMSIZ type) (fun up w' => sta_event_post type w w' up) w.
Proof.
  intros Hw [Hl Hb Hn He]. unfold nas_app_sta_event, sta_event_post. destruct (is_assoc type || is_disassoc type) eqn:Hty; [|by apply wp_ret].
  unfold EAPD_WKSP_RECV_DATA_MAX_LEN in Hl.
  eapd_step. eapd_step; [|unfold IFNAMSIZ, off_addr, ETHER_ADDR_LEN in *; lia].
  eapd_step. eapd_step; [|unfold IFNAMSIZ, ETHER_ADDR_LEN in *; lia]. eapd_step. eapd_step. eapd_step.
  eapply wp_mono.
  { apply sta_lookup_ok; [done|exact Hn| |by eexists]. rewrite length_drop, Hl. unfold IFNAMSIZ, off_ifname. lia. }
  intros r w1 [Hlk Hc]. apply calls_only_sent in Hc. pose proof Hlk as (Hw1 & Hc1 & _). destruct (cache_only_packet _ _ Hc1) as (Hpk & _).
  destruct r as [i|]; [|apply wp_ret; by exists None, w1].
  assert (Hi : (i < MAX_SUPPLICANTS)%nat) by (eapply looked_up_lt; [done|apply Hw]).
  assert (Hnone : left_by i [] (es_mode (esta_at (ew w1) i)) w1 w1) by (split_and!; [done|reflexivity|apply sent_refl|done]).
  unfold event_mode. destruct (is_disassoc type) eqn:Hd.
  - eapd_step. eapply wp_mono; [by apply set_mode_left|]. intros [] w2 H2. apply wp_ret. by exists (Some i), w1.
  - rewrite orb_false_r in Hty. specialize (He Hty). eapd_step.
    eapply wp_mono; [apply ntoh32_spec; rewrite Hpk; unfold IFNAMSIZ, off_datalen; lia|]. intros dl w0 [-> ->]. rewrite Hpk.
    change (wrap16 _) with (event_len (ew w)). eapd_step. eapd_step. rewrite Hpk.
    change (drop (IFNAMSIZ + sizeof_bcm_event_t) (ew_packet (ew w))) with (event_data (ew w)).
    assert (Hdl : length (event_data (ew w)) = 4008%nat) by (unfold event_data; rewrite length_drop, Hl; done).
    assert (Hdb : bytes_ok (event_data (ew w))) by by apply Forall_drop.
    assert (Hlen : 0 <= event_len (ew w) < 2 ^ 16) by (unfold event_len, wrap16; apply Z.mod_pos_bound; lia).
    eapd_step. eapply wp_lift_app_ie; [apply find_ie_post; [done|lia|lia|rewrite Hdl; lia]|].
    assert (Hrest : forall wps, (match wps with Some (Some _) => false | _ => true end) = true ->
      twp (match wps : option (option Z) with
           | Some (Some _) => set_mode i EAPD_STA_MODE_UNKNOW ;; mret false
           | _ => r ← lift_app_ie (nas_app_parse_ie (event_data (ew w)) (event_len (ew w)));
              match r with
              | Some (wsec, mode) => when (CHECK_PSK mode) (set_mode i EAPD_STA_MODE_NAS_PSK)
              | None => mret tt
              end ;; mret true
           end) (fun up w' => up = true /\ left_by i [] (match nas_app_parse_ie (event_data (ew w)) (event_len (ew w)) with
              | IeOk (_, mode) => if CHECK_PSK mode then EAPD_STA_MODE_NAS_PSK else es_mode (esta_at (ew w1) i)
              | _ => es_mode (esta_at (ew w1) i) end) w1 w') w1).
    { intros wps Hwps. assert (Hgo : twp (r ← lift_app_ie (nas_app_parse_ie (event_data (ew w)) (event_len (ew w)));
              match r with
              | Some (wsec, mode) => when (CHECK_PSK mode) (set_mode i EAPD_STA_MODE_NAS_PSK)
              | None => mret tt
              end ;; mret true) (fun up w' => up = true /\ left_by i [] (match nas_app_parse_ie (event_data (ew w)) (event_len (ew w)) with
              | IeOk (_, mode) => if CHECK_PSK mode then EAPD_STA_MODE_NAS_PSK else es_mode (esta_at (ew w1) i)
              | _ => es_mode (esta_at (ew w1) i) end) w1 w') w1).
      { eapd_step. eapply wp_lift_app_ie; [apply app_parse_ie_safe; [done|lia|rewrite Hdl; lia]|].
        destruct (nas_app_parse_ie _ _) as [[wsec mode]| |]; [|by apply wp_bind, wp_ret, wp_ret..].
        eapd_step. destruct (CHECK_PSK mode); cbn [when]; [|by apply wp_ret, wp_ret].
        eapply wp_mono; [by apply set_mode_left|]. intros [] w2 H2. by apply wp_ret. }
      by destruct wps as [[?|]|]. }
    destruct (nas_app_find_wpsie _ _) as [[e|]| |].
    + eapd_step. eapply wp_mono; [by apply set_mode_left|]. intros [] w2 H2. apply wp_ret. by exists (Some i), w1.
    + eapply wp_mono; [by apply (Hrest (Some None))|]. intros up w2 [-> H2]. exists (Some i), w1. split; [done|]. split; [done|].
      by destruct (nas_app_parse_ie _ _) as [[? ?]| |].
    + eapply wp_mono; [by apply (Hrest None)|]. intros up w2 [-> H2]. exists (Some i), w1. split; [done|]. split; [done|].
      by destruct (nas_app_parse_ie _ _) as [[? ?]| |].
    + eapply wp_mono; [by apply (Hrest None)|]. intros up w2 [-> H2]. exists (Some i), w1. split; [done|]. split; [done|].
      by destruct (nas_app_parse_ie _ _) as [[? ?]| |].
Qed.

(** The message an application is passed for an event. *)
Definition event_up (k : eapd_wksp_t) (m : eapd_app_mode_t) (type : Z) (name : list Z) (pLen : Z) : list ecall :=
  if listens (app_of k m) type name then up_msg k m (event_msg k pLen) else [].

(** An event of a type the driver has, other than a frame, and the masks in place. *)
Record driver_event (k : eapd_wksp_t) (type : Z) (pLen : Z) : Prop := {
  de_sta : sta_event k type;
  de_type : be_value (msg k off_event_type 4) = type;
  de_range : 0 <= type < 136;
  de_masks : forall m, length (ap_bitvec (app_of k m)) = WL_EVENTING_MASK_LEN;
  de_len : 0 <= pLen <= 4080
}.

Lemma event_same_event k k' type pLen : event_same k k' -> driver_event k type pLen -> driver_event k' type pLen.
Proof.
  intros Hs [[H1 H2 H3 H4] H5 H6 H7 H8]. split; [split|..].
  - rewrite <- H1. apply Hs.
  - by apply Hs.
  - by rewrite (event_same_msg k k').
  - intros Ha. unfold event_len. rewrite (event_same_msg k k') by done. by apply H4.
  - by rewrite (event_same_msg k k').
  - done.
  - intros m. by rewrite (event_same_app k k').
  - done.
Qed.

Lemma event_same_up k k' m type name pLen : event_same k k' -> event_up k' m type name pLen = event_up k m type name pLen.
Proof.
  intros H. unfold event_up, up_msg. rewrite (event_same_app k k') by done. unfold event_msg. by rewrite !(event_same_msg k k').
Qed.

Lemma event_found type pLen from m w : driver_event (ew w) type pLen ->
  may_oob (find_listener (ap_bitvec (app_of (ew w) m)) type from (ap_cb (app_of (ew w) m))) = mret (M := D) (listens (app_of (ew w) m) type from).
Proof. intros [_ _ Hr Hm _]. by rewrite find_listener_ok. Qed.

Lemma event_type_read type pLen w : driver_event (ew w) type pLen ->
  twp (ntoh32_at (IFNAMSIZ + off_event_type)) (fun r w' => w' = w /\ to_int r = type) w.
Proof.
  intros [[Hl _ _ _] Ht Hr _ _]. eapply wp_mono; [apply ntoh32_spec; rewrite Hl; unfold IFNAMSIZ, off_event_type, EAPD_WKSP_RECV_DATA_MAX_LEN; lia|].
  intros r w' [-> ->]. split; [done|]. unfold msg in Ht. rewrite Ht. unfold to_int. rewrite (proj2 (Z.ltb_lt _ _)) by lia. done.
Qed.

(** The handlers of the setup monitor and of ses. *)
Lemma app_event_ok m type pLen from w : m = EAPD_APP_WPS \/ m = EAPD_APP_SES -> driver_event (ew w) type pLen ->
  twp (type32 ← ntoh32_at (IFNAMSIZ + off_event_type);
       app ← wk (fun k => app_of k m);
       found ← may_oob (find_listener (ap_bitvec app) (to_int type32) from (ap_cb app));
       when found (prepend_ifname IFNAMSIZ ;; sendup (fun k => app_of k m) m (IFNAMSIZ - IFNAMSIZ) (pLen + Z.of_nat IFNAMSIZ)))
    (fun _ w' => event_same (ew w) (ew w') /\ ew_sta (ew w') = ew_sta (ew w) /\ ew_sta_hashed (ew w') = ew_sta_hashed (ew w) /\
      sent w w' (event_up (ew w) m type from pLen)) w.
Proof.
  intros Hm He. eapd_step. eapply wp_mono; [by eapply event_type_read|]. intros r w0 [-> Hr]. rewrite Hr. eapd_step. eapd_step.
  rewrite (event_found type pLen) by done. eapd_step. eapd_step. unfold event_up. destruct (listens _ _ _); cbn [when].
  - apply pass_up_spec; [tauto|apply He|apply He].
  - apply wp_ret. split_and!; [reflexivity|done|done|apply sent_refl].
Qed.

Lemma cache_wf_ext k k' : ew_sta k' = ew_sta k -> ew_sta_hashed k' = ew_sta_hashed k -> cache_wf k -> cache_wf k'.
Proof.
  intros H1 H2 [Hk Hn]. split.
  - unfold cache_ok, skel in *. by rewrite H1, H2.
  - intros i. unfold esta_at. rewrite H1. apply Hn.
Qed.

Lemma sta_event_post_ok type w w' up : cache_wf (ew w) -> sta_event_post type w w' up ->
  cache_wf (ew w') /\ cache_only (ew w) (ew w') /\ sent w w' [].
Proof.
  unfold sta_event_post. intros Hw. destruct (_ || _); [|intros [_ ->]; split_and!; [done|reflexivity|apply sent_refl]].
  intros (r & w1 & (Hw1 & Hc1 & _) & Hs1 & H). destruct r as [i|]; [|by destruct H as [_ ->]].
  destruct (event_mode _ _ _ _) as [m b]. destruct H as (_ & H1 & H2 & H3 & _). split_and!; [done|by etransitivity|].
  by apply (sent_trans _ _ _ _ _ Hs1 H3).
Qed.

(** The handler of nas, which also keeps the stations' modes. *)
Lemma nas_event_ok type pLen from w : cache_wf (ew w) -> driver_event (ew w) type pLen ->
  twp (nas_app_handle_event IFNAMSIZ pLen from) (fun _ w' => cache_wf (ew w') /\ event_same (ew w) (ew w') /\
    exists up, (listens (ew_nas (ew w)) type from = true -> exists w1, sta_event_post type w w1 up /\ ew_sta (ew w') = ew_sta (ew w1) /\ ew_sta_hashed (ew w') = ew_sta_hashed (ew w1)) /\
      sent w w' (if up then event_up (ew w) EAPD_APP_NAS type from pLen else [])) w.
Proof.
  intros Hw He. unfold nas_app_handle_event. eapd_step. eapply wp_mono; [by eapply event_type_read|]. intros r w0 [-> Hr]. rewrite Hr. eapd_step. eapd_step.
  change (ew_nas (ew w)) with (app_of (ew w) EAPD_APP_NAS). rewrite (event_found type pLen) by done. eapd_step. eapd_step.
  unfold event_up. destruct (listens _ _ _) eqn:Hl; cbn [when].
  - eapd_step. eapply wp_mono; [apply sta_event_ok; [done|apply He]|]. intros up w1 Hp. pose proof (sta_event_post_ok _ _ _ _ Hw Hp) as (H1 & H2 & H3).
    pose proof (cache_event_same _ _ H2) as Hs. destruct up; cbn [when].
    + destruct (cache_only_packet _ _ H2) as (Hpk & _).
      eapply wp_mono; [apply (pass_up_spec EAPD_APP_NAS pLen); [auto|rewrite Hpk; apply He|apply He]|].
      intros [] w2 (Q1 & Q2 & Q3 & Q4). split; [by eapply cache_wf_ext|]. split; [by etransitivity|].
      exists true. split; [intros _; by exists w1|]. unfold event_msg in Q4. rewrite !(event_same_msg _ _ _ _ Hs) in Q4.
      rewrite (cache_only_up _ _ _ _ H2) in Q4. pose proof (sent_trans _ _ _ _ _ H3 Q4) as Hst. by rewrite app_nil_r in Hst.
    + apply wp_ret. split; [done|]. split; [done|]. exists false. split; [intros _; by exists w1|done].
  - apply wp_ret. split; [done|]. split; [reflexivity|]. exists true. split; [done|apply sent_refl].
Qed.

Lemma brcm_event_ok type pLen from w : cache_wf (ew w) -> driver_event (ew w) type pLen -> type <> WLC_E_EAPOL_MSG ->
  be_value (msg (ew w) off_usr_subtype 2) = BCMILCP_BCM_SUBTYPE_EVENT -> let name := so_ifname (brcm_at (ew w) from) in
  twp (eapd_brcm_recv_handler from IFNAMSIZ pLen) (fun _ w' => cache_wf (ew w') /\ event_same (ew w) (ew w') /\
    exists up, (listens (ew_nas (ew w)) type name = true -> exists w1, sta_event_post type w w1 up /\ ew_sta (ew w') = ew_sta (ew w1) /\ ew_sta_hashed (ew w') = ew_sta_hashed (ew w1)) /\
      sent w w' (event_up (ew w) EAPD_APP_SES type name pLen ++ event_up (ew w) EAPD_APP_WPS type name pLen ++
        if up then event_up (ew w) EAPD_APP_NAS type name pLen else [])) w.
Proof.
  intros Hw He Hne Hsub name. pose proof He as [[Hl _ _ _] Ht Hr _ _]. unfold eapd_brcm_recv_handler.
  eapd_step. eapply wp_mono; [apply ntoh16_spec; rewrite Hl; unfold IFNAMSIZ, off_usr_subtype, EAPD_WKSP_RECV_DATA_MAX_LEN; lia|]. intros sub w0 [-> ->].
  unfold msg in Hsub. rewrite Hsub, Z.eqb_refl. eapd_step.
  eapply wp_mono; [apply ntoh32_spec; rewrite Hl; unfold IFNAMSIZ, off_event_type, EAPD_WKSP_RECV_DATA_MAX_LEN; lia|]. intros t w0 [-> ->].
  unfold msg in Ht. rewrite Ht. rewrite (proj2 (Z.eqb_neq _ _) Hne). unfold eapd_brcm_dispatch. eapd_step. eapd_step. fold name.
  eapd_step. eapply wp_mono; [by apply (nas_event_ok type)|]. intros [] w1 (N1 & N2 & up & N3 & N4).
  eapd_step. eapply wp_mono; [apply (app_event_ok EAPD_APP_WPS type pLen name w1); [auto|by eapply event_same_event]|].
  intros [] w2 (P1 & P2 & P3 & P4). assert (Hs2 : event_same (ew w) (ew w2)) by by etransitivity.
  eapply wp_mono; [apply (app_event_ok EAPD_APP_SES type pLen name w2); [auto|by eapply event_same_event]|].
  intros [] w3 (Q1 & Q2 & Q3 & Q4). split; [by eapply cache_wf_ext; [exact Q2|exact Q3|]; eapply cache_wf_ext; [exact P2|exact P3|]|].
  split; [by etransitivity|]. exists up. split.
  - intros Hl'. destruct (N3 Hl') as (w' & H1 & H2 & H3). exists w'. split_and!; [done|congruence|congruence].
  - rewrite (event_same_up _ _ _ _ _ _ Hs2) in Q4. rewrite (event_same_up _ _ _ _ _ _ N2) in P4.
    pose proof (sent_trans _ _ _ _ _ (sent_trans _ _ _ _ _ N4 P4) Q4) as H. exact H.
Qed.

(** ** Messages of the applications *)

(** The message of an application: behind 16 bytes with the name of its interface. *)
Record app_message (k : eapd_wksp_t) (pLen : Z) : Prop := {
  am_buffer : length (ew_packet k) = EAPD_WKSP_RECV_DATA_MAX_LEN;
  am_ifname : 0 ∈ take IFNAMSIZ (drop 16 (ew_packet k));
  am_len : EAPOL_HEADER_LEN <= pLen <= 4064
}.

Definition am_bytes (k : eapd_wksp_t) (o n : nat) : list Z := take n (drop (32 + o) (ew_packet k)).
Definition am_type (k : eapd_wksp_t) : Z := idx (am_bytes k off_type 1) 0.
Definition am_code (k : eapd_wksp_t) : Z := idx (am_bytes k off_body 1) 0.

Lemma am_rd8 o w : length (ew_packet (ew w)) = EAPD_WKSP_RECV_DATA_MAX_LEN -> (o <= 64)%nat ->
  twp (rd8 (32 + o)) (fun r w' => w' = w /\ r = idx (am_bytes (ew w) o 1) 0) w.
Proof. intros Hl Ho. unfold rd8. unfold EAPD_WKSP_RECV_DATA_MAX_LEN in Hl. eapd_steps; [done|lia]. Qed.

Lemma dest_sta_ok w pLen : cache_wf (ew w) -> app_message (ew w) pLen ->
  twp (dest_sta 16 32) (fun r w' => cache_wf (ew w') /\ cache_only (ew w) (ew w') /\ sent w w' [] /\
    r = cache_slot (ew w) (am_bytes (ew w) 0 ETHER_ADDR_LEN) /\ (forall a, cache_slot (ew w') a = cache_slot (ew w) a)) w.
Proof.
  intros Hw [Hl Hn Hp]. unfold dest_sta. unfold EAPD_WKSP_RECV_DATA_MAX_LEN in Hl. eapd_step. eapd_step; [|unfold ETHER_ADDR_LEN in *; lia].
  eapd_step. eapd_step. eapply wp_mono; [apply sta_lookup_ok; [done|done| |done]|].
  - rewrite length_drop, Hl. unfold IFNAMSIZ. lia.
  - intros r w' [(H1 & H2 & H3) H4]. apply calls_only_sent in H4. split_and!; [done|done|done|..].
    + change (am_bytes (ew w) 0 ETHER_ADDR_LEN) with (take ETHER_ADDR_LEN (drop 32 (ew_packet (ew w)))).
      destruct (cache_slot (ew w) _) as [i|]; [by destruct H3 as [-> _]|]. destruct r as [i|]; [by destruct H3|done].
    + intros a. destruct (cache_slot (ew w) (take _ _)) as [i|]; [by destruct H3 as (_ & -> & _)|].
      destruct r as [i|]; [by destruct H3|]. by destruct H3 as [-> _].
Qed.

(** The station is forgotten when the frame ends its exchange. *)
Lemma monitor_eapol_ok w pLen : cache_wf (ew w) -> app_message (ew w) pLen -> let ea := am_bytes (ew w) 0 ETHER_ADDR_LEN in
  twp (monitor_eapol (cache_slot (ew w) ea) 32) (fun _ w' => cache_wf (ew w') /\ cache_only (ew w) (ew w') /\ ew_log w' = ew_log w /\
    (forall a, cache_slot (ew w') a = if eap_ends (am_type (ew w)) (am_code (ew w)) && bool_decide (a = ea) then None else cache_slot (ew w) a)) w.
Proof.
  intros Hw [Hl Hn Hp] ea. unfold monitor_eapol. eapd_step. eapply wp_mono; [apply am_rd8; [done|unfold off_type; lia]|]. intros t w0 [-> ->].
  eapd_step. eapply wp_mono; [apply am_rd8; [done|unfold off_body; lia]|]. intros c w0 [-> ->].
  change (eap_ends _ _) with (eap_ends (am_type (ew w)) (am_code (ew w))).
  destruct (cache_slot (ew w) ea) as [i|] eqn:Hi.
  - destruct (eap_ends _ _) eqn:He; cbn [when andb]; [|apply wp_ret; split_and!; [done|reflexivity|done|done]].
    eapply wp_mono; [apply sta_remove_spec; [apply Hw|eapply cache_slot_lt; [apply Hw|done]]|]. intros [] w1 [Hr Hlog].
    pose proof Hr as (R1 & R2 & _ & R4 & _). split_and!; [split; [done|eapply removed_names; [done|apply Hw]]|done|done|].
    intros a. rewrite R4. destruct (decide (cache_slot (ew w) a = Some i)) as [Ha|Ha].
    + rewrite bool_decide_eq_true_2; [done|]. pose proof (cache_slot_ea _ _ _ (proj1 Hw) Ha) as <-. by pose proof (cache_slot_ea _ _ _ (proj1 Hw) Hi) as <-.
    + rewrite bool_decide_eq_false_2; [done|]. intros ->. by rewrite Hi in Ha.
  - apply wp_ret. split_and!; [done|reflexivity|done|]. intros a. destruct (eap_ends _ _ && bool_decide _) eqn:H; [|done].
    apply andb_prop in H as [_ H]. apply bool_decide_eq_true in H as ->. done.
Qed.

Lemma message_send_ok fd pLen w : app_message (ew w) pLen ->
  twp (eapd_message_send fd 32 pLen) (fun _ w' => ew w' = ew w /\ ew_log w' = ESendDrv fd (am_bytes (ew w) 0 (Z.to_nat pLen)) :: ew_log w) w.
Proof.
  intros [Hl _ Hp]. unfold EAPD_WKSP_RECV_DATA_MAX_LEN, EAPOL_HEADER_LEN in *. unfold eapd_message_send. eapd_steps; [done|lia|apply Z.leb_gt in H; lia].
Qed.

Lemma app_message_only k k' pLen : cache_only k k' -> app_message k pLen -> app_message k' pLen.
Proof. intros H%cache_only_packet [H1 H2 H3]. destruct H as (Hp & _). split; by rewrite ?Hp. Qed.

Lemma am_bytes_only k k' o n : cache_only k k' -> am_bytes k' o n = am_bytes k o n.
Proof. intros H%cache_only_packet. destruct H as (Hp & _). unfold am_bytes. by rewrite Hp. Qed.

(** The socket the type of the frame selects. *)
Definition out_socket (k : eapd_wksp_t) (from : eapd_cb_t) : option Z :=
  let t := be_value (am_bytes k 12 2) in
  if (t =? ETHER_TYPE_802_1X) || (t =? ETHER_TYPE_BRCM) then (fun b => so_drvSocket (brcm_at k b)) <$> cb_brcmSocket from
  else if t =? ETHER_TYPE_802_1X_PREAUTH then Some (so_drvSocket (cb_preauthSocket from)) else None.

(** The station the frame went to is out of the cache when the frame ended its exchange,
    and no other station is touched. *)
Definition relayed (w w' : eworld) (l : list ecall) : Prop :=
  cache_wf (ew w') /\ cache_only (ew w) (ew w') /\ sent w w' l /\
  forall a, cache_slot (ew w') a =
    if eap_ends (am_type (ew w)) (am_code (ew w)) && bool_decide (a = am_bytes (ew w) 0 ETHER_ADDR_LEN) then None else cache_slot (ew w) a.

(** The two steps that all three handlers share. *)
Lemma look_and_monitor_ok pLen w : cache_wf (ew w) -> app_message (ew w) pLen ->
  twp (sta ← dest_sta 16 32; monitor_eapol sta 32) (fun _ w' => relayed w w' []) w.
Proof.
  intros Hw Hm. eapd_step. eapply wp_mono; [by eapply dest_sta_ok|]. intros r w1 (H1 & H2 & H3 & -> & H5).
  rewrite <- H5, <- (am_bytes_only _ _ _ _ H2). eapply wp_mono; [apply (monitor_eapol_ok w1 pLen); [done|by eapply app_message_only]|].
  intros [] w2 (Q1 & Q2 & Q3 & Q4). unfold am_type, am_code in *. rewrite !(am_bytes_only _ _ _ _ H2) in Q4.
  split_and!; [done|by etransitivity|by eapply sent_log|]. intros a. rewrite Q4, H5. done.
Qed.

Lemma relay_send_ok fd pLen w w1 : app_message (ew w) pLen -> relayed w w1 [] ->
  twp (eapd_message_send fd 32 pLen) (fun _ w' => relayed w w' [ESendDrv fd (am_bytes (ew w) 0 (Z.to_nat pLen))]) w1.
Proof.
  intros Hm (H1 & H2 & H3 & H4). eapply wp_mono; [apply message_send_ok; by eapply app_message_only|]. intros [] w2 [He Hl].
  rewrite (am_bytes_only _ _ _ _ H2) in Hl. unfold relayed. rewrite He. split_and!; [done|done| |done].
  destruct H3 as (c & Hc & Hc'). eexists (_ :: c). split; [by rewrite Hl, Hc|]. unfold sends_of in *. cbn [List.filter is_send]. by rewrite Hc'.
Qed.

Lemma nas_recv_ok from pLen w : cache_wf (ew w) -> app_message (ew w) pLen ->
  twp (nas_app_recv_handler 16 from 32 pLen) (fun _ w' => relayed w w'
    (match out_socket (ew w) from with Some fd => [ESendDrv fd (am_bytes (ew w) 0 (Z.to_nat pLen))] | None => [] end)) w.
Proof.
  intros Hw Hm. pose proof Hm as [Hl Hn Hp]. unfold nas_app_recv_handler. rewrite (proj2 (Z.ltb_ge _ _)) by lia.
  eapd_step. eapply wp_mono; [apply ntoh16_spec; rewrite Hl; unfold EAPD_WKSP_RECV_DATA_MAX_LEN; lia|]. intros t w0 [-> ->].
  change (take 2 (drop (32 + 12) (ew_packet (ew w)))) with (am_bytes (ew w) 12 2).
  assert (Hgo : forall fd : option Z, twp (sta ← dest_sta 16 32; monitor_eapol sta 32 ;;
    match fd with Some fd => eapd_message_send fd 32 pLen | None => mret tt end)
    (fun _ w' => relayed w w' (match fd with Some fd => [ESendDrv fd (am_bytes (ew w) 0 (Z.to_nat pLen))] | None => [] end)) w).
  { intros fd. apply (wp_bind_assoc (dest_sta 16 32) (fun sta => monitor_eapol sta 32)). eapd_step.
    eapply wp_mono; [exact (look_and_monitor_ok pLen w Hw Hm)|]. intros [] w1 H1. destruct fd as [fd|]; [by apply relay_send_ok|by apply wp_ret]. }
  unfold out_socket. set (t := be_value _). destruct ((t =? ETHER_TYPE_802_1X) || (t =? ETHER_TYPE_BRCM)).
  - destruct (cb_brcmSocket from) as [b|]; [|apply wp_bind, wp_ret; exact (Hgo None)].
    apply wp_bind, wp_bind, wp_brcm, wp_ret. exact (Hgo (Some (so_drvSocket (brcm_at (ew w) b)))).
  - destruct (t =? ETHER_TYPE_802_1X_PREAUTH); apply wp_bind, wp_ret; [exact (Hgo (Some (so_drvSocket (cb_preauthSocket from))))|exact (Hgo None)].
Qed.

Lemma ses_recv_ok from b pLen w : cache_wf (ew w) -> app_message (ew w) pLen -> cb_brcmSocket from = Some b ->
  twp (ses_app_recv_handler 16 from 32 pLen) (fun _ w' => relayed w w'
    [ESendDrv (so_drvSocket (brcm_at (ew w) b)) (am_bytes (ew w) 0 (Z.to_nat pLen))]) w.
Proof.
  intros Hw Hm Hb. pose proof Hm as [Hl Hn Hp]. unfold ses_app_recv_handler. rewrite (proj2 (Z.ltb_ge _ _)), Hb by lia.
  apply (wp_bind_assoc (dest_sta 16 32) (fun sta => monitor_eapol sta 32)). eapd_step.
  eapply wp_mono; [exact (look_and_monitor_ok pLen w Hw Hm)|]. intros [] w1 H1. pose proof H1 as (_ & H2 & _). eapd_step. eapd_step.
  unfold brcm_at. destruct (cache_only_packet _ _ H2) as (_ & _ & _ & _ & -> & _). by apply relay_send_ok.
Qed.

End Recv.
