(* ===== verification/EapdConf.v ===== *)
(** How eapd is set up (src/userspace/eapd/src/eapd.c): which applications an interface is
    enabled for (wps_app_enabled, nas_app_enabled, ses_app_enabled), the interfaces found
    in the configuration or named on the command line, the dynamic interfaces that come
    and go while it runs, and the event mask given to the driver. *)
From stdpp Require Import base option list numbers strings.
From Stdlib Require Import ZArith Lia.
From S2P Require Import Prelude Monad NasState Chanspec EapdState EapdSock EapdDispatch.
Local Open Scope Z_scope.

(** ** Definitions *)

Definition isspace (c : Z) : bool := (c =? 32) || ((9 <=? c) && (c <=? 13)).
Definition isdigit (c : Z) : bool := (48 <=? c) && (c <=? 57).

Fixpoint skip_space (l : list Z) : list Z :=
  match l with
  | [] => []
  | c :: l' => if isspace c then skip_space l' else l
  end.

Fixpoint atoi_digits (l : list Z) (acc : Z) : Z :=
  match l with
  | [] => acc
  | c :: l => if isdigit c then atoi_digits l (10 * acc + (c - 48)) else acc
  end.

Definition atoi (s : list Z) : Z :=
  match skip_space s with
  | [] => 0
  | c :: l => if c =? 45 then - atoi_digits l 0 else if c =? 43 then atoi_digits l 0 else atoi_digits (c :: l) 0
  end.

(** "%d" of an int. *)
Definition fmt_d (n : Z) : list Z := if n <? 0 then 45 :: dec (- n) else dec n.

(** !strcmp(a, "b") *)
Definition is_str (a : list Z) (b : string) : bool := bool_decide (a = str b).

(** The interface of that name among those of an application. *)
Fixpoint find_cb (cbs : list eapd_cb_t) (name : list Z) : option nat :=
  match cbs with
  | [] => None
  | c :: cbs => if bool_decide (cb_ifname c = name) then Some 0%nat else S <$> find_cb cbs name
  end.

Section Conf.
Context `{E : EEnv} {NL : NameList}.

Definition eapd_safe_get_conf (outval_size : nat) (name : list Z) : D (list Z) :=
  val ← ecall_buf (EConf name);
  mret (snprintf outval_size (default [] val)).

(** wl_probe and wl_ioctl(WLC_GET_INSTANCE): the unit of a wireless interface. *)
Definition wl_unit (os_name : list Z) : D (option Z) :=
  r ← ecall_int (EProbe os_name);
  if negb (r =? 0) then mret None
  else
    r ← ecall_int (EInstance os_name);
    if negb (r =? 0) then mret None
    else unit ← out_int; mret (Some unit).

(** The names of a wireless interface: the system's and, with "_" behind it in its array
    of 8, the one its settings start with. *)
Definition wl_prefix (name : list Z) : D (option (list Z)) :=
  os_name ← ecall_buf (EOsName name);
  match os_name with
  | None => mret None
  | Some os_name =>
      unit ← wl_unit os_name;
      match unit : option Z with
      | None => mret None
      | Some _ =>
          prefix ← ecall_buf (ENvName name);
          match prefix : option (list Z) with
          | None => mret None
          | Some prefix => within (Nat.leb (length prefix + 2) 8) ;; mret (Some (prefix ++ str "_"))
          end
      end
  end.

Definition conf (prefix : list Z) (key : string) (size : nat) : D (list Z) :=
  eapd_safe_get_conf size (strlcat_r prefix (str key) 32).

Definition wps_app_enabled (name : list Z) : D bool :=
  p ← wl_prefix name;
  match p with
  | None => mret false
  | Some prefix =>
      value ← conf prefix "bss_enabled" 128;
      if negb (is_str value "1") then mret false
      else
        value ← conf prefix "wps_mode" 128;
        mret (is_str value "enabled" || is_str value "enr_enabled")
  end.

(** The authentication modes of a list of key managements. *)
Definition akm_mode (nasm : Z) (akm : list Z) : Z :=
  let nasm := if is_str akm "wpa" then Z.lor nasm WPA else nasm in
  let nasm := if is_str akm "psk" then Z.lor nasm WPA_PSK else nasm in
  let nasm := if is_str akm "wpa2" then Z.lor nasm WPA2 else nasm in
  if is_str akm "psk2" then Z.lor nasm WPA2_PSK else nasm.

Definition nas_app_enabled (name : list Z) : D bool :=
  p ← wl_prefix name;
  match p with
  | None => mret false
  | Some prefix =>
      value ← conf prefix "radio" 128;
      if atoi value =? 0 then mret false
      else
        value ← conf prefix "auth" 128;
        if atoi value =? 1 then mret false
        else
          value ← conf prefix "bss_enabled" 128;
          if atoi value =? 0 then mret false
          else
            auth ← conf prefix "auth_mode" 32;
            akms ← conf prefix "akm" 128;
            let nasm := foldl akm_mode (if is_str auth "radius" then RADIUS else 0) (foreach akms) in
            if nasm =? 0 then mret false
            else
              wep ← conf prefix "wep" 32;
              let wsec := if is_str wep "enabled" then WEP_ENABLED else 0 in
              wsec ← (if CHECK_NAS nasm then
                        crypto ← conf prefix "crypto" 32;
                        mret (if is_str crypto "tkip" then Z.lor wsec TKIP_ENABLED
                              else if is_str crypto "aes" then Z.lor wsec AES_ENABLED
                              else if is_str crypto "tkip+aes" then Z.lor wsec (Z.lor TKIP_ENABLED AES_ENABLED)
                              else wsec)
                      else mret wsec);
              mret (negb (wsec =? 0))
  end.

Definition SES_NV_INTERFACE : list Z := str "ses_interface".

Definition ses_app_enabled (name : list Z) : D bool :=
  value ← eapd_safe_get_conf 128 (str "ses_enable");
  if negb (is_str value "1") then mret false
  else
    value ← eapd_safe_get_conf 128 SES_NV_INTERFACE;
    value ← (if is_str value "" then
               r ← ecall_int (EProbe name);
               mret (if negb (r =? 0) then None else Some (snprintf 128 name))
             else mret (Some value));
    match value : option (list Z) with
    | None => mret false
    | Some value => unit ← wl_unit value; mret (bool_decide (is_Some unit))
    end.

(** ** Adding an interface *)

Definition app_set_eventmask (m : eapd_app_mode_t) : eapd_app_t -> eapd_app_t :=
  match m with
  | EAPD_APP_WPS => wps_app_set_eventmask
  | EAPD_APP_SES => ses_app_set_eventmask
  | _ => nas_app_set_eventmask
  end.

(** The name of the network interface [ifname] is attached to. *)
Definition lan_ifname (ifname os_name : list Z) : D (option (list Z)) :=
  mac ← ecall_buf (EHwaddr os_name);
  ifnames ← eapd_safe_get_conf 256 (str "dpsta_ifnames");
  psta ← wl_wlif_is_psta os_name;
  if psta || find_in_list ifnames ifname then mret (Some ifname)
  else ecall_buf (EIfByMac (default [] mac) ifname).

(** The application's record of network interface [lanifname]: its index. *)
Definition enter_cb (m : eapd_app_mode_t) (lanifname : list Z) : D (option nat) :=
  cbs ← app m ap_cb;
  match find_cb cbs lanifname with
  | Some j => mret (Some j)
  | None =>
      p ← ecall_int EMalloc;
      if p =? 0 then mret None
      else
        within (Nat.ltb (length lanifname) IFNAMSIZ) ;;
        set_app m (fun a => a <| ap_cb ::= cons (cb_zero <| cb_ifname := lanifname |>) |>) ;;
        set_app m (app_set_eventmask m) ;;
        mret (Some 0%nat)
  end.

(** [None] is FALSE; otherwise the index of the interface handed back. *)
Definition eapd_add_interface (ifname : list Z) (mode : eapd_app_mode_t) : D (option nat) :=
  busy ← app mode (fun a => negb (Nat.eqb (length (ap_cb a)) 0));
  match mode with
  | EAPD_APP_NAS | EAPD_APP_WPS | EAPD_APP_SES =>
      if bool_decide (mode = EAPD_APP_SES) && busy then mret None
      else
        os_name ← ecall_buf (EOsName ifname);
        match os_name with
        | None => mret None
        | Some os_name =>
            unit ← wl_unit os_name;
            match unit : option Z with
            | None => mret None
            | Some _ =>
                prefix ← ecall_buf (ENvName ifname);
                match prefix : option (list Z) with
                | None => mret None
                | Some prefix =>
                    dup ← app mode (fun a => find_in_list (ap_ifnames a) prefix);
                    if dup : bool then mret None
                    else
                      lanifname ← lan_ifname ifname os_name;
                      match lanifname : option (list Z) with
                      | None => mret None
                      | Some lanifname =>
                          cb ← enter_cb mode lanifname;
                          match cb : option nat with
                          | None => mret None
                          | Some j =>
                              set_app mode (fun a => a <| ap_ifnames := add_to_list prefix (ap_ifnames a) IFNAMES_SIZE |>) ;;
                              mret (Some j)
                          end
                      end
                end
            end
        end
  | _ => mret None
  end.

Definition started (r : option nat) : bool := bool_decide (is_Some r).

(** An interface named in the configuration, added for each application it is enabled for. *)
Definition auto_app (enabled : D bool) (name : list Z) (mode : eapd_app_mode_t) (needStart : bool) : D bool :=
  en ← enabled;
  if en : bool then r ← eapd_add_interface name mode; mret (needStart || started r) else mret needStart.

Definition auto_name (ses : bool) (needStart : bool) (name : list Z) : D bool :=
  n ← auto_app (wps_app_enabled name) name EAPD_APP_WPS needStart;
  n ← auto_app (nas_app_enabled name) name EAPD_APP_NAS n;
  if ses then auto_app (ses_app_enabled name) name EAPD_APP_SES n else mret n.

Fixpoint auto_names (ses : bool) (needStart : bool) (names : list (list Z)) : D bool :=
  match names with
  | [] => mret needStart
  | name :: names => n ← auto_name ses needStart name; auto_names ses n names
  end.

(** The settings that list the interfaces of bridge [i]. *)
Definition bridge_key (i : nat) (suffix : string) : list Z :=
  if Nat.eqb i 0 then str "lan_" ++ str suffix else str "lan" ++ fmt_d (Z.of_nat i) ++ str "_" ++ str suffix.

(** The bridges from [i] on; [n] are left. *)
Fixpoint auto_bridges (n i : nat) (needStart : bool) : D bool :=
  match n with
  | O => mret needStart
  | S n =>
      ifnames ← eapd_safe_get_conf 256 (bridge_key i "ifnames");
      ifnames ← (if is_str ifnames "" then eapd_safe_get_conf 256 (bridge_key i "ifname") else mret ifnames);
      needStart ← (if is_str ifnames "" then mret needStart
                   else auto_names (Nat.eqb i 0) needStart (foreach ifnames));
      auto_bridges n (S i) needStart
  end.

Definition eapd_wksp_auto_config : D Z :=
  needStart ← auto_bridges EAPD_WKSP_MAX_NO_BRIDGE 0 false;
  ifnames ← eapd_safe_get_conf 256 (str "wan_ifnames");
  needStart ← auto_names false needStart (foreach ifnames);
  mret (if needStart : bool then 0 else -1).

(** !strncmp(arg, "-xyz", 4) *)
Definition is_opt (arg : list Z) (opt : string) : bool := bool_decide (take 4 arg = str opt).

Fixpoint parse_args (argv : list (list Z)) (current_mode : eapd_app_mode_t) (needStart : bool) : D bool :=
  match argv with
  | [] => mret needStart
  | arg :: argv =>
      if is_opt arg "-wps" then parse_args argv EAPD_APP_WPS needStart
      else if is_opt arg "-nas" then parse_args argv EAPD_APP_NAS needStart
      else if is_opt arg "-ses" then parse_args argv EAPD_APP_SES needStart
      else
        r ← eapd_add_interface arg current_mode;
        parse_args argv current_mode (needStart || started r)
  end.

(** [argv] without the name of the program. *)
Definition eapd_wksp_parse_cmd (argv : list (list Z)) : D Z :=
  needStart ← parse_args argv EAPD_APP_UNKNOW false;
  mret (if needStart : bool then 0 else -1).

(** ** The events asked of the driver *)

Definition lor_mask (a b : list Z) : list Z := zip_with Z.lor a b.

(** The units whose mask was already set, as the array [wlunit]. *)
Fixpoint event_names (wps nas ses : eapd_app_t) (names : list (list Z)) (wlunit : list Z) : D Z :=
  match names with
  | [] => mret 0
  | name :: names =>
      os_name ← ecall_buf (EOsName name);
      match os_name with
      | None => event_names wps nas ses names wlunit
      | Some os_name =>
          unit ← wl_unit os_name;
          match unit : option Z with
          | None => event_names wps nas ses names wlunit
          | Some unit =>
              within ((0 <=? unit) && (unit <? 16)) ;;
              bitvec ← (if negb (idx wlunit unit =? -1) then
                          ret ← ecall_int (EGetEventMsgs os_name);
                          if negb (ret =? 0) then mret None
                          else b ← ereply ee_buf; mret (Some (take WL_EVENTING_MASK_LEN (default [] b ++ replicate WL_EVENTING_MASK_LEN 0)))
                        else mret (Some (replicate WL_EVENTING_MASK_LEN 0)));
              match bitvec : option (list Z) with
              | None => event_names wps nas ses names wlunit
              | Some bitvec =>
                  let add app bitvec := if find_in_list (ap_ifnames app) name then lor_mask bitvec (ap_bitvec app) else bitvec in
                  ecall_int (ESetEventMsgs os_name (add ses (add nas (add wps bitvec)))) ;;
                  event_names wps nas ses names (alter (fun _ => unit) (Z.to_nat unit) wlunit)
              end
          end
      end
  end.

Definition all_ifnames (wps nas ses : eapd_app_t) : list Z :=
  let add l n := add_to_list n l IFNAMES_SIZE in
  foldl add (foldl add (ap_ifnames wps) (foreach (ap_ifnames nas))) (foreach (ap_ifnames ses)).

Definition event_init : D Z :=
  wps ← wk ew_wps;
  nas ← wk ew_nas;
  ses ← wk ew_ses;
  event_names wps nas ses (foreach (all_ifnames wps nas ses)) (replicate 16 (-1)).

(** ** Dynamic interfaces *)

Definition eapd_add_dif (ifname : list Z) : D Z :=
  os_name ← ecall_buf (EOsName ifname);
  match os_name with
  | None => mret (-1)
  | Some os_name =>
      unit ← wl_unit os_name;
      match unit : option Z with
      | None => mret (-1)
      | Some unit =>
          en ← nas_app_enabled (snprintf 16 (str "wl" ++ fmt_d unit));
          elog (EWlconf ifname) ;;
          if negb en then ecall_int (EPstaAllowJoin ifname) ;; mret (-1)
          else
            cb ← eapd_add_interface ifname EAPD_APP_NAS;
            match cb : option nat with
            | None => mret (-1)
            | Some j =>
                r ← event_init;
                if r <? 0 then mret (-1)
                else
                  r ← nas_open_dif_sockets j;
                  if r <? 0 then mret (-1)
                  else
                    r ← ecall_int (EPstaAllowJoin ifname);
                    mret (if negb (r =? 0) then -1 else 0)
            end
      end
  end.

Definition eapd_delete_dif (ifname : list Z) : D unit :=
  cbs ← app EAPD_APP_NAS ap_cb;
  match find_cb cbs ifname with
  | None => mret tt
  | Some j =>
      nas_close_dif_sockets j ;;
      set_app EAPD_APP_NAS (fun a => a <| ap_cb ::= delete j |>) ;;
      os_name ← ecall_buf (EOsName ifname);
      match os_name with
      | None => mret tt
      | Some os_name => set_app EAPD_APP_NAS (fun a => a <| ap_ifnames := remove_from_list os_name (ap_ifnames a) IFNAMES_SIZE |>)
      end
  end.

End Conf.
