(* ===== verification/EapdRel.v ===== *)
(** What every handler of frames, events and messages keeps, whatever they contain: the
    shape of the station cache, the sockets and the applications, the size of the packet
    buffer.  As in NasRel.v, [Rel R m] relates the start and the end of [m] whenever it
    returns; the steps and the handlers of EapdDispatch.v are covered one by one. *)
From stdpp Require Import base option list numbers sets.
From Stdlib Require Import ZArith Lia.
From S2P Require Import Prelude Monad NasState NasSta WpaIe WpaKey EapdState EapdSta EapdIe EapdDispatch.
Local Open Scope Z_scope.

#[export] Typeclasses Opaque wk set_wk esta set_esta brcm set_brcm elog ereply ecall_int ecall_buf etime wl_wlif_is_psta
  rd_pkt wr_pkt rd8 ntoh16_at ntoh32_at rest_pkt may_oob eapd_message_send ewalk set_ehashed sta_remove sta_moved sta_lookup
  sendup eapd_get_method eapd_eapol_canned_send eapd_valid_eapol_start set_mode set_pae eapd_wps_packet sta_from
  eapd_eap_packet eapd_eapol_start eapd_eapol_logoff eapd_eapol_dispatch prepend_ifname lift_app_ie nas_app_sta_event
  nas_app_handle_event wps_app_handle_event ses_app_handle_event eapd_brcm_dispatch eapd_brcm_recv_handler
  eapd_preauth_recv_handler dest_sta monitor_eapol nas_app_recv_handler wps_app_recv_handler ses_app_recv_handler.

(** ** The relation *)

(** The sockets and the applications. *)
Definition same_conf (k k' : eapd_wksp_t) : Prop :=
  ew_brcmSocketCount k' = ew_brcmSocketCount k /\ ew_brcmSocket k' = ew_brcmSocket k /\ ew_wps k' = ew_wps k /\
  ew_nas k' = ew_nas k /\ ew_ses k' = ew_ses k /\ ew_difSocket k' = ew_difSocket k /\ ew_flags k' = ew_flags k.

Definition tended (w w' : eworld) : Prop := cache_ok (ew w) ->
  cache_ok (ew w') /\ same_conf (ew w) (ew w') /\ length (ew_packet (ew w')) = length (ew_packet (ew w)).

#[export] Instance same_conf_pre : PreOrder same_conf.
Proof. split; [by intros k|]. intros k1 k2 k3 (?&?&?&?&?&?&?) (?&?&?&?&?&?&?). split_and!; congruence. Qed.

#[export] Instance tended_pre : PreOrder tended.
Proof.
  split; [by intros w|]. intros w1 w2 w3 H1 H2 Hk. destruct (H1 Hk) as (A1 & A2 & A3). destruct (H2 A1) as (B1 & B2 & B3).
  split_and!; [done|by etransitivity|congruence].
Qed.

(** The cache is as it was. *)
Lemma cache_ok_ext k k' : ew_sta k' = ew_sta k -> ew_sta_hashed k' = ew_sta_hashed k -> cache_ok k -> cache_ok k'.
Proof. unfold cache_ok, skel. by intros -> ->. Qed.

Lemma tended_log w l : tended w (EWorld (ew w) l).
Proof. done. Qed.

Lemma tended_upd w i f : (forall s, links (skel_sta (f s)) = links (skel_sta s)) -> tended w (EWorld (upd_esta (ew w) i f) (ew_log w)).
Proof. intros Hf Hk. split; [by apply cache_upd|done]. Qed.

Lemma tended_packet w p : length p = length (ew_packet (ew w)) -> tended w (EWorld ((ew w) <| ew_packet := p |>) (ew_log w)).
Proof. intros Hp Hk. split; [by eapply cache_ok_ext|done]. Qed.

(** What only touches the cache, and leaves it in order. *)
Definition cache_kept (w w' : eworld) : Prop := cache_ok (ew w') /\ cache_only (ew w) (ew w').

Lemma cache_kept_trans w1 w2 w3 : cache_kept w1 w2 -> cache_kept w2 w3 -> cache_kept w1 w3.
Proof. intros [_ H2] [H3 H4]. split; [done|by etransitivity]. Qed.

Lemma rel_cache {A} (m : D A) : (forall w, cache_ok (ew w) -> wp m (fun _ w' => cache_kept w w') w) -> Rel tended m.
Proof.
  intros H w. unfold tended. destruct (m w) as [a w'| |] eqn:Hm; unfold wpx; rewrite Hm; [|done..]. intros Hk.
  destruct (wp_ret_inv _ _ _ _ _ (H w Hk) Hm) as [H1 H2]. split; [done|]. by rewrite H2.
Qed.

(** ** Steps that change nothing *)

(** Relations that do not look at the calls. *)
Class LogRel (R : relation eworld) : Prop := {
  log_pre :: PreOrder R;
  log_any : forall w l, R w (EWorld (ew w) l)
}.

Section Log.
Context `{E : EEnv} (R : relation eworld) `{HR : !LogRel R}.

#[export] Instance lg_wk {A} (f : eapd_wksp_t -> A) : Rel R (wk f).
Proof. apply rel_get, _. Qed.
#[export] Instance lg_esta {A} i (f : eapd_sta_t -> A) : Rel R (esta i f).
Proof. apply rel_get, _. Qed.
#[export] Instance lg_brcm {A} i (f : eapd_socket -> A) : Rel R (brcm i f).
Proof. apply rel_get, _. Qed.
#[export] Instance lg_ereply {A} (f : list ecall -> A) : Rel R (ereply f).
Proof. apply rel_get, _. Qed.
#[export] Instance lg_rest_pkt o : Rel R (rest_pkt o).
Proof. apply rel_get, _. Qed.
#[export] Instance lg_elog c : Rel R (elog c).
Proof. intros w. apply wp_elog, log_any. Qed.
#[export] Instance lg_ecall_int c : Rel R (ecall_int c).
Proof. intros w. apply wp_ecall_int, log_any. Qed.
#[export] Instance lg_ecall_buf c : Rel R (ecall_buf c).
Proof. intros w. apply wp_ecall_buf, log_any. Qed.
#[export] Instance lg_etime : Rel R etime.
Proof. apply lg_ecall_int. Qed.
#[export] Instance lg_wl_wlif_is_psta n : Rel R (wl_wlif_is_psta n).
Proof. unfold wl_wlif_is_psta. rel_auto. Qed.
#[export] Instance lg_may_oob {A} (o : option A) : Rel R (may_oob o).
Proof. destruct o; unfold may_oob; rel_auto. Qed.
#[export] Instance lg_rd_pkt o n : Rel R (rd_pkt o n).
Proof. unfold rd_pkt. rel_auto. Qed.
#[export] Instance lg_rd8 o : Rel R (rd8 o).
Proof. unfold rd8. rel_auto. Qed.
#[export] Instance lg_ntoh16_at o : Rel R (ntoh16_at o).
Proof. unfold ntoh16_at. rel_auto. Qed.
#[export] Instance lg_ntoh32_at o : Rel R (ntoh32_at o).
Proof. unfold ntoh32_at. rel_auto. Qed.
#[export] Instance lg_message_send fd o len : Rel R (eapd_message_send fd o len).
Proof. unfold eapd_message_send. rel_auto. Qed.
#[export] Instance lg_lift_app_ie {A} (r : ie_res A) : Rel R (lift_app_ie r).
Proof. destruct r; unfold lift_app_ie; rel_auto. Qed.

End Log.

(** ** The cache and the packet *)

Section Steps.
Context `{E : EEnv} {NL : NameList}.

#[export] Instance tended_log_rel : LogRel tended.
Proof. split; [apply _|apply tended_log]. Qed.

#[export] Instance te_wr_pkt o d : Rel tended (wr_pkt o d).
Proof. intros w. apply wp_wr_pkt; [|done]. intros Ho. by apply tended_packet, splice_length. Qed.

Lemma te_set_esta i f : (forall s, links (skel_sta (f s)) = links (skel_sta s)) -> Rel tended (set_esta i f).
Proof. intros Hf w. by apply wp_set_esta, tended_upd. Qed.

(** A slot that is not there is not linked. *)
Lemma sta_remove_out i w : cache_ok (ew w) -> (MAX_SUPPLICANTS <= i)%nat -> wp (sta_remove i) (fun _ w' => ew w' = ew w) w.
Proof.
  intros Hk Hi. pose proof (cache_len _ Hk) as Hl. unfold sta_remove. set (k := ew w) in *.
  destruct (table_chain (skel k) _ Hk (pae_hash_lt (es_ea (esta_at k i)))) as (c & Hc & Hlc & Hin).
  assert (Hc' : forall j, j ∈ c -> (j < MAX_SUPPLICANTS)%nat) by (intros j Hj; by apply Hin in Hj as [[? _] _]).
  do 6 eapd_step. fold k. eapd_step. eapd_step.
  - apply bool_decide_eq_true in H. exfalso. change (hashed (skel k) (pae_hash (es_ea (esta_at k i))) = Some i) in H.
    rewrite H in Hc. inversion Hc as [|? ? _ Hcc]; subst. specialize (Hc' i (list_elem_of_here _ _)). lia.
  - eapd_step. eapply wp_mono; [apply twp_wp; by apply (ewalk_spec _ _ c)|]. intros r w1 [Hr ->]. fold k in Hr. destruct r as [j|].
    + exfalso. symmetry in Hr. apply find_some in Hr as [Hj Hnj]. apply bool_decide_eq_true in Hnj.
      apply list_elem_of_In, list_elem_of_split in Hj as (c1 & c2 & ->). apply chain_app_next in Hc.
      rewrite skel_at in Hc. change (st_next (skel_sta (esta_at k j))) with (es_next (esta_at k j)) in Hc. rewrite Hnj in Hc.
      inversion Hc; subst. specialize (Hc' i ltac:(set_solver)). lia.
    + eapd_step. apply wp_set_esta. cbn [ew]. fold k. unfold upd_esta, upd. destruct k. cbn in *. f_equal.
      apply list_eq. intros j. destruct (decide (i = j)) as [<-|Hn]; [|by rewrite list_lookup_alter_ne].
      by rewrite list_lookup_alter_eq, lookup_ge_None_2 by lia.
Qed.

#[export] Instance te_sta_remove i : Rel tended (sta_remove i).
Proof.
  apply rel_cache. intros w Hk. destruct (decide (i < MAX_SUPPLICANTS)%nat) as [Hi|Hi].
  - apply twp_wp. eapply wp_mono; [by apply sta_remove_spec|]. intros [] w' [(H1 & H2 & _) _]. done.
  - eapply wp_mono; [apply sta_remove_out; [done|lia]|]. intros [] w' H. split; by rewrite H.
Qed.

(** Entering in a free slot, finding, moving. *)
Lemma enter_kept i ea b ifname now w : cache_ok (ew w) -> (i < MAX_SUPPLICANTS)%nat -> es_used (esta_at (ew w) i) = false ->
  cache_slot (ew w) ea = None ->
  wp (bssid ← may_oob b;
      within (Nat.leb IFNAMSIZ (length ifname)) ;;
      head ← wk (fun k => ehashed k (EAPD_PAE_HASH ea));
      set_esta i (fun _ => new_esta ea bssid ifname head) ;;
      set_ehashed (EAPD_PAE_HASH ea) (Some i) ;;
      set_esta i (fun s => s <| es_last_use := now |>) ;;
      mret (Some i)) (fun _ w' => cache_kept w w') w.
Proof.
  intros Hk Hi Hu Hv. unfold set_ehashed. eapd_steps; try done.
  destruct (cache_link (ew w) i ea a ifname Hk Hi Hu Hv) as (H1 & _). split; [|by destruct (ew w)].
  by apply (cache_upd _ i (fun s => s <| es_last_use := now |>)).
Qed.

Lemma rel_sta_moved i bssid ifname : Rel (fun w w' => ew w' = ew w) (sta_moved i bssid ifname).
Proof. intros w. unfold sta_moved. eapd_steps; done. Qed.

#[export] Instance te_sta_lookup ea bssid ifname mode : Rel tended (sta_lookup ea bssid ifname mode).
Proof.
  apply rel_cache. intros w Hk. unfold sta_lookup. set (k := ew w) in *. do 2 eapd_step.
  destruct (table_chain (skel k) _ Hk (pae_hash_lt ea)) as (c & Hc & Hlc & _).
  eapd_step. eapply wp_mono; [apply twp_wp; by apply (ewalk_spec _ _ c)|]. intros r w0 [Hr ->]. fold k in Hr.
  rewrite (find_ext _ (fun j => ea_eqb (st_ea (sta_at (skel k) j)) ea)) in Hr by (intros x; by rewrite skel_at).
  rewrite (find_view (skel k) ea c Hk Hc) in Hr. do 2 eapd_step. set (now := ee_ret _). destruct r as [i|].
  - set (w1 := EWorld _ _). eapd_step. apply (wp_mono _ (fun _ w' => cache_kept w1 w')).
    + destruct bssid as [b|]; [|by apply wp_ret]. eapd_step. eapply wp_mono; [apply rel_sta_moved|]. intros m w2 H2. cbn beta in H2.
      eapd_step; [|by split; rewrite H2]. eapd_step. eapd_step. eapd_step. cbn [ew]. rewrite H2.
      split; [by apply cache_upd|apply cache_only_upd].
    + intros [] w2 [H1 H2]. eapd_steps. split; [by apply cache_upd|]. etransitivity; [exact H2|apply cache_only_upd].
  - destruct mode; [by eapd_step|]. do 2 eapd_step. cbn [ew].
    pose proof (find_slot_spec (na_sta (skel k)) 0 now None) as Hf. rewrite efind_slot_skel.
    change (map skel_sta (ew_sta k)) with (na_sta (skel k)). destruct (find_slot _ _ _ _) as [[i|] [o|]].
    1,2: destruct Hf as (s & _ & Hs & Hu); rewrite Nat.sub_0_r in Hs; apply skel_lookup in Hs as [-> Hlt];
      pose proof (cache_len _ Hk); do 2 eapd_step; eapply wp_mono; [apply enter_kept; [done|lia|done|done]|]; by intros ? w' H'.
    + destruct Hf as [Hall [[? _]|(k' & s & [= <-] & _ & Hs & _ & Hmin)]]; [done|]. rewrite Nat.sub_0_r in Hs.
      apply skel_lookup in Hs as [-> Hlt]. pose proof (cache_len _ Hk). do 2 eapd_step.
      eapply wp_mono; [apply twp_wp, sta_remove_spec; cbn [ew]; [done|lia]|]. intros [] w1 [Hrm _]. cbn [ew] in Hrm. eapd_step.
      pose proof Hrm as (R1 & R2 & R3 & R4 & R5 & R6).
      eapply wp_mono; [apply enter_kept; [done|lia|done|]|].
      { rewrite R4. change (cache_slot (ew w) ea) with (view (skel k) ea). rewrite <- Hr. by destruct (decide _). }
      intros ? w2 H2. eapply cache_kept_trans; [|exact H2]. done.
    + do 3 eapd_step. done.
Qed.

End Steps.

#[export] Hint Extern 2 (Rel tended (set_esta _ _)) => apply te_set_esta; intros ?; done : typeclass_instances.

(** ** The handlers *)

Section Handlers.
Context `{E : EEnv} {NL : NameList}.

#[export] Instance te_sendup proj m o n : Rel tended (sendup proj m o n).
Proof. unfold sendup. rel_auto. Qed.
#[export] Instance te_nas_sendup o n : Rel tended (nas_app_sendup o n).
Proof. apply te_sendup. Qed.
#[export] Instance te_wps_sendup o n : Rel tended (wps_app_monitor_sendup o n).
Proof. apply te_sendup. Qed.
#[export] Instance te_ses_sendup o n : Rel tended (ses_app_sendup o n).
Proof. apply te_sendup. Qed.

#[export] Instance te_get_method user : Rel tended (eapd_get_method user).
Proof.
  unfold eapd_get_method. induction eapdispuserlist as [|[id m] l IH]; cbn [get_method_go]; [rel_auto|].
  apply rel_bind; [exact _|exact _|]. intros b. destruct (bool_decide _); [rel_auto|apply IH].
Qed.

#[export] Instance te_canned s i c t : Rel tended (eapd_eapol_canned_send s i c t).
Proof. unfold eapd_eapol_canned_send. rel_auto. Qed.
#[export] Instance te_valid from n : Rel tended (eapd_valid_eapol_start from n).
Proof. unfold eapd_valid_eapol_start. rel_auto. Qed.
#[export] Instance te_set_mode i m : Rel tended (set_mode i m).
Proof. unfold set_mode. rel_auto. Qed.
#[export] Instance te_set_pae i p : Rel tended (set_pae i p).
Proof. unfold set_pae. rel_auto. Qed.
#[export] Instance te_wps_packet i s c o n : Rel tended (eapd_wps_packet i s c o n).
Proof. unfold eapd_wps_packet. rel_auto. Qed.
#[export] Instance te_sta_from i o e : Rel tended (sta_from i o e).
Proof. unfold sta_from. rel_auto. Qed.
#[export] Instance te_eap_packet i o e n : Rel tended (eapd_eap_packet i o e n).
Proof. unfold eapd_eap_packet. rel_auto. Qed.
#[export] Instance te_eapol_start from i o e : Rel tended (eapd_eapol_start from i o e).
Proof. unfold eapd_eapol_start. rel_auto. Qed.
#[export] Instance te_eapol_logoff i o n : Rel tended (eapd_eapol_logoff i o n).
Proof. unfold eapd_eapol_logoff. rel_auto. Qed.
#[export] Instance te_eapol_dispatch from o n : Rel tended (eapd_eapol_dispatch from o n).
Proof. unfold eapd_eapol_dispatch. rel_auto. Qed.
#[export] Instance te_prepend o : Rel tended (prepend_ifname o).
Proof. unfold prepend_ifname. rel_auto. Qed.
#[export] Instance te_nas_sta_event o t : Rel tended (nas_app_sta_event o t).
Proof. unfold nas_app_sta_event. rel_auto. Qed.
#[export] Instance te_nas_event o n from : Rel tended (nas_app_handle_event o n from).
Proof. unfold nas_app_handle_event. rel_auto. Qed.
#[export] Instance te_wps_event o n from : Rel tended (wps_app_handle_event o n from).
Proof. unfold wps_app_handle_event. rel_auto. Qed.
#[export] Instance te_ses_event o n from : Rel tended (ses_app_handle_event o n from).
Proof. unfold ses_app_handle_event. rel_auto. Qed.
#[export] Instance te_brcm_dispatch from o n : Rel tended (eapd_brcm_dispatch from o n).
Proof. unfold eapd_brcm_dispatch. rel_auto. Qed.
#[export] Instance te_brcm_recv from o n : Rel tended (eapd_brcm_recv_handler from o n).
Proof. unfold eapd_brcm_recv_handler. rel_auto. Qed.
#[export] Instance te_preauth_recv from o n : Rel tended (eapd_preauth_recv_handler from o n).
Proof. unfold eapd_preauth_recv_handler. rel_auto. Qed.
#[export] Instance te_dest_sta w o : Rel tended (dest_sta w o).
Proof. unfold dest_sta. rel_auto. Qed.
#[export] Instance te_monitor s o : Rel tended (monitor_eapol s o).
Proof. unfold monitor_eapol. rel_auto. Qed.
#[export] Instance te_nas_recv w c o n : Rel tended (nas_app_recv_handler w c o n).
Proof. unfold nas_app_recv_handler. rel_auto. Qed.
#[export] Instance te_wps_recv w c o n a : Rel tended (wps_app_recv_handler w c o n a).
Proof. unfold wps_app_recv_handler. rel_auto. Qed.
#[export] Instance te_ses_recv w c o n : Rel tended (ses_app_recv_handler w c o n).
Proof. unfold ses_app_recv_handler. rel_auto. Qed.

End Handlers.
