(* ===== verification/EapdLoop.v ===== *)
(** The EAP dispatcher as a whole (src/userspace/eapd/src/eapd.c, main of eapd_linux.c):
    start-up, one round of select and of the sockets it finds ready, the main loop with
    the signal that ends it, shut-down.  A run is a sequence of rounds and signals
    ([eapd_step]) from a state [eapd_start] leaves. *)
From stdpp Require Import base option list numbers sets relations.
From Stdlib Require Import ZArith Lia.
From S2P Require Import Prelude Monad NasState NasSta EapdState EapdSta EapdSock EapdSockInv EapdDispatch EapdConf EapdRel.
Local Open Scope Z_scope.

(** ** Definitions *)

Definition FD_SETSIZE : Z := 1024.

(** The packet is received behind room for an interface name. *)
Definition pkt : nat := IFNAMSIZ.
Definition pkt_len : nat := EAPD_WKSP_RECV_DATA_MAX_LEN - IFNAMSIZ.

Section Loop.
Context `{E : EEnv} {NL : NameList}.

(** FD_SET, and the largest descriptor so far. *)
Definition FD_SET (fd : Z) : D unit :=
  within ((0 <=? fd) && (fd <? FD_SETSIZE)) ;;
  set_wk (fun k => k <| ew_fdset ::= cons fd |> <| ew_fdmax := Z.max (ew_fdmax k) fd |>).

Definition set_app_fd (m : eapd_app_mode_t) : D unit := fd ← app m ap_appSocket; when (0 <=? fd) (FD_SET fd).

(** The descriptors waited for. *)
Definition fill_fdset : D unit :=
  set_wk (fun k => k <| ew_fdset := [] |> <| ew_fdmax := -1 |>) ;;
  count ← wk ew_brcmSocketCount;
  for_each (seq 0 count) (fun i =>
    s ← brcm i (fun s => s);
    when (0 <? so_inuseCount s) (FD_SET (so_drvSocket s))) ;;
  set_app_fd EAPD_APP_WPS ;;
  set_app_fd EAPD_APP_SES ;;
  set_app_fd EAPD_APP_NAS ;;
  cbs ← app EAPD_APP_NAS ap_cb;
  for_each cbs (fun c => let fd := so_drvSocket (cb_preauthSocket c) in when (0 <=? fd) (FD_SET fd)) ;;
  fd ← wk ew_difSocket;
  when (0 <=? fd) (FD_SET fd).

Definition FD_ISSET (ready : list Z) (fd : Z) : bool := bool_decide (fd ∈ ready).

(** read and recv: the number of bytes put at [pkt], or a negative number. *)
Definition recv_pkt (fd : Z) : D Z :=
  d ← ecall_buf (ERecv fd);
  match d with
  | None => mret (-1)
  | Some d => wr_pkt pkt (take pkt_len d) ;; mret (Z.of_nat (length (take pkt_len d)))
  end.

Definition dispatch_brcm (ready : list Z) : D unit :=
  count ← wk ew_brcmSocketCount;
  for_each (seq 0 count) (fun i =>
    s ← brcm i (fun s => s);
    when ((0 <? so_inuseCount s) && FD_ISSET ready (so_drvSocket s))
      (bytes ← recv_pkt (so_drvSocket s);
       when (0 <? bytes) (eapd_brcm_recv_handler i pkt bytes))).

(** The interface a message from an application goes out on. *)
Definition eapd_wksp_find_cb (m : eapd_app_mode_t) (wlifname mac : nat) : D (option nat) :=
  name ← rest_pkt wlifname;
  psta ← wl_wlif_is_psta (c_string name);
  ifname ← (if psta : bool then mret (Some (c_string name)) else mac ← rd_pkt mac ETHER_ADDR_LEN; ecall_buf (EIfByMac mac (c_string name)));
  match ifname : option (list Z) with
  | None => mret None
  | Some ifname => cbs ← app m ap_cb; mret (find_cb cbs ifname)
  end.

(** A message from an application: an interface name and a frame. *)
Definition dispatch_app (ready : list Z) (m : eapd_app_mode_t) (handler : nat -> eapd_cb_t -> nat -> Z -> D unit) : D unit :=
  fd ← app m ap_appSocket;
  when ((0 <=? fd) && FD_ISSET ready fd)
    (bytes ← recv_pkt fd;
     when (Z.of_nat ETHER_HDR_LEN <? bytes)
       (let eth := (pkt + IFNAMSIZ)%nat in
        cb ← eapd_wksp_find_cb m pkt (eth + off_shost);
        match cb : option nat with
        | None => mret tt
        | Some j => c ← wk (fun k => cb_at k m j); handler pkt c eth (bytes - Z.of_nat IFNAMSIZ)
        end)).

Definition wps_handler (wlifname : nat) (c : eapd_cb_t) (eth : nat) (bytes : Z) : D unit :=
  wps_app_recv_handler wlifname c eth bytes (eth + off_shost).

(** An interface that comes (event 0) or goes (event 1). *)
Definition dispatch_dif (ready : list Z) : D unit :=
  fd ← wk ew_difSocket;
  when ((0 <=? fd) && FD_ISSET ready fd)
    (bytes ← recv_pkt fd;
     when (Z.of_nat ETHER_HDR_LEN <? bytes)
       (name ← rest_pkt pkt;
        ev ← rd_pkt (pkt + IFNAMSIZ) 4;
        if bool_decide (ev = [0; 0; 0; 0]) then eapd_add_dif (c_string name) ;; mret tt
        else when (bool_decide (ev = [1; 0; 0; 0])) (eapd_delete_dif (c_string name)))).

Definition dispatch_preauth (ready : list Z) : D unit :=
  cbs ← app EAPD_APP_NAS ap_cb;
  for_each cbs (fun c =>
    let fd := so_drvSocket (cb_preauthSocket c) in
    when ((0 <=? fd) && FD_ISSET ready fd)
      (bytes ← recv_pkt fd;
       when (0 <? bytes) (eapd_preauth_recv_handler (cb_ifname c) pkt bytes))).

Definition eapd_wksp_dispatch : D unit :=
  fill_fdset ;;
  fdmax ← wk ew_fdmax;
  if fdmax =? -1 then set_wk (fun k => k <| ew_flags := EAPD_WKSP_FLAG_SHUTDOWN |>)
  else
    fds ← wk ew_fdset;
    status ← ecall_int (ESelect fds);
    ready ← ereply (fun l => List.filter (fun fd => bool_decide (fd ∈ fds)) (ee_ready l));
    when (0 <? status)
      (dispatch_brcm ready ;;
       dispatch_app ready EAPD_APP_WPS wps_handler ;;
       dispatch_app ready EAPD_APP_SES ses_app_recv_handler ;;
       dispatch_dif ready ;;
       dispatch_app ready EAPD_APP_NAS nas_app_recv_handler ;;
       dispatch_preauth ready).

(** The socket on which dynamic interfaces are announced. *)
Definition open_dif_socket : D Z :=
  fd ← ecall_int (ESocketOpen SK_UDP);
  set_wk (fun k => k <| ew_difSocket := fd |>) ;;
  if fd <? 0 then mret (-1)
  else
    r ← ecall_int (ESetReuse fd);
    if r <? 0 then elog (EClose fd) ;; set_wk (fun k => k <| ew_difSocket := -1 |>) ;; mret (-1)
    else
      r ← ecall_int (EBindPort fd EAPD_APP_UNKNOW);
      if r <? 0 then elog (EClose fd) ;; set_wk (fun k => k <| ew_difSocket := -1 |>) ;; mret (-1)
      else mret 0.

Definition eapd_wksp_init : D Z :=
  r ← wps_app_init;
  if negb (r =? 0) then mret (-1)
  else
    r ← nas_app_init;
    if negb (r =? 0) then mret (-1)
    else
      r ← ses_app_init;
      if negb (r =? 0) then mret (-1)
      else
        r ← event_init;
        if negb (r =? 0) then mret (-1) else open_dif_socket.

Definition eapd_wksp_deinit : D Z :=
  wps_app_deinit ;;
  ses_app_deinit ;;
  nas_app_deinit ;;
  fd ← wk ew_difSocket;
  when (0 <=? fd) (elog (EClose fd) ;; set_wk (fun k => k <| ew_difSocket := -1 |>)) ;;
  mret 0.

(** main and eapd_wksp_main_loop up to the loop: false when the program gives up.
    [argv] is without the name of the program. *)
Definition eapd_start (argv : list (list Z)) : D bool :=
  r ← (match argv with [] => eapd_wksp_auto_config | _ => eapd_wksp_parse_cmd argv end);
  if negb (r =? 0) then eapd_wksp_deinit ;; mret false
  else
    ret ← eapd_wksp_init;
    if negb (ret =? 0) then eapd_wksp_deinit ;; mret false
    else
      r ← ecall_int EDaemon;
      if r =? -1 then eapd_wksp_deinit ;; mret false else mret true.

(** SIGTERM. *)
Definition eapd_hup_hdlr (k : eapd_wksp_t) : eapd_wksp_t := k <| ew_flags ::= Z.lor EAPD_WKSP_FLAG_SHUTDOWN |>.

Definition shutting (k : eapd_wksp_t) : bool := has (ew_flags k) EAPD_WKSP_FLAG_SHUTDOWN.

(** A round of the main loop, or a signal between two rounds. *)
Inductive eapd_step : eworld -> eworld -> Prop :=
| step_dispatch w w' : shutting (ew w) = false -> eapd_wksp_dispatch w = Ret tt w' -> eapd_step w w'
| step_signal w : eapd_step w (EWorld (eapd_hup_hdlr (ew w)) (ew_log w)).

(** The states of the main loop. *)
Definition eapd_runs (argv : list (list Z)) (w : eworld) : Prop :=
  exists log w0, eapd_start argv (EWorld eapd_wksp_alloc_workspace log) = Ret true w0 /\ rtc eapd_step w0 w.

End Loop.
