(* ===== verification/EapdInv.v ===== *)
(** The invariant of eapd.  [state_ok]: the station cache is well formed, the sockets are
    counted for every interface that holds them, the packet buffer has its size.  It holds
    after the configuration, after start-up, and in every state the main loop reaches,
    through interfaces that come and go; what the packets contain does not matter. *)
From stdpp Require Import base option list numbers sets relations.
From Stdlib Require Import ZArith Lia.
From S2P Require Import Prelude Monad NasState NasSta EapdState EapdSta EapdSock EapdSockInv EapdDispatch EapdConf EapdRel EapdLoop.
Local Open Scope Z_scope.

#[export] Typeclasses Opaque eapd_safe_get_conf wl_unit wl_prefix conf wps_app_enabled nas_app_enabled ses_app_enabled set_app app set_cb
  lan_ifname enter_cb eapd_add_interface auto_app auto_name auto_names auto_bridges eapd_wksp_auto_config parse_args
  eapd_wksp_parse_cmd event_names event_init eapd_add_dif eapd_delete_dif nas_open_dif_sockets nas_close_dif_sockets open_cb out_int
  FD_SET set_app_fd fill_fdset recv_pkt dispatch_brcm eapd_wksp_find_cb dispatch_app dispatch_dif dispatch_preauth.

Definition state_ok (k : eapd_wksp_t) : Prop :=
  cache_ok k /\ socks_ok k /\ length (ew_packet k) = EAPD_WKSP_RECV_DATA_MAX_LEN.

Definition stays_ok (w w' : eworld) : Prop := state_ok (ew w) -> state_ok (ew w').

#[export] Instance stays_ok_log : LogRel stays_ok.
Proof. split; [split; unfold stays_ok; [by intros w|]; intros w1 w2 w3; tauto|by intros w l H]. Qed.

Lemma socks_ok_ext k k' : ew_brcmSocketCount k' = ew_brcmSocketCount k -> ew_brcmSocket k' = ew_brcmSocket k -> ew_wps k' = ew_wps k ->
  ew_nas k' = ew_nas k -> ew_ses k' = ew_ses k -> socks_ok k -> socks_ok k'.
Proof.
  intros H1 H2 H3 H4 H5 [A1 A2 A3 A4 A5 A6]. assert (Hall : all_cbs k' = all_cbs k) by (unfold all_cbs; by rewrite H3, H4, H5).
  assert (Hb : forall i, brcm_at k' i = brcm_at k i) by (intros; unfold brcm_at; by rewrite H2).
  split; rewrite ?H1, ?H2, ?Hall; auto.
  - intros i. rewrite Hb. auto.
  - intros c i. rewrite Hb. auto.
  - intros i j. rewrite !Hb. auto.
Qed.

(** Handlers, and what only touches other parts of the state. *)
Lemma ok_tended {A} (m : D A) : Rel tended m -> Rel stays_ok m.
Proof.
  intros H w. eapply wp_mono; [apply H|]. intros a w' Ht (H1 & H2 & H3). destruct (Ht H1) as (C1 & (?&?&?&?&?&?) & C3).
  split_and!; [done|by eapply socks_ok_ext|congruence].
Qed.

Definition same_but_fds (k k' : eapd_wksp_t) : Prop :=
  k' = k <| ew_flags := ew_flags k' |> <| ew_fdset := ew_fdset k' |> <| ew_fdmax := ew_fdmax k' |> <| ew_difSocket := ew_difSocket k' |>.

Lemma same_but_fds_ok k k' : same_but_fds k k' -> state_ok k -> state_ok k'.
Proof. intros -> (H1 & H2 & H3). by split_and!; [|eapply socks_ok_ext; [..|exact H2]|]. Qed.

Lemma ok_set_wk f : (forall k, same_but_fds k (f k)) -> Rel stays_ok (set_wk f).
Proof. intros Hf w. apply wp_set_wk. intros H. by apply (same_but_fds_ok (ew w)). Qed.

#[export] Hint Extern 2 (Rel stays_ok (set_wk _)) => apply ok_set_wk; intros []; reflexivity : typeclass_instances.
#[export] Hint Extern 5 (Rel stays_ok _) => apply ok_tended; exact _ : typeclass_instances.

Lemma opening_ok k k' : opening k k' -> state_ok k -> state_ok k'.
Proof. intros ((K1 & K2 & K3) & Ho & _) (H1 & _ & H3). split_and!; [by eapply cache_ok_ext|done|congruence]. Qed.

Lemma opening_if_ok_state k k' : opening_if_ok k k' -> state_ok k -> state_ok k'.
Proof. intros (K & O & X) Hk. pose proof Hk as (_ & H & _). apply (opening_ok k); [by split_and!; auto|done]. Qed.

(** ** Configuration *)

Section Conf.
Context `{E : EEnv} {NL : NameList}.

(** Questions only. *)
Section Ask.
Context (R : relation eworld) `{HR : !LogRel R}.

#[export] Instance lg_app {A} m (f : eapd_app_t -> A) : Rel R (app m f).
Proof. apply lg_wk, _. Qed.
#[export] Instance lg_out_int : Rel R out_int.
Proof. apply lg_ereply, _. Qed.
#[export] Instance lg_conf_get n name : Rel R (eapd_safe_get_conf n name).
Proof. unfold eapd_safe_get_conf. rel_auto. Qed.
#[export] Instance lg_conf p k n : Rel R (conf p k n).
Proof. unfold conf. rel_auto. Qed.
#[export] Instance lg_wl_unit n : Rel R (wl_unit n).
Proof. unfold wl_unit. rel_auto. Qed.
#[export] Instance lg_wl_prefix n : Rel R (wl_prefix n).
Proof. unfold wl_prefix. rel_auto. Qed.
#[export] Instance lg_wps_enabled n : Rel R (wps_app_enabled n).
Proof. unfold wps_app_enabled. rel_auto. Qed.
#[export] Instance lg_nas_enabled n : Rel R (nas_app_enabled n).
Proof. unfold nas_app_enabled. rel_auto. Qed.
#[export] Instance lg_ses_enabled n : Rel R (ses_app_enabled n).
Proof. unfold ses_app_enabled. rel_auto. Qed.
#[export] Instance lg_lan_ifname a b : Rel R (lan_ifname a b).
Proof. unfold lan_ifname. rel_auto. Qed.

#[export] Instance lg_event_names wps nas ses names : forall u, Rel R (event_names wps nas ses names u).
Proof. induction names as [|n names IH]; intros u; cbn [event_names]; rel_auto. Qed.
#[export] Instance lg_event_init : Rel R event_init.
Proof. unfold event_init. rel_auto. Qed.
End Ask.

(** Relations that let an interface without socket be added. *)
Class ConfRel (R : relation eworld) : Prop := {
  conf_log :: LogRel R;
  conf_app : forall m f, (forall a, ap_cb (f a) = ap_cb a) -> Rel R (set_app m f);
  conf_cb : forall m c, cb_brcmSocket c = None -> (length (cb_ifname c) < IFNAMSIZ)%nat -> Rel R (set_app m (fun a => a <| ap_cb ::= cons c |>))
}.

Section Add.
Context (R : relation eworld) `{HR : !ConfRel R}.

#[export] Instance cf_enter_cb m name : Rel R (enter_cb m name).
Proof.
  unfold enter_cb. apply rel_bind; [exact _..|intros cbs]. destruct (find_cb cbs name); [exact _|].
  apply rel_bind; [exact _..|intros p]. destruct (p =? 0); [exact _|]. intros w. apply wp_bind, wp_within; [|done].
  intros Hn%Nat.ltb_lt. revert w. change (Rel R (set_app m (fun a => a <| ap_cb ::= cons (cb_zero <| cb_ifname := name |>) |>) ;;
    set_app m (app_set_eventmask m) ;; mret (Some 0%nat))).
  apply rel_bind; [exact _|by apply conf_cb|intros ?]. apply rel_bind; [exact _|by apply conf_app; intros x; destruct m|intros ?]. exact _.
Qed.

#[export] Instance cf_add_interface name m : Rel R (eapd_add_interface name m).
Proof.
  assert (Rel R (set_app m (fun a => a <| ap_ifnames := add_to_list name (ap_ifnames a) IFNAMES_SIZE |>))) by by apply conf_app.
  unfold eapd_add_interface. rel_auto; by apply conf_app.
Qed.

#[export] Instance cf_auto_app en name m b : Rel R en -> Rel R (auto_app en name m b).
Proof. intros ?. unfold auto_app. rel_auto. Qed.
#[export] Instance cf_auto_name ses b name : Rel R (auto_name ses b name).
Proof. unfold auto_name. rel_auto. Qed.
#[export] Instance cf_auto_names ses names : forall b, Rel R (auto_names ses b names).
Proof. induction names as [|n names IH]; intros b; cbn [auto_names]; rel_auto. Qed.
#[export] Instance cf_auto_bridges n : forall i b, Rel R (auto_bridges n i b).
Proof. induction n as [|n IH]; intros i b; cbn [auto_bridges]; rel_auto. Qed.
#[export] Instance cf_auto_config : Rel R eapd_wksp_auto_config.
Proof. unfold eapd_wksp_auto_config. rel_auto. Qed.
#[export] Instance cf_parse_args argv : forall m b, Rel R (parse_args argv m b).
Proof. induction argv as [|a argv IH]; intros m b; cbn [parse_args]; rel_auto. Qed.
#[export] Instance cf_parse_cmd argv : Rel R (eapd_wksp_parse_cmd argv).
Proof. unfold eapd_wksp_parse_cmd. rel_auto. Qed.

End Add.
End Conf.

(** ** The two relations of the configuration *)

#[export] Instance ok_conf : ConfRel stays_ok.
Proof.
  split; [apply _|intros m f Hf w; unfold set_app; apply wp_set_wk; intros H; by eapply opening_if_ok_state; [apply set_app_other|]|].
  intros m c Hc Hn w. unfold set_app. apply wp_set_wk. cbn [ew]. intros (H1 & H2 & H3).
  assert (Hup : upd_app (ew w) m (fun a => a <| ap_cb ::= cons c |>) = with_cbs (ew w) m (c :: cbs_of (ew w) m)) by by destruct m.
  cbn [ew]. rewrite Hup. split_and!.
  - eapply cache_ok_ext; [..|exact H1]; by destruct m.
  - apply socks_ok_cbs; [done|..].
    + intros i. assert (holds i c = false) as Hh by (unfold holds; by rewrite Hc). rewrite users_cons, Hh. lia.
    + intros x [->|Hx]%elem_of_cons; [by right|]. left. by exists x.
  - by destruct m.
Qed.

(** The sockets stay as they are. *)
Definition no_sockets (w w' : eworld) : Prop := ew_brcmSocketCount (ew w') = ew_brcmSocketCount (ew w).

#[export] Instance no_sockets_conf : ConfRel no_sockets.
Proof.
  split; [split; [split; unfold no_sockets; [by intros w|congruence]|done]|..].
  - intros m f _ w. unfold set_app. apply wp_set_wk. by destruct m.
  - intros m c _ _ w. unfold set_app. apply wp_set_wk. by destruct m.
Qed.

(** ** Interfaces that come and go *)

Lemma find_cb_Some cbs name j : find_cb cbs name = Some j -> exists c, cbs !! j = Some c /\ cb_ifname c = name.
Proof.
  revert j. induction cbs as [|c cbs IH]; intros j; cbn [find_cb]; [done|]. case_bool_decide as Hc; [intros [= <-]; by exists c|].
  destruct (find_cb cbs name) as [j'|]; [|done]. intros [= <-]. by apply IH.
Qed.

Section Dif.
Context `{E : EEnv} {NL : NameList}.

#[export] Instance ok_open_cb m j : Rel stays_ok (open_cb m j).
Proof.
  intros w. destruct (open_cb m j w) as [r w'| |] eqn:Hr; unfold wpx; rewrite Hr; [|done..]. intros (H1 & H2 & H3).
  assert (H : kept (ew w) (ew w') /\ socks_ok (ew w')).
  { destruct (cbs_of (ew w) m !! j) as [c|] eqn:Hj.
    - destruct (wp_ret_inv _ _ _ _ _ (open_cb_spec m j c w H2 Hj) Hr) as (? & ? & _). done.
    - exact (wp_ret_inv _ _ _ _ _ (open_cb_out m j w H2 Hj) Hr). }
  destruct H as [(K1 & K2 & K3) Ho]. split_and!; [by eapply cache_ok_ext|done|congruence].
Qed.

#[export] Instance ok_open_dif j : Rel stays_ok (nas_open_dif_sockets j).
Proof. apply ok_open_cb. Qed.

#[export] Instance ok_add_dif name : Rel stays_ok (eapd_add_dif name).
Proof. unfold eapd_add_dif. rel_auto. Qed.

#[export] Instance ok_delete_dif name : Rel stays_ok (eapd_delete_dif name).
Proof.
  assert (Hrm : forall os, Rel stays_ok (set_app EAPD_APP_NAS (fun a => a <| ap_ifnames := remove_from_list os (ap_ifnames a) IFNAMES_SIZE |>))).
  { intros os. by apply conf_app. }
  intros w. unfold eapd_delete_dif, app. eapd_step. eapd_step. destruct (find_cb _ name) as [j|] eqn:Hf; [|by apply wp_ret].
  apply find_cb_Some in Hf as (c & Hj & _). unfold nas_close_dif_sockets.
  destruct (close_brcm EAPD_APP_NAS j w) as [[] w1| |] eqn:Hc; [|by unfold wpx, mbind, M_bind; rewrite Hc..].
  eapd_step. unfold wpx at 1. rewrite Hc. eapd_step. unfold set_app at 1. eapd_step. eapd_step.
  eapply wp_mono; [apply (lg_ecall_buf stays_ok)|]. intros os w2 H2. cbn [ew] in H2.
  assert (H : stays_ok w w2).
  { intros (H1 & H3 & H4). apply H2. cbn [ew].
    pose proof (wp_ret_inv _ _ _ _ _ (close_brcm_spec EAPD_APP_NAS j c w H3 Hj) Hc) as Hr.
    eapply opening_if_ok_state; [|by split_and!].
    pose proof (closed_unlinked EAPD_APP_NAS j c (ew w) (ew w1) H3 Hj Hr id) as Ho.
    assert (Hcb : cbs_of (ew w1) EAPD_APP_NAS = cbs_of (ew w) EAPD_APP_NAS).
    { destruct (cb_brcmSocket c); [apply brcm_only_cbs, Hr|by rewrite Hr]. }
    rewrite list_alter_id in Ho by done. rewrite <- Hcb in Ho. exact Ho. }
  destruct os as [os|]; [|by apply wp_ret]. eapply wp_mono; [apply Hrm|]. intros a w3 H3 Hw. auto.
Qed.

(** ** A round *)

#[export] Instance ok_FD_SET fd : Rel stays_ok (FD_SET fd).
Proof. unfold FD_SET. rel_auto. Qed.
#[export] Instance ok_set_app_fd m : Rel stays_ok (set_app_fd m).
Proof. unfold set_app_fd. rel_auto. Qed.
#[export] Instance ok_fill : Rel stays_ok fill_fdset.
Proof. unfold fill_fdset. rel_auto. Qed.
#[export] Instance te_recv fd : Rel tended (recv_pkt fd).
Proof. unfold recv_pkt. rel_auto. Qed.
#[export] Instance te_dispatch_brcm ready : Rel tended (dispatch_brcm ready).
Proof. unfold dispatch_brcm. rel_auto. Qed.
#[export] Instance te_find_cb m o o' : Rel tended (eapd_wksp_find_cb m o o').
Proof. unfold eapd_wksp_find_cb. rel_auto. Qed.
#[export] Instance te_dispatch_app ready m h : (forall w c e b, Rel tended (h w c e b)) -> Rel tended (dispatch_app ready m h).
Proof. intros Hh. unfold dispatch_app. rel_auto. Qed.
#[export] Instance te_wps_handler w c e b : Rel tended (wps_handler w c e b).
Proof. unfold wps_handler. exact _. Qed.
#[export] Instance te_dispatch_preauth ready : Rel tended (dispatch_preauth ready).
Proof. unfold dispatch_preauth. rel_auto. Qed.
#[export] Instance ok_dispatch_dif ready : Rel stays_ok (dispatch_dif ready).
Proof. unfold dispatch_dif. rel_auto. Qed.
#[export] Instance ok_dispatch : Rel stays_ok eapd_wksp_dispatch.
Proof. unfold eapd_wksp_dispatch. rel_auto. Qed.

Lemma step_ok w w' : eapd_step w w' -> stays_ok w w'.
Proof.
  intros [w1 w2 _ Hd|w1]; [by apply (wp_ret_inv _ _ _ _ _ (ok_dispatch w1) Hd)|].
  intros H. by apply (same_but_fds_ok (ew w1)); [destruct (ew w1)|].
Qed.

End Dif.

(** ** Start-up and shut-down *)

Definition app_kind (m : eapd_app_mode_t) : nat := match m with EAPD_APP_WPS => 0 | EAPD_APP_SES => 1 | _ => 2 end.

(** The interfaces of the other applications. *)
Definition others (m : eapd_app_mode_t) (w w' : eworld) : Prop :=
  forall m', app_kind m' <> app_kind m -> cbs_of (ew w') m' = cbs_of (ew w) m'.

#[export] Instance others_log m : LogRel (others m).
Proof.
  split; [split|]; unfold others; [by intros w m' _| |by intros w l m' _].
  intros w1 w2 w3 H1 H2 m' Hm. by rewrite H2, H1.
Qed.

Section Others.
Context `{E : EEnv} (m : eapd_app_mode_t).

#[export] Instance ot_set_app f : Rel (others m) (set_app m f).
Proof. intros w. unfold set_app. apply wp_set_wk. intros m' Hm. by destruct m, m'. Qed.
#[export] Instance ot_set_cb j f : Rel (others m) (set_cb m j f).
Proof. unfold set_cb. exact _. Qed.
#[export] Instance ot_set_brcm i f : Rel (others m) (set_brcm i f).
Proof. intros w. apply wp_set_brcm. intros m' _. by destruct m'. Qed.
Lemma ot_set_wk f : (forall k m', cbs_of (f k) m' = cbs_of k m') -> Rel (others m) (set_wk f).
Proof. intros Hf w. apply wp_set_wk. intros m' _. apply Hf. Qed.

#[export] Instance ot_add_brcm name : Rel (others m) (eapd_add_brcm name).
Proof.
  assert (forall c, Rel (others m) (set_wk (fun k => k <| ew_brcmSocketCount := c |>))) by (intros; apply ot_set_wk; by intros k []).
  unfold eapd_add_brcm, eapd_find_brcm, eapd_brcm_open, eapd_raw_open. rel_auto.
Qed.
#[export] Instance ot_open_cbs pre n : forall j, Rel (others m) (open_cbs m pre n j).
Proof.
  induction n as [|n IH]; intros j; cbn [open_cbs]; [exact _|]. unfold open_cb, eapd_preauth_open, eapd_raw_open. rel_auto.
Qed.
#[export] Instance ot_app_init pre : Rel (others m) (app_init m pre).
Proof. unfold app_init, udp_open. rel_auto. Qed.

#[export] Instance ot_close_cbs pre n : Rel (others m) (close_cbs m pre n).
Proof. induction n as [|n IH]; cbn [close_cbs]; [exact _|]. unfold close_brcm, close_preauth, eapd_del_brcm, eapd_find_brcm. rel_auto. Qed.
#[export] Instance ot_app_deinit pre : Rel (others m) (app_deinit m pre).
Proof. unfold app_deinit. rel_auto. Qed.

End Others.

(** Nothing opened yet. *)
Lemma closed_fresh k m : socks_ok k -> ew_brcmSocketCount k = 0%nat -> closed_from k m 0.
Proof.
  intros Hk H0 j c _ Hj. destruct (cb_brcmSocket c) as [i|] eqn:Hi; [|done]. exfalso.
  assert (Hc : c ∈ all_cbs k).
  { destruct (all_cbs_split k m) as (pre & post & -> & _). rewrite !elem_of_app. right. left. by eapply list_elem_of_lookup_2. }
  destruct (so_held k Hk c i Hc Hi). lia.
Qed.

Lemma closed_others m m' w w' : others m w w' -> app_kind m' <> app_kind m -> closed_from (ew w) m' 0 -> closed_from (ew w') m' 0.
Proof. intros Ho Hm Hc j c. rewrite (Ho m' Hm). apply Hc. Qed.

Section Start.
Context `{E : EEnv} {NL : NameList}.

(** Starting one application of three. *)
Lemma start_app m pre w : socks_ok (ew w) -> closed_from (ew w) m 0 ->
  twp (app_init m pre) (fun _ w' => opening (ew w) (ew w') /\ others m w w') w.
Proof.
  intros Hk Hc. pose proof (app_init_spec m pre w Hk Hc) as H. pose proof (ot_app_init m pre w) as Ho.
  apply twp_inv in H as (r & w' & Hr & H). unfold wpx in *. by rewrite Hr in *.
Qed.

Lemma open_dif_spec w : twp open_dif_socket (fun _ w' => same_but_fds (ew w) (ew w')) w.
Proof. unfold open_dif_socket. eapd_steps; by destruct (ew w). Qed.

Lemma same_but_fds_exact k k' : same_but_fds k k' -> socks_exact k -> socks_exact k'.
Proof. intros -> H i. exact (H i). Qed.

Lemma same_but_fds_opening k k' : same_but_fds k k' -> socks_ok k -> opening k k'.
Proof. intros H Hk. split_and!; [by rewrite H| |by apply same_but_fds_exact]. rewrite H. by eapply socks_ok_ext; [..|exact Hk]. Qed.

Definition same_state (w w' : eworld) : Prop := ew w' = ew w.
#[export] Instance same_state_log : LogRel same_state.
Proof. split; [split; unfold same_state; [by intros w|congruence]|done]. Qed.

(** Starting the applications returns, and counts every socket taken. *)
Lemma wksp_init_spec w : state_ok (ew w) -> ew_brcmSocketCount (ew w) = 0%nat ->
  wp eapd_wksp_init (fun _ w' => opening (ew w) (ew w')) w.
Proof.
  intros (_ & Hk & _) H0. unfold eapd_wksp_init, wps_app_init, nas_app_init, ses_app_init.
  assert (Hc : forall m, closed_from (ew w) m 0) by (intros; by apply closed_fresh).
  eapd_step. eapply wp_mono; [apply twp_wp, start_app; auto|]. intros r1 w1 [O1 T1].
  destruct (negb (r1 =? 0)); [by apply wp_ret|].
  eapd_step. eapply wp_mono; [apply twp_wp, start_app; [apply O1|eapply (closed_others EAPD_APP_WPS); [exact T1|done|apply Hc]]|]. intros r2 w2 [O2 T2].
  assert (O12 : opening (ew w) (ew w2)) by by eapply opening_trans.
  destruct (negb (r2 =? 0)); [by apply wp_ret|].
  eapd_step. eapply wp_mono; [apply twp_wp, start_app; [apply O12|]|].
  { eapply (closed_others EAPD_APP_NAS); [exact T2|done|]. eapply (closed_others EAPD_APP_WPS); [exact T1|done|apply Hc]. }
  intros r3 w3 [O3 _]. assert (O13 : opening (ew w) (ew w3)) by by eapply opening_trans.
  destruct (negb (r3 =? 0)); [by apply wp_ret|]. eapd_step. eapply wp_mono; [apply (lg_event_init same_state)|]. intros r4 w4 H4.
  destruct (negb (r4 =? 0)); [apply wp_ret; by rewrite H4|]. eapply wp_mono; [apply twp_wp, open_dif_spec|]. intros r5 w5 H5.
  eapply opening_trans; [exact O13|]. rewrite <- H4. apply same_but_fds_opening; [done|]. rewrite H4. by apply O13.
Qed.

(** Shutting down returns, with every interface closed. *)
Lemma stop_app m pre w : socks_ok (ew w) ->
  twp (app_deinit m pre) (fun _ w' => opening (ew w) (ew w') /\ cbs_of (ew w') m = [] /\ others m w w') w.
Proof.
  intros Hk. pose proof (app_deinit_spec m pre w Hk) as H. pose proof (ot_app_deinit m pre w) as Ho.
  apply twp_inv in H as (r & w' & Hr & H1 & H2). unfold wpx in *. by rewrite Hr in *.
Qed.

Lemma wksp_deinit_spec w : socks_ok (ew w) ->
  twp eapd_wksp_deinit (fun r w' => r = 0 /\ opening (ew w) (ew w') /\ all_cbs (ew w') = [] /\ ew_difSocket (ew w') < 0) w.
Proof.
  intros Hk. unfold eapd_wksp_deinit, wps_app_deinit, nas_app_deinit, ses_app_deinit.
  eapd_step. eapply wp_mono; [by apply stop_app|]. intros [] w1 (O1 & C1 & T1).
  eapd_step. eapply wp_mono; [apply stop_app, O1|]. intros [] w2 (O2 & C2 & T2).
  assert (O12 : opening (ew w) (ew w2)) by by eapply opening_trans.
  eapd_step. eapply wp_mono; [apply stop_app, O12|]. intros [] w3 (O3 & C3 & T3).
  assert (O13 : opening (ew w) (ew w3)) by by eapply opening_trans.
  assert (Hnil : all_cbs (ew w3) = []).
  { pose proof (T3 EAPD_APP_WPS ltac:(done)) as H1. pose proof (T2 EAPD_APP_WPS ltac:(done)) as H2.
    pose proof (T3 EAPD_APP_SES ltac:(done)) as H3. unfold all_cbs.
    change (ap_cb (ew_wps (ew w3))) with (cbs_of (ew w3) EAPD_APP_WPS). change (ap_cb (ew_nas (ew w3))) with (cbs_of (ew w3) EAPD_APP_NAS).
    change (ap_cb (ew_ses (ew w3))) with (cbs_of (ew w3) EAPD_APP_SES). by rewrite H1, H2, C1, C3, H3, C2. }
  do 2 eapd_step. eapd_step. destruct (Z.leb_spec 0 (ew_difSocket (ew w3))) as [Hd|Hd]; cbn [when].
  - do 3 eapd_step. apply wp_ret. cbn [ew]. split_and!; [done| |done|done].
    eapply opening_trans; [exact O13|]. apply same_but_fds_opening; [by destruct (ew w3)|apply O13].
  - apply wp_ret, wp_ret. done.
Qed.
Lemma nth_same {A} n i (x : A) : nth i (replicate n x) x = x.
Proof. rewrite nth_lookup. destruct (replicate n x !! i) eqn:H; [|done]. by apply lookup_replicate in H as [-> _]. Qed.

(** The workspace as it is allocated. *)
Lemma alloc_ok : state_ok eapd_wksp_alloc_workspace.
Proof.
  assert (Hu : forall i, esta_at eapd_wksp_alloc_workspace i = esta_zero).
  { intros i. apply nth_same. }
  assert (Hn : forall i, ~ NasSta.in_use (skel eapd_wksp_alloc_workspace) i) by (intros i [_ H]; by rewrite skel_at, Hu in H).
  split_and!; [split|split|done].
  - done.
  - done.
  - intros h Hh. exists []. assert (hashed (skel eapd_wksp_alloc_workspace) h = None) as -> by apply nth_same.
    split; [constructor|]. intros i. rewrite elem_of_nil. split; [done|]. intros [H _]. by apply Hn in H.
  - intros i j H. by apply Hn in H.
  - done.
  - cbn. lia.
  - intros i Hi. cbn in Hi. lia.
  - intros c i H. by apply not_elem_of_nil in H.
  - intros i j Hi. cbn in Hi. lia.
  - intros c H. by apply not_elem_of_nil in H.
Qed.

(** The state the main loop starts from. *)
Lemma eapd_start_ok argv log w : eapd_start argv (EWorld eapd_wksp_alloc_workspace log) = Ret true w -> state_ok (ew w) /\ socks_exact (ew w).
Proof.
  set (w0 := EWorld _ _). set (cfg := match argv with [] => eapd_wksp_auto_config | _ => eapd_wksp_parse_cmd argv end).
  assert (Hcfg : forall R, ConfRel R -> Rel R cfg) by (intros R HR; unfold cfg; destruct argv; exact _).
  intros H. assert (Hwp : wp (eapd_start argv) (fun r w => r = true -> state_ok (ew w) /\ socks_exact (ew w)) w0).
  2: { exact (wp_ret_inv _ _ _ _ _ Hwp H eq_refl). }
  clear H. unfold eapd_start. fold cfg. eapd_step.
  eapply wp_mono; [apply wp_conj; [apply (Hcfg stays_ok _)|apply (Hcfg no_sockets _)]|]. intros r w1 [H1 H2].
  specialize (H1 alloc_ok). change (ew_brcmSocketCount (ew w1) = 0%nat) in H2.
  assert (Hno : forall s, wp (eapd_wksp_deinit ;; mret false) (fun r w => r = true -> state_ok (ew w) /\ socks_exact (ew w)) s).
  { intros s. unfold wpx, mbind, M_bind. by destruct (eapd_wksp_deinit s). }
  destruct (negb (r =? 0)); [apply Hno|]. eapd_step. eapply wp_mono; [by apply wksp_init_spec|]. intros r2 w2 Ho.
  destruct (negb (r2 =? 0)); [apply Hno|]. eapd_step. eapd_step. destruct (_ =? -1); [apply Hno|].
  apply wp_ret. intros _. cbn [ew]. split; [by apply (opening_ok (ew w1))|]. apply Ho. intros i Hi. lia.
Qed.

End Start.
