(* ===== verification/EapdSystem.v ===== *)
(** What the parts of eapd come to together: the invariant of a run from start-up to
    shut-down, where each frame and event goes, the station whose EAPOL-Start is not
    answered because nas runs its handshake, and two slips in the handling of dynamic
    interfaces.  A small setting, one wireless interface on a bridge, evaluates a run. *)
From stdpp Require Import base option list numbers sets relations strings.
From Stdlib Require Import ZArith Lia.
From S2P Require Import Prelude Monad NasState NasSta WpaIe WpaKey Chanspec EapdState EapdSta EapdIe EapdSock EapdSockInv EapdDispatch EapdRoute EapdRecv EapdConf EapdRel EapdLoop EapdInv.
Local Open Scope Z_scope.

(** ** A setting *)

(** Interfaces eth1 (unit 0, "wl0") and eth2 (unit 1, "wl1") are on the bridge "br0";
    "wl1.1" is a proxy, on no bridge.  Every call succeeds, a descriptor is the number of
    calls so far.  One announcement of a dynamic interface can be pending. *)
Definition demo_ret (l : list ecall) : Z :=
  match l with
  | ESocketOpen _ :: _ => Z.of_nat (length l)
  | EMalloc :: _ | ESelect _ :: _ => 1
  | EIsPsta n :: _ => if is_str n "wl1.1" then 1 else 0
  | _ => 0
  end.

Definition demo_conf (n : list Z) : list Z :=
  if is_str n "wl1_radio" then str "1" else if is_str n "wl1_bss_enabled" then str "1"
  else if is_str n "wl1_akm" then str "psk2" else if is_str n "wl1_crypto" then str "aes" else [].

Definition demo_buf (pending : list Z) (l : list ecall) : option (list Z) :=
  match l with
  | EOsName n :: _ => Some n
  | ENvName n :: _ => Some (if is_str n "eth1" then str "wl0" else if is_str n "eth2" then str "wl1" else n)
  | EInstance n :: _ => Some [if is_str n "eth1" then 0 else 1]
  | EIfIndex _ _ :: _ => Some [3]
  | EHwaddr _ :: _ => Some [0; 1; 2; 3; 4; 5]
  | EIfByMac _ _ :: _ => Some (str "br0")
  | EConf n :: _ => Some (if is_str n "wl1_auth" then str "0" else demo_conf n)
  | ERecv _ :: _ => Some (take 16 (pending ++ replicate 16 0) ++ [0; 0; 0; 0])
  | _ => None
  end.

(** Only the socket of the announcements is ready. *)
Definition demo_ready (l : list ecall) : list Z := match l with ESelect (fd :: _) :: _ => [fd] | _ => [] end.

Definition demo_env (pending : list Z) : EEnv := {| ee_ret := demo_ret; ee_buf := demo_buf pending; ee_ready := demo_ready |}.

Definition demo_argv : list (list Z) := [str "-nas"; str "eth1"].
Abbreviation demo_start pending :=
  (eapd_start (E := demo_env pending) (NL := names_words) demo_argv (EWorld eapd_wksp_alloc_workspace [])).

Definition world_of {A} (r : res eworld A) : eworld := match r with Ret _ w => w | _ => EWorld eapd_wksp_alloc_workspace [] end.

Definition returns {A} (a : A) `{EqDecision A} (r : res eworld A) : bool := match r with Ret b _ => bool_decide (b = a) | _ => false end.

Lemma returns_ret {A} `{EqDecision A} (a : A) (r : res eworld A) : returns a r = true -> r = Ret a (world_of r).
Proof. destruct r as [b w| |]; cbn; [|done..]. by intros ->%bool_decide_eq_true. Qed.

Lemma runs_start `{E : EEnv} {NL : NameList} argv log w :
  eapd_start argv (EWorld eapd_wksp_alloc_workspace log) = Ret true w -> eapd_runs argv w.
Proof. intros H. exists log, w. split; [exact H|apply rtc_refl]. Qed.

Lemma demo_runs pending : returns true (demo_start pending) = true ->
  eapd_runs (E := demo_env pending) (NL := names_words) demo_argv (world_of (demo_start pending)).
Proof. intros H%returns_ret. exact (runs_start _ _ _ H). Qed.

(** ** A run *)

Section Run.
Context `{E : EEnv} {NL : NameList}.

Lemma runs_ok argv w : eapd_runs argv w -> state_ok (ew w).
Proof.
  intros (log & w0 & Hs & Hr). apply eapd_start_ok in Hs as [H0 _]. clear log. induction Hr as [|w1 w2 w3 H _ IH]; [done|].
  apply IH. by apply (step_ok _ _ H).
Qed.

(** C17: however eapd is configured, whatever frames, events, messages and announcements of
    interfaces arrive and whatever the system answers, in every state its main loop
    reaches the station cache is well formed, every socket to the driver is counted at
    least as often as interfaces hold it, an interface holds only the socket of its own
    name and no two sockets in use have one name, and the packet buffer has its size. *)
Theorem eapd_invariant argv w : eapd_runs argv w -> state_ok (ew w).
Proof. apply runs_ok. Qed.

(** C22: from every state the main loop reaches, shutting down touches nothing outside its
    arrays and returns 0, every application is left without interfaces, the socket for
    announcements is closed, and the sockets still counted are those that were counted
    more often than interfaces held them: none when the counts were exact. *)
Theorem eapd_shutdown argv w : eapd_runs argv w -> exists w', eapd_wksp_deinit w = Ret 0 w' /\ all_cbs (ew w') = [] /\
  ew_difSocket (ew w') < 0 /\ state_ok (ew w') /\
  (socks_exact (ew w) -> forall i, (i < ew_brcmSocketCount (ew w'))%nat -> so_inuseCount (brcm_at (ew w') i) = 0).
Proof.
  intros Hw%runs_ok. destruct (twp_inv _ _ _ (wksp_deinit_spec w (proj1 (proj2 Hw)))) as (r & w' & Hr & -> & Ho & Hnil & Hd).
  exists w'. split_and!; [done..|by eapply opening_ok|]. intros He i Hi. destruct Ho as (_ & _ & Hx).
  rewrite (Hx He i Hi), Hnil. done.
Qed.

(** When start-up succeeds every socket to the driver is counted exactly once for
    each interface that holds it, so shutting down at that point closes them all. *)
Theorem eapd_sockets_counted argv log w : eapd_start argv (EWorld eapd_wksp_alloc_workspace log) = Ret true w ->
  (forall i, (i < ew_brcmSocketCount (ew w))%nat -> so_inuseCount (brcm_at (ew w) i) = users i (all_cbs (ew w))) /\
  exists w', eapd_wksp_deinit w = Ret 0 w' /\ forall i, (i < ew_brcmSocketCount (ew w'))%nat -> so_inuseCount (brcm_at (ew w') i) = 0.
Proof.
  intros [Hw He]%eapd_start_ok. split; [exact He|].
  destruct (twp_inv _ _ _ (wksp_deinit_spec w (proj1 (proj2 Hw)))) as (r & w' & Hr & -> & (_ & _ & Hx) & Hnil & _).
  exists w'. split; [done|]. intros i Hi. by rewrite (Hx He i Hi), Hnil.
Qed.

End Run.

Lemma eapd_invariant_witness : exists w, eapd_runs (E := demo_env []) (NL := names_words) demo_argv w /\ state_ok (ew w).
Proof.
  exists (world_of (demo_start [])). assert (H : returns true (demo_start []) = true) by (vm_compute; reflexivity).
  split; [exact (demo_runs [] H)|]. exact (eapd_invariant (E := demo_env []) (NL := names_words) demo_argv _ (demo_runs [] H)).
Defined.

Lemma eapd_shutdown_witness : exists w w', eapd_runs (E := demo_env []) (NL := names_words) demo_argv w /\
  eapd_wksp_deinit w = Ret 0 w' /\ all_cbs (ew w') = [].
Proof.
  exists (world_of (demo_start [])). assert (H : returns true (demo_start []) = true) by (vm_compute; reflexivity).
  destruct (eapd_shutdown (E := demo_env []) (NL := names_words) demo_argv _ (demo_runs [] H)) as (w' & H1 & H2 & _).
  exists w'. split_and!; [exact (demo_runs [] H)|exact H1|exact H2].
Defined.

Lemma eapd_sockets_counted_witness : exists w, demo_start [] = Ret true w /\ ew_brcmSocketCount (ew w) = 1%nat /\
  so_inuseCount (brcm_at (ew w) 0) = users 0 (all_cbs (ew w)).
Proof.
  exists (world_of (demo_start [])). assert (H : returns true (demo_start []) = true) by (vm_compute; reflexivity).
  assert (Hc : ew_brcmSocketCount (ew (world_of (demo_start []))) = 1%nat) by (vm_compute; reflexivity).
  apply returns_ret in H. split_and!; [exact H|exact Hc|].
  apply (proj1 (eapd_sockets_counted (E := demo_env []) (NL := names_words) demo_argv [] _ H)). rewrite Hc. lia.
Defined.

(** ** Dynamic interfaces *)

#[export] Instance sock_kind_eq : EqDecision sock_kind.
Proof. solve_decision. Defined.
#[export] Instance ecall_eq : EqDecision ecall.
Proof. solve_decision. Defined.

(** A wireless interface announced while another one of its bridge is served takes the
    bridge's socket a second time although one record stands for both; shutting down gives
    it back once, so the socket is never closed. *)
Theorem dif_use_leaks : exists (E : EEnv) (NL : NameList) w w', eapd_runs demo_argv w /\ length (all_cbs (ew w)) = 1%nat /\
  eapd_wksp_deinit w = Ret 0 w' /\ all_cbs (ew w') = [] /\ so_inuseCount (brcm_at (ew w') 0) = 1 /\
  EClose (so_drvSocket (brcm_at (ew w') 0)) ∉ ew_log w'.
Proof.
  set (r1 := demo_start (str "eth2")). set (r2 := eapd_wksp_dispatch (E := demo_env (str "eth2")) (NL := names_words) (world_of r1)).
  exists (demo_env (str "eth2")), names_words, (world_of r2), (world_of (eapd_wksp_deinit (world_of r2))).
  assert (H1 : returns true r1 = true) by (vm_compute; reflexivity). assert (H2 : returns tt r2 = true) by (vm_compute; reflexivity).
  assert (H3 : returns 0 (eapd_wksp_deinit (world_of r2)) = true) by (vm_compute; reflexivity).
  assert (H4 : bool_decide (EClose (so_drvSocket (brcm_at (ew (world_of (eapd_wksp_deinit (world_of r2)))) 0)) ∈
    ew_log (world_of (eapd_wksp_deinit (world_of r2)))) = false) by (vm_compute; reflexivity).
  apply returns_ret in H1, H2, H3. apply bool_decide_eq_false in H4. split_and!; [|by vm_compute|exact H3|by vm_compute..|exact H4].
  exists [], (world_of r1). split; [exact H1|]. eapply rtc_l; [|apply rtc_refl]. apply step_dispatch; [by vm_compute|exact H2].
Qed.

(** The record of an interface announced at run time keeps 0 as the descriptor of its
    preauthentication socket, which is not opened: from the next round on eapd waits for
    descriptor 0, which no call ever returned. *)
Theorem dif_waits_on_zero : exists (E : EEnv) (NL : NameList) w w', eapd_runs demo_argv w /\
  (forall k l, ee_ret (ESocketOpen k :: l) <> 0) /\ fill_fdset w = Ret tt w' /\ 0 ∈ ew_fdset (ew w').
Proof.
  set (r1 := demo_start (str "wl1.1")). set (r2 := eapd_wksp_dispatch (E := demo_env (str "wl1.1")) (NL := names_words) (world_of r1)).
  exists (demo_env (str "wl1.1")), names_words, (world_of r2), (world_of (fill_fdset (world_of r2))).
  assert (H1 : returns true r1 = true) by (vm_compute; reflexivity). assert (H2 : returns tt r2 = true) by (vm_compute; reflexivity).
  assert (H3 : returns tt (fill_fdset (world_of r2)) = true) by (vm_compute; reflexivity).
  assert (H4 : bool_decide (0 ∈ ew_fdset (ew (world_of (fill_fdset (world_of r2))))) = true) by (vm_compute; reflexivity).
  apply returns_ret in H1, H2, H3. apply bool_decide_eq_true in H4. split_and!; [|intros k l; cbn [ee_ret demo_env demo_ret length]; lia|exact H3|].
  - exists [], (world_of r1). split; [exact H1|]. eapply rtc_l; [|apply rtc_refl]. apply step_dispatch; [by vm_compute|exact H2].
  - exact H4.
Qed.

(** ** Frames *)

Section Frames.
Context `{E : EEnv} {NL : NameList}.
Implicit Types w : eworld.



Lemma looked_up_ea ea b n m now k k' i : looked_up ea b n m now k k' (Some i) -> es_ea (esta_at k' i) = ea.
Proof.
  intros ((Hk & _) & _ & H). apply cache_slot_ea; [done|]. destruct (cache_slot k ea) as [j|] eqn:Hj.
  - destruct H as ([= <-] & Hs & _). by rewrite Hs.
  - by destruct H as (_ & Hs & _).
Qed.

(** The fields of the frame eapd builds from an event. *)
Lemma rewritten_field k len o n : eapol_event k len -> (o + n <= 30 + len)%nat ->
  take n (drop (58 + o) (rewritten k)) = take n (drop o (rebuilt k len)).
Proof.
  intros [Hl _ _ _ Hf _] Ho. destruct (rewritten_frame k len Hl Hf) as [_ <-].
  apply list_eq. intros i. destruct (decide (i < n)%nat); [|by rewrite !lookup_take_ge by lia].
  rewrite (lookup_take_lt _ n), (lookup_take_lt _ n) by done. rewrite !lookup_drop, lookup_take_lt by lia. rewrite lookup_drop. f_equal.
Qed.

Lemma msg_length k o n : length (ew_packet k) = EAPD_WKSP_RECV_DATA_MAX_LEN -> (o + n <= 4080)%nat -> length (msg k o n) = n.
Proof. intros Hl Ho. unfold msg. apply take_len. rewrite Hl. unfold IFNAMSIZ, EAPD_WKSP_RECV_DATA_MAX_LEN. lia. Qed.

Lemma rewritten_addr k len : eapol_event k len -> take 6 (drop 80 (rewritten k)) = msg k off_addr ETHER_ADDR_LEN.
Proof.
  intros He. pose proof (ev_buffer _ _ He) as Hl. change 80%nat with (58 + 22)%nat. rewrite (rewritten_field k len 22 6 He) by lia. unfold rebuilt.
  rewrite drop_app_ge by (rewrite msg_length by (done || unfold off_ifname, BCM_MSG_IFNAME_MAX; lia); unfold BCM_MSG_IFNAME_MAX; lia).
  rewrite msg_length by (done || unfold off_ifname, BCM_MSG_IFNAME_MAX; lia). change (22 - BCM_MSG_IFNAME_MAX)%nat with 6%nat.
  rewrite drop_app_ge by (rewrite msg_length by (done || unfold ETHER_ADDR_LEN; lia); unfold ETHER_ADDR_LEN; lia).
  rewrite msg_length by (done || unfold ETHER_ADDR_LEN; lia). change (6 - ETHER_ADDR_LEN)%nat with 0%nat. rewrite drop_0.
  rewrite take_app_le by (rewrite msg_length by (done || unfold off_addr, ETHER_ADDR_LEN; lia); unfold ETHER_ADDR_LEN; lia).
  apply take_ge. rewrite msg_length by (done || unfold off_addr, ETHER_ADDR_LEN; lia). unfold ETHER_ADDR_LEN. lia.
Qed.

Lemma outcome_one k from i dhost frame d c : c ∈ outcome k from i dhost frame d ->
  (exists m fd, c = ESendApp m fd frame) \/
  (exists fd s, c = ESendDrv fd (canned_frame s EAP_REQUEST EAP_IDENTITY) /\ es_ea s = es_ea (esta_at k i)).
Proof.
  unfold outcome, up_msg. destruct d as [a| |].
  - destruct (0 <=? _); [|by intros ?%not_elem_of_nil]. intros ->%list_elem_of_singleton. left. by eexists _, _.
  - intros ->%list_elem_of_singleton. right. by eexists _, _.
  - by intros ?%not_elem_of_nil.
Qed.

Lemma outcome_short k from i dhost frame d : (length (outcome k from i dhost frame d) <= 1)%nat.
Proof. unfold outcome, up_msg. destruct d as [a| |]; cbn; [destruct (0 <=? _); cbn|..]; lia. Qed.

Lemma one_message_ok from pLen len w : cache_wf (ew w) -> eapol_event (ew w) len ->
  twp (eapd_brcm_recv_handler from IFNAMSIZ pLen) (fun _ w' => cache_wf (ew w') /\ exists l, sent w w' l /\ (length l <= 1)%nat /\
    forall c, c ∈ l -> (exists m fd, c = ESendApp m fd (rebuilt (ew w) len)) \/
      (exists fd s, c = ESendDrv fd (canned_frame s EAP_REQUEST EAP_IDENTITY) /\ es_ea s = msg (ew w) off_addr ETHER_ADDR_LEN)) w.
Proof.
  intros Hw He. destruct (brcm_recv_eapol_ok from pLen len w Hw He) as (H & Hr & Hf). eapply wp_mono; [exact H|].
  intros [] w' (r & w1 & Hl & Hs & Hd). assert (Hlog : ew_log (with_frame w) = ew_log w) by done.
  assert (Hs0 : sent w w1 []) by (destruct Hs as (c & Hc & ?); exists c; by rewrite <- Hlog).
  destruct r as [i|]; [|subst w'; split; [by destruct Hl|]; exists []; split_and!; [done|cbn; lia|by intros c ?%not_elem_of_nil]].
  destruct Hd as (valid & _ & Hd). destruct (route _ _ _) as [d m]. destruct Hd as (Hw' & _ & Hs1 & _). split; [done|].
  pose proof (sent_trans _ _ _ _ _ Hs0 Hs1) as Hs2. rewrite app_nil_r in Hs2. eexists. split; [exact Hs2|]. split; [apply outcome_short|].
  intros c [Hc|(fd & s & -> & Hea)]%outcome_one; [left; by rewrite Hr in Hc|]. right. exists fd, s. split; [done|]. rewrite Hea.
  rewrite (looked_up_ea _ _ _ _ _ _ _ _ Hl). by apply (rewritten_addr (ew w) len).
Qed.

(** C19: an EAPOL frame the driver reports leads to at most one message: the frame itself,
    with the address of the station and the name of its interface, to one application, or
    an identity request to that station. *)
Theorem eapol_event_one_message from pLen len w : cache_wf (ew w) -> eapol_event (ew w) len ->
  twp (eapd_brcm_recv_handler from IFNAMSIZ pLen) (fun _ w' => cache_wf (ew w') /\ exists l, sent w w' l /\ (length l <= 1)%nat /\
    forall c, c ∈ l -> (exists m fd, c = ESendApp m fd (rebuilt (ew w) len)) \/
      (exists fd s, c = ESendDrv fd (canned_frame s EAP_REQUEST EAP_IDENTITY) /\ es_ea s = msg (ew w) off_addr ETHER_ADDR_LEN)) w.
Proof. apply one_message_ok. Qed.

Lemma strcmp_eq_app a b c r : strcmp_eq a b = Some r -> strcmp_eq a (b ++ c) = Some r.
Proof.
  revert b. induction a as [|x a IH]; intros [|y b]; cbn [strcmp_eq Datatypes.app]; try done.
  destruct (x =? y); [|done]. destruct (x =? 0); [done|apply IH].
Qed.

(** The payload, and the name in front, of the frame built from an event. *)
Lemma rewritten_after k o : length (ew_packet k) = EAPD_WKSP_RECV_DATA_MAX_LEN -> (88 <= o)%nat -> drop o (rewritten k) = drop o (ew_packet k).
Proof.
  unfold rewritten, EAPD_WKSP_RECV_DATA_MAX_LEN. intros Hl Ho.
  assert (H : forall (p d : list Z) a n, length p = 4096%nat -> length d = n -> (a + n <= 88)%nat ->
    drop o (splice p a d) = drop o p /\ length (splice p a d) = 4096%nat).
  { intros p d a n Hp Hd Ha. split; [rewrite drop_splice_after; [done|lia|lia]|]. rewrite splice_length; lia. }
  destruct (H (ew_packet k) (take 14 (drop 16 (ew_packet k))) 74%nat 14%nat) as [D1 L1]; [done|apply take_len; lia|lia|].
  destruct (H _ [0x88; 0x8e] 86%nat 2%nat L1) as [D2 L2]; [done|lia|].
  destruct (H _ (take 6 (drop 64 (splice (splice (ew_packet k) 74 (take 14 (drop 16 (ew_packet k)))) 86 [0x88; 0x8e]))) 80%nat 6%nat L2) as [D3 L3]; [apply take_len; lia|lia|].
  destruct (H _ (take 16 (drop 70 (ew_packet k))) 58%nat 16%nat L3) as [D4 _]; [apply take_len; lia|lia|].
  cbv zeta. by rewrite D4, D3, D2, D1.
Qed.

Lemma rewritten_name k len : eapol_event k len -> take 16 (drop 58 (rewritten k)) = msg k off_ifname BCM_MSG_IFNAME_MAX.
Proof.
  intros He. pose proof (ev_buffer _ _ He) as Hl. change 58%nat with (58 + 0)%nat. rewrite (rewritten_field k len 0 16 He) by lia. rewrite drop_0. unfold rebuilt.
  rewrite take_app_le by (rewrite msg_length by (done || unfold off_ifname, BCM_MSG_IFNAME_MAX; lia); unfold BCM_MSG_IFNAME_MAX; lia).
  apply take_ge. rewrite msg_length by (done || unfold off_ifname, BCM_MSG_IFNAME_MAX; lia). unfold BCM_MSG_IFNAME_MAX. lia.
Qed.

Lemma rewritten_dhost k len : eapol_event k len -> take 6 (drop 74 (rewritten k)) = msg k 0 ETHER_ADDR_LEN.
Proof.
  intros He. pose proof (ev_buffer _ _ He) as Hl. change 74%nat with (58 + 16)%nat. rewrite (rewritten_field k len 16 6 He) by lia. unfold rebuilt.
  rewrite drop_app_ge by (rewrite msg_length by (done || unfold off_ifname, BCM_MSG_IFNAME_MAX; lia); unfold BCM_MSG_IFNAME_MAX; lia).
  rewrite msg_length by (done || unfold off_ifname, BCM_MSG_IFNAME_MAX; lia). change (16 - BCM_MSG_IFNAME_MAX)%nat with 0%nat. rewrite drop_0.
  rewrite take_app_le by (rewrite msg_length by (done || unfold ETHER_ADDR_LEN; lia); unfold ETHER_ADDR_LEN; lia).
  apply take_ge. rewrite msg_length by (done || unfold ETHER_ADDR_LEN; lia). unfold ETHER_ADDR_LEN. lia.
Qed.

(** C16: once a station's association has shown that nas authenticates it with a preshared
    key, an EAPOL-Start it sends on the same interface is not answered: nothing is sent,
    and the station stays known as such, so no identity request can disturb the key
    handshake. *)
Theorem psk_start_ignored from pLen len i w : cache_wf (ew w) -> eapol_event (ew w) len ->
  cache_slot (ew w) (msg (ew w) off_addr ETHER_ADDR_LEN) = Some i -> es_mode (esta_at (ew w) i) = EAPD_STA_MODE_NAS_PSK ->
  es_bssid (esta_at (ew w) i) = msg (ew w) 0 ETHER_ADDR_LEN ->
  strcmp_eq (es_ifname (esta_at (ew w) i)) (msg (ew w) off_ifname BCM_MSG_IFNAME_MAX) = Some true ->
  msg (ew w) (sizeof_bcm_event_t + 1) 1 = [EAPOL_START] ->
  twp (eapd_brcm_recv_handler from IFNAMSIZ pLen) (fun _ w' => cache_wf (ew w') /\ sent w w' [] /\
    es_mode (esta_at (ew w') i) = EAPD_STA_MODE_NAS_PSK) w.
Proof.
  intros Hw He Hi Hm Hb Hn Ht. pose proof (ev_buffer _ _ He) as Hl. destruct (brcm_recv_eapol_ok from pLen len w Hw He) as (H & _ & _).
  eapply wp_mono; [exact H|]. intros [] w' (r & w1 & Hlk & Hs & Hd). change (ew_packet (ew (with_frame w))) with (rewritten (ew w)) in Hlk.
  change (58 + IFNAMSIZ + off_shost)%nat with 80%nat in Hlk. change (58 + IFNAMSIZ)%nat with 74%nat in Hlk.
  rewrite (rewritten_addr _ _ He), (rewritten_dhost _ _ He) in Hlk. destruct Hlk as (Hw1 & _ & Hlk).
  change (cache_slot (ew (with_frame w))) with (cache_slot (ew w)) in Hlk. rewrite Hi in Hlk.
  destruct Hlk as (-> & _ & _ & moved & Hst & Hmv). change (esta_at (ew (with_frame w))) with (esta_at (ew w)) in Hst, Hmv.
  rewrite Hmv in Hst; [|by rewrite Hb|].
  2: { rewrite <- (take_drop 16 (drop 58 (rewritten (ew w)))). apply strcmp_eq_app. by rewrite (rewritten_name _ _ He). }
  assert (Hs0 : sent w w1 []) by (destruct Hs as (c & Hc & ?); by exists c).
  destruct Hd as (valid & _ & Hd). assert (Hk : fk_type (kind_at (ew (with_frame w)) (58 + IFNAMSIZ)) = EAPOL_START).
  { unfold kind_at, byte_at. cbn [fk_type]. change (ew_packet (ew (with_frame w))) with (rewritten (ew w)).
    rewrite rewritten_after by (done || unfold IFNAMSIZ, off_type; lia). unfold msg in Ht. change (58 + IFNAMSIZ + off_type)%nat with 89%nat.
    change (IFNAMSIZ + (sizeof_bcm_event_t + 1))%nat with 89%nat in Ht. by rewrite Ht. }
  assert (Hr : route valid (esta_at (ew w1) i) (kind_at (ew (with_frame w)) (58 + IFNAMSIZ)) = (DNone, EAPD_STA_MODE_NAS_PSK)).
  { unfold route. rewrite Hk. change (EAPOL_START =? EAP_PACKET) with false. rewrite Z.eqb_refl. unfold is_mode. rewrite Hst.
    change (es_mode ((esta_at (ew w) i) <| es_last_use := _ |>)) with (es_mode (esta_at (ew w) i)). rewrite Hm.
    rewrite bool_decide_eq_true_2 by done. by rewrite andb_false_r. }
  rewrite Hr in Hd. destruct Hd as (Hw' & _ & Hs1 & Hmode). split_and!; [done| |done]. exact (sent_trans _ _ _ _ _ Hs0 Hs1).
Qed.

(** C21: an event other than a frame goes once to every application that asked for its
    type and runs on the interface it came from, with the interface name in front, and to
    no other; of an association or its end the station's mode is updated first, and nas
    is not told of a station that brought elements of protected setup. *)
Theorem driver_event_fans_out type pLen from w : cache_wf (ew w) -> driver_event (ew w) type pLen -> type <> WLC_E_EAPOL_MSG ->
  be_value (msg (ew w) off_usr_subtype 2) = BCMILCP_BCM_SUBTYPE_EVENT -> let name := so_ifname (brcm_at (ew w) from) in
  twp (eapd_brcm_recv_handler from IFNAMSIZ pLen) (fun _ w' => cache_wf (ew w') /\ event_same (ew w) (ew w') /\
    exists up, (listens (ew_nas (ew w)) type name = true -> exists w1, sta_event_post type w w1 up /\ ew_sta (ew w') = ew_sta (ew w1) /\ ew_sta_hashed (ew w') = ew_sta_hashed (ew w1)) /\
      sent w w' (event_up (ew w) EAPD_APP_SES type name pLen ++ event_up (ew w) EAPD_APP_WPS type name pLen ++
        if up then event_up (ew w) EAPD_APP_NAS type name pLen else [])) w.
Proof. apply brcm_event_ok. Qed.

(** C23: a message from nas leaves unchanged on the one socket the type of its frame
    selects, a station to which it ends an EAP exchange is out of the cache afterwards,
    and every other station is where it was. *)
Theorem nas_message_relayed from pLen w : cache_wf (ew w) -> app_message (ew w) pLen ->
  twp (nas_app_recv_handler 16 from 32 pLen) (fun _ w' => relayed w w'
    (match out_socket (ew w) from with Some fd => [ESendDrv fd (am_bytes (ew w) 0 (Z.to_nat pLen))] | None => [] end)) w.
Proof. apply nas_recv_ok. Qed.

End Frames.

(** ** Witnesses *)

Definition demo_sta : list Z := [2; 0; 0; 0; 0; 1].
Definition demo_bss : list Z := [2; 0; 0; 0; 0; 2].
Definition demo_name : list Z := str "eth1" ++ replicate 12 0.

(** An event of the station behind the 16 free bytes of the buffer. *)
Definition demo_event (type : Z) (payload : list Z) : list Z :=
  let l := replicate 16 0 ++ demo_bss ++ demo_sta ++ [0x88; 0x6c] ++ replicate 8 0 ++ [0; 1] ++ replicate 4 0 ++ be16 0 ++ be16 type ++
    replicate 12 0 ++ be16 0 ++ be16 (Z.of_nat (length payload)) ++ demo_sta ++ demo_name ++ [0; 0] ++ payload in
  l ++ replicate (EAPD_WKSP_RECV_DATA_MAX_LEN - length l) 0.

Definition demo_at (p : list Z) : eworld := EWorld (eapd_wksp_alloc_workspace <| ew_packet := p |>) [].

Lemma alloc_wf : cache_wf eapd_wksp_alloc_workspace.
Proof.
  split; [apply alloc_ok|]. intros i. assert (esta_at eapd_wksp_alloc_workspace i = esta_zero) as -> by apply nth_same. split; [done|]. apply list_elem_of_here.
Qed.

Lemma demo_wf p : cache_wf (ew (demo_at p)).
Proof. by apply (cache_wf_ext eapd_wksp_alloc_workspace); [..|apply alloc_wf]. Qed.

Lemma demo_eapol payload : bool_decide (payload = [1; 1; 0; 0]) = true -> eapol_event (ew (demo_at (demo_event WLC_E_EAPOL_MSG payload))) 4.
Proof.
  intros ->%bool_decide_eq_true. split; [by vm_compute..| |].
  - unfold EAPD_WKSP_RECV_DATA_MAX_LEN. lia.
  - apply (bool_decide_eq_true (_ ∈ _)). by vm_compute.
Qed.

Lemma eapol_event_packet k k' len : ew_packet k' = ew_packet k -> eapol_event k len -> eapol_event k' len.
Proof. intros Hp [H1 H2 H3 H4 H5 H6]. unfold msg in *. split; unfold msg; by rewrite ?Hp. Qed.

Definition demo_start_frame : list Z := [1; 1; 0; 0].



Lemma eapol_event_one_message_witness : exists w' l, let w := demo_at (demo_event WLC_E_EAPOL_MSG demo_start_frame) in
  eapd_brcm_recv_handler (E := demo_env []) (NL := names_words) 0 IFNAMSIZ 76 w = Ret tt w' /\ sent w w' l /\ (length l <= 1)%nat.
Proof.
  destruct (twp_inv _ _ _ (eapol_event_one_message (E := demo_env []) (NL := names_words) 0 76 4 _ (demo_wf _) (demo_eapol demo_start_frame eq_refl)))
    as ([] & w' & H1 & _ & l & H2 & H3 & _).
  exists w', l. split; [exact H1|]. split; [exact H2|exact H3].
Defined.

(** The station after it was found to use a preshared key. *)
Definition demo_psk : eapd_wksp_t :=
  upd_esta (ew (world_of (sta_lookup (E := demo_env []) demo_sta (Some demo_bss) demo_name EAPD_SEARCH_ENTER (demo_at [])))) 0
    (fun s => s <| es_mode := EAPD_STA_MODE_NAS_PSK |>).
Definition demo_psk_at (p : list Z) : eworld := EWorld (demo_psk <| ew_packet := p |>) [].

Lemma demo_psk_wf p : cache_wf (ew (demo_psk_at p)).
Proof.
  apply (cache_wf_ext demo_psk); [done..|]. unfold demo_psk. apply cache_wf_upd; [done|done|].
  destruct (twp_inv _ _ _ (sta_lookup_ok (E := demo_env []) demo_sta (Some demo_bss) demo_name EAPD_SEARCH_ENTER (demo_at []) (demo_wf [])
    ltac:(apply (bool_decide_eq_true (_ ∈ _)); by vm_compute) ltac:(vm_compute; lia) ltac:(by eexists))) as (r & w' & H1 & [H2 _] & _).
  rewrite H1. exact H2.
Qed.

Lemma psk_start_ignored_witness : exists w', let w := demo_psk_at (demo_event WLC_E_EAPOL_MSG demo_start_frame) in
  eapd_brcm_recv_handler (E := demo_env []) (NL := names_words) 0 IFNAMSIZ 76 w = Ret tt w' /\ sent w w' [].
Proof.
  set (w := demo_psk_at (demo_event WLC_E_EAPOL_MSG demo_start_frame)).
  assert (He : eapol_event (ew w) 4) by exact (eapol_event_packet (ew (demo_at (demo_event WLC_E_EAPOL_MSG demo_start_frame))) (ew w) 4 eq_refl (demo_eapol demo_start_frame eq_refl)).
  destruct (twp_inv _ _ _ (psk_start_ignored (E := demo_env []) (NL := names_words) 0 76 4 0 w (demo_psk_wf _) He
    ltac:(vm_compute; reflexivity) ltac:(vm_compute; reflexivity) ltac:(vm_compute; reflexivity) ltac:(vm_compute; reflexivity) ltac:(vm_compute; reflexivity)))
    as ([] & w' & H1 & _ & H2 & _).
  exists w'. split; [exact H1|exact H2].
Defined.

(** The setting with the mask of nas in place and an interface. *)
Definition demo_listening (p : list Z) : eworld :=
  EWorld (eapd_wksp_alloc_workspace <| ew_packet := p |>
    <| ew_nas := nas_app_set_eventmask ((app_zero <| ap_appSocket := 5 |>) <| ap_cb := [cb_zero <| cb_ifname := str "br0" |>] |>) |>
    <| ew_brcmSocketCount := 1%nat |> <| ew_brcmSocket := [socket_zero <| so_ifname := str "br0" |> <| so_inuseCount := 1 |>] |>) [].

Lemma driver_event_fans_out_witness : exists w', let w := demo_listening (demo_event WLC_E_DEAUTH_IND []) in
  eapd_brcm_recv_handler (E := demo_env []) (NL := names_words) 0 IFNAMSIZ 72 w = Ret tt w' /\ event_same (ew w) (ew w').
Proof.
  set (w := demo_listening (demo_event WLC_E_DEAUTH_IND [])).
  assert (Hw : cache_wf (ew w)) by (apply (cache_wf_ext eapd_wksp_alloc_workspace); [reflexivity..|exact alloc_wf]).
  assert (He : driver_event (ew w) WLC_E_DEAUTH_IND 72).
  { split; [split| | | |].
    - vm_compute; reflexivity.
    - apply (bool_decide_unpack _). vm_compute. exact I.
    - apply (bool_decide_unpack _). vm_compute. exact I.
    - discriminate.
    - vm_compute; reflexivity.
    - vm_compute; split; congruence.
    - intros m. destruct m; vm_compute; reflexivity.
    - vm_compute; split; congruence. }
  destruct (twp_inv _ _ _ (driver_event_fans_out (E := demo_env []) (NL := names_words) WLC_E_DEAUTH_IND 72 0 w Hw He
    ltac:(discriminate) ltac:(vm_compute; reflexivity))) as ([] & w' & H1 & _ & H2 & _).
  exists w'. split; [exact H1|exact H2].
Defined.

Lemma nas_message_relayed_witness : exists w', let w := demo_at (demo_event 0 []) in let from := cb_zero <| cb_brcmSocket := Some 0%nat |> in
  nas_app_recv_handler (E := demo_env []) 16 from 32 20 w = Ret tt w' /\ cache_wf (ew w').
Proof.
  assert (Hm : app_message (ew (demo_at (demo_event 0 []))) 20).
  { split; [vm_compute; reflexivity| |vm_compute; split; congruence]. apply (bool_decide_unpack _). vm_compute. exact I. }
  destruct (twp_inv _ _ _ (nas_message_relayed (E := demo_env []) (cb_zero <| cb_brcmSocket := Some 0%nat |>) 20 _ (demo_wf _) Hm)) as ([] & w' & H1 & H2 & _).
  exists w'. split; [exact H1|exact H2].
Defined.
