(* ===== verification/NasEapd.v ===== *)
(** The dispatcher and the authentication server together: an EAPOL frame of a station,
    from the event of the driver through eapd to the server of its interface. *)
From stdpp Require Import base option list numbers strings relations.
From Stdlib Require Import ZArith Lia.
From S2P Require Import Prelude Monad NasState NasSta WpaIe WpaKey NasPae Chanspec EapdState EapdSta EapdDispatch EapdRoute EapdRecv EapdSystem.
From S2P Require Import NasDispatch NasWksp NasProcess NasMain.
Local Open Scope Z_scope.

(** The parts of the event: the address of the interface, its name, and the frame with the
    station as its source. *)
Definition event_bss (k : eapd_wksp_t) : list Z := msg k 0 6.
Definition event_ifname (k : eapd_wksp_t) : list Z := c_string (msg k 54 16).
Definition event_frame (k : eapd_wksp_t) (len : nat) : list Z :=
  msg k 0 6 ++ msg k 48 6 ++ [0x88; 0x8e] ++ msg k 72 len.

Section Path.
Context `{E : WEnv}.

(** nas after it received [d]. *)
Definition received (d : list Z) (v : wworld) : wworld :=
  WWorld ((ww v) <| nw_packet := overwrite (nw_packet (ww v)) d (length d) |>) (WCall (WRecv (nw_eapd (ww v))) :: ww_log v).

Lemma recv_packet_eq d v : (length d <= 4096)%nat -> we_data (WCall (WRecv (nw_eapd (ww v))) :: ww_log v) = Some d ->
  recv_packet (nw_eapd (ww v)) v = Ret (Z.of_nat (length d)) (received d v).
Proof.
  intros Hd Hr. unfold recv_packet, mbind, M_bind, wlog, modify, wreply, get. cbn [ww_log upd]. 
  change (ww_log (v <| ww_log ::= cons (WCall (WRecv (nw_eapd (ww v)))) |>)) with (WCall (WRecv (nw_eapd (ww v))) :: ww_log v).
  rewrite Hr. rewrite take_ge by (unfold RADIUS_MAX_LEN; lia). done.
Qed.

Lemma dispatch_eapd_eq ready d v : nw_eapd (ww v) <> NAS_WKSP_UNK_FILE_DESC -> nw_eapd (ww v) ∈ ready ->
  (0 < length d <= 4096)%nat -> we_data (WCall (WRecv (nw_eapd (ww v))) :: ww_log v) = Some d ->
  dispatch_eapd ready v = eapd_message (overwrite (nw_packet (ww v)) d (length d)) (Z.of_nat (length d)) (received d v).
Proof.
  intros He Hin Hd Hr. unfold dispatch_eapd, mbind, M_bind, wk, get. apply Z.eqb_neq in He. rewrite He, bool_decide_true by done. cbn [negb andb].
  rewrite (recv_packet_eq d) by (done || lia). by rewrite (proj2 (Z.ltb_lt 0 (Z.of_nat (length d)))) by lia.
Qed.

Lemma eapd_message_eq pkt bytes i v : get16 (drop 16 pkt) 12 = 0x888e ->
  find_nwcb (field (drop 16 pkt) 0 6) (Some (c_string pkt)) (nw_nwcb (ww v)) = Some i -> cf_auth (cb_flags (cb_at (ww v) i)) = true ->
  eapd_message pkt bytes v = (in_nas i (fun E => eapol_dispatch (E := E) (drop 16 pkt) (bytes - 16)) ;; mret true) v.
Proof.
  intros Ht Hf Ha. unfold eapd_message. change NasWksp.IFNAMSIZ with 16%nat. change (Z.of_nat 16) with 16. rewrite Ht. change (0x888e =? WpaKey.ETHER_TYPE_802_1X) with true. unfold nas_wksp_find_nwcb, nas_eapol_message_dispatch, mbind, M_bind, cb, wk, get.
  rewrite Hf. unfold mret, M_ret. rewrite Ha. done.
Qed.

(** The buffer of nas after the message. *)
Lemma event_message k len rest : (88 + len <= length (ew_packet k))%nat -> 0 ∈ msg k 54 16 -> let p := rebuilt k len ++ rest in
  drop 16 p = event_frame k len ++ rest /\ c_string p = event_ifname k /\ get16 (drop 16 p) 12 = 0x888e /\
  field (drop 16 p) 0 6 = event_bss k /\ length (rebuilt k len) = (30 + len)%nat.
Proof.
  intros Hl Hz p. assert (Hm : forall o n, (o + n <= 72 + len)%nat -> length (msg k o n) = n).
  { intros o n H. unfold msg, EapdState.IFNAMSIZ. rewrite length_take, length_drop. lia. }
  assert (Hd : drop 16 p = event_frame k len ++ rest).
  { subst p. unfold rebuilt, event_frame. change BCM_MSG_IFNAME_MAX with 16%nat. change off_ifname with 54%nat.
    rewrite <- (app_assoc (msg k 54 16)), drop_app_ge by (rewrite Hm by lia; lia). rewrite Hm by lia. done. }
  rewrite Hd. unfold event_frame. split_and!; [done|..].
  - subst p. unfold rebuilt, event_ifname. change BCM_MSG_IFNAME_MAX with 16%nat. change off_ifname with 54%nat.
    apply list_elem_of_split in Hz as (a & b & ->). rewrite <- !app_assoc. cbn [Datatypes.app]. by rewrite !c_string_app.
  - unfold get16. rewrite <- !app_assoc. pose proof (Hm 0%nat 6%nat ltac:(lia)) as H1. pose proof (Hm 48%nat 6%nat ltac:(lia)) as H2.
    rewrite !(app_nth2 (msg k 0 6)) by (rewrite H1; lia). rewrite H1, !(app_nth2 (msg k 48 6)) by (rewrite H2; lia). rewrite H2. done.
  - unfold field, event_bss. rewrite drop_0, <- !app_assoc. pose proof (Hm 0%nat 6%nat ltac:(lia)) as H1.
    rewrite take_app_le by lia. apply take_ge. lia.
  - unfold rebuilt, BCM_MSG_IFNAME_MAX, ETHER_ADDR_LEN, off_addr, off_ifname, EapdDispatch.sizeof_bcm_event_t. rewrite !length_app, !Hm by lia. cbn [length]. lia.
Qed.

Context `{EE : EEnv} {NL : NameList}.

(** C10: whatever eapd sends to nas upon the frame of a station is, handed to nas in its
    next round, one frame for the server of that address and interface name: that server
    handles the frame the driver reported, with the station as its source, and no other
    server changes. *)
Theorem station_frame_reaches_server from pLen len w : cache_wf (ew w) -> eapol_event (ew w) len ->
  twp (eapd_brcm_recv_handler from EapdState.IFNAMSIZ pLen) (fun _ w' => exists l, sent w w' l /\
    forall fd d, ESendApp EAPD_APP_NAS fd d ∈ l -> forall v i ready,
      nw_eapd (ww v) <> NAS_WKSP_UNK_FILE_DESC -> nw_eapd (ww v) ∈ ready ->
      we_data (WCall (WRecv (nw_eapd (ww v))) :: ww_log v) = Some d ->
      find_nwcb (event_bss (ew w)) (Some (event_ifname (ew w))) (nw_nwcb (ww v)) = Some i ->
      cf_auth (cb_flags (cb_at (ww v) i)) = true ->
      let old := drop (30 + len) (nw_packet (ww v)) in
      dispatch_eapd ready v = (in_nas i (fun E => eapol_dispatch (E := E) (event_frame (ew w) len ++ old) (Z.of_nat (14 + len))) ;; mret true) (received d v) /\
      forall v', dispatch_eapd ready v = Ret true v' -> forall j, j <> i -> cb_at (ww v') j = cb_at (ww v) j) w.
Proof.
  intros Hw He. pose proof He as [Hb _ _ _ Hfit Hname]. eapply wp_mono; [by apply (one_message_ok from pLen len)|].
  intros [] w' (_ & l & Hs & _ & Hl). exists l. split; [done|]. intros fd d Hin v i ready Hfd Hr Hd Hfind Ha old.
  destruct (Hl _ Hin) as [(m & fd' & Heq)|(fd' & s & Heq & _)]; [|done]. injection Heq as _ _ ->.
  destruct (event_message (ew w) len old) as (E1 & E2 & E3 & E4 & E5); [unfold EAPD_WKSP_RECV_DATA_MAX_LEN in *; lia|done|].
  assert (Heq : dispatch_eapd ready v = (in_nas i (fun E => eapol_dispatch (E := E) (event_frame (ew w) len ++ old) (Z.of_nat (14 + len))) ;; mret true)
    (received (rebuilt (ew w) len) v)).
  { rewrite (dispatch_eapd_eq ready (rebuilt (ew w) len)); [|done|done|unfold EAPD_WKSP_RECV_DATA_MAX_LEN in *; lia|done].
    assert (Hov : overwrite (nw_packet (ww v)) (rebuilt (ew w) len) (length (rebuilt (ew w) len)) = rebuilt (ew w) len ++ old).
    { unfold overwrite. by rewrite firstn_all, E5. }
    rewrite Hov, (eapd_message_eq _ _ i); [|done| |done].
    - rewrite E1, E5. replace (Z.of_nat (30 + len) - 16) with (Z.of_nat (14 + len)) by lia. done.
    - rewrite E4, E2. exact Hfind. }
  split; [exact Heq|]. intros v' Hv' j Hj. rewrite Heq in Hv'. revert Hv'. unfold mbind, M_bind, in_nas.
  destruct (eapol_dispatch _ _ _) as [[] w1| |]; [|done..]. intros [= <-]. cbn [ww]. unfold cb_at.
  match goal with |- nth _ (nw_nwcb (upd_cb _ i ?f)) _ = _ =>
    change (nth j (alter f i (nw_nwcb (ww v))) cb_none = nth j (nw_nwcb (ww v)) cb_none) end.
  rewrite !nth_lookup, list_lookup_alter_ne; done.
Qed.

End Path.

(** ** A concrete run *)

(** The driver reports an EAPOL-Key frame; one server stands for the interface. *)
Definition key_event : eworld := demo_listening (demo_event EapdDispatch.WLC_E_EAPOL_MSG [1; 3; 0; 0]).
Definition server_of_bss : wworld :=
  WWorld (nas_wksp_alloc_workspace <| nw_eapd := 5 |>
    <| nw_nwcb := [new_cb (demo_info [] demo_bss (str "eth1")) WPA2_PSK AES_ENABLED (Sockaddr 0 [] 0)] |>) [].
Definition delivers (d : list Z) : WEnv := {|
  we_int := fun _ => 0; we_data := fun _ => Some d; we_ready := fun _ => [5]; we_timers := fun _ => []; we_wsec := fun _ => None;
  we_addrs := fun _ => []; we_ivar := fun _ => 0; we_nas := fun _ _ => env_yes |}.

Definition to_nas (w : eworld) : list (list Z) := omap (fun c => match c with ESendApp EAPD_APP_NAS _ d => Some d | _ => None end) (ew_log w).

Lemma to_nas_sent w w' l d : sent w w' l -> ew_log w = [] -> d ∈ to_nas w' -> exists fd, ESendApp EAPD_APP_NAS fd d ∈ l.
Proof.
  intros (calls & Hc & <-) H0 (c & Hin & Hd)%list_elem_of_omap. rewrite Hc, H0, app_nil_r in Hin.
  assert (Hs : is_send c = true /\ exists fd, c = ESendApp EAPD_APP_NAS fd d).
  { destruct c; try done. destruct app; try done. injection Hd as ->. split; [done|]. by eexists. }
  destruct Hs as [Hs (fd & ->)]. exists fd. apply list_elem_of_In, filter_In. split; [by apply list_elem_of_In|done].
Qed.

Lemma key_event_ok : eapol_event (ew key_event) 4.
Proof.
  split; [by vm_compute..| |].
  - unfold EAPD_WKSP_RECV_DATA_MAX_LEN. lia.
  - apply (bool_decide_eq_true (_ ∈ _)). by vm_compute.
Qed.

Lemma key_event_wf : cache_wf (ew key_event).
Proof. by apply (cache_wf_ext eapd_wksp_alloc_workspace); [..|apply alloc_wf]. Qed.

Lemma station_frame_reaches_server_witness : exists w' d,
  eapd_brcm_recv_handler (E := demo_env []) (NL := names_words) 0 EapdState.IFNAMSIZ 76 key_event = Ret tt w' /\ to_nas w' = [d] /\
  dispatch_eapd (E := delivers d) [5] server_of_bss =
    (in_nas (E := delivers d) 0 (fun E => eapol_dispatch (E := E) (event_frame (ew key_event) 4 ++ replicate 4062 0) 18) ;; mret true) (received d server_of_bss).
Proof.
  destruct (twp_inv _ _ _ (station_frame_reaches_server (E := delivers (rebuilt (ew key_event) 4)) (EE := demo_env []) (NL := names_words) 0 76 4 key_event
    key_event_wf key_event_ok)) as ([] & w' & H1 & l & Hs & H).
  assert (Hn : to_nas w' = [rebuilt (ew key_event) 4]).
  { assert (Hc : match eapd_brcm_recv_handler (E := demo_env []) (NL := names_words) 0 EapdState.IFNAMSIZ 76 key_event with
      Ret _ w => bool_decide (to_nas w = [rebuilt (ew key_event) 4]) | _ => false end = true) by (vm_compute; reflexivity).
    rewrite H1 in Hc. exact (bool_decide_eq_true_1 _ Hc). }
  exists w', (rebuilt (ew key_event) 4). split; [exact H1|]. split; [exact Hn|].
  destruct (to_nas_sent key_event w' l (rebuilt (ew key_event) 4) Hs eq_refl) as (fd & Hin); [rewrite Hn; apply list_elem_of_here|].
  assert (Hf : find_nwcb (event_bss (ew key_event)) (Some (event_ifname (ew key_event))) (nw_nwcb (ww server_of_bss)) = Some 0%nat) by (vm_compute; reflexivity).
  assert (Ho : drop (30 + 4) (nw_packet (ww server_of_bss)) = replicate 4062 0) by (vm_compute; reflexivity).
  rewrite <- Ho. eapply (H fd _ Hin server_of_bss 0%nat [5]); [discriminate|apply list_elem_of_here|reflexivity|exact Hf|reflexivity].
Defined.
